(** * LNLib NURBS curve engine: a shallow embedding of [NurbsCurve.cpp]

    The C++ sources work on [double], [int] and [std::vector].  In this
    development a [double] is a real number (rounding is not modelled, the
    tolerances of the library are kept), an [int] is an integer of [Z]
    (the index arithmetic of the library stays far from the 32-bit range),
    and a [std::vector] is a list.  Element access with [operator[]] outside
    the bounds of a vector is undefined behaviour in C++; here it is an
    explicit outcome, [OutOfRange], which records the buffer, the index and
    the size of the buffer. *)

From Stdlib Require Import Reals Lra Lia ZArith String.
From stdpp Require Import base list.

Local Open Scope Z_scope.

(** ** Outcomes of a call *)

Inductive Outcome (A : Type) : Type :=
| Ok (a : A)                                          (* normal return *)
| Throw (argument : string)                           (* VALIDATE_ARGUMENT failed *)
| OutOfRange (buffer : string) (index : Z) (size : nat) (* undefined behaviour *)
| OutOfFuel.                                          (* the loop is still running *)

Arguments Ok {A} a.
Arguments Throw {A} argument.
Arguments OutOfRange {A} buffer index size.
Arguments OutOfFuel {A}.

Definition bind {A B} (m : Outcome A) (f : A -> Outcome B) : Outcome B :=
  match m with
  | Ok a => f a
  | Throw s => Throw s
  | OutOfRange b i n => OutOfRange b i n
  | OutOfFuel => OutOfFuel
  end.

Declare Scope outcome_scope.
Delimit Scope outcome_scope with outcome.
Notation "'let*' x ':=' m 'in' k" := (bind m (fun x => k))
  (at level 10, x pattern, m at level 100, k at level 200) : outcome_scope.
Notation "m ';;;' k" := (bind m (fun _ => k))
  (at level 100, k at level 200, right associativity) : outcome_scope.
Local Open Scope outcome_scope.

Definition is_Ok {A} (m : Outcome A) : bool :=
  match m with Ok _ => true | _ => false end.

Definition is_OutOfRange {A} (m : Outcome A) : bool :=
  match m with OutOfRange _ _ _ => true | _ => false end.

Definition is_Throw {A} (m : Outcome A) : bool :=
  match m with Throw _ => true | _ => false end.

(** ** std::vector *)

Section Vector.
Context {A : Type}.

  (** [v[i]] as an rvalue. *)
Definition at_ (name : string) (v : list A) (i : Z) : Outcome A :=
    if 0 <=? i then
      match v !! Z.to_nat i with
      | Some x => Ok x
      | None => OutOfRange name i (length v)
      end
    else OutOfRange name i (length v).

  (** [v[i] = x]. *)
Definition put (name : string) (v : list A) (i : Z) (x : A) : Outcome (list A) :=
    if (0 <=? i) && (i <? Z.of_nat (length v))
    then Ok (<[Z.to_nat i := x]> v)
    else OutOfRange name i (length v).

  (** [v.resize(n)] with a signed [n]: a negative [n] converts to a huge
      [size_t] and the allocation throws. *)
Definition vresize (name : string) (d : A) (n : Z) (v : list A) : Outcome (list A) :=
    if 0 <=? n then Ok (resize (Z.to_nat n) d v) else Throw name.

  (** [v.pop_back()]; on an empty vector it is undefined behaviour. *)
Definition pop_back (name : string) (v : list A) : Outcome (list A) :=
    match v with
    | [] => OutOfRange name (-1) 0
    | _ => Ok (removelast v)
    end.

  (** [i < v.size()] where [i] is an [int]: the comparison is unsigned, a
      negative [i] is converted to a huge value. *)
Definition int_lt_size (i : Z) (v : list A) : bool :=
    (0 <=? i) && (i <? Z.of_nat (length v)).

Definition size (v : list A) : Z := Z.of_nat (length v).
End Vector.

(** ** Runs on a state

    A function with reference parameters or local buffers is a run on a
    state made of these variables.  The state after the run is kept also when
    the run ends in a failure: it is the state at the failing statement. *)

Definition Run (S A : Type) : Type := S -> S * Outcome A.

Definition ret {S A} (a : A) : Run S A := fun s => (s, Ok a).

Definition rbind {S A B} (c : Run S A) (k : A -> Run S B) : Run S B :=
  fun s => match c s with
           | (s', Ok a) => k a s'
           | (s', Throw x) => (s', Throw x)
           | (s', OutOfRange b i n) => (s', OutOfRange b i n)
           | (s', OutOfFuel) => (s', OutOfFuel)
           end.

(** A step that reads the state and may fail. *)
Definition read {S A} (f : S -> Outcome A) : Run S A := fun s => (s, f s).

(** A step that updates the state unless it fails. *)
Definition modify {S} (f : S -> Outcome S) : Run S unit :=
  fun s => match f s with
           | Ok s' => (s', Ok tt)
           | Throw x => (s, Throw x)
           | OutOfRange b i n => (s, OutOfRange b i n)
           | OutOfFuel => (s, OutOfFuel)
           end.

Notation "'do' x '<-' c ';' k" := (rbind c (fun x => k))
  (at level 10, x pattern, c at level 100, k at level 200).
Notation "c ';;' k" := (rbind c (fun _ => k))
  (at level 100, k at level 200, right associativity).

(** [for (int i = lo; i <= hi; i++) body]. *)
Fixpoint for_up {S} (n : nat) (i : Z) (body : Z -> Run S unit) : Run S unit :=
  match n with
  | O => ret tt
  | S n' => body i ;; for_up n' (i + 1) body
  end.

Definition for_range {S} (lo hi : Z) (body : Z -> Run S unit) : Run S unit :=
  for_up (Z.to_nat (hi + 1 - lo)) lo body.

(** [for (int i = hi; i >= lo; i--) body]. *)
Fixpoint for_down_n {S} (n : nat) (i : Z) (body : Z -> Run S unit) : Run S unit :=
  match n with
  | O => ret tt
  | S n' => body i ;; for_down_n n' (i - 1) body
  end.

Definition for_down {S} (hi lo : Z) (body : Z -> Run S unit) : Run S unit :=
  for_down_n (Z.to_nat (hi + 1 - lo)) hi body.

(** [while (cond) body], run for at most [fuel] tests of the condition. *)
Fixpoint while {S} (fuel : nat) (cond : S -> Outcome bool) (body : Run S unit) : Run S unit :=
  match fuel with
  | O => fun s => (s, OutOfFuel)
  | S fuel' =>
      do c <- read cond;
      if c then body ;; while fuel' cond body else ret tt
  end.

(** ** Scalars, tolerances and the vector classes *)

Local Open Scope R_scope.

Definition Rleb (x y : R) : bool := if Rle_dec x y then true else false.
Definition Rltb (x y : R) : bool := if Rlt_dec x y then true else false.
Definition Reqb (x y : R) : bool := if Req_dec_T x y then true else false.

(** Modelled from the spec: the tolerances of [Constants] (only declared in
    the sources): the coordinate tolerance is 1e-10 and the distance
    tolerance is 1e-6. *)
Definition DoubleEpsilon : R := / 10000000000.
Definition DistanceEpsilon : R := / 1000000.

(** Modelled from the spec: the tolerant comparisons of [MathUtils], of which
    the sources hold the declarations only; the tolerance defaults to
    [DoubleEpsilon]. *)
Definition IsAlmostEqualTo (value1 value2 : R) : bool :=
  Rltb (Rabs (value1 - value2)) DoubleEpsilon.
Definition IsLessThanOrEqual (value1 value2 : R) : bool :=
  Rltb value1 value2 || IsAlmostEqualTo value1 value2.

(** [XYZ]: a point or vector of the space. *)
Record XYZ : Type := mkXYZ { X : R; Y : R; Z_ : R }.

(** [XYZW]: a weighted control point, stored in homogeneous form
    [(w x, w y, w z, w)]. *)
Record XYZW : Type := mkXYZW { WX : R; WY : R; WZ : R; W : R }.

Module XYZ_ops.
Definition zero : XYZ := mkXYZ 0 0 0.
Definition add (a b : XYZ) := mkXYZ (X a + X b) (Y a + Y b) (Z_ a + Z_ b).
Definition sub (a b : XYZ) := mkXYZ (X a - X b) (Y a - Y b) (Z_ a - Z_ b).
Definition scale (d : R) (a : XYZ) := mkXYZ (d * X a) (d * Y a) (d * Z_ a).
Definition divide (a : XYZ) (d : R) := mkXYZ (X a / d) (Y a / d) (Z_ a / d).
Definition neg (a : XYZ) := mkXYZ (- X a) (- Y a) (- Z_ a).
Definition DotProduct (a b : XYZ) : R := X a * X b + Y a * Y b + Z_ a * Z_ b.
Definition SqrLength (a : XYZ) : R := DotProduct a a.
Definition Length (a : XYZ) : R := sqrt (SqrLength a).
  (** Modelled from the spec: normalization of a vector (the definition is
      not in the sources). *)
Definition Normalize (a : XYZ) : XYZ := divide a (Length a).
End XYZ_ops.

Module XYZW_ops.
  (** The default constructor, as the one of the vector class of the
      sources ([UVW]) zero-initialises. *)
Definition zero : XYZW := mkXYZW 0 0 0 0.
  (** [XYZW(XYZ, w)]: glossary, "a weighted 3D point (X, w) as (X w, w)". *)
Definition of_XYZ (p : XYZ) (w : R) : XYZW := mkXYZW (X p * w) (Y p * w) (Z_ p * w) w.
Definition add (a b : XYZW) := mkXYZW (WX a + WX b) (WY a + WY b) (WZ a + WZ b) (W a + W b).
Definition sub (a b : XYZW) := mkXYZW (WX a - WX b) (WY a - WY b) (WZ a - WZ b) (W a - W b).
Definition scale (d : R) (a : XYZW) := mkXYZW (d * WX a) (d * WY a) (d * WZ a) (d * W a).
Definition divide (a : XYZW) (d : R) := mkXYZW (WX a / d) (WY a / d) (WZ a / d) (W a / d).
  (** [ToXYZ(divideWeight)]. *)
Definition ToXYZ (a : XYZW) (divideWeight : bool) : XYZ :=
    if divideWeight then mkXYZ (WX a / W a) (WY a / W a) (WZ a / W a)
    else mkXYZ (WX a) (WY a) (WZ a).
Definition GetW (a : XYZW) : R := W a.
Definition Distance (a b : XYZW) : R :=
    sqrt ((WX b - WX a) ^ 2 + (WY b - WY a) ^ 2 + (WZ b - WZ a) ^ 2 + (W b - W a) ^ 2).
End XYZW_ops.


(** ** Collaborators of the curve engine

    [NurbsCurve.cpp] calls into [Polynomials], [BsplineCurve],
    [ValidationUtils] and the validation macros, none of which is among the
    sources at hand.  They are modelled from the specification. *)

(** Modelled from the spec: the validation macros ([LNLibExceptions.h] is
    missing), "precondition failures terminate the operation immediately". *)
Definition VALIDATE_ARGUMENT {S} (condition : bool) (argName : string) : Run S unit :=
  fun s => (s, if condition then Ok tt else Throw argName).

(** Modelled from the spec: the range check, "t out of [U[0], U[m]]". *)
Definition VALIDATE_ARGUMENT_RANGE {S} (argName : string) (value min max : Outcome R)
  : Run S unit :=
  fun s => (s, let* lo := min in let* hi := max in let* v := value in
               if Rleb lo v && Rleb v hi then Ok tt else Throw argName).

Module ValidationUtils.
(** Modelled from the spec: "IsValidKnotVector(U): nondecreasing". *)
Fixpoint IsValidKnotVector (knotVector : list R) : bool :=
  match knotVector with
  | a :: rest =>
      match rest with
      | b :: _ => Rleb a b && IsValidKnotVector rest
      | [] => true
      end
  | [] => true
  end.

(** Modelled from the spec: "IsValidNurbs(p, |U|, |P|): |U| = |P| + p + 1". *)
Definition IsValidNurbs (degree knotVectorCount controlPointsCount : Z) : bool :=
  (knotVectorCount =? controlPointsCount + degree + 1)%Z.

(** Modelled from the spec: "ReduceDegree.  Only defined for p >= 2"; the
    message of the check is "Degree must greater than one". *)
Definition IsValidDegreeReduction (degree : Z) : bool := (1 <? degree)%Z.
End ValidationUtils.

(** The knot of index [i], for the collaborators that are modelled as total
    functions. *)
Definition knot (U : list R) (i : Z) : R := nth (Z.to_nat i) U 0.

Module Polynomials.
(** Modelled from the spec: "FindSpan(p, U, t).  Returns the knot-span index
    k in [p, n] where n = |U| - p - 2.  For t equal to U[n+1], returns n";
    "the unique index k with U[k] <= t < U[k+1]".  The search goes down from
    [n] to the first knot that is not above [t] (on a nondecreasing knot
    vector a binary search finds the same index). *)
Fixpoint span_scan (steps : nat) (k : Z) (U : list R) (t : R) (low : Z) : Z :=
  match steps with
  | O => low
  | S steps' => if Rleb (knot U k) t then k else span_scan steps' (k - 1) U t low
  end.

Definition GetKnotSpanIndex (degree : Z) (knotVector : list R) (paramT : R) : Z :=
  let n := (size knotVector - degree - 2)%Z in
  span_scan (Z.to_nat (n - degree)) n knotVector paramT degree.

(** Modelled from the spec: "Multiplicity(U, t).  Counts exact matches of t
    in U (use strict equality modulo a supplied tolerance, default
    1e-10)". *)
Fixpoint GetKnotMultiplicity (knotVector : list R) (paramT : R) : Z :=
  match knotVector with
  | [] => 0%Z
  | u :: rest =>
      ((if IsAlmostEqualTo paramT u then 1 else 0) + GetKnotMultiplicity rest paramT)%Z
  end.

(** Modelled from the spec: "BasisFunctions(k, p, U, t).  Produces the vector
    (N_{k-p,p}(t), ..., N_{k,p}(t)) of length p+1 by the Cox-de Boor
    triangular recurrence".  [basis_row] makes the row of degree [q] from the
    row of degree [q - 1]:
    N_{i,q} = (t - u_i)/(u_{i+q} - u_i) N_{i,q-1}
            + (u_{i+q+1} - t)/(u_{i+q+1} - u_{i+1}) N_{i+1,q-1}. *)
Definition basis_row (k : Z) (U : list R) (t : R) (q : nat) (prev : list R) : list R :=
  map (fun j : nat =>
         let i := (k - Z.of_nat q + Z.of_nat j)%Z in
         let q' := Z.of_nat q in
         (t - knot U i) / (knot U (i + q') - knot U i)
           * match j with O => 0 | S j' => nth j' prev 0 end
         + (knot U (i + q' + 1) - t) / (knot U (i + q' + 1) - knot U (i + 1))
           * nth j prev 0)
      (seq 0 (S q)).

Fixpoint basis_rows (k : Z) (U : list R) (t : R) (q : nat) : list R :=
  match q with
  | O => [1]
  | S q' => basis_row k U t q (basis_rows k U t q')
  end.

Definition BasisFunctions (spanIndex degree : Z) (knotVector : list R) (paramT : R) : list R :=
  basis_rows spanIndex knotVector paramT (Z.to_nat degree).
End Polynomials.

Module BsplineCurve.
(** Modelled from the spec: "EvaluatePoint(p, U, t, P) -> Vec4w.  Computes
    the sum of N_{i,p}(t) P[i] using BasisFunctions over the span containing
    t". *)
Fixpoint blend (N : list R) (points : list XYZW) : XYZW :=
  match N, points with
  | c :: N', x :: points' => XYZW_ops.add (XYZW_ops.scale c x) (blend N' points')
  | _, _ => XYZW_ops.zero
  end.

Definition GetPointOnCurve (degree : Z) (knotVector : list R) (paramT : R)
    (controlPoints : list XYZW) : XYZW :=
  let spanIndex := Polynomials.GetKnotSpanIndex degree knotVector paramT in
  let N := Polynomials.BasisFunctions spanIndex degree knotVector paramT in
  blend N (drop (Z.to_nat (spanIndex - degree)) controlPoints).
End BsplineCurve.

(** ** The curve engine: [NurbsCurve.cpp] *)

(** Local variables: a run on the state [T] of the callee stands, for the
    caller, for a run on the part [S] of it that the caller owns. *)
Definition with_locals {S T A} (enter : S -> T) (leave : T -> S) (c : Run T A) : Run S A :=
  fun s => let (t, o) := c (enter s) in (leave t, o).

(** [for (int i = lo; i < v.size(); i++)]: the test compares an [int] with a
    [size_t], so a negative [i] is above every size. *)
Definition for_below_size {S A} (lo : Z) (v : list A) (body : Z -> Run S unit) : Run S unit :=
  if (lo <? 0)%Z then ret tt else for_range lo (size v - 1) body.

(** A read of a vector that the function only reads. *)
Definition get {S A} (name : string) (v : list A) (i : Z) : Run S A :=
  read (fun _ => at_ name v i).

Module NurbsCurve.

(** [XYZ GetPointOnCurve(degree, knotVector, paramT, controlPoints)]. *)
Definition GetPointOnCurve (degree : Z) (knotVector : list R) (paramT : R)
    (controlPoints : list XYZW) : Outcome XYZ :=
  snd ((VALIDATE_ARGUMENT (0 <? degree)%Z "degree" ;;
        VALIDATE_ARGUMENT (0 <? size knotVector)%Z "knotVector" ;;
        VALIDATE_ARGUMENT (ValidationUtils.IsValidKnotVector knotVector) "knotVector" ;;
        VALIDATE_ARGUMENT_RANGE "paramT" (Ok paramT) (at_ "knotVector" knotVector 0)
          (at_ "knotVector" knotVector (size knotVector - 1)) ;;
        VALIDATE_ARGUMENT (0 <? size controlPoints)%Z "controlPoints" ;;
        VALIDATE_ARGUMENT
          (ValidationUtils.IsValidNurbs degree (size knotVector) (size controlPoints))
          "controlPoints" ;;
        let weightPoint := BsplineCurve.GetPointOnCurve degree knotVector paramT controlPoints in
        ret (XYZW_ops.ToXYZ weightPoint true)) tt).

(** *** [InsertKnot] *)

Record InsertKnotState : Type := mkInsertKnotState {
  insertedKnotVector : list R;       (* reference parameter *)
  updatedControlPoints : list XYZW;  (* reference parameter *)
  ik_temp : list XYZW;               (* local *)
  ik_L : Z                           (* local *)
}.

Definition ik_set_knots (f : list R -> Outcome (list R)) : Run InsertKnotState unit :=
  modify (fun s => let* v := f (insertedKnotVector s) in
                   Ok (mkInsertKnotState v (updatedControlPoints s) (ik_temp s) (ik_L s))).
Definition ik_set_points (f : list XYZW -> Outcome (list XYZW)) : Run InsertKnotState unit :=
  modify (fun s => let* v := f (updatedControlPoints s) in
                   Ok (mkInsertKnotState (insertedKnotVector s) v (ik_temp s) (ik_L s))).
Definition ik_set_temp (f : list XYZW -> Outcome (list XYZW)) : Run InsertKnotState unit :=
  modify (fun s => let* v := f (ik_temp s) in
                   Ok (mkInsertKnotState (insertedKnotVector s) (updatedControlPoints s) v (ik_L s))).
Definition ik_set_L (l : Z) : Run InsertKnotState unit :=
  modify (fun s => Ok (mkInsertKnotState (insertedKnotVector s) (updatedControlPoints s)
                         (ik_temp s) l)).
Definition ik_temp_at (i : Z) : Run InsertKnotState XYZW :=
  read (fun s => at_ "temp" (ik_temp s) i).
Definition ik_get_L : Run InsertKnotState Z := read (fun s => Ok (ik_L s)).

(** The count that is inserted: [if (originMultiplicity + times > degree)
    times = degree - originMultiplicity]. *)
Definition clamp_times (degree originMultiplicity times : Z) : Z :=
  if (originMultiplicity + times >? degree)%Z then (degree - originMultiplicity)%Z else times.

Definition InsertKnot_validate {S} (degree : Z) (knotVector : list R)
    (controlPoints : list XYZW) (times : Z) : Run S unit :=
  VALIDATE_ARGUMENT (0 <? degree)%Z "degree" ;;
  VALIDATE_ARGUMENT (0 <? size knotVector)%Z "knotVector" ;;
  VALIDATE_ARGUMENT (ValidationUtils.IsValidKnotVector knotVector) "knotVector" ;;
  VALIDATE_ARGUMENT (0 <? size controlPoints)%Z "controlPoints" ;;
  VALIDATE_ARGUMENT
    (ValidationUtils.IsValidNurbs degree (size knotVector) (size controlPoints))
    "controlPoints" ;;
  VALIDATE_ARGUMENT (0 <? times)%Z "times".

Definition InsertKnot_body (degree : Z) (knotVector : list R) (controlPoints : list XYZW)
    (insertKnot : R) (times0 : Z) : Run InsertKnotState unit :=
  let knotSpanIndex := Polynomials.GetKnotSpanIndex degree knotVector insertKnot in
  let originMultiplicity := Polynomials.GetKnotMultiplicity knotVector insertKnot in
  let times := clamp_times degree originMultiplicity times0 in
  ik_set_knots (vresize "insertedKnotVector" 0 (size knotVector + times)) ;;
  for_range 0 knotSpanIndex (fun i =>
    do x <- get "knotVector" knotVector i;
    ik_set_knots (fun v => put "insertedKnotVector" v i x)) ;;
  for_range 1 times (fun i =>
    ik_set_knots (fun v => put "insertedKnotVector" v (knotSpanIndex + i) insertKnot)) ;;
  for_below_size (knotSpanIndex + 1) knotVector (fun i =>
    do x <- get "knotVector" knotVector i;
    ik_set_knots (fun v => put "insertedKnotVector" v (i + times) x)) ;;
  ik_set_points (vresize "updatedControlPoints" XYZW_ops.zero (size controlPoints + times)) ;;
  for_range 0 (knotSpanIndex - degree) (fun i =>
    do x <- get "controlPoints" controlPoints i;
    ik_set_points (fun v => put "updatedControlPoints" v i x)) ;;
  for_below_size (knotSpanIndex - originMultiplicity) controlPoints (fun i =>
    do x <- get "controlPoints" controlPoints i;
    ik_set_points (fun v => put "updatedControlPoints" v (i + times) x)) ;;
  ik_set_temp (fun _ => vresize "temp" XYZW_ops.zero (degree - originMultiplicity + 1) []) ;;
  for_range 0 (degree - originMultiplicity) (fun i =>
    do x <- get "controlPoints" controlPoints (knotSpanIndex - degree + i);
    ik_set_temp (fun v => put "temp" v i x)) ;;
  ik_set_L 0 ;;
  for_range 1 times (fun j =>
    ik_set_L (knotSpanIndex - degree + j) ;;
    do L <- ik_get_L;
    for_range 0 (degree - j - originMultiplicity) (fun i =>
      do uLi <- get "knotVector" knotVector (L + i);
      do uk1 <- get "knotVector" knotVector (i + knotSpanIndex + 1);
      let alpha := (insertKnot - uLi) / (uk1 - uLi) in
      do t1 <- ik_temp_at (i + 1);
      do t0 <- ik_temp_at i;
      ik_set_temp (fun v => put "temp" v i
        (XYZW_ops.add (XYZW_ops.scale alpha t1) (XYZW_ops.scale (1 - alpha) t0)))) ;;
    do t0 <- ik_temp_at 0;
    ik_set_points (fun v => put "updatedControlPoints" v L t0) ;;
    do te <- ik_temp_at (degree - j - originMultiplicity);
    ik_set_points (fun v => put "updatedControlPoints" v
                              (knotSpanIndex + times - j - originMultiplicity) te)) ;;
  do L <- ik_get_L;
  for_range (L + 1) (knotSpanIndex - originMultiplicity - 1) (fun i =>
    do x <- ik_temp_at (i - L);
    ik_set_points (fun v => put "updatedControlPoints" v i x)).

(** [void InsertKnot(degree, knotVector, controlPoints, insertKnot, times,
    insertedKnotVector&, updatedControlPoints&)], a run on the two buffers of
    the caller. *)
Definition InsertKnot (degree : Z) (knotVector : list R) (controlPoints : list XYZW)
    (insertKnot : R) (times : Z) : Run (list R * list XYZW) unit :=
  InsertKnot_validate degree knotVector controlPoints times ;;
  with_locals
    (fun out => mkInsertKnotState (fst out) (snd out) [] 0)
    (fun s => (insertedKnotVector s, updatedControlPoints s))
    (InsertKnot_body degree knotVector controlPoints insertKnot times).



(** *** [RefineKnotVector] *)

Record RefineState : Type := mkRefineState {
  rf_knots : list R;          (* insertedKnotVector, reference parameter *)
  rf_points : list XYZW;      (* updatedControlPoints, reference parameter *)
  rf_i : Z;
  rf_k : Z
}.

Definition rf_set_knots (f : list R -> Outcome (list R)) : Run RefineState unit :=
  modify (fun s => let* v := f (rf_knots s) in
                   Ok (mkRefineState v (rf_points s) (rf_i s) (rf_k s))).
Definition rf_set_points (f : list XYZW -> Outcome (list XYZW)) : Run RefineState unit :=
  modify (fun s => let* v := f (rf_points s) in
                   Ok (mkRefineState (rf_knots s) v (rf_i s) (rf_k s))).
Definition rf_set_ik (i k : Z) : Run RefineState unit :=
  modify (fun s => Ok (mkRefineState (rf_knots s) (rf_points s) i k)).
Definition rf_knot_at (i : Z) : Run RefineState R :=
  read (fun s => at_ "insertedKnotVector" (rf_knots s) i).
Definition rf_point_at (i : Z) : Run RefineState XYZW :=
  read (fun s => at_ "updatedControlPoints" (rf_points s) i).
Definition rf_get_i : Run RefineState Z := read (fun s => Ok (rf_i s)).
Definition rf_get_k : Run RefineState Z := read (fun s => Ok (rf_k s)).

Definition RefineKnotVector_validate {S} (degree : Z) (knotVector : list R)
    (controlPoints : list XYZW) (insertKnotElements : list R) : Run S unit :=
  VALIDATE_ARGUMENT (0 <? degree)%Z "degree" ;;
  VALIDATE_ARGUMENT (0 <? size knotVector)%Z "knotVector" ;;
  VALIDATE_ARGUMENT (ValidationUtils.IsValidKnotVector knotVector) "knotVector" ;;
  VALIDATE_ARGUMENT (0 <? size controlPoints)%Z "controlPoints" ;;
  VALIDATE_ARGUMENT
    (ValidationUtils.IsValidNurbs degree (size knotVector) (size controlPoints))
    "controlPoints" ;;
  VALIDATE_ARGUMENT (0 <? size insertKnotElements)%Z "insertKnotElements".

Definition RefineKnotVector_body (degree : Z) (knotVector : list R)
    (controlPoints : list XYZW) (insertKnotElements : list R) : Run RefineState unit :=
  let n := (size controlPoints - 1)%Z in
  let m := (n + degree + 1)%Z in
  let r := (size insertKnotElements - 1)%Z in
  do x0 <- get "insertKnotElements" insertKnotElements 0;
  do xr <- get "insertKnotElements" insertKnotElements r;
  let a := Polynomials.GetKnotSpanIndex degree knotVector x0 in
  let b := (Polynomials.GetKnotSpanIndex degree knotVector xr + 1)%Z in
  rf_set_knots (vresize "insertedKnotVector" 0 (m + r + 2)) ;;
  for_range 0 a (fun j =>
    do x <- get "knotVector" knotVector j;
    rf_set_knots (fun v => put "insertedKnotVector" v j x)) ;;
  for_range (b + degree) m (fun j =>
    do x <- get "knotVector" knotVector j;
    rf_set_knots (fun v => put "insertedKnotVector" v (j + r + 1) x)) ;;
  rf_set_points (vresize "updatedControlPoints" XYZW_ops.zero (n + r + 2)) ;;
  for_range 0 (a - degree) (fun j =>
    do x <- get "controlPoints" controlPoints j;
    rf_set_points (fun v => put "updatedControlPoints" v j x)) ;;
  for_range (b - 1) n (fun j =>
    do x <- get "controlPoints" controlPoints j;
    rf_set_points (fun v => put "updatedControlPoints" v (j + r + 1) x)) ;;
  rf_set_ik (b + degree - 1) (b + degree + r) ;;
  for_down r 0 (fun j =>
    do xj <- get "insertKnotElements" insertKnotElements j;
    do i0 <- rf_get_i;
    while (Z.to_nat (i0 - a) + 1)
      (fun s => let* ui := at_ "knotVector" knotVector (rf_i s) in
                Ok (Rleb xj ui && (a <? rf_i s)%Z))
      (do i <- rf_get_i;
       do k <- rf_get_k;
       do x <- get "controlPoints" controlPoints (i - degree - 1);
       rf_set_points (fun v => put "updatedControlPoints" v (k - degree - 1) x) ;;
       do u <- get "knotVector" knotVector i;
       rf_set_knots (fun v => put "insertedKnotVector" v k u) ;;
       rf_set_ik (i - 1) (k - 1)) ;;
    do i <- rf_get_i;
    do k <- rf_get_k;
    do x <- rf_point_at (k - degree);
    rf_set_points (fun v => put "updatedControlPoints" v (k - degree - 1) x) ;;
    for_range 1 degree (fun l =>
      let ind := (k - degree + l)%Z in
      do ukl <- rf_knot_at (k + l);
      let alpha := ukl - xj in
      if IsAlmostEqualTo (Rabs alpha) 0
      then
        do x <- rf_point_at ind;
        rf_set_points (fun v => put "updatedControlPoints" v (ind - 1) x)
      else
        do ukl' <- rf_knot_at (k + l);
        do u <- get "knotVector" knotVector (i - degree + l);
        let alpha := alpha / (ukl' - u) in
        do x1 <- rf_point_at (ind - 1);
        do x2 <- rf_point_at ind;
        rf_set_points (fun v => put "updatedControlPoints" v (ind - 1)
          (XYZW_ops.add (XYZW_ops.scale alpha x1) (XYZW_ops.scale (1 - alpha) x2)))) ;;
    rf_set_knots (fun v => put "insertedKnotVector" v k xj) ;;
    rf_set_ik i (k - 1)).

(** [void RefineKnotVector(degree, knotVector, controlPoints,
    insertKnotElements, insertedKnotVector&, updatedControlPoints&)]. *)
Definition RefineKnotVector (degree : Z) (knotVector : list R) (controlPoints : list XYZW)
    (insertKnotElements : list R) : Run (list R * list XYZW) unit :=
  RefineKnotVector_validate degree knotVector controlPoints insertKnotElements ;;
  with_locals
    (fun out => mkRefineState (fst out) (snd out) 0 0)
    (fun s => (rf_knots s, rf_points s))
    (RefineKnotVector_body degree knotVector controlPoints insertKnotElements).

(** *** [DecomposeToBeziers] *)

Record DecomposeState : Type := mkDecomposeState {
  decomposedControlPoints : list (list XYZW);
  dc_alphaVector : list R;
  dc_a : Z;
  dc_b : Z;
  dc_nb : Z
}.

Definition dc_set_points (f : list (list XYZW) -> Outcome (list (list XYZW)))
  : Run DecomposeState unit :=
  modify (fun s => let* v := f (decomposedControlPoints s) in
                   Ok (mkDecomposeState v (dc_alphaVector s) (dc_a s) (dc_b s) (dc_nb s))).
Definition dc_set_alpha (f : list R -> Outcome (list R)) : Run DecomposeState unit :=
  modify (fun s => let* v := f (dc_alphaVector s) in
                   Ok (mkDecomposeState (decomposedControlPoints s) v (dc_a s) (dc_b s) (dc_nb s))).
Definition dc_set_a (a : Z) : Run DecomposeState unit :=
  modify (fun s => Ok (mkDecomposeState (decomposedControlPoints s) (dc_alphaVector s)
                         a (dc_b s) (dc_nb s))).
Definition dc_set_b (b : Z) : Run DecomposeState unit :=
  modify (fun s => Ok (mkDecomposeState (decomposedControlPoints s) (dc_alphaVector s)
                         (dc_a s) b (dc_nb s))).
Definition dc_set_nb (nb : Z) : Run DecomposeState unit :=
  modify (fun s => Ok (mkDecomposeState (decomposedControlPoints s) (dc_alphaVector s)
                         (dc_a s) (dc_b s) nb)).
Definition dc_get_a : Run DecomposeState Z := read (fun s => Ok (dc_a s)).
Definition dc_get_b : Run DecomposeState Z := read (fun s => Ok (dc_b s)).
Definition dc_get_nb : Run DecomposeState Z := read (fun s => Ok (dc_nb s)).

(** [decomposedControlPoints[r][c]] as an rvalue and as an lvalue. *)
Definition dc_point_at (r c : Z) : Run DecomposeState XYZW :=
  read (fun s => let* row := at_ "decomposedControlPoints" (decomposedControlPoints s) r in
                 at_ "decomposedControlPoints[]" row c).
Definition dc_point_put (r c : Z) (x : XYZW) : Run DecomposeState unit :=
  dc_set_points (fun v =>
    let* row := at_ "decomposedControlPoints" v r in
    let* row' := put "decomposedControlPoints[]" row c x in
    put "decomposedControlPoints" v r row').

(** One turn of [while (b < m)]. *)
Definition DecomposeToBeziers_turn (degree : Z) (knotVector : list R)
    (controlPoints : list XYZW) (m : Z) : Run DecomposeState unit :=
  do i <- dc_get_b;
  while (Z.to_nat (m - i) + 1)
    (fun s => if (dc_b s <? m)%Z
              then let* u1 := at_ "knotVector" knotVector (dc_b s + 1) in
                   let* u0 := at_ "knotVector" knotVector (dc_b s) in
                   Ok (IsAlmostEqualTo u1 u0)
              else Ok false)
    (do b <- dc_get_b; dc_set_b (b + 1)) ;;
  do b <- dc_get_b;
  do a <- dc_get_a;
  let multi := (b - i + 1)%Z in
  if (multi <? degree)%Z then
    do ub <- get "knotVector" knotVector b;
    do ua <- get "knotVector" knotVector a;
    let numerator := ub - ua in
    dc_set_alpha (fun _ => vresize "alphaVector" 0 (degree + 1) []) ;;
    for_down degree (multi + 1) (fun j =>
      do uaj <- get "knotVector" knotVector (a + j);
      do ua' <- get "knotVector" knotVector a;
      dc_set_alpha (fun v => put "alphaVector" v (j - multi - 1) (numerator / (uaj - ua')))) ;;
    let r := (degree - multi)%Z in
    for_range 1 r (fun j =>
      let save := (r - j)%Z in
      let s := (multi + j)%Z in
      do nb <- dc_get_nb;
      for_down degree s (fun k =>
        do alpha <- read (fun st => at_ "alphaVector" (dc_alphaVector st) (k - s));
        do x1 <- dc_point_at nb k;
        do x0 <- dc_point_at nb (k - 1);
        dc_point_put nb k
          (XYZW_ops.add (XYZW_ops.scale alpha x1) (XYZW_ops.scale (1 - alpha) x0))) ;;
      if (b <? m)%Z then
        do x <- dc_point_at nb degree;
        dc_point_put (nb + 1) save x
      else ret tt) ;;
    do nb <- dc_get_nb;
    dc_set_nb (nb + 1) ;;
    if (b <? m)%Z then
      for_range (degree - multi) degree (fun i' =>
        do x <- get "controlPoints" controlPoints (b - degree + i');
        dc_point_put (nb + 1) i' x) ;;
      dc_set_a b ;;
      dc_set_b (b + 1)
    else ret tt
  else ret tt.

(** [std::vector<std::vector<XYZW>> DecomposeToBeziers(degree, knotVector,
    controlPoints)]; [fuel] bounds the number of tests of [b < m]. *)
Definition DecomposeToBeziers (fuel : nat) (degree : Z) (knotVector : list R)
    (controlPoints : list XYZW) : DecomposeState * Outcome (list (list XYZW)) :=
  (VALIDATE_ARGUMENT (0 <? degree)%Z "degree" ;;
   VALIDATE_ARGUMENT (0 <? size knotVector)%Z "knotVector" ;;
   VALIDATE_ARGUMENT (ValidationUtils.IsValidKnotVector knotVector) "knotVector" ;;
   VALIDATE_ARGUMENT (0 <? size controlPoints)%Z "controlPoints" ;;
   VALIDATE_ARGUMENT
     (ValidationUtils.IsValidNurbs degree (size knotVector) (size controlPoints))
     "controlPoints" ;;
   dc_set_points (fun _ =>
     let* row := vresize "decomposedControlPoints[]" XYZW_ops.zero (degree + 1) [] in
     vresize "decomposedControlPoints" row (size controlPoints - degree) []) ;;
   let n := (size controlPoints - 1)%Z in
   let m := (n + degree + 1)%Z in
   dc_set_a degree ;;
   dc_set_b (degree + 1) ;;
   dc_set_nb 0 ;;
   for_range 0 degree (fun i =>
     do x <- get "controlPoints" controlPoints i;
     dc_point_put 0 i x) ;;
   while fuel (fun s => Ok (dc_b s <? m)%Z)
     (DecomposeToBeziers_turn degree knotVector controlPoints m) ;;
   read (fun s => Ok (decomposedControlPoints s)))
  (mkDecomposeState [] [] 0 0 0).

(** *** [RemoveKnot] *)

(** Modelled from the spec: "ComputeModifyTolerance(P): returns
    min_i P[i].w eps_d / (1 + max_i |P[i]|)", where [|P[i]|] is the distance
    of the projected point to the origin. *)
Definition ComputeCurveModifyTolerance (controlPoints : list XYZW) : R :=
  let minWeight := foldr (fun p acc => Rmin (W p) acc) 1 controlPoints in
  let maxDistance :=
    foldr (fun p acc => Rmax (XYZ_ops.Length (XYZW_ops.ToXYZ p true)) acc) 0 controlPoints in
  minWeight * DistanceEpsilon / (1 + maxDistance).

Record RemoveState : Type := mkRemoveState {
  restKnotVector : list R;          (* reference parameter *)
  rk_points : list XYZW;            (* updatedControlPoints, reference parameter *)
  rk_temp : list XYZW;
  rk_first : Z;
  rk_last : Z;
  rk_i : Z;
  rk_j : Z;
  rk_ii : Z;
  rk_jj : Z;
  rk_remflag : bool;
  rk_t : Z
}.

Definition rk_with_knots v s := mkRemoveState v (rk_points s) (rk_temp s) (rk_first s)
  (rk_last s) (rk_i s) (rk_j s) (rk_ii s) (rk_jj s) (rk_remflag s) (rk_t s).
Definition rk_with_points v s := mkRemoveState (restKnotVector s) v (rk_temp s) (rk_first s)
  (rk_last s) (rk_i s) (rk_j s) (rk_ii s) (rk_jj s) (rk_remflag s) (rk_t s).
Definition rk_with_temp v s := mkRemoveState (restKnotVector s) (rk_points s) v (rk_first s)
  (rk_last s) (rk_i s) (rk_j s) (rk_ii s) (rk_jj s) (rk_remflag s) (rk_t s).
Definition rk_with_window first last s := mkRemoveState (restKnotVector s) (rk_points s)
  (rk_temp s) first last (rk_i s) (rk_j s) (rk_ii s) (rk_jj s) (rk_remflag s) (rk_t s).
Definition rk_with_cursor i j ii jj s := mkRemoveState (restKnotVector s) (rk_points s)
  (rk_temp s) (rk_first s) (rk_last s) i j ii jj (rk_remflag s) (rk_t s).
Definition rk_with_remflag f s := mkRemoveState (restKnotVector s) (rk_points s)
  (rk_temp s) (rk_first s) (rk_last s) (rk_i s) (rk_j s) (rk_ii s) (rk_jj s) f (rk_t s).
Definition rk_with_t t s := mkRemoveState (restKnotVector s) (rk_points s)
  (rk_temp s) (rk_first s) (rk_last s) (rk_i s) (rk_j s) (rk_ii s) (rk_jj s) (rk_remflag s) t.

Definition rk_set_knots (f : list R -> Outcome (list R)) : Run RemoveState unit :=
  modify (fun s => let* v := f (restKnotVector s) in Ok (rk_with_knots v s)).
Definition rk_set_points (f : list XYZW -> Outcome (list XYZW)) : Run RemoveState unit :=
  modify (fun s => let* v := f (rk_points s) in Ok (rk_with_points v s)).
Definition rk_set_temp (f : list XYZW -> Outcome (list XYZW)) : Run RemoveState unit :=
  modify (fun s => let* v := f (rk_temp s) in Ok (rk_with_temp v s)).
Definition rk_temp_at (i : Z) : Run RemoveState XYZW :=
  read (fun s => at_ "temp" (rk_temp s) i).
Definition rk_knot_at (i : Z) : Run RemoveState R :=
  read (fun s => at_ "restKnotVector" (restKnotVector s) i).
Definition rk_get {A} (f : RemoveState -> A) : Run RemoveState A := read (fun s => Ok (f s)).
Definition rk_do (f : RemoveState -> RemoveState) : Run RemoveState unit :=
  modify (fun s => Ok (f s)).

Definition RemoveKnot_validate {S} (degree : Z) (knotVector : list R)
    (controlPoints : list XYZW) (removeKnot : R) (times : Z) : Run S unit :=
  VALIDATE_ARGUMENT (0 <? degree)%Z "degree" ;;
  VALIDATE_ARGUMENT (0 <? size knotVector)%Z "knotVector" ;;
  VALIDATE_ARGUMENT (ValidationUtils.IsValidKnotVector knotVector) "knotVector" ;;
  VALIDATE_ARGUMENT (0 <? size controlPoints)%Z "controlPoints" ;;
  VALIDATE_ARGUMENT
    (ValidationUtils.IsValidNurbs degree (size knotVector) (size controlPoints))
    "controlPoints" ;;
  VALIDATE_ARGUMENT_RANGE "removeKnot" (Ok removeKnot) (at_ "knotVector" knotVector 0)
    (at_ "knotVector" knotVector (size knotVector - 1)) ;;
  VALIDATE_ARGUMENT (0 <? times)%Z "times".

(** One removal attempt, the body of [for (t = 0; t < times; t++)]. *)
Definition RemoveKnot_attempt (degree : Z) (knotVector : list R) (controlPoints : list XYZW)
    (removeKnot : R) (tol : R) (t : Z) : Run RemoveState unit :=
  let order := (degree + 1)%Z in
  do first <- rk_get rk_first;
  do last <- rk_get rk_last;
  let off := (first - 1)%Z in
  do p_off <- get "controlPoints" controlPoints off;
  rk_set_temp (fun v => put "temp" v 0 p_off) ;;
  do p_last <- get "controlPoints" controlPoints (last + 1);
  rk_set_temp (fun v => put "temp" v (last + 1 - off) p_last) ;;
  rk_do (rk_with_cursor first last 1 (last - off)) ;;
  rk_do (rk_with_remflag false) ;;
  while (S (Z.to_nat (last - first + 2)))
    (fun s => Ok (t <=? rk_j s - rk_i s)%Z)
    (do i <- rk_get rk_i; do j <- rk_get rk_j;
     do ii <- rk_get rk_ii; do jj <- rk_get rk_jj;
     do ui <- get "knotVector" knotVector i;
     do uiot <- get "knotVector" knotVector (i + order + t);
     do ui' <- get "knotVector" knotVector i;
     let alphai := (removeKnot - ui) / (uiot - ui') in
     do ujt <- get "knotVector" knotVector (j - t);
     do ujo <- get "knotVector" knotVector (j + order);
     do ujt' <- get "knotVector" knotVector (j - t);
     let alphaj := (removeKnot - ujt) / (ujo - ujt') in
     do pi <- get "controlPoints" controlPoints i;
     do tprev <- rk_temp_at (ii - 1);
     rk_set_temp (fun v => put "temp" v ii
       (XYZW_ops.divide (XYZW_ops.sub pi (XYZW_ops.scale (1 - alphai) tprev)) alphai)) ;;
     do pj <- get "controlPoints" controlPoints j;
     do tnext <- rk_temp_at (jj + 1);
     rk_set_temp (fun v => put "temp" v jj
       (XYZW_ops.divide (XYZW_ops.sub pj (XYZW_ops.scale alphaj tnext)) (1 - alphaj))) ;;
     rk_do (rk_with_cursor (i + 1) (j - 1) (ii + 1) (jj - 1))) ;;
  do i <- rk_get rk_i; do j <- rk_get rk_j;
  do ii <- rk_get rk_ii; do jj <- rk_get rk_jj;
  (if (j - i <? t)%Z then
     do ta <- rk_temp_at (ii - 1);
     do tb <- rk_temp_at (jj + 1);
     if IsLessThanOrEqual (XYZW_ops.Distance ta tb) tol
     then rk_do (rk_with_remflag true) else ret tt
   else
     do ui <- get "knotVector" knotVector i;
     do uiot <- get "knotVector" knotVector (i + order + t);
     do ui' <- get "knotVector" knotVector i;
     let alphai := (removeKnot - ui) / (uiot - ui') in
     do pi <- get "controlPoints" controlPoints i;
     do ta <- rk_temp_at (ii + t + 1);
     do tb <- rk_temp_at (ii - 1);
     if IsLessThanOrEqual
          (XYZW_ops.Distance pi
             (XYZW_ops.add (XYZW_ops.scale alphai ta) (XYZW_ops.scale (1 * alphai) tb)))
          tol
     then rk_do (rk_with_remflag true) else ret tt) ;;
  do remflag <- rk_get rk_remflag;
  (if remflag then
     rk_do (fun s => rk_with_cursor first last (rk_ii s) (rk_jj s) s) ;;
     while (S (Z.to_nat (last - first + 2)))
       (fun s => Ok (t <? rk_j s - rk_i s)%Z)
       (do i <- rk_get rk_i; do j <- rk_get rk_j;
        do ti <- rk_temp_at (i - off);
        rk_set_points (fun v => put "updatedControlPoints" v i ti) ;;
        do tj <- rk_temp_at (j - off);
        rk_set_points (fun v => put "updatedControlPoints" v j tj) ;;
        rk_do (fun s => rk_with_cursor (i + 1) (j - 1) (rk_ii s) (rk_jj s) s))
   else ret tt) ;;
  rk_do (rk_with_window (first - 1) (last + 1)) ;;
  rk_do (rk_with_t (t + 1)).

Definition RemoveKnot_body (degree : Z) (knotVector : list R) (controlPoints : list XYZW)
    (removeKnot : R) (times : Z) : Run RemoveState unit :=
  let tol := ComputeCurveModifyTolerance controlPoints in
  let n := (size controlPoints - 1)%Z in
  let s := Polynomials.GetKnotMultiplicity knotVector removeKnot in
  let r := Polynomials.GetKnotSpanIndex degree knotVector removeKnot in
  rk_do (rk_with_window (r - degree) (r - s)) ;;
  rk_set_knots (fun _ => Ok knotVector) ;;
  let m := (n + degree + 1)%Z in
  for_range (r + 1) m (fun k =>
    do x <- rk_knot_at k;
    rk_set_knots (fun v => put "restKnotVector" v (k - times) x)) ;;
  for_range 0 (times - 1) (fun _ => rk_set_knots (pop_back "restKnotVector")) ;;
  rk_set_points (fun _ => Ok controlPoints) ;;
  rk_set_temp (fun _ => vresize "temp" XYZW_ops.zero (2 * degree + 1) []) ;;
  rk_do (rk_with_t 0) ;;
  for_range 0 (times - 1)
    (RemoveKnot_attempt degree knotVector controlPoints removeKnot tol) ;;
  do t <- rk_get rk_t;
  if (t =? 0)%Z then ret tt
  else
    let j0 := Z.quot (2 * r - s - degree) 2 in
    rk_do (rk_with_cursor j0 j0 0 0) ;;
    for_range 1 (t - 1) (fun k =>
      if (Z.rem k 2 =? 1)%Z
      then rk_do (fun st => rk_with_cursor (rk_i st + 1) (rk_j st) 0 0 st)
      else rk_do (fun st => rk_with_cursor (rk_i st) (rk_j st - 1) 0 0 st)) ;;
    do i <- rk_get rk_i;
    for_range (i + 1) n (fun k =>
      do j <- rk_get rk_j;
      do x <- get "controlPoints" controlPoints k;
      rk_set_points (fun v => put "updatedControlPoints" v j x) ;;
      rk_do (fun st => rk_with_cursor (rk_i st) (j + 1) 0 0 st)) ;;
    for_range 0 (t - 1) (fun _ => rk_set_points (pop_back "updatedControlPoints")).

(** [void RemoveKnot(degree, knotVector, controlPoints, removeKnot, times,
    restKnotVector&, updatedControlPoints&)]: the function returns nothing. *)
Definition RemoveKnot (degree : Z) (knotVector : list R) (controlPoints : list XYZW)
    (removeKnot : R) (times : Z) : Run (list R * list XYZW) unit :=
  RemoveKnot_validate degree knotVector controlPoints removeKnot times ;;
  with_locals
    (fun out => mkRemoveState (fst out) (snd out) [] 0 0 0 0 0 0 false 0)
    (fun s => (restKnotVector s, rk_points s))
    (RemoveKnot_body degree knotVector controlPoints removeKnot times).

(** *** Evaluation of derivatives, tessellation, inverse projection *)

Section Collaborators.

(** [BsplineCurve::ComputeDerivatives], [ValidationUtils::IsClosed] and
    [Constants::MaxDistance] are not among the sources: the functions that
    follow take them as parameters. *)
Variable ComputeDerivatives : Z -> Z -> list R -> R -> list XYZW -> list XYZW.
Variable IsClosed : list XYZW -> bool.
Variable MaxDistance : R.

(** Modelled from the spec: [MathUtils::Binomial], the binomial
    coefficient. *)
Definition Binomial (number i : Z) : R := C (Z.to_nat number) (Z.to_nat i).

Record DerivState : Type := mkDerivState {
  dv_derivatives : list XYZ;
  dv_Aders : list XYZ;
  dv_wders : list R;
  dv_v : XYZ
}.

Definition ComputeRationalCurveDerivatives (degree derivative : Z) (knotVector : list R)
    (paramT : R) (controlPoints : list XYZW) : Outcome (list XYZ) :=
  snd ((VALIDATE_ARGUMENT (0 <? degree)%Z "degree" ;;
        VALIDATE_ARGUMENT (0 <? derivative)%Z "derivative" ;;
        VALIDATE_ARGUMENT (0 <? size knotVector)%Z "knotVector" ;;
        VALIDATE_ARGUMENT (ValidationUtils.IsValidKnotVector knotVector) "knotVector" ;;
        VALIDATE_ARGUMENT_RANGE "paramT" (Ok paramT) (at_ "knotVector" knotVector 0)
          (at_ "knotVector" knotVector (size knotVector - 1)) ;;
        VALIDATE_ARGUMENT (0 <? size controlPoints)%Z "controlPoints" ;;
        VALIDATE_ARGUMENT
          (ValidationUtils.IsValidNurbs degree (size knotVector) (size controlPoints))
          "controlPoints" ;;
        let ders := ComputeDerivatives degree derivative knotVector paramT controlPoints in
        modify (fun s =>
          let* d := vresize "derivatives" XYZ_ops.zero (derivative + 1) [] in
          let* a := vresize "Aders" XYZ_ops.zero (derivative + 1) [] in
          let* w := vresize "wders" 0 (derivative + 1) [] in
          Ok (mkDerivState d a w XYZ_ops.zero)) ;;
        for_below_size 0 ders (fun i =>
          do x <- get "ders" ders i;
          modify (fun s => let* a := put "Aders" (dv_Aders s) i (XYZW_ops.ToXYZ x false) in
                           Ok (mkDerivState (dv_derivatives s) a (dv_wders s) (dv_v s)))) ;;
        for_below_size 0 ders (fun i =>
          do x <- get "ders" ders i;
          modify (fun s => let* w := put "wders" (dv_wders s) i (XYZW_ops.GetW x) in
                           Ok (mkDerivState (dv_derivatives s) (dv_Aders s) w (dv_v s)))) ;;
        for_range 0 derivative (fun k =>
          do a <- read (fun s => at_ "Aders" (dv_Aders s) k);
          modify (fun s => Ok (mkDerivState (dv_derivatives s) (dv_Aders s) (dv_wders s) a)) ;;
          for_range 1 k (fun i =>
            do w <- read (fun s => at_ "wders" (dv_wders s) i);
            do d <- read (fun s => at_ "derivatives" (dv_derivatives s) (k - i));
            modify (fun s => Ok (mkDerivState (dv_derivatives s) (dv_Aders s) (dv_wders s)
                      (XYZ_ops.sub (dv_v s) (XYZ_ops.scale (Binomial k i * w) d))))) ;;
          do w0 <- read (fun s => at_ "wders" (dv_wders s) 0);
          modify (fun s =>
            let* d := put "derivatives" (dv_derivatives s) k (XYZ_ops.divide (dv_v s) w0) in
            Ok (mkDerivState d (dv_Aders s) (dv_wders s) (dv_v s)))) ;;
        read (fun s => Ok (dv_derivatives s)))
       (mkDerivState [] [] [] XYZ_ops.zero)).

(** [std::unique] followed by [erase]: of each run of equal neighbours the
    first one stays. *)
Fixpoint unique (v : list R) : list R :=
  match v with
  | a :: rest =>
      match rest with
      | b :: _ => if Reqb a b then unique rest else a :: unique rest
      | [] => [a]
      end
  | [] => []
  end.

(** [void EquallyTessellate(degree, knotVector, controlPoints,
    tessellatedPoints&, correspondingKnots&)], a run on the two output
    vectors [(tessellatedPoints, correspondingKnots)]. *)
Definition EquallyTessellate (degree : Z) (knotVector : list R) (controlPoints : list XYZW)
  : Run (list XYZ * list R) unit :=
  VALIDATE_ARGUMENT (0 <? degree)%Z "degree" ;;
  VALIDATE_ARGUMENT (0 <? size knotVector)%Z "knotVector" ;;
  VALIDATE_ARGUMENT (ValidationUtils.IsValidKnotVector knotVector) "knotVector" ;;
  VALIDATE_ARGUMENT (0 <? size controlPoints)%Z "controlPoints" ;;
  VALIDATE_ARGUMENT
    (ValidationUtils.IsValidNurbs degree (size knotVector) (size controlPoints))
    "controlPoints" ;;
  let uniqueKv := unique knotVector in
  let size_ := size uniqueKv in
  let intervals := 100 in
  for_range 0 (size_ - 1 - 1) (fun i =>
    do currentU <- get "uniqueKv" uniqueKv i;
    do nextU <- get "uniqueKv" uniqueKv (i - 1);
    let step := (nextU - currentU) / intervals in
    for_range 0 (100 - 1) (fun j =>
      modify (fun out => Ok (fst out, snd out ++ [currentU + step * IZR i])) ;;
      do u <- read (fun out => at_ "correspondingKnots" (snd out) i);
      do p <- read (fun _ => GetPointOnCurve degree knotVector u controlPoints);
      modify (fun out => Ok (fst out ++ [p], snd out)))) ;;
  do last <- get "knotVector" knotVector (size knotVector - 1);
  modify (fun out => Ok (fst out, snd out ++ [last])) ;;
  do plast <- get "controlPoints" controlPoints (size controlPoints - 1);
  modify (fun out => Ok (fst out ++ [XYZW_ops.ToXYZ plast true], snd out)).

(** **** [GetParamOnCurve] *)

(** The candidate of a Newton step is brought back to [[a, b]]: the two
    branches of [if (isClosed)]. *)
Definition adjust_candidate (isClosed : bool) (a b temp : R) : R :=
  if isClosed then
    let temp := if Rltb temp a then a else temp in
    if Rltb b temp then b else temp
  else
    let temp := if Rltb temp a then b - (a - temp) else temp in
    if Rltb b temp then a + (temp - b) else temp.

Record ParamState : Type := mkParamState {
  pm_minValue : R;
  pm_paramT : R;
  pm_counters : Z;
  pm_return : option R     (* set by a [return] inside the loop *)
}.

(** One turn of the sampling loop. *)
Definition GetParamOnCurve_sample (degree : Z) (knotVector : list R)
    (controlPoints : list XYZW) (givenPoint : XYZ) (minParam span : R) (i : Z)
  : Run ParamState unit :=
  let currentU := minParam + span * IZR i in
  do currentPoint <- read (fun _ => GetPointOnCurve degree knotVector currentU controlPoints);
  let nextU := minParam + span * IZR (i + 1) in
  do nextPoint <- read (fun _ => GetPointOnCurve degree knotVector nextU controlPoints);
  let vector1 := XYZ_ops.sub currentPoint givenPoint in
  let vector2 := XYZ_ops.sub nextPoint currentPoint in
  let dot := XYZ_ops.DotProduct vector1 vector2 in
  let projection :=
    if Rltb dot 0 then (currentPoint, currentU)
    else if Rltb 1 dot then (nextPoint, nextU)
    else (XYZ_ops.add currentPoint (XYZ_ops.scale dot (XYZ_ops.Normalize vector1)),
          currentU + (nextU - currentU) * dot) in
  let distance := XYZ_ops.Length (XYZ_ops.sub givenPoint (fst projection)) in
  modify (fun s =>
    if Rltb distance (pm_minValue s)
    then Ok (mkParamState distance (snd projection) (pm_counters s) (pm_return s))
    else Ok s).

(** One turn of [while (counters < maxIterations)]. *)
Definition GetParamOnCurve_newton (degree : Z) (knotVector : list R)
    (controlPoints : list XYZW) (givenPoint : XYZ) (isClosed : bool) (a b : R)
  : Run ParamState unit :=
  do paramT <- read (fun s => Ok (pm_paramT s));
  do derivatives <- read (fun _ =>
    ComputeRationalCurveDerivatives degree 2 knotVector paramT controlPoints);
  do d0 <- get "derivatives" derivatives 0;
  do d1 <- get "derivatives" derivatives 1;
  let difference := XYZ_ops.sub d0 givenPoint in
  let f := XYZ_ops.DotProduct d1 difference in
  let condition1 := XYZ_ops.Length difference in
  let condition2 := Rabs (f / (XYZ_ops.Length d1 * condition1)) in
  if Rltb condition1 DistanceEpsilon && Rltb condition2 DistanceEpsilon then
    modify (fun s => Ok (mkParamState (pm_minValue s) (pm_paramT s) (pm_counters s)
                           (Some paramT)))
  else
    do d2 <- get "derivatives" derivatives 2;
    let df := XYZ_ops.DotProduct d2 difference + XYZ_ops.DotProduct d1 d1 in
    let temp := adjust_candidate isClosed a b (paramT - f / df) in
    let condition4 := XYZ_ops.Length (XYZ_ops.scale (temp - paramT) d1) in
    if Rltb condition4 DistanceEpsilon then
      modify (fun s => Ok (mkParamState (pm_minValue s) (pm_paramT s) (pm_counters s)
                             (Some paramT)))
    else
      modify (fun s => Ok (mkParamState (pm_minValue s) temp (pm_counters s + 1)
                             (pm_return s))).

Definition maxIterations : Z := 10.

(** [double GetParamOnCurve(degree, knotVector, controlPoints, givenPoint)];
    [fuel] bounds the number of tests of the Newton loop. *)
Definition GetParamOnCurve (fuel : nat) (degree : Z) (knotVector : list R)
    (controlPoints : list XYZW) (givenPoint : XYZ) : ParamState * Outcome R :=
  (VALIDATE_ARGUMENT (0 <? degree)%Z "degree" ;;
   VALIDATE_ARGUMENT (0 <? size knotVector)%Z "knotVector" ;;
   VALIDATE_ARGUMENT (ValidationUtils.IsValidKnotVector knotVector) "knotVector" ;;
   VALIDATE_ARGUMENT (0 <? size controlPoints)%Z "controlPoints" ;;
   VALIDATE_ARGUMENT
     (ValidationUtils.IsValidNurbs degree (size knotVector) (size controlPoints))
     "controlPoints" ;;
   do minParam <- get "knotVector" knotVector 0;
   do maxParam <- get "knotVector" knotVector (size knotVector - 1);
   let samples := (size controlPoints * degree)%Z in
   let span := (maxParam - minParam) / IZR (samples - 1) in
   for_range 0 (samples - 1 - 1)
     (GetParamOnCurve_sample degree knotVector controlPoints givenPoint minParam span) ;;
   let isClosed := IsClosed controlPoints in
   while fuel
     (fun s => Ok ((pm_counters s <? maxIterations)%Z
                   && match pm_return s with None => true | Some _ => false end))
     (GetParamOnCurve_newton degree knotVector controlPoints givenPoint isClosed
        minParam maxParam) ;;
   read (fun s => match pm_return s with Some t => Ok t | None => Ok (pm_paramT s) end))
  (mkParamState MaxDistance DoubleEpsilon 0 None).

(** *** [CreateTransform], [CreateArc], [GlobalInterpolation] *)

(** [Matrix4d], [Intersection::ComputeRays] and the helpers of
    [Interpolation] are not among the sources either. *)
Variable Matrix4d : Type.
Variable OfPoint : Matrix4d -> XYZ -> XYZ.

Inductive CurveCurveIntersectionType : Type :=
| Intersecting | Parallel | Coincident | Skew.

Variable ComputeRays :
  XYZ -> XYZ -> XYZ -> XYZ -> CurveCurveIntersectionType * R * R * XYZ.

Variable GetChordParameterization : list XYZ -> list R.
Variable ComputeKnotVector : Z -> Z -> list R -> list R.
Variable MakeInterpolationMatrix : Z -> Z -> list R -> list R -> list (list R).
Variable ComputerControlPointsByLUDecomposition : list (list R) -> list XYZ -> list XYZ.

(** [void CreateTransform(controlPoints, matrix, transformedControlPoints&)]. *)
Definition CreateTransform (controlPoints : list XYZW) (matrix : Matrix4d)
  : Run (list XYZW) unit :=
  let size_ := size controlPoints in
  modify (vresize "transformedControlPoints" XYZW_ops.zero size_) ;;
  for_range 0 (size_ - 1) (fun i =>
    do temp <- get "controlPoints" controlPoints i;
    modify (fun v => put "transformedControlPoints" v i
      (XYZW_ops.of_XYZ (OfPoint matrix (XYZW_ops.ToXYZ temp true)) (XYZW_ops.GetW temp)))).

Record ArcState : Type := mkArcState {
  ca_degree : Z;                 (* int& degree *)
  ca_knotVector : list R;        (* reference parameter *)
  ca_controlPoints : list XYZW;  (* reference parameter *)
  ca_P0 : XYZ;
  ca_T0 : XYZ;
  ca_index : Z;
  ca_angle : R;
  ca_return : option bool        (* set by [return false] inside the loop *)
}.

Definition ca_set_knots (f : list R -> Outcome (list R)) : Run ArcState unit :=
  modify (fun s => let* v := f (ca_knotVector s) in
    Ok (mkArcState (ca_degree s) v (ca_controlPoints s) (ca_P0 s) (ca_T0 s) (ca_index s)
          (ca_angle s) (ca_return s))).
Definition ca_set_points (f : list XYZW -> Outcome (list XYZW)) : Run ArcState unit :=
  modify (fun s => let* v := f (ca_controlPoints s) in
    Ok (mkArcState (ca_degree s) (ca_knotVector s) v (ca_P0 s) (ca_T0 s) (ca_index s)
          (ca_angle s) (ca_return s))).
Definition ca_set_locals (P0 T0 : XYZ) (index : Z) (angle : R) : Run ArcState unit :=
  modify (fun s => Ok (mkArcState (ca_degree s) (ca_knotVector s) (ca_controlPoints s)
                         P0 T0 index angle (ca_return s))).
Definition ca_set_return (r : bool) : Run ArcState unit :=
  modify (fun s => Ok (mkArcState (ca_degree s) (ca_knotVector s) (ca_controlPoints s)
                         (ca_P0 s) (ca_T0 s) (ca_index s) (ca_angle s) (Some r))).
Definition ca_set_degree (d : Z) : Run ArcState unit :=
  modify (fun s => Ok (mkArcState d (ca_knotVector s) (ca_controlPoints s)
                         (ca_P0 s) (ca_T0 s) (ca_index s) (ca_angle s) (ca_return s))).

(** The number of segments. *)
Definition CreateArc_narcs (theta : R) : Z :=
  if IsLessThanOrEqual theta (PI / 2) then 1
  else if IsLessThanOrEqual theta PI then 2
  else if IsLessThanOrEqual theta (3 * PI / 2) then 3
  else 4.

Definition point_on_ellipse (center nX nY : XYZ) (xRadius yRadius angle : R) : XYZ :=
  XYZ_ops.add (XYZ_ops.add center (XYZ_ops.scale (xRadius * cos angle) nX))
              (XYZ_ops.scale (yRadius * sin angle) nY).
Definition tangent_of_ellipse (nX nY : XYZ) (angle : R) : XYZ :=
  XYZ_ops.add (XYZ_ops.scale (- sin angle) nX) (XYZ_ops.scale (cos angle) nY).

(** One turn of [for (int i = 1; i < narcs; i++)]; after [return false] the
    remaining turns do nothing. *)
Definition CreateArc_segment (center nX nY : XYZ) (xRadius yRadius dtheta w1 : R)
    (narcs : Z) (i : Z) : Run ArcState unit :=
  do returned <- read (fun s => Ok (ca_return s));
  match returned with
  | Some _ => ret tt
  | None =>
      do P0 <- read (fun s => Ok (ca_P0 s));
      do T0 <- read (fun s => Ok (ca_T0 s));
      do index <- read (fun s => Ok (ca_index s));
      do angle0 <- read (fun s => Ok (ca_angle s));
      let angle := angle0 + dtheta in
      let P2 := point_on_ellipse center nX nY xRadius yRadius angle in
      ca_set_points (fun v => put "controlPoints" v (index + 2) (XYZW_ops.of_XYZ P2 1)) ;;
      let T2 := tangent_of_ellipse nX nY angle in
      let '(type, _, _, P1) := ComputeRays P0 T0 P2 T2 in
      match type with
      | Intersecting =>
          ca_set_points (fun v => put "controlPoints" v (index + 1) (XYZW_ops.of_XYZ P1 w1)) ;;
          if (i <? narcs)%Z
          then ca_set_locals P2 T2 (index + 2) angle
          else ca_set_locals P0 T0 (index + 2) angle
      | _ => ca_set_locals P0 T0 index angle ;; ca_set_return false
      end
  end.

(** The statements after the loop. *)
Definition CreateArc_knots (narcs : Z) : Run ArcState bool :=
  let j := (2 * narcs + 1)%Z in
  for_range 0 2 (fun i =>
    ca_set_knots (fun v => put "knotVector" v i 0) ;;
    ca_set_knots (fun v => put "knotVector" v (i + j) 1)) ;;
  (if (narcs =? 2)%Z then
     ca_set_knots (fun v => put "knotVector" v 4 (5 / 10)) ;;
     ca_set_knots (fun v => put "knotVector" v 3 (5 / 10))
   else if (narcs =? 3)%Z then
     ca_set_knots (fun v => put "knotVector" v 4 (IZR (Z.quot 1 3))) ;;
     ca_set_knots (fun v => put "knotVector" v 3 (IZR (Z.quot 1 3))) ;;
     ca_set_knots (fun v => put "knotVector" v 6 (IZR (Z.quot 2 3))) ;;
     ca_set_knots (fun v => put "knotVector" v 5 (IZR (Z.quot 2 3)))
   else if (narcs =? 4)%Z then
     ca_set_knots (fun v => put "knotVector" v 4 (25 / 100)) ;;
     ca_set_knots (fun v => put "knotVector" v 3 (25 / 100)) ;;
     ca_set_knots (fun v => put "knotVector" v 6 (5 / 10)) ;;
     ca_set_knots (fun v => put "knotVector" v 5 (5 / 10)) ;;
     ca_set_knots (fun v => put "knotVector" v 8 (75 / 100)) ;;
     ca_set_knots (fun v => put "knotVector" v 7 (75 / 100))
   else ret tt) ;;
  ca_set_degree 2 ;;
  ret true.

(** [bool CreateArc(center, xAxis, yAxis, startRad, endRad, xRadius, yRadius,
    degree&, knotVector&, controlPoints&)], a run on the three outputs
    [(degree, knotVector, controlPoints)]. *)
Definition CreateArc (center xAxis yAxis : XYZ) (startRad endRad xRadius yRadius : R)
  : Run (Z * list R * list XYZW) bool :=
  with_locals
    (fun out => mkArcState (fst (fst out)) (snd (fst out)) (snd out)
                  XYZ_ops.zero XYZ_ops.zero 0 0 None)
    (fun s => (ca_degree s, ca_knotVector s, ca_controlPoints s))
    (let nX := XYZ_ops.Normalize xAxis in
     let nY := XYZ_ops.Normalize yAxis in
     let endRad := if Rltb endRad startRad then 2 * PI + startRad else endRad in
     let theta := endRad - startRad in
     let narcs := CreateArc_narcs theta in
     let dtheta := theta / IZR narcs in
     let n := (2 * narcs)%Z in
     ca_set_knots (vresize "knotVector" 0 (n + 3)) ;;
     ca_set_points (vresize "controlPoints" XYZW_ops.zero n) ;;
     let w1 := cos (dtheta / 2) in
     let P0 := point_on_ellipse center nX nY xRadius yRadius startRad in
     let T0 := tangent_of_ellipse nX nY startRad in
     ca_set_points (fun v => put "controlPoints" v 0 (XYZW_ops.of_XYZ P0 1)) ;;
     ca_set_locals P0 T0 0 startRad ;;
     for_range 1 (narcs - 1)
       (CreateArc_segment center nX nY xRadius yRadius dtheta w1 narcs) ;;
     do returned <- read (fun s => Ok (ca_return s));
     match returned with
     | Some r => ret r
     | None => CreateArc_knots narcs
     end).

(** [void GlobalInterpolation(degree, throughPoints, knotVector&,
    controlPoints&)], a run on [(knotVector, controlPoints)]. *)
Definition GlobalInterpolation (degree : Z) (throughPoints : list XYZ)
  : Run (list R * list XYZW) unit :=
  let size_ := size throughPoints in
  let uk := GetChordParameterization throughPoints in
  modify (fun out => Ok (ComputeKnotVector degree (size throughPoints) uk, snd out)) ;;
  do knotVector <- read (fun out => Ok (fst out));
  let A := MakeInterpolationMatrix degree size_ uk knotVector in
  let tempControlPoints := ComputerControlPointsByLUDecomposition A throughPoints in
  for_range 0 (size_ - 1) (fun i =>
    do x <- get "tempControlPoints" tempControlPoints i;
    modify (fun out =>
      let* v := put "controlPoints" (snd out) i (XYZW_ops.of_XYZ x 1) in
      Ok (fst out, v))).

End Collaborators.

(** *** [GetPointOnCurveByCornerCut] *)

(** [XYZ GetPointOnCurveByCornerCut(degree, knotVector, paramT,
    controlPoints&)]: the control points come by reference and are only
    read; the state of the run is the local buffer [temp]. *)
Definition GetPointOnCurveByCornerCut (degree : Z) (knotVector : list R) (paramT : R)
    (controlPoints : list XYZW) : Outcome XYZ :=
  snd ((VALIDATE_ARGUMENT (0 <? degree)%Z "degree" ;;
        VALIDATE_ARGUMENT (0 <? size knotVector)%Z "knotVector" ;;
        VALIDATE_ARGUMENT (ValidationUtils.IsValidKnotVector knotVector) "knotVector" ;;
        VALIDATE_ARGUMENT_RANGE "paramT" (Ok paramT) (at_ "knotVector" knotVector 0)
          (at_ "knotVector" knotVector (size knotVector - 1)) ;;
        VALIDATE_ARGUMENT (0 <? size controlPoints)%Z "controlPoints" ;;
        VALIDATE_ARGUMENT
          (ValidationUtils.IsValidNurbs degree (size knotVector) (size controlPoints))
          "controlPoints" ;;
        do first <- get "knotVector" knotVector 0;
        if IsAlmostEqualTo paramT first then
          do p <- get "controlPoints" controlPoints 0;
          ret (XYZW_ops.ToXYZ p true)
        else
          let n := (size controlPoints - 1)%Z in
          do last <- get "knotVector" knotVector (n + degree + 1);
          if IsAlmostEqualTo paramT last then
            do p <- get "controlPoints" controlPoints n;
            ret (XYZW_ops.ToXYZ p true)
          else
            let knotSpanIndex := Polynomials.GetKnotSpanIndex degree knotVector paramT in
            let originMultiplicity := Polynomials.GetKnotMultiplicity knotVector paramT in
            let times := (degree - originMultiplicity)%Z in
            modify (fun _ => vresize "temp" XYZW_ops.zero (times + 1) []) ;;
            for_range 0 times (fun i =>
              do x <- get "controlPoints" controlPoints (knotSpanIndex - degree + i);
              modify (fun temp => put "temp" temp i x)) ;;
            for_range 1 times (fun j =>
              for_range 0 (times - j) (fun i =>
                do uLi <- get "knotVector" knotVector (knotSpanIndex - degree + j + i);
                do uk1 <- get "knotVector" knotVector (i + knotSpanIndex + 1);
                let alpha := (paramT - uLi) / (uk1 - uLi) in
                do t1 <- read (fun temp => at_ "temp" temp (i + 1));
                do t0 <- read (fun temp => at_ "temp" temp i);
                modify (fun temp => put "temp" temp i
                  (XYZW_ops.add (XYZW_ops.scale alpha t1)
                                (XYZW_ops.scale (1 - alpha) t0))))) ;;
            do r <- read (fun temp => at_ "temp" temp 0);
            ret (XYZW_ops.ToXYZ r true)) ([] : list XYZW)).

(** *** The checks of [ElevateDegree] and [ReduceDegree]

    The two operations open with the same chain as the others; what follows
    the chain is not modelled, and the statements about them hold for every
    run after the checks. *)

(** The six checks of [ElevateDegree(degree, knotVector, controlPoints,
    times, updatedKnotVector&, updatedControlPoints&)]. *)
Definition ElevateDegree_checks {S} (degree : Z) (knotVector : list R)
    (controlPoints : list XYZW) (times : Z) : Run S unit :=
  VALIDATE_ARGUMENT (0 <? degree)%Z "degree" ;;
  VALIDATE_ARGUMENT (0 <? size knotVector)%Z "knotVector" ;;
  VALIDATE_ARGUMENT (ValidationUtils.IsValidKnotVector knotVector) "knotVector" ;;
  VALIDATE_ARGUMENT (0 <? size controlPoints)%Z "controlPoints" ;;
  VALIDATE_ARGUMENT
    (ValidationUtils.IsValidNurbs degree (size knotVector) (size controlPoints))
    "controlPoints" ;;
  VALIDATE_ARGUMENT (0 <? times)%Z "times".

(** The five checks of [ReduceDegree(degree, knotVector, controlPoints,
    updatedKnotVector&, updatedControlPoints&)]. *)
Definition ReduceDegree_checks {S} (degree : Z) (knotVector : list R)
    (controlPoints : list XYZW) : Run S unit :=
  VALIDATE_ARGUMENT (ValidationUtils.IsValidDegreeReduction degree) "degree" ;;
  VALIDATE_ARGUMENT (0 <? size knotVector)%Z "knotVector" ;;
  VALIDATE_ARGUMENT (ValidationUtils.IsValidKnotVector knotVector) "knotVector" ;;
  VALIDATE_ARGUMENT (0 <? size controlPoints)%Z "controlPoints" ;;
  VALIDATE_ARGUMENT
    (ValidationUtils.IsValidNurbs degree (size knotVector) (size controlPoints))
    "controlPoints".


(** *** Conic arcs: [CreateOneConicArc], [SplitArc], [CreateOpenConic] *)

Section Conic.

(** The collaborators that are not among the sources: the intersection of
    two rays, which returns its kind, the two parameters and the point; the
    angle between two vectors; three of the tolerant comparisons and the
    conversion of degrees of [MathUtils]. *)
Variable ComputeRays :
  XYZ -> XYZ -> XYZ -> XYZ -> CurveCurveIntersectionType * R * R * XYZ.
Variable AngleTo : XYZ -> XYZ -> R.
Variables IsGreaterThanOrEqual IsGreaterThan IsLessThan : R -> R -> bool.
Variable AngleToRadians : R -> R.


(** [void SplitArc(start, projectPoint, projectPointWeight, end,
    insertPointAtStartSide&, splitPoint&, insertPointAtEndSide&,
    double insertWeight)]: three outputs by reference and the weight by
    value.  The state holds the three outputs and the parameter object
    [insertWeight]; the function is a map on the three outputs of the
    caller. *)
Record SplitArcState : Type := mkSplitArcState {
  insertPointAtStartSide : XYZ;
  splitPoint : XYZ;
  insertPointAtEndSide : XYZ;
  insertWeight : R               (* the parameter object *)
}.

Definition SplitArc_body (start projectPoint : XYZ) (projectPointWeight : R) (end_ : XYZ)
    (s : SplitArcState) : SplitArcState :=
  let s := mkSplitArcState
             (XYZ_ops.divide
                (XYZ_ops.add start (XYZ_ops.scale projectPointWeight projectPoint))
                (1 + projectPointWeight))
             (splitPoint s) (insertPointAtEndSide s) (insertWeight s) in
  let s := mkSplitArcState (insertPointAtStartSide s) (splitPoint s)
             (XYZ_ops.divide
                (XYZ_ops.add (XYZ_ops.scale projectPointWeight projectPoint) end_)
                (1 + projectPointWeight))
             (insertWeight s) in
  let s := mkSplitArcState (insertPointAtStartSide s)
             (XYZ_ops.divide
                (XYZ_ops.add (insertPointAtStartSide s) (insertPointAtEndSide s)) 2)
             (insertPointAtEndSide s) (insertWeight s) in
  mkSplitArcState (insertPointAtStartSide s) (splitPoint s) (insertPointAtEndSide s)
    (sqrt ((1 + projectPointWeight) / 2)).

Definition SplitArc (start projectPoint : XYZ) (projectPointWeight : R) (end_ : XYZ)
    (insertWeight0 : R) (refs : XYZ * XYZ * XYZ) : XYZ * XYZ * XYZ :=
  let s := SplitArc_body start projectPoint projectPointWeight end_
             (mkSplitArcState (fst (fst refs)) (snd (fst refs)) (snd refs) insertWeight0) in
  (insertPointAtStartSide s, splitPoint s, insertPointAtEndSide s).




End Conic.

(** *** [ToUnclampCurve]

    The degree is an [unsigned int]: an expression that holds it is computed
    modulo 2^32, and an [int] in it is converted first.  An index that is
    an [int] is taken as it is, a negative one is outside every vector. *)

(** [unsigned int] arithmetic. *)
Definition u32 (x : Z) : Z := (x mod 4294967296)%Z.

(** The conversion of an [unsigned int] to [int]. *)
Definition to_int (x : Z) : Z :=
  if (x <? 2147483648)%Z then x else (x - 4294967296)%Z.

Record UnclampState : Type := mkUnclampState {
  uc_knotVector : list R;        (* reference parameter *)
  uc_controlPoints : list XYZW;  (* reference parameter *)
  uc_k : Z
}.

Definition uc_knot_at (i : Z) : Run UnclampState R :=
  read (fun s => at_ "knotVector" (uc_knotVector s) i).
Definition uc_point_at (i : Z) : Run UnclampState XYZW :=
  read (fun s => at_ "controlPoints" (uc_controlPoints s) i).
Definition uc_set_knot (i : Z) (x : R) : Run UnclampState unit :=
  modify (fun s => let* v := put "knotVector" (uc_knotVector s) i x in
                   Ok (mkUnclampState v (uc_controlPoints s) (uc_k s))).
Definition uc_set_point (i : Z) (x : XYZW) : Run UnclampState unit :=
  modify (fun s => let* v := put "controlPoints" (uc_controlPoints s) i x in
                   Ok (mkUnclampState (uc_knotVector s) v (uc_k s))).
Definition uc_set_k (k : Z) : Run UnclampState unit :=
  modify (fun s => Ok (mkUnclampState (uc_knotVector s) (uc_controlPoints s) k)).
Definition uc_get_k : Run UnclampState Z := read (fun s => Ok (uc_k s)).

Definition ToUnclampCurve_body (degree : Z) : Run UnclampState unit :=
  do n <- read (fun s => Ok (size (uc_controlPoints s) - 1)%Z);
  for_range 0 (u32 (degree - 2) - 1) (fun i =>
    do a <- uc_knot_at (u32 (degree - i));
    do b <- uc_knot_at (n - i);
    uc_set_knot (u32 (degree - i - 1)) (a - b) ;;
    uc_set_k (to_int (u32 (degree - 1))) ;;
    for_down i 0 (fun j =>
      do k <- uc_get_k;
      do up <- uc_knot_at degree;
      do uk <- uc_knot_at k;
      do uj <- uc_knot_at (u32 (degree + j + 1));
      let alfa := (up - uk) / (uj - uk) in
      do pj <- uc_point_at j;
      do pj1 <- uc_point_at (j + 1);
      uc_set_point j
        (XYZW_ops.divide (XYZW_ops.sub pj (XYZW_ops.scale alfa pj1)) (1 - alfa)) ;;
      uc_set_k (k - 1))) ;;
  do u1 <- uc_knot_at 1;
  do a <- uc_knot_at (u32 (n + degree + 2));
  do b <- uc_knot_at (u32 (n - degree + 1));
  uc_set_knot 0 (u1 - (a - b)) ;;
  for_range 0 (u32 (degree - 2)) (fun i =>
    do a <- uc_knot_at (n + i + 1);
    do b <- uc_knot_at (u32 (degree + i + 1));
    do c <- uc_knot_at (u32 (degree + i));
    uc_set_knot (n + i + 2) (a + (b - c)) ;;
    for_down i 0 (fun j =>
      do un1 <- uc_knot_at (n + 1);
      do unj <- uc_knot_at (n - j);
      do unji <- uc_knot_at (n - j + i + 2);
      let alfa := (un1 - unj) / (unji - unj) in
      do pnj <- uc_point_at (n - j);
      do pnj1 <- uc_point_at (n - j - 1);
      uc_set_point (n - j)
        (XYZW_ops.divide (XYZW_ops.sub pnj (XYZW_ops.scale (1 - alfa) pnj1)) alfa))) ;;
  do a <- uc_knot_at (u32 (n + degree));
  do b <- uc_knot_at (u32 (2 * degree));
  do c <- uc_knot_at (u32 (2 * degree - 1));
  uc_set_knot (u32 (n + degree + 1)) (a + (b - c)).

(** [void ToUnclampCurve(unsigned int degree, knotVector&, controlPoints&)]. *)
Definition ToUnclampCurve (degree : Z) : Run (list R * list XYZW) unit :=
  with_locals
    (fun io => mkUnclampState (fst io) (snd io) 0)
    (fun s => (uc_knotVector s, uc_controlPoints s))
    (ToUnclampCurve_body degree).

End NurbsCurve.
(** ** [Reverse]: a store of vectors, and the two ways of passing one

    [Reverse] takes its two output vectors by reference and hands them to
    [ReverseKnotVector] and [ReverseControlPoints], whose second parameter is
    a [std::vector] taken by value.  To tell the two apart the vectors live
    in a store, a parameter is the address of a vector, and a call by value
    first copies the argument to a fresh address. *)

Module Reverse.
Abbreviation loc := nat.

Record Mem : Type := mkMem { doubles : list (list R); points : list (list XYZW) }.

Definition dvec (m : Mem) (l : loc) : list R := default [] (doubles m !! l).
Definition pvec (m : Mem) (l : loc) : list XYZW := default [] (points m !! l).

Definition d_size (l : loc) : Run Mem Z := read (fun m => Ok (size (dvec m l))).
Definition d_at (name : string) (l : loc) (i : Z) : Run Mem R :=
  read (fun m => at_ name (dvec m l) i).
Definition d_update (l : loc) (f : list R -> Outcome (list R)) : Run Mem unit :=
  modify (fun m => let* v := f (dvec m l) in Ok (mkMem (<[l := v]> (doubles m)) (points m))).
Definition p_size (l : loc) : Run Mem Z := read (fun m => Ok (size (pvec m l))).
Definition p_at (name : string) (l : loc) (i : Z) : Run Mem XYZW :=
  read (fun m => at_ name (pvec m l) i).
Definition p_update (l : loc) (f : list XYZW -> Outcome (list XYZW)) : Run Mem unit :=
  modify (fun m => let* v := f (pvec m l) in Ok (mkMem (doubles m) (<[l := v]> (points m)))).

(** Copy construction of a parameter taken by value: a new vector at the
    end of the store. *)
Definition d_copy (l : loc) : Run Mem loc :=
  fun m => (mkMem (doubles m ++ [dvec m l]) (points m), Ok (length (doubles m))).
Definition p_copy (l : loc) : Run Mem loc :=
  fun m => (mkMem (doubles m) (points m ++ [pvec m l]), Ok (length (points m))).

(** The body of [ReverseKnotVector]; [reversedKnotVector] is the address of
    the parameter object. *)
Definition ReverseKnotVector_body (knotVector reversedKnotVector : loc) : Run Mem unit :=
  do size <- d_size knotVector;
  do min <- d_at "knotVector" knotVector 0;
  do max <- d_at "knotVector" knotVector (size - 1);
  d_update reversedKnotVector (vresize "reversedKnotVector" 0 size) ;;
  d_update reversedKnotVector (fun v => put "reversedKnotVector" v 0 min) ;;
  for_range 1 (size - 1) (fun i =>
    do prev <- d_at "reversedKnotVector" reversedKnotVector (i - 1);
    do a <- d_at "knotVector" knotVector (size - i);
    do b <- d_at "knotVector" knotVector (size - i - 1);
    d_update reversedKnotVector (fun v => put "reversedKnotVector" v i (prev + (a - b)))).

(** The body of [ReverseControlPoints]. *)
Definition ReverseControlPoints_body (controlPoints reversedControlPoints : loc) : Run Mem unit :=
  do size <- p_size controlPoints;
  p_update reversedControlPoints (vresize "reversedControlPoints" XYZW_ops.zero size) ;;
  for_range 0 (size - 1) (fun i =>
    do x <- p_at "controlPoints" controlPoints i;
    p_update reversedControlPoints (fun v => put "reversedControlPoints" v i x)) ;;
  p_update reversedControlPoints (fun v => Ok (reverse v)).

(** [void ReverseKnotVector(const std::vector<double>& knotVector,
    std::vector<double> reversedKnotVector)]: the second argument is
    copied. *)
Definition ReverseKnotVector (knotVector reversedKnotVector : loc) : Run Mem unit :=
  do copy <- d_copy reversedKnotVector;
  ReverseKnotVector_body knotVector copy.

(** [void ReverseControlPoints(const std::vector<XYZW>& controlPoints,
    std::vector<XYZW> reversedControlPoints)]. *)
Definition ReverseControlPoints (controlPoints reversedControlPoints : loc) : Run Mem unit :=
  do copy <- p_copy reversedControlPoints;
  ReverseControlPoints_body controlPoints copy.

(** [Reverse]: all four parameters are references. *)
Definition Reverse (knotVector controlPoints reversedKnotVector reversedControlPoints : loc)
  : Run Mem unit :=
  ReverseKnotVector knotVector reversedKnotVector ;;
  ReverseControlPoints controlPoints reversedControlPoints.
End Reverse.

(** ** [MathUtils]: the two matrix templates of the header

    [Transpose] and [GetColumn] are defined in [MathUtils.h].  Both take
    their result vector by value, so the body works on a copy that is
    dropped at the return.  The body is a run on the local objects; the
    function is a run on the vector of the caller. *)

Module MathUtils.
Section Matrix.
Context {T : Type}.

Record TransposeState : Type := mkTransposeState {
  tr_transposed : list (list T);   (* the parameter object *)
  tr_temp : list T
}.

(** The body of [Transpose(matrix, transposed)]. *)
Definition Transpose_body (matrix : list (list T)) : Run TransposeState unit :=
  do row0 <- get "matrix" matrix 0;
  for_range 0 (size row0 - 1) (fun i =>
    for_range 0 (size matrix - 1) (fun j =>
      do row <- get "matrix" matrix j;
      do x <- get "matrix[j]" row i;
      modify (fun s => Ok (mkTransposeState (tr_transposed s) (tr_temp s ++ [x])))) ;;
    modify (fun s => Ok (mkTransposeState (tr_transposed s ++ [tr_temp s]) (tr_temp s))) ;;
    modify (fun s => Ok (mkTransposeState (tr_transposed s) []))).

(** [static void Transpose(const std::vector<std::vector<T>>& matrix,
    std::vector<std::vector<T>> transposed)]. *)
Definition Transpose (matrix : list (list T)) : Run (list (list T)) unit :=
  fun transposed =>
    (transposed, snd (Transpose_body matrix (mkTransposeState transposed []))).

(** The body of [GetColumn(matrix, columnIndex, columnData)]; [T()] is the
    value that [resize] fills with. *)
Definition GetColumn_body (T0 : T) (matrix : list (list T)) (columnIndex : Z)
  : Run (list T) unit :=
  let size_ := size matrix in
  modify (vresize "columnData" T0 size_) ;;
  for_range 0 (size_ - 1) (fun i =>
    do row <- get "matrix" matrix i;
    do x <- get "matrix[i]" row columnIndex;
    modify (fun columnData => Ok (columnData ++ [x]))).

(** [static void GetColumn(const std::vector<std::vector<T>>& matrix,
    unsigned int columnIndex, std::vector<T> columnData)]. *)
Definition GetColumn (T0 : T) (matrix : list (list T)) (columnIndex : Z)
  : Run (list T) unit :=
  fun columnData => (columnData, snd (GetColumn_body T0 matrix columnIndex columnData)).
End Matrix.
End MathUtils.

(** ** [UVW]: a vector of three coordinates *)

Module UVW.
Record t : Type := mk { GetU : R; GetV : R; GetW : R }.

(** [UVW()]. *)
Definition zero : t := mk 0 0 0.

(** [m_uvw[index]]: the array has three cells. *)
Definition index (a : t) (i : Z) : Outcome R :=
  if (i =? 0)%Z then Ok (GetU a)
  else if (i =? 1)%Z then Ok (GetV a)
  else if (i =? 2)%Z then Ok (GetW a)
  else OutOfRange "m_uvw" i 3.

Definition SqrLength (a : t) : R :=
  GetU a * GetU a + GetV a * GetV a + GetW a * GetW a.
Definition Length (a : t) : R :=
  sqrt (GetU a * GetU a + GetV a * GetV a + GetW a * GetW a).
Definition IsUnit (a : t) (epsilon : R) : bool :=
  Rltb (Rabs (SqrLength a - 1)) (epsilon * epsilon).
Definition IsAlmostEqualTo (a another : t) : bool :=
  IsAlmostEqualTo (GetU a) (GetU another) &&
  IsAlmostEqualTo (GetV a) (GetV another) &&
  IsAlmostEqualTo (GetW a) (GetW another).
Definition DotProduct (a another : t) : R :=
  GetU a * GetU another + GetV a * GetV another + GetW a * GetW another.
Definition CrossProduct (a another : t) : t :=
  mk (GetV a * GetW another - GetW a * GetV another)
     (GetW a * GetU another - GetU a * GetW another)
     (GetU a * GetV another - GetV a * GetU another).
Definition Distance (a another : t) : R :=
  let squareValue :=
    (GetU another - GetU a) ^ 2 + (GetV another - GetV a) ^ 2 + (GetW another - GetW a) ^ 2 in
  sqrt squareValue.

(** The operators: [+], [-], [*] with a vector (the scalar product), unary
    [-], [*] and [/] with a number, and [^] (the cross product). *)
Definition add (a b : t) : t := mk (GetU a + GetU b) (GetV a + GetV b) (GetW a + GetW b).
Definition sub (a b : t) : t := mk (GetU a - GetU b) (GetV a - GetV b) (GetW a - GetW b).
Definition dot (a b : t) : R := DotProduct a b.
Definition neg (a : t) : t := mk (- GetU a) (- GetV a) (- GetW a).
Definition scale (source : t) (d : R) : t :=
  mk (GetU source * d) (GetV source * d) (GetW source * d).
Definition divide (source : t) (d : R) : t :=
  mk (GetU source / d) (GetV source / d) (GetW source / d).
Definition cross (uvw1 uvw2 : t) : t := CrossProduct uvw1 uvw2.
End UVW.
(** ** Vectors of points as functions of the index *)

(** The control point of index [i], the zero vector outside the net (as
    [knot] for the knots). *)
Definition pt (v : list XYZW) (i : Z) : XYZW := nth (Z.to_nat i) v XYZW_ops.zero.

(** ** The mathematics of knot insertion

    The statement that [InsertKnot] keeps the curve needs the B-spline basis
    functions and Boehm's insertion of one knot as mathematical objects, on
    knots and control points that are functions of the index. *)

Module Spline.
Section Basis.
Variable u : Z -> R.
Variable kappa : Z.
Variable t : R.

(** The B-spline basis functions of the span [kappa]: the polynomial pieces
    on [u kappa, u (kappa + 1)) of the functions N_{i,q}, by the recurrence
    of Cox and de Boor. *)
Fixpoint N (q : nat) (i : Z) : R :=
  match q with
  | O => if (i =? kappa)%Z then 1 else 0
  | S q' =>
      let d := Z.of_nat q in
      (t - u i) / (u (i + d) - u i) * N q' i
      + (u (i + d + 1) - t) / (u (i + d + 1) - u (i + 1)) * N q' (i + 1)
  end.
End Basis.

(** The knots [v] without the knot of index [k + 1]. *)
Definition del (v : Z -> R) (k : Z) : Z -> R :=
  fun j => if (j <=? k)%Z then v j else v (j + 1)%Z.

(** The ratios of Boehm's knot insertion, for the degree [q], on the knots
    [v] that include the inserted knot [v (k + 1)]. *)
Definition alpha (v : Z -> R) (k q i : Z) : R :=
  if (i <=? k - q)%Z then 1
  else if (i <=? k)%Z then (v (k + 1)%Z - v i) / (v (i + q + 1)%Z - v i)
  else 0.

(** The sum of [f a], ..., [f (a + n - 1)]. *)
Fixpoint vsum (f : Z -> XYZW) (a : Z) (n : nat) : XYZW :=
  match n with
  | O => XYZW_ops.zero
  | S n' => XYZW_ops.add (f a) (vsum f (a + 1) n')
  end.

(** One insertion, on the control points: Q_i = alpha_i P_i + (1 - alpha_i) P_{i-1}. *)
Definition insP (v : Z -> R) (k p : Z) (c : Z -> XYZW) : Z -> XYZW :=
  fun i => XYZW_ops.add (XYZW_ops.scale (alpha v k p i) (c i))
                        (XYZW_ops.scale (1 - alpha v k p i) (c (i - 1)%Z)).

(** The knots [u] with [j] copies of [ubar] after the index [k]. *)
Definition insr (u : Z -> R) (k : Z) (ubar : R) (j : Z) : Z -> R :=
  fun i => if (i <=? k)%Z then u i else if (i <=? k + j)%Z then ubar else u (i - j)%Z.

(** The control points after [j] insertions of [ubar], one at a time. *)
Fixpoint Qr (u : Z -> R) (k : Z) (ubar : R) (p : Z) (c : Z -> XYZW) (j : nat) : Z -> XYZW :=
  match j with
  | O => c
  | S j' => insP (insr u k ubar (Z.of_nat j)) (k + Z.of_nat j') p (Qr u k ubar p c j')
  end.

End Spline.

(** * Facts

    ** Scalars *)

Lemma Rleb_true x y : x <= y -> Rleb x y = true.
Proof. intros H. unfold Rleb. destruct (Rle_dec x y); [reflexivity | contradiction]. Qed.
Lemma Rleb_false x y : y < x -> Rleb x y = false.
Proof. intros H. unfold Rleb. destruct (Rle_dec x y); [lra | reflexivity]. Qed.
Lemma Rltb_true x y : x < y -> Rltb x y = true.
Proof. intros H. unfold Rltb. destruct (Rlt_dec x y); [reflexivity | contradiction]. Qed.
Lemma Rltb_false x y : y <= x -> Rltb x y = false.
Proof. intros H. unfold Rltb. destruct (Rlt_dec x y); [lra | reflexivity]. Qed.
Lemma Reqb_true x y : x = y -> Reqb x y = true.
Proof. intros H. unfold Reqb. destruct (Req_dec_T x y); [reflexivity | contradiction]. Qed.
Lemma Reqb_false x y : x <> y -> Reqb x y = false.
Proof. intros H. unfold Reqb. destruct (Req_dec_T x y); [contradiction | reflexivity]. Qed.

Lemma Rleb_spec x y : Rleb x y = true <-> x <= y.
Proof. unfold Rleb. destruct (Rle_dec x y); split; (congruence || lra || tauto). Qed.
Lemma Rltb_spec x y : Rltb x y = true <-> x < y.
Proof. unfold Rltb. destruct (Rlt_dec x y); split; (congruence || lra || tauto). Qed.
Lemma Reqb_spec x y : Reqb x y = true <-> x = y.
Proof. unfold Reqb. destruct (Req_dec_T x y); split; (congruence || tauto). Qed.

Lemma IsAlmostEqualTo_true a b :
  - DoubleEpsilon < a - b < DoubleEpsilon -> IsAlmostEqualTo a b = true.
Proof.
  intros H. apply Rltb_true. unfold Rabs. destruct (Rcase_abs (a - b)); lra.
Qed.

Lemma IsAlmostEqualTo_false a b :
  DoubleEpsilon <= a - b \/ a - b <= - DoubleEpsilon -> IsAlmostEqualTo a b = false.
Proof.
  intros H. apply Rltb_false. unfold Rabs. destruct (Rcase_abs (a - b)); lra.
Qed.

Lemma IsAlmostEqualTo_refl a : IsAlmostEqualTo a a = true.
Proof. apply IsAlmostEqualTo_true. unfold DoubleEpsilon. lra. Qed.


Lemma IsLessThanOrEqual_false a b : b + 1 < a -> IsLessThanOrEqual a b = false.
Proof.
  intros H. unfold IsLessThanOrEqual. rewrite Rltb_false by lra.
  rewrite IsAlmostEqualTo_false; [reflexivity|]. left. unfold DoubleEpsilon. lra.
Qed.

(** Evaluation of the comparisons of a run on numerals. *)
Ltac decide_R :=
  repeat match goal with
    | |- context [Rleb ?a ?b] =>
        first [rewrite (Rleb_true a b) by lra | rewrite (Rleb_false a b) by lra]
    | |- context [Rltb ?a ?b] =>
        first [rewrite (Rltb_true a b) by lra | rewrite (Rltb_false a b) by lra]
    | |- context [IsAlmostEqualTo ?a ?b] =>
        first [rewrite (IsAlmostEqualTo_true a b) by (unfold DoubleEpsilon; lra)
              | rewrite (IsAlmostEqualTo_false a b) by (unfold DoubleEpsilon; lra)]
    end.

Ltac run_R :=
  cbv -[Rleb Rltb Reqb IsAlmostEqualTo IZR Rplus Rminus Rmult Rdiv Rinv Ropp sqrt Rabs
        DoubleEpsilon DistanceEpsilon cos sin PI];
  repeat (progress decide_R;
          cbv -[Rleb Rltb Reqb IsAlmostEqualTo IZR Rplus Rminus Rmult Rdiv Rinv Ropp sqrt Rabs
                DoubleEpsilon DistanceEpsilon cos sin PI]).

Ltac decide_Reqb :=
  repeat match goal with
    | |- context [Reqb ?a ?b] =>
        first [rewrite (Reqb_true a b) by lra | rewrite (Reqb_false a b) by lra]
    end.

(** ** Runs *)

Lemma rbind_Ok {S A B} (c : Run S A) (k : A -> Run S B) s s' a :
  c s = (s', Ok a) -> rbind c k s = k a s'.
Proof. intros H. unfold rbind. rewrite H. reflexivity. Qed.

Lemma rbind_not_Ok {S A B} (c : Run S A) (k : A -> Run S B) s :
  is_Ok (snd (c s)) = false -> is_Ok (snd (rbind c k s)) = false.
Proof. unfold rbind. destruct (c s) as [s' [a| | |]]; simpl; congruence. Qed.

Lemma rbind_OutOfRange {S A B} (c : Run S A) (k : A -> Run S B) s :
  is_OutOfRange (snd (c s)) = true -> is_OutOfRange (snd (rbind c k s)) = true.
Proof. unfold rbind. destruct (c s) as [s' [a| | |]]; simpl; congruence. Qed.

Lemma rbind_Throw {S A B} (c : Run S A) (k : A -> Run S B) s x :
  c s = (s, Throw x) -> rbind c k s = (s, Throw x).
Proof. intros H. unfold rbind. rewrite H. reflexivity. Qed.

Lemma VALIDATE_ARGUMENT_true {S} (name : string) (s : S) :
  VALIDATE_ARGUMENT true name s = (s, Ok tt).
Proof. reflexivity. Qed.

Lemma VALIDATE_ARGUMENT_false {S} (name : string) (s : S) :
  VALIDATE_ARGUMENT false name s = (s, Throw name).
Proof. reflexivity. Qed.

Lemma for_range_empty {St} lo hi (body : Z -> Run St unit) s :
  (hi < lo)%Z -> for_range lo hi body s = (s, Ok tt).
Proof.
  intros H. unfold for_range. replace (Z.to_nat (hi + 1 - lo)) with O by lia. reflexivity.
Qed.

Lemma for_range_step {St} lo hi (body : Z -> Run St unit) :
  (lo <= hi)%Z -> for_range lo hi body = (body lo ;; for_range (lo + 1) hi body).
Proof.
  intros H. unfold for_range.
  replace (Z.to_nat (hi + 1 - lo)) with (S (Z.to_nat (hi + 1 - (lo + 1)))) by lia.
  reflexivity.
Qed.

Lemma at_Ok {A} name (v : list A) (i : Z) x :
  (0 <= i)%Z -> v !! Z.to_nat i = Some x -> at_ name v i = Ok x.
Proof.
  intros Hi Hx. unfold at_. destruct (Z.leb_spec 0 i); [|lia]. rewrite Hx. reflexivity.
Qed.

Lemma at_inv {A} name (v : list A) (i : Z) x :
  at_ name v i = Ok x -> (0 <= i < size v)%Z /\ v !! Z.to_nat i = Some x.
Proof.
  unfold at_, size. destruct (Z.leb_spec 0 i); [|discriminate].
  destruct (v !! Z.to_nat i) eqn:E; [|discriminate].
  intros [= ->]. apply lookup_lt_Some in E. split; [lia | reflexivity].
Qed.

Lemma at_is_Ok {A} name (v : list A) (i : Z) :
  (0 <= i < size v)%Z -> exists x, at_ name v i = Ok x /\ v !! Z.to_nat i = Some x.
Proof.
  unfold size. intros Hi.
  destruct (lookup_lt_is_Some_2 v (Z.to_nat i)) as [x Hx]; [lia|].
  exists x. split; [apply at_Ok; [lia | assumption] | assumption].
Qed.

Lemma at_out_of_range {A} name (v : list A) (i : Z) :
  (i < 0 \/ size v <= i)%Z -> at_ name v i = OutOfRange name i (length v).
Proof.
  unfold at_, size. intros Hi. destruct (Z.leb_spec 0 i); [|reflexivity].
  rewrite lookup_ge_None_2 by lia. reflexivity.
Qed.

Lemma put_Ok {A} name (v : list A) (i : Z) x :
  (0 <= i < size v)%Z -> put name v i x = Ok (<[Z.to_nat i := x]> v).
Proof.
  unfold put, size. intros Hi.
  destruct (Z.leb_spec 0 i); [|lia]. destruct (Z.ltb_spec i (Z.of_nat (length v))); [|lia].
  reflexivity.
Qed.

Lemma put_out_of_range {A} name (v : list A) (i : Z) x :
  (i < 0 \/ size v <= i)%Z -> put name v i x = OutOfRange name i (length v).
Proof.
  unfold put, size. intros Hi.
  destruct (Z.leb_spec 0 i); destruct (Z.ltb_spec i (Z.of_nat (length v)));
    simpl; try reflexivity; lia.
Qed.

Lemma put_inv {A} name (v v' : list A) (i : Z) x :
  put name v i x = Ok v' -> (0 <= i < size v)%Z /\ v' = <[Z.to_nat i := x]> v.
Proof.
  unfold put, size.
  destruct (Z.leb_spec 0 i); destruct (Z.ltb_spec i (Z.of_nat (length v)));
    simpl; try discriminate.
  intros [= <-]. split; [lia | reflexivity].
Qed.

Lemma vresize_Ok {A} name (d : A) n v :
  (0 <= n)%Z -> vresize name d n v = Ok (resize (Z.to_nat n) d v).
Proof. intros H. unfold vresize. destruct (Z.leb_spec 0 n); [reflexivity | lia]. Qed.

Lemma size_resize {A} (d : A) n v : size (resize n d v) = Z.of_nat n.
Proof. unfold size. rewrite length_resize. reflexivity. Qed.

Lemma size_insert {A} (v : list A) i x : size (<[i := x]> v) = size v.
Proof. unfold size. rewrite length_insert. reflexivity. Qed.

(** [keeps_inv I c]: the run [c] does not run out of fuel and preserves [I],
    whether it returns or fails. *)
Definition keeps_inv {St A} (I : St -> Prop) (c : Run St A) : Prop :=
  forall s, I s -> snd (c s) <> OutOfFuel /\ I (fst (c s)).

Lemma keeps_inv_ret {St A} (I : St -> Prop) (a : A) : keeps_inv I (ret a).
Proof. intros s H. simpl. split; [discriminate | assumption]. Qed.

Lemma keeps_inv_rbind {St A B} (I : St -> Prop) (c : Run St A) (k : A -> Run St B) :
  keeps_inv I c -> (forall a, keeps_inv I (k a)) -> keeps_inv I (rbind c k).
Proof.
  intros Hc Hk s Hs. unfold rbind. destruct (Hc s Hs) as [Hf Hi].
  destruct (c s) as [s' [a| | |]]; simpl in *;
    try (split; [discriminate | assumption]); try congruence.
  apply Hk, Hi.
Qed.

Lemma keeps_inv_for_up {St} (I : St -> Prop) n : forall i (body : Z -> Run St unit),
  (forall j, keeps_inv I (body j)) -> keeps_inv I (for_up n i body).
Proof.
  induction n as [|n IH]; intros i body Hb; simpl.
  - apply keeps_inv_ret.
  - apply keeps_inv_rbind; [apply Hb | intros _; apply IH, Hb].
Qed.

Lemma keeps_inv_for_range {St} (I : St -> Prop) lo hi (body : Z -> Run St unit) :
  (forall j, keeps_inv I (body j)) -> keeps_inv I (for_range lo hi body).
Proof. intros Hb. apply keeps_inv_for_up, Hb. Qed.

Lemma keeps_inv_for_below_size {St A} (I : St -> Prop) lo (v : list A)
    (body : Z -> Run St unit) :
  (forall j, keeps_inv I (body j)) -> keeps_inv I (for_below_size lo v body).
Proof.
  intros Hb. unfold for_below_size. destruct (lo <? 0)%Z.
  - apply keeps_inv_ret.
  - apply keeps_inv_for_range, Hb.
Qed.

Lemma keeps_inv_read {St A} (I : St -> Prop) (f : St -> Outcome A) :
  (forall s, f s <> OutOfFuel) -> keeps_inv I (read f).
Proof. intros Hf s Hs. simpl. split; [apply Hf | assumption]. Qed.

Lemma keeps_inv_modify {St} (I : St -> Prop) (f : St -> Outcome St) :
  (forall s, f s <> OutOfFuel) -> (forall s s', I s -> f s = Ok s' -> I s') ->
  keeps_inv I (modify f).
Proof.
  intros Hf Hi s Hs. unfold modify. specialize (Hf s). specialize (Hi s).
  destruct (f s) as [s'| | |]; simpl; split; try discriminate; try assumption;
    try congruence.
  apply Hi; [assumption | reflexivity].
Qed.

Lemma keeps_inv_VALIDATE_ARGUMENT {St} (I : St -> Prop) c name :
  keeps_inv I (@VALIDATE_ARGUMENT St c name).
Proof. intros s Hs. unfold VALIDATE_ARGUMENT. simpl. split; [destruct c; discriminate | assumption]. Qed.

Lemma at_fuel {A} name (v : list A) i : at_ name v i <> OutOfFuel.
Proof. unfold at_. destruct (0 <=? i)%Z; [destruct (v !! Z.to_nat i)|]; discriminate. Qed.

Lemma put_fuel {A} name (v : list A) i x : put name v i x <> OutOfFuel.
Proof. unfold put. destruct ((0 <=? i)%Z && (i <? Z.of_nat (length v))%Z); discriminate. Qed.

Lemma vresize_fuel {A} name (d : A) n v : vresize name d n v <> OutOfFuel.
Proof. unfold vresize. destruct (0 <=? n)%Z; discriminate. Qed.

Lemma bind_fuel {A B} (m : Outcome A) (f : A -> Outcome B) :
  m <> OutOfFuel -> (forall a, f a <> OutOfFuel) -> bind m f <> OutOfFuel.
Proof. intros Hm Hf. destruct m; simpl; try discriminate; [apply Hf | congruence]. Qed.

Lemma keeps_inv_VALIDATE_ARGUMENT_RANGE {St} (I : St -> Prop) name v lo hi :
  v <> OutOfFuel -> lo <> OutOfFuel -> hi <> OutOfFuel ->
  keeps_inv I (@VALIDATE_ARGUMENT_RANGE St name v lo hi).
Proof.
  intros Hv Hlo Hhi s Hs. unfold VALIDATE_ARGUMENT_RANGE. simpl. split; [|assumption].
  apply bind_fuel; [assumption|]. intros a. apply bind_fuel; [assumption|]. intros b.
  apply bind_fuel; [assumption|]. intros c. destruct (Rleb a c && Rleb c b); discriminate.
Qed.

Lemma keeps_inv_get {St A} (I : St -> Prop) name (v : list A) i :
  keeps_inv I (@get St A name v i).
Proof. apply keeps_inv_read. intros _. apply at_fuel. Qed.

Lemma keeps_inv_True_snd {St A} (c : Run St A) s :
  keeps_inv (fun _ => True) c -> snd (c s) <> OutOfFuel.
Proof. intros H. apply (H s I). Qed.

Lemma while_false {St} fuel (cond : St -> Outcome bool) (body : Run St unit) s :
  cond s = Ok false -> while (S fuel) cond body s = (s, Ok tt).
Proof. intros H. cbn [while]. unfold rbind, read. rewrite H. reflexivity. Qed.

Lemma while_true {St} fuel (cond : St -> Outcome bool) (body : Run St unit) s :
  cond s = Ok true -> while (S fuel) cond body s = (body ;; while fuel cond body) s.
Proof. intros H. cbn [while]. unfold rbind at 1, read. rewrite H. reflexivity. Qed.

(** A loop whose body leaves the state as it is, on a state that passes the
    test, is still running after any number of turns. *)
Lemma while_stuck {St} (cond : St -> Outcome bool) (body : Run St unit) s :
  cond s = Ok true -> body s = (s, Ok tt) ->
  forall fuel, while fuel cond body s = (s, OutOfFuel).
Proof.
  intros Hc Hb. induction fuel as [|fuel IH]; [reflexivity|].
  rewrite while_true by assumption. unfold rbind. rewrite Hb. exact IH.
Qed.

Lemma rbind_assoc {St A B C} (c : Run St A) (k1 : A -> Run St B) (k2 : B -> Run St C) s :
  rbind (rbind c k1) k2 s = rbind c (fun a => rbind (k1 a) k2) s.
Proof. unfold rbind. destruct (c s) as [s' [a| | |]]; reflexivity. Qed.

Lemma rbind_ret {St A B} (a : A) (k : A -> Run St B) s : rbind (ret a) k s = k a s.
Proof. reflexivity. Qed.

(** Evaluation of the first statement of a run on a state of numerals: the
    statement is computed with the arithmetic of the reals and the
    comparisons left alone. *)
Ltac eval_run t :=
  eval cbv -[IZR Rplus Rminus Rmult Rdiv Rinv Ropp sqrt Rabs cos sin PI pow Rmin Rmax
             Rleb Rltb Reqb IsAlmostEqualTo IsLessThanOrEqual DoubleEpsilon DistanceEpsilon]
  in t.

Ltac run_step :=
  match goal with
  | |- context [rbind ?c ?k ?s] =>
      let r := eval_run (c s) in
      lazymatch r with
      | (?s', Ok ?a) => rewrite (rbind_Ok c k s s' a) by reflexivity
      end
  end.

Ltac run_steps := repeat first [rewrite rbind_assoc | run_step].

(** ** [Reverse] writes to copies only *)

Module ReverseFacts.
Import Reverse.

(** [keeps nd np c]: a run of [c] leaves the first [nd] vectors of doubles and
    the first [np] vectors of points of the store as they are. *)
Definition keeps {A} (nd np : nat) (c : Run Mem A) : Prop :=
  forall m, (nd <= length (doubles m))%nat -> (np <= length (points m))%nat ->
    take nd (doubles (fst (c m))) = take nd (doubles m) /\
    take np (points (fst (c m))) = take np (points m) /\
    (nd <= length (doubles (fst (c m))))%nat /\
    (np <= length (points (fst (c m))))%nat.

Lemma keeps_ret {A} nd np (a : A) : keeps nd np (ret a).
Proof. intros m Hd Hp. simpl. auto. Qed.

Lemma keeps_seq {A B} nd np (c : Run Mem A) (k : A -> Run Mem B) :
  keeps nd np c -> (forall a, keeps nd np (k a)) -> keeps nd np (rbind c k).
Proof.
  intros Hc Hk m Hd Hp. unfold rbind.
  destruct (Hc m Hd Hp) as (E1 & E2 & L1 & L2).
  destruct (c m) as [m' [a| | |]]; simpl in *; auto.
  destruct (Hk a m' L1 L2) as (F1 & F2 & M1 & M2).
  rewrite F1, F2. auto.
Qed.

Lemma keeps_d_size nd np l : keeps nd np (d_size l).
Proof. intros m Hd Hp. simpl. auto. Qed.

Lemma keeps_p_size nd np l : keeps nd np (p_size l).
Proof. intros m Hd Hp. simpl. auto. Qed.

Lemma keeps_d_at nd np s l i : keeps nd np (d_at s l i).
Proof. intros m Hd Hp. simpl. auto. Qed.

Lemma keeps_p_at nd np s l i : keeps nd np (p_at s l i).
Proof. intros m Hd Hp. simpl. auto. Qed.

Lemma keeps_d_update nd np l f : (nd <= l)%nat -> keeps nd np (d_update l f).
Proof.
  intros Hl m Hd Hp. unfold d_update, modify.
  destruct (f (dvec m l)); simpl; auto.
  rewrite take_insert_ge by assumption. rewrite length_insert. auto.
Qed.

Lemma keeps_p_update nd np l f : (np <= l)%nat -> keeps nd np (p_update l f).
Proof.
  intros Hl m Hd Hp. unfold p_update, modify.
  destruct (f (pvec m l)); simpl; auto.
  rewrite take_insert_ge by assumption. rewrite length_insert. auto.
Qed.

Lemma keeps_for_up nd np n : forall i (body : Z -> Run Mem unit),
  (forall j, keeps nd np (body j)) -> keeps nd np (for_up n i body).
Proof.
  induction n as [|n IH]; intros i body Hb; simpl.
  - apply keeps_ret.
  - apply keeps_seq; [apply Hb | intros _; apply IH, Hb].
Qed.

Create HintDb keeps.
#[local] Hint Resolve keeps_ret keeps_d_size keeps_p_size keeps_d_at keeps_p_at
  keeps_d_update keeps_p_update : keeps.

Lemma keeps_ReverseKnotVector_body nd np kv l :
  (nd <= l)%nat -> keeps nd np (ReverseKnotVector_body kv l).
Proof.
  intros Hl. unfold ReverseKnotVector_body.
  repeat (apply keeps_seq; [auto with keeps | intros ?]).
  apply keeps_for_up. intros j.
  repeat (apply keeps_seq; [auto with keeps | intros ?]).
  auto with keeps.
Qed.

Lemma keeps_ReverseControlPoints_body nd np cp l :
  (np <= l)%nat -> keeps nd np (ReverseControlPoints_body cp l).
Proof.
  intros Hl. unfold ReverseControlPoints_body.
  apply keeps_seq; [auto with keeps | intros ?].
  apply keeps_seq; [auto with keeps | intros ?].
  apply keeps_seq; [| intros ?; auto with keeps].
  apply keeps_for_up. intros j.
  apply keeps_seq; [auto with keeps | intros ?]. auto with keeps.
Qed.

(** A call by value copies the argument to an address past the kept part
    of the store, and the body writes there. *)
Lemma keeps_ReverseKnotVector nd np kv l : keeps nd np (ReverseKnotVector kv l).
Proof.
  intros m Hd Hp. unfold ReverseKnotVector, rbind, d_copy.
  set (m1 := mkMem (doubles m ++ [dvec m l]) (points m)).
  assert (H1 : (nd <= length (doubles m1))%nat)
    by (simpl; rewrite length_app; simpl; lia).
  destruct (keeps_ReverseKnotVector_body nd np kv (length (doubles m)) Hd m1 H1 Hp)
    as (E1 & E2 & L1 & L2).
  rewrite E1, E2. simpl. rewrite take_app_le by assumption. auto.
Qed.

Lemma keeps_ReverseControlPoints nd np cp l : keeps nd np (ReverseControlPoints cp l).
Proof.
  intros m Hd Hp. unfold ReverseControlPoints, rbind, p_copy.
  set (m1 := mkMem (doubles m) (points m ++ [pvec m l])).
  assert (H1 : (np <= length (points m1))%nat)
    by (simpl; rewrite length_app; simpl; lia).
  destruct (keeps_ReverseControlPoints_body nd np cp (length (points m)) Hp m1 Hd H1)
    as (E1 & E2 & L1 & L2).
  rewrite E1, E2. simpl. rewrite take_app_le by assumption. auto.
Qed.

Lemma keeps_Reverse nd np kv cp rkv rcp : keeps nd np (Reverse kv cp rkv rcp).
Proof.
  unfold Reverse. apply keeps_seq.
  - apply keeps_ReverseKnotVector.
  - intros _. apply keeps_ReverseControlPoints.
Qed.

(** C9.  Whatever the knot vector and the control points are, and whether
    the call returns or fails, the caller's [reversedKnotVector] and
    [reversedControlPoints] (and every other vector the store held before
    the call) have the same content after a call of [Reverse] as before it:
    the reversed data is written to the copies made for the by-value
    parameters of [ReverseKnotVector] and [ReverseControlPoints]. *)
Theorem Reverse_leaves_outputs_unchanged :
  forall (m : Mem) (knotVector controlPoints reversedKnotVector reversedControlPoints : loc),
    (reversedKnotVector < length (doubles m))%nat ->
    (reversedControlPoints < length (points m))%nat ->
    let m' := fst (Reverse knotVector controlPoints reversedKnotVector reversedControlPoints m) in
    dvec m' reversedKnotVector = dvec m reversedKnotVector /\
    pvec m' reversedControlPoints = pvec m reversedControlPoints /\
    take (length (doubles m)) (doubles m') = doubles m /\
    take (length (points m)) (points m') = points m.
Proof.
  intros m kv cp rkv rcp Hk Hc m'.
  destruct (keeps_Reverse (length (doubles m)) (length (points m)) kv cp rkv rcp m
              (le_n _) (le_n _)) as (E1 & E2 & L1 & L2).
  fold m' in E1, E2, L1, L2. rewrite firstn_all in E1, E2.
  unfold dvec, pvec.
  rewrite <- (lookup_take_lt (doubles m') (length (doubles m)) rkv) by assumption.
  rewrite <- (lookup_take_lt (points m') (length (points m)) rcp) by assumption.
  rewrite E1, E2. auto.
Qed.

(** The store of the examples: a knot vector and an output vector of
    doubles, a control net and an output vector of points. *)
Definition example_mem : Mem :=
  mkMem [[0; 1; 3]; [7]]
        [[mkXYZW 1 0 0 1; mkXYZW 0 2 0 1]; [mkXYZW 5 5 5 5]].

Lemma Reverse_leaves_outputs_unchanged_witness :
  (1 < length (doubles example_mem))%nat /\
  (1 < length (points example_mem))%nat /\
  dvec (fst (Reverse 0 0 1 1 example_mem)) 1 = dvec example_mem 1 /\
  pvec (fst (Reverse 0 0 1 1 example_mem)) 1 = pvec example_mem 1.
Proof.
  assert (H1 : (1 < length (doubles example_mem))%nat) by (simpl; lia).
  assert (H2 : (1 < length (points example_mem))%nat) by (simpl; lia).
  split; [exact H1|]. split; [exact H2|].
  destruct (Reverse_leaves_outputs_unchanged example_mem 0%nat 0%nat 1%nat 1%nat H1 H2)
    as (E1 & E2 & _).
  split; assumption.
Defined.

(** The bodies do reverse: run on the caller's vector itself, as a reference
    parameter would have it, [ReverseControlPoints_body] leaves the reversed
    control net there. *)
Example ReverseControlPoints_body_by_reference :
  pvec (fst (ReverseControlPoints_body 0 1 example_mem)) 1
  = [mkXYZW 0 2 0 1; mkXYZW 1 0 0 1].
Proof. reflexivity. Qed.

Example ReverseKnotVector_body_by_reference :
  dvec (fst (ReverseKnotVector_body 0 1 example_mem)) 1
  = [0; 0 + (3 - 1); 0 + (3 - 1) + (1 - 0)].
Proof. reflexivity. Qed.

End ReverseFacts.

(** ** [GlobalInterpolation] writes to the buffer as it gets it *)

Section GlobalInterpolationFacts.
Variable GetChordParameterization : list XYZ -> list R.
Variable ComputeKnotVector : Z -> Z -> list R -> list R.
Variable MakeInterpolationMatrix : Z -> Z -> list R -> list R -> list (list R).
Variable ComputerControlPointsByLUDecomposition : list (list R) -> list XYZ -> list XYZ.

Let GI := NurbsCurve.GlobalInterpolation GetChordParameterization ComputeKnotVector
            MakeInterpolationMatrix ComputerControlPointsByLUDecomposition.

(** The writing loop of [GlobalInterpolation] on a buffer that ends before
    the last index of the loop ends in an access out of range. *)
Lemma copy_loop_out_of_range (temp : list XYZ) n : forall (i : Z) (out : list R * list XYZW),
  (0 <= i)%Z -> (i <= size (snd out) < i + Z.of_nat n)%Z ->
  is_OutOfRange (snd (for_up n i (fun i =>
    do x <- get "tempControlPoints" temp i;
    modify (fun out : list R * list XYZW =>
      let* v := put "controlPoints" (snd out) i (XYZW_ops.of_XYZ x 1) in
      Ok (fst out, v))) out)) = true.
Proof.
  induction n as [|n IH]; intros i out Hi Hn; [lia|].
  cbn [for_up]. unfold rbind at 1. unfold rbind at 1, get, read.
  destruct (at_ "tempControlPoints" temp i) as [x| | |] eqn:Ex; try reflexivity.
  - unfold modify.
    destruct (Z.eq_dec i (size (snd out))) as [->|Hne].
    + rewrite put_out_of_range by lia. reflexivity.
    + rewrite put_Ok by lia. cbn [bind].
      apply IH; [lia|]. cbn [snd]. rewrite size_insert. lia.
  - unfold at_ in Ex. destruct (0 <=? i)%Z; [destruct (temp !! Z.to_nat i)|]; discriminate.
  - unfold at_ in Ex. destruct (0 <=? i)%Z; [destruct (temp !! Z.to_nat i)|]; discriminate.
Qed.

(** C10, on the code.  When the buffer handed in for the control points is
    shorter than the list of through-points (an empty vector, as the sibling
    functions expect), the run of [GlobalInterpolation] ends in an access
    out of the bounds of a vector: the function writes [controlPoints[i]]
    for [i < |Q|] and never resizes [controlPoints]. *)
Theorem GlobalInterpolation_writes_out_of_range :
  forall (degree : Z) (throughPoints : list XYZ) (knotVector : list R)
         (controlPoints : list XYZW),
    (length controlPoints < length throughPoints)%nat ->
    is_OutOfRange (snd (GI degree throughPoints (knotVector, controlPoints))) = true.
Proof.
  intros degree Q kv cps Hlen. unfold GI, NurbsCurve.GlobalInterpolation.
  unfold rbind at 1. cbn [modify fst snd]. unfold rbind at 1. cbn [read fst snd].
  unfold for_range. apply copy_loop_out_of_range; [lia|].
  cbn [snd]. unfold size. lia.
Qed.

End GlobalInterpolationFacts.

Lemma GlobalInterpolation_writes_out_of_range_witness :
  (length (@nil XYZW) < length [mkXYZ 0 0 0; mkXYZ 1 1 0])%nat /\
  is_OutOfRange (snd (NurbsCurve.GlobalInterpolation
    (fun _ => [0; 1]) (fun _ _ _ => [0; 0; 1; 1]) (fun _ _ _ _ => [[1; 0]; [0; 1]])
    (fun _ q => q) 1 [mkXYZ 0 0 0; mkXYZ 1 1 0] ([], []))) = true.
Proof.
  assert (H : (length (@nil XYZW) < length [mkXYZ 0 0 0; mkXYZ 1 1 0])%nat) by (simpl; lia).
  split; [exact H|].
  exact (GlobalInterpolation_writes_out_of_range (fun _ => [0; 1]) (fun _ _ _ => [0; 0; 1; 1])
           (fun _ _ _ _ => [[1; 0]; [0; 1]]) (fun _ q => q) 1 [mkXYZ 0 0 0; mkXYZ 1 1 0]
           [] [] H).
Defined.

(** The failing run, evaluated: the first write, [controlPoints[0]], is on a
    vector of size 0. *)
Example GlobalInterpolation_empty_buffer :
  NurbsCurve.GlobalInterpolation
    (fun _ => [0; 1]) (fun _ _ _ => [0; 0; 1; 1]) (fun _ _ _ _ => [[1; 0]; [0; 1]])
    (fun _ q => q) 1 [mkXYZ 0 0 0; mkXYZ 1 1 0] ([], [])
  = (([0; 0; 1; 1], []), OutOfRange "controlPoints" 0 0).
Proof. reflexivity. Qed.

(** ** [GetParamOnCurve]: the candidate of a Newton step *)

Lemma adjust_candidate_closed a b temp :
  a <= b ->
  NurbsCurve.adjust_candidate true a b temp
  = if Rltb temp a then a else if Rltb b temp then b else temp.
Proof.
  intros Hab. unfold NurbsCurve.adjust_candidate, Rltb.
  destruct (Rlt_dec temp a); destruct (Rlt_dec b temp); destruct (Rlt_dec b a);
    try reflexivity; lra.
Qed.

(** C5, on the code.  The two branches are the other way round: on a closed
    control net ([isClosed = true]) a candidate below the domain [[0, 1]] is
    clamped to its lower end, and on an open one it is wrapped to the upper
    part of the domain; likewise above the domain. *)
Theorem adjust_candidate_closed_clamps_open_wraps :
  NurbsCurve.adjust_candidate true 0 1 (- (1 / 4)) = 0 /\
  NurbsCurve.adjust_candidate false 0 1 (- (1 / 4)) = 1 - (0 - - (1 / 4)) /\
  NurbsCurve.adjust_candidate true 0 1 (5 / 4) = 1 /\
  NurbsCurve.adjust_candidate false 0 1 (5 / 4) = 0 + (5 / 4 - 1).
Proof.
  unfold NurbsCurve.adjust_candidate. repeat split; decide_R; reflexivity.
Qed.

(** On every domain: a closed net clamps. *)
Lemma adjust_candidate_closed_in_domain a b temp :
  a <= b -> a <= NurbsCurve.adjust_candidate true a b temp <= b.
Proof.
  intros Hab. rewrite adjust_candidate_closed by assumption. unfold Rltb.
  destruct (Rlt_dec temp a); destruct (Rlt_dec b temp); lra.
Qed.

(** An open net wraps, and a wrapped candidate can stay outside. *)
Lemma adjust_candidate_open_wraps a b temp :
  a <= b -> temp < a -> a - temp <= b - a ->
  NurbsCurve.adjust_candidate false a b temp = b - (a - temp).
Proof.
  intros Hab Hlt Hd. unfold NurbsCurve.adjust_candidate, Rltb.
  destruct (Rlt_dec temp a); [|lra]. destruct (Rlt_dec b (b - (a - temp))); [lra|reflexivity].
Qed.

(** ** The Newton loop of [GetParamOnCurve] runs at most ten times *)

Ltac inv_step :=
  first
    [ apply keeps_inv_VALIDATE_ARGUMENT
    | apply keeps_inv_VALIDATE_ARGUMENT_RANGE; [discriminate | apply at_fuel | apply at_fuel]
    | apply keeps_inv_get
    | apply keeps_inv_ret
    | apply keeps_inv_rbind; [|intros ?]
    | apply keeps_inv_for_range; intros ?
    | apply keeps_inv_for_below_size; intros ? ].

Lemma GetPointOnCurve_fuel degree U t P :
  NurbsCurve.GetPointOnCurve degree U t P <> OutOfFuel.
Proof.
  unfold NurbsCurve.GetPointOnCurve. apply keeps_inv_True_snd. repeat inv_step.
Qed.

Section NewtonBound.
Variable ComputeDerivatives : Z -> Z -> list R -> R -> list XYZW -> list XYZW.
Variable IsClosed : list XYZW -> bool.
Variable MaxDistance : R.

Lemma ComputeRationalCurveDerivatives_fuel degree d U t P :
  NurbsCurve.ComputeRationalCurveDerivatives ComputeDerivatives degree d U t P <> OutOfFuel.
Proof.
  unfold NurbsCurve.ComputeRationalCurveDerivatives. apply keeps_inv_True_snd.
  repeat first
    [ inv_step
    | apply keeps_inv_read; intros ?; first [discriminate | apply at_fuel]
    | apply keeps_inv_modify; [intros ?|auto];
      repeat first [discriminate | apply put_fuel | apply vresize_fuel
                   | apply bind_fuel; [|intros ?]] ].
Qed.

(** What a turn of the sampling loop and a turn of the Newton loop do to the
    counter and to the return slot. *)
Definition counting (c : Z) (s : NurbsCurve.ParamState) : Prop :=
  NurbsCurve.pm_counters s = c /\ NurbsCurve.pm_return s = None.

Lemma sample_keeps degree U P Q minParam span i c :
  keeps_inv (counting c)
    (NurbsCurve.GetParamOnCurve_sample degree U P Q minParam span i).
Proof.
  unfold NurbsCurve.GetParamOnCurve_sample.
  apply keeps_inv_rbind; [apply keeps_inv_read; intros _; apply GetPointOnCurve_fuel|intros ?].
  apply keeps_inv_rbind; [apply keeps_inv_read; intros _; apply GetPointOnCurve_fuel|intros ?].
  apply keeps_inv_modify.
  - intros s. destruct (Rltb _ _); discriminate.
  - intros s s' Hs. destruct (Rltb _ _); intros [= <-]; exact Hs.
Qed.

Lemma newton_turn degree U P Q isClosed a b s s' o :
  NurbsCurve.GetParamOnCurve_newton ComputeDerivatives degree U P Q isClosed a b s = (s', o) ->
  o <> OutOfFuel /\
  (NurbsCurve.pm_return s = None ->
   match o with
   | Ok _ =>
       (NurbsCurve.pm_counters s' = NurbsCurve.pm_counters s /\
        NurbsCurve.pm_return s' <> None) \/
       (NurbsCurve.pm_counters s' = (NurbsCurve.pm_counters s + 1)%Z /\
        NurbsCurve.pm_return s' = None)
   | _ => s' = s
   end).
Proof.
  unfold NurbsCurve.GetParamOnCurve_newton, rbind, get, read, modify. cbn beta.
  pose proof (ComputeRationalCurveDerivatives_fuel degree 2 U (NurbsCurve.pm_paramT s) P) as Hd.
  destruct (NurbsCurve.ComputeRationalCurveDerivatives _ _ _ _ _ _) as [ders| | |];
    try (intros [= <- <-]; split; [discriminate | auto]); [|congruence].
  pose proof (at_fuel "derivatives" ders 0) as H0.
  destruct (at_ "derivatives" ders 0) as [d0| | |];
    try (intros [= <- <-]; split; [discriminate | auto]); [|congruence].
  pose proof (at_fuel "derivatives" ders 1) as H1.
  destruct (at_ "derivatives" ders 1) as [d1| | |];
    try (intros [= <- <-]; split; [discriminate | auto]); [|congruence].
  destruct (Rltb _ _ && Rltb _ _).
  { intros [= <- <-]. split; [discriminate|]. intros _. left.
    split; [reflexivity|discriminate]. }
  pose proof (at_fuel "derivatives" ders 2) as H2.
  destruct (at_ "derivatives" ders 2) as [d2| | |];
    try (intros [= <- <-]; split; [discriminate | auto]); [|congruence].
  destruct (Rltb _ _).
  { intros [= <- <-]. split; [discriminate|]. intros _. left.
    split; [reflexivity|discriminate]. }
  intros [= <- <-]. split; [discriminate|]. intros Hr. right. split; [reflexivity|assumption].
Qed.

Definition newton_cond (s : NurbsCurve.ParamState) : Outcome bool :=
  Ok ((NurbsCurve.pm_counters s <? NurbsCurve.maxIterations)%Z
      && match NurbsCurve.pm_return s with None => true | Some _ => false end).

(** With [fuel] tests at hand and [counters] turns done, the loop ends within
    [10 - counters] further turns. *)
Lemma newton_loop_ends degree U P Q isClosed a b : forall fuel s s' o,
  (0 <= NurbsCurve.pm_counters s <= 10)%Z ->
  (1 <= fuel)%nat ->
  (NurbsCurve.pm_return s = None -> 10 - NurbsCurve.pm_counters s < Z.of_nat fuel)%Z ->
  while fuel newton_cond
    (NurbsCurve.GetParamOnCurve_newton ComputeDerivatives degree U P Q isClosed a b) s
  = (s', o) ->
  o <> OutOfFuel /\ (0 <= NurbsCurve.pm_counters s' <= 10)%Z.
Proof.
  induction fuel as [|fuel IH]; intros s s' o Hc H1 Hf; [lia|].
  cbn [while]. unfold rbind at 1. cbn [read newton_cond].
  unfold NurbsCurve.maxIterations.
  destruct (Z.ltb_spec (NurbsCurve.pm_counters s) 10) as [Hlt|Hge]; cbn [andb];
    [|intros [= <- <-]; split; [discriminate|lia]].
  destruct (NurbsCurve.pm_return s) eqn:Hret;
    [intros [= <- <-]; split; [discriminate|lia]|].
  unfold rbind.
  destruct (NurbsCurve.GetParamOnCurve_newton _ _ _ _ _ _ _ _ s) as [s1 o1] eqn:Hturn.
  destruct (newton_turn _ _ _ _ _ _ _ _ _ _ Hturn) as [Hfuel Hstep].
  specialize (Hstep Hret). specialize (Hf eq_refl).
  destruct o1 as [[]| | |]; try subst s1;
    try (intros [= <- <-]; split; [discriminate|lia]); try congruence.
  intros Hw. destruct Hstep as [[Hc' Hr']|[Hc' Hr']]; apply (IH s1 s' o); auto;
    try lia; try (intros Hn; congruence).
Qed.

Definition bounded_run {A} (r : NurbsCurve.ParamState * Outcome A) : Prop :=
  snd r <> OutOfFuel /\ (0 <= NurbsCurve.pm_counters (fst r) <= 10)%Z.

Lemma bounded_rbind {A B} (c : Run NurbsCurve.ParamState A)
    (k : A -> Run NurbsCurve.ParamState B) s :
  keeps_inv (counting 0) c -> counting 0 s ->
  (forall a s', counting 0 s' -> bounded_run (k a s')) ->
  bounded_run (rbind c k s).
Proof.
  intros Hc Hs Hk. destruct (Hc s Hs) as [Hf [Hi1 Hi2]]. unfold rbind, bounded_run.
  destruct (c s) as [s' [a| | |]]; cbn [fst snd] in *;
    try (split; [discriminate | lia]); try congruence.
  apply Hk. split; assumption.
Qed.

(** The Newton loop is entered with [counters = 0]; with eleven tests of its
    condition at hand (ten turns and the test that ends the loop) the run of
    [GetParamOnCurve] never runs out of fuel, and [counters] ends at ten at
    most: the loop body runs at most ten times. *)
Theorem GetParamOnCurve_newton_at_most_ten :
  forall (k : nat) (degree : Z) (U : list R) (P : list XYZW) (Q : XYZ),
    let r := NurbsCurve.GetParamOnCurve ComputeDerivatives IsClosed MaxDistance
               (11 + k) degree U P Q in
    snd r <> OutOfFuel /\ (0 <= NurbsCurve.pm_counters (fst r) <= 10)%Z.
Proof.
  intros k degree U P Q. cbv zeta. unfold NurbsCurve.GetParamOnCurve.
  assert (H0 : counting 0 (NurbsCurve.mkParamState MaxDistance DoubleEpsilon 0 None))
    by (split; reflexivity).
  revert H0. generalize (NurbsCurve.mkParamState MaxDistance DoubleEpsilon 0 None).
  intros s Hs. change (bounded_run
    ((VALIDATE_ARGUMENT (0 <? degree)%Z "degree";;
      VALIDATE_ARGUMENT (0 <? size U)%Z "knotVector";;
      VALIDATE_ARGUMENT (ValidationUtils.IsValidKnotVector U) "knotVector";;
      VALIDATE_ARGUMENT (0 <? size P)%Z "controlPoints";;
      VALIDATE_ARGUMENT (ValidationUtils.IsValidNurbs degree (size U) (size P))
        "controlPoints";;
      do minParam <- get "knotVector" U 0;
      do maxParam <- get "knotVector" U (size U - 1);
      for_range 0 (size P * degree - 1 - 1)
        (NurbsCurve.GetParamOnCurve_sample degree U P Q minParam
           ((maxParam - minParam) / IZR (size P * degree - 1)));;
      while (11 + k) newton_cond
        (NurbsCurve.GetParamOnCurve_newton ComputeDerivatives degree U P Q (IsClosed P)
           minParam maxParam);;
      read (fun s => match NurbsCurve.pm_return s with
                     | Some t => Ok t
                     | None => Ok (NurbsCurve.pm_paramT s)
                     end)) s)).
  repeat (apply bounded_rbind;
          [first [apply keeps_inv_VALIDATE_ARGUMENT | apply keeps_inv_get]
          | assumption | clear s Hs; intros ? s Hs]).
  apply bounded_rbind; [apply keeps_inv_for_range; intros; apply sample_keeps | assumption |].
  clear s Hs. intros _ s [Hc Hr]. unfold rbind.
  destruct (while _ _ _ s) as [s' o] eqn:Hw.
  assert (H1 : (0 <= NurbsCurve.pm_counters s <= 10)%Z) by lia.
  assert (H2 : (1 <= 11 + k)%nat) by lia.
  assert (H3 : NurbsCurve.pm_return s = None ->
               (10 - NurbsCurve.pm_counters s < Z.of_nat (11 + k))%Z) by (intros; lia).
  destruct (newton_loop_ends _ _ _ _ _ _ _ _ _ _ _ H1 H2 H3 Hw) as [Hf Hb].
  destruct o as [[]| | |]; unfold bounded_run; cbn [fst snd read];
    try (split; [discriminate | lia]); try congruence.
  split; [destruct (NurbsCurve.pm_return s'); discriminate | lia].
Qed.

End NewtonBound.

(** ** [DecomposeToBeziers] on a polyline with an inner knot *)

Module DecomposeFacts.
Import NurbsCurve.

Definition polyline_knots : list R := [0; 0; 1; 2; 2].

Lemma polyline_knots_valid : ValidationUtils.IsValidKnotVector polyline_knots = true.
Proof.
  unfold polyline_knots. cbn [ValidationUtils.IsValidKnotVector]. decide_R. reflexivity.
Qed.

(** With [degree = 1] the test [multi < degree] fails for every knot, and
    the statements that advance [b] are inside the branch of that test: the
    turn leaves the state as it is. *)
Lemma turn_changes_nothing (P : list XYZW) (s : DecomposeState) :
  dc_b s = 2%Z -> DecomposeToBeziers_turn 1 polyline_knots P 4 s = (s, Ok tt).
Proof.
  destruct s as [dcp al a b nb]. cbn [dc_b]. intros ->.
  unfold DecomposeToBeziers_turn.
  unfold rbind at 1. cbn [dc_get_b read dc_b].
  change (Z.to_nat (4 - 2) + 1)%nat with 3%nat.
  unfold rbind at 1. rewrite while_false.
  2:{ cbn [dc_b]. change (2 <? 4)%Z with true. cbv iota.
      change (at_ "knotVector" polyline_knots (2 + 1)) with (@Ok R 2).
      change (at_ "knotVector" polyline_knots 2) with (@Ok R 1).
      cbn [bind]. rewrite IsAlmostEqualTo_false; [reflexivity|].
      left. unfold DoubleEpsilon. lra. }
  reflexivity.
Qed.

(** C7, on the code.  [DecomposeToBeziers] on the polyline of degree 1 with
    knots [0, 0, 1, 2, 2] and three control points (an input that passes
    the validation) never leaves [while (b < m)]: whatever the number of
    tests granted, the run is still in the loop. *)
Theorem DecomposeToBeziers_polyline_never_returns :
  forall (p0 p1 p2 : XYZW) (fuel : nat),
    snd (DecomposeToBeziers fuel 1 polyline_knots [p0; p1; p2]) = OutOfFuel.
Proof.
  intros p0 p1 p2 fuel. unfold DecomposeToBeziers.
  rewrite polyline_knots_valid.
  repeat (erewrite rbind_Ok by reflexivity).
  unfold rbind. rewrite while_stuck; [reflexivity | reflexivity |].
  apply turn_changes_nothing. reflexivity.
Qed.

End DecomposeFacts.

(** ** [EquallyTessellate] reads before the first unique knot *)

Module TessellateFacts.
Import NurbsCurve.

(** C8, on the code.  On every curve that passes the validation and whose
    knot vector holds two different values, the first turn of the loop over
    the unique knots reads [uniqueKv[i - 1]] with [i = 0]: the run ends in an
    access out of range, before anything is appended to the two output
    vectors.  (The loop would go on to append [currentU + step * i], not
    [currentU + step * j], and to evaluate the curve at
    [correspondingKnots[i]].) *)
Theorem EquallyTessellate_reads_out_of_range :
  forall (degree : Z) (knotVector : list R) (controlPoints : list XYZW)
         (out : list XYZ * list R),
    (0 < degree)%Z ->
    ValidationUtils.IsValidKnotVector knotVector = true ->
    (0 < size controlPoints)%Z ->
    size knotVector = (size controlPoints + degree + 1)%Z ->
    (2 <= length (unique knotVector))%nat ->
    EquallyTessellate degree knotVector controlPoints out
    = (out, OutOfRange "uniqueKv" (-1) (length (unique knotVector))).
Proof.
  intros degree U P out Hd Hv Hp Hn Hu. unfold EquallyTessellate.
  assert (E1 : (0 <? degree)%Z = true) by (apply Z.ltb_lt; lia).
  assert (E2 : (0 <? size U)%Z = true) by (apply Z.ltb_lt; lia).
  assert (E3 : (0 <? size P)%Z = true) by (apply Z.ltb_lt; lia).
  assert (E4 : ValidationUtils.IsValidNurbs degree (size U) (size P) = true)
    by (apply Z.eqb_eq; lia).
  rewrite E1, E2, E3, E4, Hv.
  repeat (erewrite rbind_Ok by reflexivity).
  rewrite for_range_step by (unfold size; lia).
  unfold rbind at 1. unfold rbind at 1. unfold rbind at 1.
  destruct (at_is_Ok "uniqueKv" (unique U) 0) as (x & Hx & _); [unfold size; lia|].
  unfold get, read. rewrite Hx. unfold rbind at 1.
  rewrite at_out_of_range by lia. reflexivity.
Qed.

Definition segment_knots : list R := [0; 0; 1; 1].
Definition segment_points : list XYZW := [mkXYZW 0 0 0 1; mkXYZW 1 0 0 1].

Lemma segment_knots_valid : ValidationUtils.IsValidKnotVector segment_knots = true.
Proof.
  unfold segment_knots. cbn [ValidationUtils.IsValidKnotVector]. decide_R. reflexivity.
Qed.

Lemma segment_knots_unique : unique segment_knots = [0; 1].
Proof. unfold segment_knots. cbn [unique]. decide_Reqb. reflexivity. Qed.

Lemma EquallyTessellate_reads_out_of_range_witness :
  (0 < 1)%Z /\
  ValidationUtils.IsValidKnotVector segment_knots = true /\
  (0 < size segment_points)%Z /\
  size segment_knots = (size segment_points + 1 + 1)%Z /\
  (2 <= length (unique segment_knots))%nat /\
  EquallyTessellate 1 segment_knots segment_points ([], [])
  = (([], []), OutOfRange "uniqueKv" (-1) (length (unique segment_knots))).
Proof.
  assert (H1 : (0 < 1)%Z) by lia.
  assert (H3 : (0 < size segment_points)%Z) by (unfold size; simpl; lia).
  assert (H4 : size segment_knots = (size segment_points + 1 + 1)%Z) by reflexivity.
  assert (H5 : (2 <= length (unique segment_knots))%nat)
    by (rewrite segment_knots_unique; simpl; lia).
  repeat split; try assumption; try exact segment_knots_valid.
  exact (EquallyTessellate_reads_out_of_range 1 segment_knots segment_points ([], [])
           H1 segment_knots_valid H3 H4 H5).
Defined.

End TessellateFacts.

(** ** [CreateArc]: the sizes of the two buffers *)

Section ArcFacts.
Variable ComputeRays :
  XYZ -> XYZ -> XYZ -> XYZ -> NurbsCurve.CurveCurveIntersectionType * R * R * XYZ.

Import NurbsCurve.

Lemma CreateArc_narcs_cases theta :
  CreateArc_narcs theta = 1%Z \/ CreateArc_narcs theta = 2%Z \/
  CreateArc_narcs theta = 3%Z \/ CreateArc_narcs theta = 4%Z.
Proof.
  unfold CreateArc_narcs.
  destruct (IsLessThanOrEqual theta (PI / 2)); [auto|].
  destruct (IsLessThanOrEqual theta PI); [auto|].
  destruct (IsLessThanOrEqual theta (3 * PI / 2)); auto.
Qed.

(** The full turn, from 0 to 2 pi, is made of four segments. *)
Lemma CreateArc_narcs_full_turn : CreateArc_narcs (2 * PI - 0) = 4%Z.
Proof.
  pose proof PI2_1 as Hpi. unfold CreateArc_narcs.
  rewrite !IsLessThanOrEqual_false by lra. reflexivity.
Qed.

Definition arc_sizes (nk np : nat) (s : ArcState) : Prop :=
  length (ca_knotVector s) = nk /\ length (ca_controlPoints s) = np.

(** A turn of the loop over the segments, from a state that has room for
    the two points of the segment. *)
Lemma CreateArc_segment_spec center nX nY xRadius yRadius dtheta w1 narcs i s :
  ca_return s = None -> (0 <= ca_index s)%Z ->
  (ca_index s + 2 < size (ca_controlPoints s))%Z ->
  exists s',
    CreateArc_segment ComputeRays center nX nY xRadius yRadius dtheta w1 narcs i s
    = (s', Ok tt) /\
    length (ca_knotVector s') = length (ca_knotVector s) /\
    length (ca_controlPoints s') = length (ca_controlPoints s) /\
    ca_knotVector s' = ca_knotVector s /\
    ca_degree s' = ca_degree s /\
    ((ca_return s' = None /\ ca_index s' = (ca_index s + 2)%Z) \/
     ca_return s' = Some false).
Proof.
  destruct s as [dg kv cps P0 T0 index angle rt]. cbn [ca_return ca_index ca_controlPoints].
  intros -> Hi Hlen. unfold CreateArc_segment.
  unfold rbind at 1. cbn [read ca_return].
  repeat (unfold rbind at 1; cbn [read ca_P0 ca_T0 ca_index ca_angle]).
  unfold ca_set_points at 1, modify. cbn [ca_controlPoints].
  rewrite put_Ok by lia. cbn [bind].
  cbn [ca_degree ca_knotVector ca_P0 ca_T0 ca_index ca_angle ca_return].
  destruct (ComputeRays _ _ _ _) as [[[ty q0] q2] P1].
  destruct ty.
  - unfold ca_set_points, modify. cbn [ca_controlPoints].
    rewrite put_Ok by (rewrite size_insert; lia). cbn [bind].
    destruct (i <? narcs)%Z; eexists; (split; [reflexivity|]);
      cbn [ca_knotVector ca_controlPoints ca_return ca_index ca_degree];
      rewrite !length_insert; auto 10.
  - eexists; split; [reflexivity|].
    cbn [ca_knotVector ca_controlPoints ca_return ca_index ca_degree];
      rewrite !length_insert; auto 10.
  - eexists; split; [reflexivity|].
    cbn [ca_knotVector ca_controlPoints ca_return ca_index ca_degree];
      rewrite !length_insert; auto 10.
  - eexists; split; [reflexivity|].
    cbn [ca_knotVector ca_controlPoints ca_return ca_index ca_degree];
      rewrite !length_insert; auto 10.
Qed.

Lemma CreateArc_segment_returned center nX nY xRadius yRadius dtheta w1 narcs i s r :
  ca_return s = Some r ->
  CreateArc_segment ComputeRays center nX nY xRadius yRadius dtheta w1 narcs i s = (s, Ok tt).
Proof.
  intros H. unfold CreateArc_segment. unfold rbind at 1. cbn [read]. rewrite H. reflexivity.
Qed.

(** The loop over the segments never leaves the control net and never
    touches the knot vector or the degree. *)
Definition arc_loop_state (n : nat) (s : ArcState) : Prop :=
  (ca_return s = None /\ (0 <= ca_index s)%Z /\
   (ca_index s + 2 * Z.of_nat n < size (ca_controlPoints s))%Z) \/
  ca_return s = Some false.

Lemma CreateArc_segments_spec center nX nY xRadius yRadius dtheta w1 narcs n :
  forall i s,
    arc_loop_state n s ->
    exists s',
      for_up n i (CreateArc_segment ComputeRays center nX nY xRadius yRadius dtheta w1 narcs) s
      = (s', Ok tt) /\
      length (ca_controlPoints s') = length (ca_controlPoints s) /\
      ca_knotVector s' = ca_knotVector s /\
      ca_degree s' = ca_degree s /\
      (ca_return s' = None \/ ca_return s' = Some false).
Proof.
  induction n as [|n IH]; intros i s Hs.
  - exists s. cbn [for_up]. unfold ret. repeat split; auto.
    destruct Hs as [[Hr _]|Hr]; rewrite Hr; auto.
  - cbn [for_up]. unfold rbind.
    destruct Hs as [(Hr & Hi & Hlen)|Hr].
    + destruct (CreateArc_segment_spec center nX nY xRadius yRadius dtheta w1 narcs i s Hr Hi)
        as (s1 & E1 & Lk & Lp & Ek & Ed & Hcase); [lia|].
      rewrite E1.
      destruct (IH (i + 1)%Z s1) as (s2 & E2 & Lp2 & Ek2 & Ed2 & Hr2).
      * destruct Hcase as [[Hn Hx]|Hf]; [left|right; assumption].
        unfold size in *. rewrite Hx, Lp. repeat split; [assumption|lia|lia].
      * exists s2. rewrite E2. repeat split; try congruence; try assumption.
    + rewrite (CreateArc_segment_returned _ _ _ _ _ _ _ _ _ _ _ Hr).
      destruct (IH (i + 1)%Z s) as (s2 & E2 & Lp2 & Ek2 & Ed2 & Hr2); [right; assumption|].
      exists s2. rewrite E2. auto.
Qed.

Definition with_knot (s : ArcState) (i : Z) (x : R) : ArcState :=
  mkArcState (ca_degree s) (<[Z.to_nat i := x]> (ca_knotVector s)) (ca_controlPoints s)
    (ca_P0 s) (ca_T0 s) (ca_index s) (ca_angle s) (ca_return s).

Lemma ca_set_knots_put_Ok s i x :
  (0 <= i < size (ca_knotVector s))%Z ->
  ca_set_knots (fun v => put "knotVector" v i x) s = (with_knot s i x, Ok tt).
Proof. intros H. unfold ca_set_knots, modify. rewrite put_Ok by assumption. reflexivity. Qed.

Lemma ca_set_knots_put_out s i x :
  (size (ca_knotVector s) <= i)%Z ->
  ca_set_knots (fun v => put "knotVector" v i x) s
  = (s, OutOfRange "knotVector" i (length (ca_knotVector s))).
Proof.
  intros H. unfold ca_set_knots, modify. rewrite put_out_of_range by lia. reflexivity.
Qed.

Lemma size_with_knot s i x : size (ca_knotVector (with_knot s i x)) = size (ca_knotVector s).
Proof. unfold with_knot. cbn [ca_knotVector]. apply size_insert. Qed.

(** The statements after the loop: the third turn of the loop that sets the
    end knots writes [knotVector[2 + j]], [j = 2 narcs + 1], in a vector of
    [2 narcs + 3] knots. *)
Lemma CreateArc_knots_out_of_range narcs s :
  (1 <= narcs)%Z -> size (ca_knotVector s) = (2 * narcs + 3)%Z ->
  exists s',
    CreateArc_knots narcs s
    = (s', OutOfRange "knotVector" (2 * narcs + 3) (length (ca_knotVector s))) /\
    length (ca_knotVector s') = length (ca_knotVector s) /\
    ca_controlPoints s' = ca_controlPoints s /\
    ca_degree s' = ca_degree s.
Proof.
  intros Hn Hlen. unfold CreateArc_knots.
  set (j := (2 * narcs + 1)%Z).
  set (s1 := with_knot (with_knot s 0 0) (0 + j) 1).
  set (s2 := with_knot (with_knot s1 1 0) (1 + j) 1).
  set (s3 := with_knot s2 2 0).
  assert (L1 : size (ca_knotVector s1) = (2 * narcs + 3)%Z)
    by (unfold s1; rewrite !size_with_knot; assumption).
  assert (L2 : size (ca_knotVector s2) = (2 * narcs + 3)%Z)
    by (unfold s2; rewrite !size_with_knot; assumption).
  assert (L3 : size (ca_knotVector s3) = (2 * narcs + 3)%Z)
    by (unfold s3; rewrite !size_with_knot; assumption).
  assert (E : for_range 0 2 (fun i =>
                ca_set_knots (fun v => put "knotVector" v i 0) ;;
                ca_set_knots (fun v => put "knotVector" v (i + j) 1)) s
              = (s3, OutOfRange "knotVector" (2 * narcs + 3) (length (ca_knotVector s)))).
  { rewrite for_range_step by lia.
    rewrite (rbind_Ok _ _ s s1 tt).
    2:{ rewrite (rbind_Ok _ _ s (with_knot s 0 0) tt)
          by (apply ca_set_knots_put_Ok; lia).
        apply ca_set_knots_put_Ok. rewrite size_with_knot. lia. }
    rewrite for_range_step by lia.
    rewrite (rbind_Ok _ _ s1 s2 tt).
    2:{ rewrite (rbind_Ok _ _ s1 (with_knot s1 1 0) tt)
          by (apply ca_set_knots_put_Ok; lia).
        apply ca_set_knots_put_Ok. rewrite size_with_knot. lia. }
    rewrite for_range_step by lia.
    unfold rbind at 1.
    rewrite (rbind_Ok _ _ s2 s3 tt) by (apply ca_set_knots_put_Ok; lia).
    rewrite ca_set_knots_put_out by lia.
    unfold size in *. do 2 f_equal; lia. }
  exists s3. split.
  - unfold rbind at 1. rewrite E. reflexivity.
  - unfold s3, s2, s1, with_knot. cbn [ca_knotVector ca_controlPoints ca_degree].
    rewrite !length_insert. auto.
Qed.

(** C2, on the code.  Whatever the arc and whatever the buffers at the call,
    [CreateArc] sizes the knot vector to [2 narcs + 3] and the control net
    to [2 narcs], and then either returns [false] from the loop over the
    segments, or goes on to write [knotVector[2 narcs + 3]], one past the
    end; it never reaches [degree = 2], and never returns [true]. *)
Theorem CreateArc_sizes_and_outcome :
  forall (center xAxis yAxis : XYZ) (startRad endRad xRadius yRadius : R)
         (degree : Z) (knotVector : list R) (controlPoints : list XYZW),
    let theta := (if Rltb endRad startRad then 2 * PI + startRad else endRad) - startRad in
    let narcs := CreateArc_narcs theta in
    let r := CreateArc ComputeRays center xAxis yAxis startRad endRad xRadius yRadius
               (degree, knotVector, controlPoints) in
    length (snd (fst (fst r))) = Z.to_nat (2 * narcs + 3) /\
    length (snd (fst r)) = Z.to_nat (2 * narcs) /\
    fst (fst (fst r)) = degree /\
    (snd r = Ok false \/
     snd r = OutOfRange "knotVector" (2 * narcs + 3) (Z.to_nat (2 * narcs + 3))).
Proof.
  intros center xAxis yAxis startRad endRad xRadius yRadius degree kv cps theta narcs r.
  assert (Hn : (1 <= narcs <= 4)%Z)
    by (destruct (CreateArc_narcs_cases theta) as [H|[H|[H|H]]]; fold narcs in H; lia).
  assert (Hr : exists kv' cps' o,
             r = ((degree, kv', cps'), o) /\
             length kv' = Z.to_nat (2 * narcs + 3) /\
             length cps' = Z.to_nat (2 * narcs) /\
             (o = Ok false \/
              o = OutOfRange "knotVector" (2 * narcs + 3) (Z.to_nat (2 * narcs + 3)))).
  { unfold r, CreateArc, with_locals. fold theta. fold narcs. cbn [fst snd].
    unfold rbind at 1. unfold ca_set_knots at 1, modify. cbn [ca_knotVector].
    rewrite vresize_Ok by lia. cbn [bind].
    unfold rbind at 1. unfold ca_set_points at 1, modify. cbn [ca_controlPoints].
    rewrite vresize_Ok by lia. cbn [bind].
    unfold rbind at 1. unfold ca_set_points at 1, modify. cbn [ca_controlPoints].
    rewrite put_Ok by (rewrite size_resize; lia). cbn [bind].
    unfold rbind at 1. cbn [ca_set_locals modify].
    cbn [ca_degree ca_knotVector ca_controlPoints ca_return].
    unfold rbind at 1. unfold for_range.
    match goal with
    | |- context [for_up ?n ?i ?body ?s] =>
        destruct (CreateArc_segments_spec center (XYZ_ops.Normalize xAxis)
                    (XYZ_ops.Normalize yAxis) xRadius yRadius (theta / IZR narcs)
                    (cos (theta / IZR narcs / 2)) narcs n i s)
          as (s1 & E1 & Lp & Ek & Ed & Hr)
    end.
    { left. cbn [ca_return ca_index ca_controlPoints]. rewrite size_insert, size_resize.
      repeat split; lia. }
    rewrite E1. cbn [ca_knotVector ca_controlPoints ca_degree] in Lp, Ek, Ed.
    rewrite length_insert, length_resize in Lp.
    unfold rbind at 1. cbn [read].
    destruct Hr as [Hr|Hr]; rewrite Hr.
    - destruct (CreateArc_knots_out_of_range narcs s1) as (s2 & E2 & Lk2 & Ep2 & Ed2); [lia| |].
      { rewrite Ek. rewrite size_resize. lia. }
      rewrite E2. do 3 eexists. split; [rewrite Ed2, Ed; reflexivity|].
      rewrite Lk2, Ep2, Lp, Ek, length_resize. auto.
    - cbn [ret]. do 3 eexists. split; [rewrite Ed; reflexivity|].
      rewrite Lp, Ek, length_resize. auto. }
  destruct Hr as (kv' & cps' & o & -> & Hk & Hp & Ho). cbn [fst snd]. auto.
Qed.

End ArcFacts.

(** S3, the circle: eight control points and eleven knots. *)
Corollary CreateArc_circle :
  forall (ComputeRays :
            XYZ -> XYZ -> XYZ -> XYZ -> NurbsCurve.CurveCurveIntersectionType * R * R * XYZ)
         (degree : Z) (knotVector : list R) (controlPoints : list XYZW),
    let r := NurbsCurve.CreateArc ComputeRays (mkXYZ 0 0 0) (mkXYZ 1 0 0) (mkXYZ 0 1 0)
               0 (2 * PI) 1 1 (degree, knotVector, controlPoints) in
    length (snd (fst (fst r))) = 11%nat /\
    length (snd (fst r)) = 8%nat /\
    fst (fst (fst r)) = degree /\
    (snd r = Ok false \/ snd r = OutOfRange "knotVector" 11 11).
Proof.
  intros ComputeRays degree kv cps.
  pose proof (CreateArc_sizes_and_outcome ComputeRays (mkXYZ 0 0 0) (mkXYZ 1 0 0)
                (mkXYZ 0 1 0) 0 (2 * PI) 1 1 degree kv cps) as H.
  cbv zeta in H. rewrite Rltb_false in H by (pose proof PI_RGT_0; lra).
  rewrite CreateArc_narcs_full_turn in H. exact H.
Qed.

(** ** [RemoveKnot] on a knot that cannot be removed *)

Module RemoveFacts.
Import NurbsCurve.

Lemma foldr_Rmax_nonneg {A} (f : A -> R) (l : list A) :
  0 <= foldr (fun p acc => Rmax (f p) acc) 0 l.
Proof.
  induction l as [|a l IH]; simpl; [lra|].
  eapply Rle_trans; [exact IH | apply Rmax_r].
Qed.

Lemma foldr_Rmin_le_1 {A} (f : A -> R) (l : list A) :
  foldr (fun p acc => Rmin (f p) acc) 1 l <= 1.
Proof.
  induction l as [|a l IH]; simpl; [lra|].
  eapply Rle_trans; [apply Rmin_r | exact IH].
Qed.

(** The tolerance of the removal is at most the distance tolerance. *)
Lemma ComputeCurveModifyTolerance_le (P : list XYZW) :
  ComputeCurveModifyTolerance P <= DistanceEpsilon.
Proof.
  unfold ComputeCurveModifyTolerance.
  set (w := foldr (fun p acc => Rmin (W p) acc) 1 P).
  set (d := foldr (fun p acc => Rmax (XYZ_ops.Length (XYZW_ops.ToXYZ p true)) acc) 0 P).
  assert (Hw : w <= 1) by apply foldr_Rmin_le_1.
  assert (Hd : 0 <= d) by apply foldr_Rmax_nonneg.
  assert (He : 0 < DistanceEpsilon) by (unfold DistanceEpsilon; lra).
  unfold Rdiv. apply Rle_trans with (DistanceEpsilon * / (1 + d)).
  - apply Rmult_le_compat_r; [left; apply Rinv_0_lt_compat; lra | nra].
  - rewrite <- (Rmult_1_r DistanceEpsilon) at 2.
    apply Rmult_le_compat_l; [lra|].
    rewrite <- Rinv_1. apply Rinv_le_contravar; lra.
Qed.

Definition U : list R := [0; 0; 0; 1; 2; 2; 2].
Definition P : list XYZW :=
  [mkXYZW 0 0 0 1; mkXYZW 1 2 0 1; mkXYZW 3 3 0 1; mkXYZW 4 0 0 1].

Lemma U_span : Polynomials.GetKnotSpanIndex 2 U 1 = 3%Z.
Proof. run_R. reflexivity. Qed.

Lemma U_multiplicity : Polynomials.GetKnotMultiplicity U 1 = 1%Z.
Proof. unfold U. cbn [Polynomials.GetKnotMultiplicity]. decide_R. reflexivity. Qed.

Lemma U_valid : ValidationUtils.IsValidKnotVector U = true.
Proof. unfold U. cbn [ValidationUtils.IsValidKnotVector]. decide_R. reflexivity. Qed.

Lemma RemoveKnot_validate_UP (s : list R * list XYZW) :
  RemoveKnot_validate 2 U P 1 1 s = (s, Ok tt).
Proof.
  unfold RemoveKnot_validate. rewrite U_valid.
  repeat (erewrite rbind_Ok by reflexivity).
  unfold VALIDATE_ARGUMENT_RANGE.
  erewrite rbind_Ok; [reflexivity|]. cbv -[Rleb IZR]. decide_R. reflexivity.
Qed.

(** The two control points rebuilt from the two ends of the window,
    [(2, 4, 0, 1)] and [(2, 6, 0, 1)], are at distance 2. *)
Lemma rebuilt_points_apart tol :
  tol <= DistanceEpsilon ->
  IsLessThanOrEqual
    (XYZW_ops.Distance
       (mkXYZW ((1 - (1 - (1 - 0) / (2 - 0)) * 0) / ((1 - 0) / (2 - 0)))
               ((2 - (1 - (1 - 0) / (2 - 0)) * 0) / ((1 - 0) / (2 - 0)))
               ((0 - (1 - (1 - 0) / (2 - 0)) * 0) / ((1 - 0) / (2 - 0)))
               ((1 - (1 - (1 - 0) / (2 - 0)) * 1) / ((1 - 0) / (2 - 0))))
       (mkXYZW ((3 - (1 - 0) / (2 - 0) * 4) / (1 - (1 - 0) / (2 - 0)))
               ((3 - (1 - 0) / (2 - 0) * 0) / (1 - (1 - 0) / (2 - 0)))
               ((0 - (1 - 0) / (2 - 0) * 0) / (1 - (1 - 0) / (2 - 0)))
               ((1 - (1 - 0) / (2 - 0) * 1) / (1 - (1 - 0) / (2 - 0)))))
    tol = false.
Proof.
  intros Htol. apply IsLessThanOrEqual_false.
  unfold XYZW_ops.Distance. cbn [WX WY WZ W].
  match goal with |- _ < sqrt ?x => replace x with (2 * 2) by field end.
  rewrite sqrt_square by lra. unfold DistanceEpsilon in Htol. lra.
Qed.

(** C3, on the code.  Degree 2, knots [0, 0, 0, 1, 2, 2, 2], one removal of
    the knot 1 asked for.  The two rebuilt points are at distance 2, far
    above the tolerance, so the attempt fails its test; yet the call goes
    on: it returns (nothing but) a knot vector and a control net both
    shorter by one, the knot 1 and the control point [P[1]] gone. *)
Theorem RemoveKnot_removes_after_failed_test :
  RemoveKnot 2 U P 1 1 ([], [])
  = (([0; 0; 0; 2; 2; 2], [mkXYZW 0 0 0 1; mkXYZW 3 3 0 1; mkXYZW 4 0 0 1]), Ok tt).
Proof.
  unfold RemoveKnot. rewrite (rbind_Ok _ _ _ _ _ (RemoveKnot_validate_UP _)).
  unfold with_locals, RemoveKnot_body. rewrite U_span, U_multiplicity. cbv zeta.
  pose proof (ComputeCurveModifyTolerance_le P) as Htol.
  set (tol := ComputeCurveModifyTolerance P) in *.
  run_steps.
  rewrite for_range_step by lia. unfold RemoveKnot_attempt at 1.
  run_steps.
  change (1 - 2 <? 0)%Z with true. cbv iota.
  run_steps.
  rewrite (rebuilt_points_apart tol Htol).
  run_steps. reflexivity.
Qed.

End RemoveFacts.

(** ** A run of [InsertKnot] on a knot of full multiplicity *)

Module InsertExamples.
Import NurbsCurve.

Ltac finish_run := cbv -[IZR Rplus Rminus Rmult Rdiv Rinv Ropp]; reflexivity.

Definition polyline_knots : list R := [0; 0; 1; 2; 3; 3].
Definition polyline_points : list XYZW :=
  [mkXYZW 0 0 0 1; mkXYZW 1 0 0 1; mkXYZW 2 0 0 1; mkXYZW 3 0 0 1].

Lemma polyline_span : Polynomials.GetKnotSpanIndex 1 polyline_knots 2 = 3%Z.
Proof. run_R. reflexivity. Qed.

Lemma polyline_multiplicity : Polynomials.GetKnotMultiplicity polyline_knots 2 = 1%Z.
Proof.
  unfold polyline_knots. cbn [Polynomials.GetKnotMultiplicity]. decide_R. reflexivity.
Qed.

Lemma polyline_valid : ValidationUtils.IsValidKnotVector polyline_knots = true.
Proof.
  unfold polyline_knots. cbn [ValidationUtils.IsValidKnotVector]. decide_R. reflexivity.
Qed.

(** The knot 2 of the polyline of degree 1 has already the multiplicity 1,
    the count is clamped to 0, no sweep runs and [L] stays 0: the loop that
    loads the remaining control points reads [temp[1]] in a vector of one
    element.  The two buffers hold the copies of the input at that point. *)
Lemma InsertKnot_full_multiplicity_out_of_range :
  InsertKnot 1 polyline_knots polyline_points 2 1 ([], [])
  = ((polyline_knots, polyline_points), OutOfRange "temp" 1 1).
Proof.
  unfold InsertKnot, InsertKnot_validate. rewrite polyline_valid.
  run_steps. unfold with_locals, InsertKnot_body.
  rewrite polyline_span, polyline_multiplicity. cbv zeta.
  run_steps. finish_run.
Qed.

End InsertExamples.
(** * [InsertKnot]: the run on a checked input *)

Module InsertFacts.
Import NurbsCurve.
Local Open Scope Z_scope.

(** ** Vectors seen as functions of the index *)

Lemma nth_put {A} (d : A) (v : list A) (i j : Z) (x : A) :
  0 <= i < size v -> 0 <= j ->
  nth (Z.to_nat j) (<[Z.to_nat i := x]> v) d = if j =? i then x else nth (Z.to_nat j) v d.
Proof.
  unfold size. intros Hi Hj. rewrite !nth_lookup.
  destruct (Z.eqb_spec j i) as [->|Hne].
  - rewrite list_lookup_insert_eq by lia. reflexivity.
  - rewrite list_lookup_insert_ne by lia. reflexivity.
Qed.

Lemma at_nth {A} (d : A) name (v : list A) (i : Z) :
  0 <= i < size v -> at_ name v i = Ok (nth (Z.to_nat i) v d).
Proof.
  intros Hi. destruct (at_is_Ok name v i Hi) as (x & -> & Hx).
  rewrite nth_lookup, Hx. reflexivity.
Qed.

Lemma get_nth {St A} (d : A) name (v : list A) (i : Z) (s : St) :
  0 <= i < size v -> get name v i s = (s, Ok (nth (Z.to_nat i) v d)).
Proof. intros Hi. unfold get, read. rewrite (at_nth d) by assumption. reflexivity. Qed.

(** The rule of the counting loop: an invariant that every turn keeps, turns
    that return, give a loop that returns with the invariant at the bound. *)
Lemma for_up_rule {St} (I : Z -> St -> Prop) (body : Z -> Run St unit) n :
  forall lo s,
  I lo s ->
  (forall i s, lo <= i < lo + Z.of_nat n -> I i s ->
     exists s', body i s = (s', Ok tt) /\ I (i + 1) s') ->
  exists s', for_up n lo body s = (s', Ok tt) /\ I (lo + Z.of_nat n) s'.
Proof.
  induction n as [|n IH]; intros lo s H0 Hstep.
  - exists s. split; [reflexivity|]. replace (lo + Z.of_nat 0) with lo by lia. assumption.
  - destruct (Hstep lo s) as (s1 & E1 & H1); [lia | assumption |].
    destruct (IH (lo + 1) s1 H1) as (s2 & E2 & H2).
    { intros i s' Hi. apply Hstep. lia. }
    exists s2. split.
    + cbn [for_up]. rewrite (rbind_Ok _ _ _ _ _ E1). exact E2.
    + replace (lo + Z.of_nat (S n)) with (lo + 1 + Z.of_nat n) by lia. assumption.
Qed.

Lemma for_range_rule {St} (I : Z -> St -> Prop) lo hi (body : Z -> Run St unit) s :
  lo <= hi + 1 ->
  I lo s ->
  (forall i s, lo <= i <= hi -> I i s -> exists s', body i s = (s', Ok tt) /\ I (i + 1) s') ->
  exists s', for_range lo hi body s = (s', Ok tt) /\ I (hi + 1) s'.
Proof.
  intros Hle H0 Hstep. unfold for_range.
  destruct (for_up_rule I body (Z.to_nat (hi + 1 - lo)) lo s H0) as (s' & E & H').
  { intros i s' Hi. apply Hstep. lia. }
  exists s'. split; [assumption|].
  replace (hi + 1) with (lo + Z.of_nat (Z.to_nat (hi + 1 - lo))) by lia. assumption.
Qed.

Lemma for_below_size_rule {St A} (I : Z -> St -> Prop) lo (v : list A)
    (body : Z -> Run St unit) s :
  0 <= lo <= size v ->
  I lo s ->
  (forall i s, lo <= i < size v -> I i s -> exists s', body i s = (s', Ok tt) /\ I (i + 1) s') ->
  exists s', for_below_size lo v body s = (s', Ok tt) /\ I (size v) s'.
Proof.
  intros Hlo H0 Hstep. unfold for_below_size.
  destruct (Z.ltb_spec lo 0); [lia|].
  destruct (for_range_rule I lo (size v - 1) body s) as (s' & E & H'); [lia | assumption | |].
  { intros i s' Hi. apply Hstep. lia. }
  exists s'. split; [assumption|]. replace (size v) with (size v - 1 + 1) by lia. assumption.
Qed.

(** The statements of [InsertKnot] on the state of its variables. *)
Section Steps.
Variable s : InsertKnotState.

Lemma ik_set_knots_put name i x :
  0 <= i < size (insertedKnotVector s) ->
  ik_set_knots (fun v => put name v i x) s
  = (mkInsertKnotState (<[Z.to_nat i := x]> (insertedKnotVector s))
       (updatedControlPoints s) (ik_temp s) (ik_L s), Ok tt).
Proof. intros Hi. unfold ik_set_knots, modify. rewrite put_Ok by assumption. reflexivity. Qed.

Lemma ik_set_points_put name i x :
  0 <= i < size (updatedControlPoints s) ->
  ik_set_points (fun v => put name v i x) s
  = (mkInsertKnotState (insertedKnotVector s)
       (<[Z.to_nat i := x]> (updatedControlPoints s)) (ik_temp s) (ik_L s), Ok tt).
Proof. intros Hi. unfold ik_set_points, modify. rewrite put_Ok by assumption. reflexivity. Qed.

Lemma ik_set_temp_put name i x :
  0 <= i < size (ik_temp s) ->
  ik_set_temp (fun v => put name v i x) s
  = (mkInsertKnotState (insertedKnotVector s) (updatedControlPoints s)
       (<[Z.to_nat i := x]> (ik_temp s)) (ik_L s), Ok tt).
Proof. intros Hi. unfold ik_set_temp, modify. rewrite put_Ok by assumption. reflexivity. Qed.

Lemma ik_temp_at_pt i :
  0 <= i < size (ik_temp s) -> ik_temp_at i s = (s, Ok (pt (ik_temp s) i)).
Proof.
  intros Hi. unfold ik_temp_at, read, pt.
  rewrite (at_nth XYZW_ops.zero) by assumption. reflexivity.
Qed.

Lemma ik_temp_at_out i :
  size (ik_temp s) <= i ->
  ik_temp_at i s = (s, OutOfRange "temp" i (length (ik_temp s))).
Proof.
  intros Hi. unfold ik_temp_at, read. rewrite at_out_of_range by lia. reflexivity.
Qed.
End Steps.

Lemma knot_put (v : list R) i j x :
  0 <= i < size v -> 0 <= j ->
  knot (<[Z.to_nat i := x]> v) j = if j =? i then x else knot v j.
Proof. apply nth_put. Qed.

Lemma pt_put (v : list XYZW) i j x :
  0 <= i < size v -> 0 <= j ->
  pt (<[Z.to_nat i := x]> v) j = if j =? i then x else pt v j.
Proof. apply nth_put. Qed.

Lemma rbind_ext {St A B} (c : Run St A) (k1 k2 : A -> Run St B) s :
  (forall a s', k1 a s' = k2 a s') -> rbind c k1 s = rbind c k2 s.
Proof. intros H. unfold rbind. destruct (c s) as [s' [a| | |]]; auto. Qed.

(** Deciding the tests on indices that [lia] can decide. *)
Ltac decide_index :=
  repeat match goal with
  | |- context [(?a =? ?b)%Z] =>
      first [ replace (a =? b)%Z with true by (symmetry; apply Z.eqb_eq; lia)
            | replace (a =? b)%Z with false by (symmetry; apply Z.eqb_neq; lia) ]
  end.

Ltac proj := cbn [insertedKnotVector updatedControlPoints ik_temp ik_L].

Section InsertRun.
Variables (degree : Z) (knotVector : list R) (controlPoints : list XYZW) (insertKnot : R).
Variables (k s r : Z).
Hypothesis Hsize : size knotVector = size controlPoints + degree + 1.
Hypothesis Hk : degree <= k < size controlPoints.
Hypothesis Hs : 0 <= s.
Hypothesis Hr : 0 <= r <= degree - s.
Hypothesis Hdegree : 0 < degree.

(** The knots after the three loops that fill [insertedKnotVector]. *)
Definition knots_inserted (v : list R) : Prop :=
  size v = size knotVector + r /\
  (forall j, 0 <= j <= k -> knot v j = knot knotVector j) /\
  (forall j, k < j <= k + r -> knot v j = insertKnot) /\
  (forall j, k + r < j < size knotVector + r -> knot v j = knot knotVector (j - r)).

Definition fill_knots : Run InsertKnotState unit :=
  ik_set_knots (vresize "insertedKnotVector" 0%R (size knotVector + r)) ;;
  for_range 0 k (fun i =>
    do x <- get "knotVector" knotVector i;
    ik_set_knots (fun v => put "insertedKnotVector" v i x)) ;;
  for_range 1 r (fun i =>
    ik_set_knots (fun v => put "insertedKnotVector" v (k + i) insertKnot)) ;;
  for_below_size (k + 1) knotVector (fun i =>
    do x <- get "knotVector" knotVector i;
    ik_set_knots (fun v => put "insertedKnotVector" v (i + r) x)).

Lemma fill_knots_spec s0 :
  exists s1, fill_knots s0 = (s1, Ok tt) /\
    knots_inserted (insertedKnotVector s1) /\
    updatedControlPoints s1 = updatedControlPoints s0 /\
    ik_temp s1 = ik_temp s0 /\ ik_L s1 = ik_L s0.
Proof.
  unfold fill_knots.
  set (sa := mkInsertKnotState (resize (Z.to_nat (size knotVector + r)) 0%R (insertedKnotVector s0))
               (updatedControlPoints s0) (ik_temp s0) (ik_L s0)).
  assert (Ea : ik_set_knots (vresize "insertedKnotVector" 0%R (size knotVector + r)) s0
               = (sa, Ok tt)).
  { unfold ik_set_knots, modify. rewrite vresize_Ok by lia. reflexivity. }
  rewrite (rbind_Ok _ _ _ _ _ Ea).
  pose (frame := fun s' : InsertKnotState =>
    size (insertedKnotVector s') = size knotVector + r /\
    updatedControlPoints s' = updatedControlPoints s0 /\
    ik_temp s' = ik_temp s0 /\ ik_L s' = ik_L s0).
  assert (Fa : frame sa).
  { unfold frame, sa; proj. rewrite size_resize. repeat split; lia. }
  (* first loop *)
  destruct (for_range_rule
    (fun i s' => frame s' /\
       forall j, 0 <= j < i -> knot (insertedKnotVector s') j = knot knotVector j)
    0 k (fun i => do x <- get "knotVector" knotVector i;
                  ik_set_knots (fun v => put "insertedKnotVector" v i x)) sa)
    as (sb & Eb & Fb & Hb); [lia | split; [assumption | intros; lia] | |].
  { intros i s' Hi ((F1 & F2 & F3 & F4) & H).
    eexists. split.
    - erewrite rbind_Ok by (apply (get_nth 0%R); lia).
      apply ik_set_knots_put. lia.
    - proj. split; [unfold frame; proj; rewrite size_insert; auto|].
      intros j Hj. rewrite knot_put by lia.
      destruct (Z.eqb_spec j i) as [->|]; [reflexivity | apply H; lia]. }
  rewrite (rbind_Ok _ _ _ _ _ Eb).
  (* second loop *)
  destruct (for_range_rule
    (fun i s' => frame s' /\
       (forall j, 0 <= j <= k -> knot (insertedKnotVector s') j = knot knotVector j) /\
       (forall j, k < j < k + i -> knot (insertedKnotVector s') j = insertKnot))
    1 r (fun i => ik_set_knots (fun v => put "insertedKnotVector" v (k + i) insertKnot)) sb)
    as (sc & Ec & Fc & Hc1 & Hc2);
    [lia | split; [assumption | split; [intros; apply Hb; lia | intros; lia]] | |].
  { intros i s' Hi ((F1 & F2 & F3 & F4) & H1 & H2).
    eexists. split.
    - apply ik_set_knots_put. lia.
    - proj. split; [unfold frame; proj; rewrite size_insert; auto|]. split.
      + intros j Hj. rewrite knot_put by lia. decide_index. apply H1; lia.
      + intros j Hj. rewrite knot_put by lia.
        destruct (Z.eqb_spec j (k + i)) as [->|]; [reflexivity | apply H2; lia]. }
  rewrite (rbind_Ok _ _ _ _ _ Ec).
  (* third loop *)
  destruct (for_below_size_rule
    (fun i s' => frame s' /\
       (forall j, 0 <= j <= k -> knot (insertedKnotVector s') j = knot knotVector j) /\
       (forall j, k < j <= k + r -> knot (insertedKnotVector s') j = insertKnot) /\
       (forall j, k + r < j < i + r -> knot (insertedKnotVector s') j = knot knotVector (j - r)))
    (k + 1) knotVector
    (fun i => do x <- get "knotVector" knotVector i;
              ik_set_knots (fun v => put "insertedKnotVector" v (i + r) x)) sc)
    as (sd & Ed & Fd & Hd1 & Hd2 & Hd3);
    [lia | split; [assumption | split; [assumption | split; [intros; apply Hc2; lia | intros; lia]]] | |].
  { intros i s' Hi ((F1 & F2 & F3 & F4) & H1 & H2 & H3).
    eexists. split.
    - erewrite rbind_Ok by (apply (get_nth 0%R); lia).
      apply ik_set_knots_put. lia.
    - proj. split; [unfold frame; proj; rewrite size_insert; auto|]. split; [|split].
      + intros j Hj. rewrite knot_put by lia. decide_index. apply H1; lia.
      + intros j Hj. rewrite knot_put by lia. decide_index. apply H2; lia.
      + intros j Hj. rewrite knot_put by lia.
        destruct (Z.eqb_spec j (i + r)) as [->|].
        * unfold knot. f_equal. lia.
        * apply H3; lia. }
  exists sd. split; [exact Ed|].
  destruct Fd as (F1 & F2 & F3 & F4).
  split; [|auto]. unfold knots_inserted. auto.
Qed.


(** The control points after the two loops that copy the ends of the net. *)
Definition points_copied (v : list XYZW) : Prop :=
  size v = size controlPoints + r /\
  (forall j, 0 <= j <= k - degree -> pt v j = pt controlPoints j) /\
  (forall j, k - s <= j < size controlPoints -> pt v (j + r) = pt controlPoints j).

Definition fill_points : Run InsertKnotState unit :=
  ik_set_points (vresize "updatedControlPoints" XYZW_ops.zero (size controlPoints + r)) ;;
  for_range 0 (k - degree) (fun i =>
    do x <- get "controlPoints" controlPoints i;
    ik_set_points (fun v => put "updatedControlPoints" v i x)) ;;
  for_below_size (k - s) controlPoints (fun i =>
    do x <- get "controlPoints" controlPoints i;
    ik_set_points (fun v => put "updatedControlPoints" v (i + r) x)).

Lemma fill_points_spec s0 :
  exists s1, fill_points s0 = (s1, Ok tt) /\
    points_copied (updatedControlPoints s1) /\
    insertedKnotVector s1 = insertedKnotVector s0 /\
    ik_temp s1 = ik_temp s0 /\ ik_L s1 = ik_L s0.
Proof.
  unfold fill_points.
  set (sa := mkInsertKnotState (insertedKnotVector s0)
               (resize (Z.to_nat (size controlPoints + r)) XYZW_ops.zero (updatedControlPoints s0))
               (ik_temp s0) (ik_L s0)).
  assert (Ea : ik_set_points
                 (vresize "updatedControlPoints" XYZW_ops.zero (size controlPoints + r)) s0
               = (sa, Ok tt)).
  { unfold ik_set_points, modify. rewrite vresize_Ok by lia. reflexivity. }
  rewrite (rbind_Ok _ _ _ _ _ Ea).
  pose (frame := fun s' : InsertKnotState =>
    size (updatedControlPoints s') = size controlPoints + r /\
    insertedKnotVector s' = insertedKnotVector s0 /\
    ik_temp s' = ik_temp s0 /\ ik_L s' = ik_L s0).
  assert (Fa : frame sa).
  { unfold frame, sa; proj. rewrite size_resize. repeat split; lia. }
  destruct (for_range_rule
    (fun i s' => frame s' /\
       forall j, 0 <= j < i -> pt (updatedControlPoints s') j = pt controlPoints j)
    0 (k - degree) (fun i => do x <- get "controlPoints" controlPoints i;
                  ik_set_points (fun v => put "updatedControlPoints" v i x)) sa)
    as (sb & Eb & Fb & Hb); [lia | split; [assumption | intros; lia] | |].
  { intros i s' Hi ((F1 & F2 & F3 & F4) & H).
    eexists. split.
    - erewrite rbind_Ok by (apply (get_nth XYZW_ops.zero); lia).
      apply ik_set_points_put. lia.
    - proj. split; [unfold frame; proj; rewrite size_insert; auto|].
      intros j Hj. rewrite pt_put by lia.
      destruct (Z.eqb_spec j i) as [->|]; [reflexivity | apply H; lia]. }
  rewrite (rbind_Ok _ _ _ _ _ Eb).
  destruct (for_below_size_rule
    (fun i s' => frame s' /\
       (forall j, 0 <= j <= k - degree -> pt (updatedControlPoints s') j = pt controlPoints j) /\
       (forall j, k - s <= j < i -> pt (updatedControlPoints s') (j + r) = pt controlPoints j))
    (k - s) controlPoints
    (fun i => do x <- get "controlPoints" controlPoints i;
              ik_set_points (fun v => put "updatedControlPoints" v (i + r) x)) sb)
    as (sd & Ed & Fd & Hd1 & Hd2);
    [lia | split; [assumption | split; [intros; apply Hb; lia | intros; lia]] | |].
  { intros i s' Hi ((F1 & F2 & F3 & F4) & H1 & H2).
    eexists. split.
    - erewrite rbind_Ok by (apply (get_nth XYZW_ops.zero); lia).
      apply ik_set_points_put. lia.
    - proj. split; [unfold frame; proj; rewrite size_insert; auto|]. split.
      + intros j Hj. rewrite pt_put by lia.
        destruct (Z.eqb_spec j (i + r)) as [->|]; [|apply H1; lia].
        unfold pt. f_equal. lia.
      + intros j Hj. rewrite pt_put by lia.
        destruct (Z.eqb_spec (j + r) (i + r)) as [E|].
        * unfold pt. f_equal. lia.
        * apply H2; lia. }
  exists sd. split; [exact Ed|].
  destruct Fd as (F1 & F2 & F3 & F4).
  split; [|auto]. unfold points_copied. auto.
Qed.

(** The local buffer [temp] after its loop. *)
Definition temp_loaded (v : list XYZW) : Prop :=
  size v = degree - s + 1 /\
  forall i, 0 <= i <= degree - s -> pt v i = pt controlPoints (k - degree + i).

Definition fill_temp : Run InsertKnotState unit :=
  ik_set_temp (fun _ => vresize "temp" XYZW_ops.zero (degree - s + 1) []) ;;
  for_range 0 (degree - s) (fun i =>
    do x <- get "controlPoints" controlPoints (k - degree + i);
    ik_set_temp (fun v => put "temp" v i x)).

Lemma fill_temp_spec s0 :
  exists s1, fill_temp s0 = (s1, Ok tt) /\
    temp_loaded (ik_temp s1) /\
    insertedKnotVector s1 = insertedKnotVector s0 /\
    updatedControlPoints s1 = updatedControlPoints s0 /\ ik_L s1 = ik_L s0.
Proof.
  unfold fill_temp.
  set (sa := mkInsertKnotState (insertedKnotVector s0) (updatedControlPoints s0)
               (resize (Z.to_nat (degree - s + 1)) XYZW_ops.zero []) (ik_L s0)).
  assert (Ea : ik_set_temp (fun _ => vresize "temp" XYZW_ops.zero (degree - s + 1) []) s0
               = (sa, Ok tt)).
  { unfold ik_set_temp, modify. rewrite vresize_Ok by lia. reflexivity. }
  rewrite (rbind_Ok _ _ _ _ _ Ea).
  pose (frame := fun s' : InsertKnotState =>
    size (ik_temp s') = degree - s + 1 /\
    insertedKnotVector s' = insertedKnotVector s0 /\
    updatedControlPoints s' = updatedControlPoints s0 /\ ik_L s' = ik_L s0).
  assert (Fa : frame sa).
  { unfold frame, sa; proj. rewrite size_resize. repeat split; lia. }
  destruct (for_range_rule
    (fun i s' => frame s' /\
       forall j, 0 <= j < i -> pt (ik_temp s') j = pt controlPoints (k - degree + j))
    0 (degree - s) (fun i => do x <- get "controlPoints" controlPoints (k - degree + i);
                  ik_set_temp (fun v => put "temp" v i x)) sa)
    as (sb & Eb & Fb & Hb); [lia | split; [assumption | intros; lia] | |].
  { intros i s' Hi ((F1 & F2 & F3 & F4) & H).
    eexists. split.
    - erewrite rbind_Ok by (apply (get_nth XYZW_ops.zero); lia).
      apply ik_set_temp_put. lia.
    - proj. split; [unfold frame; proj; rewrite size_insert; auto|].
      intros j Hj. rewrite pt_put by lia.
      destruct (Z.eqb_spec j i) as [->|]; [reflexivity | apply H; lia]. }
  exists sb. split; [exact Eb|].
  destruct Fb as (F1 & F2 & F3 & F4).
  split; [|auto]. unfold temp_loaded. split; [assumption|]. intros; apply Hb; lia.
Qed.


(** The triangle that the rounds of the main loop build in [temp]: round [j]
    leaves [Dtri j i] in [temp[i]], for [i] up to [degree - j - s]. *)
Fixpoint Dtri (j : nat) (i : Z) : XYZW :=
  match j with
  | O => pt controlPoints (k - degree + i)
  | S j' =>
      let L := k - degree + Z.of_nat j in
      let alpha := ((insertKnot - knot knotVector (L + i))
                    / (knot knotVector (i + k + 1) - knot knotVector (L + i)))%R in
      XYZW_ops.add (XYZW_ops.scale alpha (Dtri j' (i + 1)))
                   (XYZW_ops.scale (1 - alpha)%R (Dtri j' i))
  end.

Definition D (j i : Z) : XYZW := Dtri (Z.to_nat j) i.

Lemma D_step j i :
  1 <= j ->
  D j i =
  let L := k - degree + j in
  let alpha := ((insertKnot - knot knotVector (L + i))
                / (knot knotVector (i + k + 1) - knot knotVector (L + i)))%R in
  XYZW_ops.add (XYZW_ops.scale alpha (D (j - 1) (i + 1)))
               (XYZW_ops.scale (1 - alpha)%R (D (j - 1) i)).
Proof.
  intros Hj. unfold D.
  replace (Z.to_nat j) with (S (Z.to_nat (j - 1))) by lia.
  cbn [Dtri]. replace (Z.of_nat (S (Z.to_nat (j - 1)))) with j by lia. reflexivity.
Qed.

Definition round (j : Z) : Run InsertKnotState unit :=
  ik_set_L (k - degree + j) ;;
  do L <- ik_get_L;
  for_range 0 (degree - j - s) (fun i =>
    do uLi <- get "knotVector" knotVector (L + i);
    do uk1 <- get "knotVector" knotVector (i + k + 1);
    let alpha := ((insertKnot - uLi) / (uk1 - uLi))%R in
    do t1 <- ik_temp_at (i + 1);
    do t0 <- ik_temp_at i;
    ik_set_temp (fun v => put "temp" v i
      (XYZW_ops.add (XYZW_ops.scale alpha t1) (XYZW_ops.scale (1 - alpha)%R t0)))) ;;
  do t0 <- ik_temp_at 0;
  ik_set_points (fun v => put "updatedControlPoints" v L t0) ;;
  do te <- ik_temp_at (degree - j - s);
  ik_set_points (fun v => put "updatedControlPoints" v (k + r - j - s) te).

(** The state before round [j]. *)
Definition rounds_done (kv : list R) (j : Z) (s' : InsertKnotState) : Prop :=
  insertedKnotVector s' = kv /\
  size (updatedControlPoints s') = size controlPoints + r /\
  size (ik_temp s') = degree - s + 1 /\
  (forall i, 0 <= i <= degree - (j - 1) - s -> pt (ik_temp s') i = D (j - 1) i) /\
  (forall i, 0 <= i <= k - degree -> pt (updatedControlPoints s') i = pt controlPoints i) /\
  (forall i, k - s <= i < size controlPoints ->
     pt (updatedControlPoints s') (i + r) = pt controlPoints i) /\
  (forall l, 1 <= l < j -> pt (updatedControlPoints s') (k - degree + l) = D l 0) /\
  (forall l, 1 <= l < j -> pt (updatedControlPoints s') (k + r - l - s) = D l (degree - l - s)).

Lemma round_spec kv j s0 :
  1 <= j <= r -> rounds_done kv j s0 ->
  exists s1, round j s0 = (s1, Ok tt) /\ rounds_done kv (j + 1) s1 /\
             ik_L s1 = k - degree + j.
Proof.
  intros Hj (Hkv & Hsp & Hst & Ht & Hp1 & Hp2 & Hp3 & Hp4). unfold round.
  set (sa := mkInsertKnotState (insertedKnotVector s0) (updatedControlPoints s0)
               (ik_temp s0) (k - degree + j)).
  rewrite (rbind_Ok _ _ s0 sa tt) by reflexivity.
  rewrite (rbind_Ok _ _ sa sa (k - degree + j)) by reflexivity.
  (* the inner loop *)
  destruct (for_range_rule
    (fun i s' =>
       insertedKnotVector s' = kv /\
       updatedControlPoints s' = updatedControlPoints s0 /\
       ik_L s' = k - degree + j /\
       size (ik_temp s') = degree - s + 1 /\
       (forall i', 0 <= i' < i -> pt (ik_temp s') i' = D j i') /\
       (forall i', i <= i' <= degree - (j - 1) - s -> pt (ik_temp s') i' = D (j - 1) i'))
    0 (degree - j - s)
    (fun i =>
      do uLi <- get "knotVector" knotVector (k - degree + j + i);
      do uk1 <- get "knotVector" knotVector (i + k + 1);
      let alpha := ((insertKnot - uLi) / (uk1 - uLi))%R in
      do t1 <- ik_temp_at (i + 1);
      do t0 <- ik_temp_at i;
      ik_set_temp (fun v => put "temp" v i
        (XYZW_ops.add (XYZW_ops.scale alpha t1) (XYZW_ops.scale (1 - alpha)%R t0)))) sa)
    as (sb & Eb & Fb1 & Fb2 & Fb3 & Fb4 & Hb1 & Hb2).
  { lia. }
  { unfold sa; proj. repeat split; auto; intros; lia. }
  { intros i s' Hi (F1 & F2 & F3 & F4 & H1 & H2).
    eexists. split.
    - erewrite rbind_Ok by (apply (get_nth 0%R); lia).
      erewrite rbind_Ok by (apply (get_nth 0%R); lia).
      cbv zeta.
      erewrite rbind_Ok by (apply ik_temp_at_pt; lia).
      erewrite rbind_Ok by (apply ik_temp_at_pt; lia).
      apply ik_set_temp_put. lia.
    - proj. rewrite size_insert. repeat split; auto.
      + intros i' Hi'. rewrite pt_put by lia.
        destruct (Z.eqb_spec i' i) as [->|]; [|apply H1; lia].
        rewrite (D_step j i) by lia. cbv zeta.
        rewrite !H2 by lia. reflexivity.
      + intros i' Hi'. rewrite pt_put by lia. decide_index. apply H2; lia. }
  rewrite (rbind_Ok _ _ _ _ _ Eb). clear Eb.
  destruct sb as [kvb ptb tb Lb]. cbn [insertedKnotVector updatedControlPoints ik_temp ik_L] in *.
  subst kvb ptb Lb.
  assert (Hin1 : 0 <= k - degree + j < size (updatedControlPoints s0)) by lia.
  assert (Hin2 : 0 <= k + r - j - s < size (<[Z.to_nat (k - degree + j) :=
       pt tb 0]> (updatedControlPoints s0))) by (rewrite size_insert; lia).
  erewrite rbind_Ok by (apply ik_temp_at_pt; proj; lia).
  erewrite rbind_Ok by (apply ik_set_points_put; proj; lia).
  erewrite rbind_Ok by (apply ik_temp_at_pt; proj; lia).
  eexists. split; [apply ik_set_points_put; proj; assumption|].
  proj. split; [|reflexivity].
  unfold rounds_done; proj. rewrite !size_insert.
  repeat split; auto.
  - intros i Hi. replace (j + 1 - 1) with j by lia. apply Hb1. lia.
  - intros i Hi. rewrite pt_put by (assumption || lia). decide_index.
    rewrite pt_put by (assumption || lia). decide_index. apply Hp1; lia.
  - intros i Hi. rewrite pt_put by (assumption || lia). decide_index.
    rewrite pt_put by (assumption || lia). decide_index. apply Hp2; lia.
  - intros l Hl. rewrite pt_put by (assumption || lia).
    destruct (Z.eqb_spec (k - degree + l) (k + r - j - s)) as [E|Hne].
    + rewrite Hb1 by lia. assert (l = j) by lia. subst l. f_equal. lia.
    + rewrite pt_put by (assumption || lia).
      destruct (Z.eqb_spec (k - degree + l) (k - degree + j)) as [E|Hne'].
      * rewrite Hb1 by lia. f_equal; lia.
      * apply Hp3. lia.
  - intros l Hl. rewrite pt_put by (assumption || lia).
    destruct (Z.eqb_spec (k + r - l - s) (k + r - j - s)) as [E|Hne].
    + rewrite Hb1 by lia. f_equal; lia.
    + rewrite pt_put by (assumption || lia). decide_index. apply Hp4. lia.
Qed.


(** The control points when [InsertKnot] returns. *)
Definition points_inserted (v : list XYZW) : Prop :=
  size v = size controlPoints + r /\
  (forall i, 0 <= i <= k - degree -> pt v i = pt controlPoints i) /\
  (forall l, 1 <= l <= r -> pt v (k - degree + l) = D l 0) /\
  (forall i, k - degree + r < i < k - s -> pt v i = D r (i - (k - degree + r))) /\
  (forall l, 1 <= l <= r -> pt v (k + r - l - s) = D l (degree - l - s)) /\
  (forall i, k - s <= i < size controlPoints -> pt v (i + r) = pt controlPoints i).

Definition copy_middle : Run InsertKnotState unit :=
  do L <- ik_get_L;
  for_range (L + 1) (k - s - 1) (fun i =>
    do x <- ik_temp_at (i - L);
    ik_set_points (fun v => put "updatedControlPoints" v i x)).

Lemma rounds_spec kv s0 :
  rounds_done kv 1 s0 ->
  exists s1, for_range 1 r round s0 = (s1, Ok tt) /\ rounds_done kv (r + 1) s1 /\
             (1 <= r -> ik_L s1 = k - degree + r) /\ (r = 0 -> s1 = s0).
Proof.
  intros H0.
  destruct (Z.eq_dec r 0) as [Hr0|Hr0].
  { exists s0. rewrite for_range_empty by lia. replace (r + 1) with 1 by lia.
    split; [reflexivity|]. split; [assumption|]. split; [lia | reflexivity]. }
  destruct (for_range_rule
    (fun j s' => rounds_done kv j s' /\ (1 < j -> ik_L s' = k - degree + (j - 1)))
    1 r round s0) as (s1 & E1 & H1 & HL); [lia | split; [assumption | lia] | |].
  { intros j s' Hj (H & _). destruct (round_spec kv j s' Hj H) as (s2 & E2 & H2 & HL2).
    exists s2. split; [assumption|]. split; [assumption|].
    intros _. rewrite HL2. f_equal. lia. }
  exists s1. split; [assumption|]. split; [assumption|]. split; [|lia].
  intros Hr1. rewrite HL by lia. f_equal. lia.
Qed.

Lemma copy_middle_spec kv s0 :
  1 <= r -> rounds_done kv (r + 1) s0 -> ik_L s0 = k - degree + r ->
  exists s1, copy_middle s0 = (s1, Ok tt) /\ insertedKnotVector s1 = kv /\
             points_inserted (updatedControlPoints s1).
Proof.
  intros Hr1 (Hkv & Hsp & Hst & Ht & Hp1 & Hp2 & Hp3 & Hp4) HL. unfold copy_middle.
  rewrite (rbind_Ok _ _ s0 s0 (k - degree + r)) by (unfold ik_get_L, read; rewrite HL; reflexivity).
  replace (r + 1 - 1) with r in Ht by lia.
  destruct (Z_le_gt_dec (k - degree + r + 1) (k - s - 1 + 1)) as [Hle|Hgt].
  - destruct (for_range_rule
      (fun i s' =>
         insertedKnotVector s' = kv /\ ik_temp s' = ik_temp s0 /\
         size (updatedControlPoints s') = size controlPoints + r /\
         (forall i', 0 <= i' <= k - degree -> pt (updatedControlPoints s') i' = pt controlPoints i') /\
         (forall i', k - s <= i' < size controlPoints ->
            pt (updatedControlPoints s') (i' + r) = pt controlPoints i') /\
         (forall l, 1 <= l <= r -> pt (updatedControlPoints s') (k - degree + l) = D l 0) /\
         (forall l, 1 <= l <= r ->
            pt (updatedControlPoints s') (k + r - l - s) = D l (degree - l - s)) /\
         (forall i', k - degree + r < i' < i ->
            pt (updatedControlPoints s') i' = D r (i' - (k - degree + r))))
      (k - degree + r + 1) (k - s - 1)
      (fun i => do x <- ik_temp_at (i - (k - degree + r));
                ik_set_points (fun v => put "updatedControlPoints" v i x)) s0)
      as (s1 & E1 & F1 & F2 & F3 & H1 & H2 & H3 & H4 & H5).
    { lia. }
    { repeat split; auto; intros; try lia; [apply Hp3 | apply Hp4]; lia. }
    { intros i s' Hi (F1 & F2 & F3 & H1 & H2 & H3 & H4 & H5).
      eexists. split.
      - erewrite rbind_Ok by (apply ik_temp_at_pt; rewrite F2; lia).
        apply ik_set_points_put. lia.
      - proj. rewrite size_insert. repeat split; auto.
        + intros i' Hi'. rewrite pt_put by lia. decide_index. apply H1; lia.
        + intros i' Hi'. rewrite pt_put by lia. decide_index. apply H2; lia.
        + intros l Hl. rewrite pt_put by lia. decide_index. apply H3; lia.
        + intros l Hl. rewrite pt_put by lia. decide_index. apply H4; lia.
        + intros i' Hi'. rewrite pt_put by lia.
          destruct (Z.eqb_spec i' i) as [->|]; [|apply H5; lia].
          rewrite F2. apply Ht. lia. }
    exists s1. split; [exact E1|]. split; [assumption|].
    unfold points_inserted. repeat split; auto. intros; apply H5; lia.
  - exists s0. rewrite for_range_empty by lia. split; [reflexivity|]. split; [assumption|].
    unfold points_inserted. repeat split; auto; intros; try lia; [apply Hp3 | apply Hp4]; lia.
Qed.

(** The body of [InsertKnot], block after block. *)
Definition blocks : Run InsertKnotState unit :=
  fill_knots ;; fill_points ;; fill_temp ;; ik_set_L 0 ;; for_range 1 r round ;; copy_middle.

Lemma InsertKnot_body_blocks times s0 :
  Polynomials.GetKnotSpanIndex degree knotVector insertKnot = k ->
  Polynomials.GetKnotMultiplicity knotVector insertKnot = s ->
  clamp_times degree s times = r ->
  InsertKnot_body degree knotVector controlPoints insertKnot times s0 = blocks s0.
Proof.
  intros Ek Es Er. unfold InsertKnot_body. rewrite Ek, Es, Er. cbv zeta.
  unfold blocks, fill_knots, fill_points, fill_temp, copy_middle.
  repeat (rewrite ?rbind_assoc; apply rbind_ext; intros ? ?).
  reflexivity.
Qed.

(** The state in which the rounds start. *)
Lemma blocks_before_rounds s0 :
  exists s1,
    (fill_knots ;; fill_points ;; fill_temp ;; ik_set_L 0) s0 = (s1, Ok tt) /\
    knots_inserted (insertedKnotVector s1) /\
    rounds_done (insertedKnotVector s1) 1 s1 /\ ik_L s1 = 0.
Proof.
  destruct (fill_knots_spec s0) as (s1 & E1 & K1 & _).
  destruct (fill_points_spec s1) as (s2 & E2 & (P1 & P2 & P3) & F2 & _).
  destruct (fill_temp_spec s2) as (s3 & E3 & (T1 & T2) & F3 & G3 & _).
  rewrite (rbind_Ok _ _ _ _ _ E1), (rbind_Ok _ _ _ _ _ E2), (rbind_Ok _ _ _ _ _ E3).
  eexists. split; [reflexivity|]. proj. rewrite F3, F2, G3. split; [assumption|].
  split; [|reflexivity]. unfold rounds_done; proj.
  repeat split; auto; try (intros; lia).
  intros i Hi. rewrite T2 by lia. reflexivity.
Qed.

Lemma blocks_spec s0 :
  1 <= r ->
  exists s1, blocks s0 = (s1, Ok tt) /\
    knots_inserted (insertedKnotVector s1) /\ points_inserted (updatedControlPoints s1).
Proof.
  intros Hr1.
  destruct (blocks_before_rounds s0) as (s1 & E1 & K1 & R1 & _).
  destruct (rounds_spec _ s1 R1) as (s2 & E2 & R2 & L2 & _).
  destruct (copy_middle_spec _ s2 Hr1 R2 (L2 Hr1)) as (s3 & E3 & K3 & P3).
  exists s3. split; [|rewrite K3; auto].
  transitivity (((fill_knots ;; fill_points ;; fill_temp ;; ik_set_L 0) ;;
                 for_range 1 r round ;; copy_middle) s0).
  { unfold blocks. repeat (rewrite ?rbind_assoc; apply rbind_ext; intros ? ?). reflexivity. }
  rewrite (rbind_Ok _ _ _ _ _ E1), (rbind_Ok _ _ _ _ _ E2). exact E3.
Qed.

(** With the full multiplicity and a span two above the degree the last loop
    reads [temp[1]] from a buffer of one element. *)
Lemma blocks_full_multiplicity s0 :
  r = 0 -> s = degree -> degree + 2 <= k ->
  snd (blocks s0) = OutOfRange "temp" 1 1.
Proof.
  intros Hr0 Hsd Hk2.
  destruct (blocks_before_rounds s0) as (s1 & E1 & K1 & R1 & L1).
  destruct (rounds_spec _ s1 R1) as (s2 & E2 & _ & _ & Hs2).
  specialize (Hs2 Hr0). subst s2.
  transitivity (snd (((fill_knots ;; fill_points ;; fill_temp ;; ik_set_L 0) ;;
                      for_range 1 r round ;; copy_middle) s0)).
  { f_equal. unfold blocks.
    repeat (rewrite ?rbind_assoc; apply rbind_ext; intros ? ?). reflexivity. }
  rewrite (rbind_Ok _ _ _ _ _ E1), (rbind_Ok _ _ _ _ _ E2).
  unfold copy_middle.
  rewrite (rbind_Ok _ _ s1 s1 0) by (unfold ik_get_L, read; rewrite L1; reflexivity).
  rewrite for_range_step by lia.
  destruct R1 as (_ & _ & Hst & _).
  unfold rbind at 1. unfold rbind at 1.
  rewrite ik_temp_at_out by lia. cbn [snd].
  f_equal. unfold size in Hst. lia.
Qed.

End InsertRun.

(** ** [InsertKnot] as a whole *)

Local Open Scope R_scope.

Lemma span_scan_spec U t low : forall steps k,
  k = (low + Z.of_nat steps)%Z ->
  let kappa := Polynomials.span_scan steps k U t low in
  (low <= kappa <= k)%Z /\
  ((low < kappa)%Z -> knot U kappa <= t) /\
  (forall j, (kappa < j <= k)%Z -> t < knot U j).
Proof.
  induction steps as [|n IH]; intros k Hk; cbn [Polynomials.span_scan].
  - repeat split; intros; lia.
  - unfold Rleb. destruct (Rle_dec (knot U k) t) as [Hle|Hgt].
    + repeat split; intros; try lia. assumption.
    + destruct (IH (k - 1)%Z ltac:(lia)) as (H1 & H2 & H3).
      repeat split; try lia; [assumption|].
      intros j Hj. destruct (Z.eq_dec j k) as [->|Hne]; [lra | apply H3; lia].
Qed.

Lemma GetKnotSpanIndex_spec degree U t :
  let n := (size U - degree - 2)%Z in
  let kappa := Polynomials.GetKnotSpanIndex degree U t in
  (degree <= n)%Z ->
  (degree <= kappa <= n)%Z /\
  ((degree < kappa)%Z -> knot U kappa <= t) /\
  (forall j, (kappa < j <= n)%Z -> t < knot U j).
Proof.
  intros n kappa Hn. unfold kappa, Polynomials.GetKnotSpanIndex. fold n.
  apply span_scan_spec. lia.
Qed.

Lemma GetKnotMultiplicity_nonneg U t : (0 <= Polynomials.GetKnotMultiplicity U t)%Z.
Proof.
  induction U as [|a U IH]; cbn [Polynomials.GetKnotMultiplicity]; [lia|].
  destruct (IsAlmostEqualTo t a); lia.
Qed.

Local Open Scope Z_scope.

Lemma InsertKnot_validate_Ok {St} degree (U : list R) (P : list XYZW) times (st : St) :
  0 < degree -> ValidationUtils.IsValidKnotVector U = true ->
  size U = size P + degree + 1 -> 0 < size P -> 0 < times ->
  InsertKnot_validate degree U P times st = (st, Ok tt).
Proof.
  intros Hd Hv Hsz Hp Ht. unfold InsertKnot_validate, ValidationUtils.IsValidNurbs.
  rewrite Hv.
  replace (0 <? degree) with true by (symmetry; apply Z.ltb_lt; lia).
  replace (0 <? size U) with true by (symmetry; apply Z.ltb_lt; lia).
  replace (0 <? size P) with true by (symmetry; apply Z.ltb_lt; lia).
  replace (0 <? times) with true by (symmetry; apply Z.ltb_lt; lia).
  replace (size U =? size P + degree + 1) with true by (symmetry; apply Z.eqb_eq; lia).
  reflexivity.
Qed.

Lemma clamp_times_range degree s times :
  0 < times -> s < degree -> 1 <= clamp_times degree s times <= degree - s
  /\ clamp_times degree s times <= times.
Proof. intros Ht Hs. unfold clamp_times. destruct (Z.gtb_spec (s + times) degree); lia. Qed.

(** The run of [InsertKnot] on a checked input with room for the knot. *)
Lemma InsertKnot_run degree U P ubar times out :
  0 < degree -> ValidationUtils.IsValidKnotVector U = true ->
  size U = size P + degree + 1 -> degree + 1 <= size P -> 0 < times ->
  Polynomials.GetKnotMultiplicity U ubar < degree ->
  let k := Polynomials.GetKnotSpanIndex degree U ubar in
  let s := Polynomials.GetKnotMultiplicity U ubar in
  let r := clamp_times degree s times in
  exists U' P', InsertKnot degree U P ubar times out = ((U', P'), Ok tt) /\
    knots_inserted U ubar k r U' /\ points_inserted degree U P ubar k s r P'.
Proof.
  intros Hd Hv Hsz Hn Ht Hs k s r.
  destruct (GetKnotSpanIndex_spec degree U ubar ltac:(lia)) as (Hk & _).
  fold k in Hk.
  pose proof (GetKnotMultiplicity_nonneg U ubar) as Hs0. fold s in Hs0, Hs.
  destruct (clamp_times_range degree s times Ht Hs) as (Hr & _). fold r in Hr.
  destruct (blocks_spec degree U P ubar k s r Hsz ltac:(lia) Hs0 ltac:(lia) Hd
              (mkInsertKnotState (fst out) (snd out) [] 0) ltac:(lia))
    as (s1 & E1 & K1 & P1).
  exists (insertedKnotVector s1), (updatedControlPoints s1).
  split; [|auto].
  unfold InsertKnot.
  rewrite (rbind_Ok _ _ out out tt) by (apply InsertKnot_validate_Ok; auto; lia).
  unfold with_locals.
  rewrite (InsertKnot_body_blocks degree U P ubar k s r times) by reflexivity.
  rewrite E1. reflexivity.
Qed.

(** C4.  A knot that already has the full multiplicity [degree] leaves a
    clamped count of zero; when its span lies two or more above the degree,
    the last loop of [InsertKnot] starts at [L + 1 = 1] and reads [temp[1]]
    from a buffer of one element: the call ends in undefined behaviour
    instead of returning buffers of the lengths [|U| + times] and
    [|P| + times]. *)
Theorem InsertKnot_full_multiplicity_reads_out_of_range degree U P ubar times out :
  0 < degree -> ValidationUtils.IsValidKnotVector U = true ->
  size U = size P + degree + 1 -> 0 < times ->
  Polynomials.GetKnotMultiplicity U ubar = degree ->
  degree + 2 <= Polynomials.GetKnotSpanIndex degree U ubar ->
  snd (InsertKnot degree U P ubar times out) = OutOfRange "temp" 1 1.
Proof.
  intros Hd Hv Hsz Ht Hs Hk.
  assert (Hn : degree <= size U - degree - 2).
  { destruct (Z_le_gt_dec degree (size U - degree - 2)) as [H|H]; [assumption|].
    unfold Polynomials.GetKnotSpanIndex in Hk.
    replace (Z.to_nat (size U - degree - 2 - degree)) with O in Hk by lia.
    cbn [Polynomials.span_scan] in Hk. lia. }
  destruct (GetKnotSpanIndex_spec degree U ubar Hn) as (Hk' & _).
  unfold InsertKnot.
  rewrite (rbind_Ok _ _ out out tt) by (apply InsertKnot_validate_Ok; auto; lia).
  unfold with_locals.
  rewrite (InsertKnot_body_blocks degree U P ubar
             (Polynomials.GetKnotSpanIndex degree U ubar) degree 0 times);
    [ | reflexivity | assumption
      | unfold clamp_times; destruct (Z.gtb_spec (degree + times) degree); lia ].
  pose proof (blocks_full_multiplicity degree U P ubar
                (Polynomials.GetKnotSpanIndex degree U ubar) degree 0
                Hsz ltac:(lia) ltac:(lia) ltac:(lia) Hd
                (mkInsertKnotState (fst out) (snd out) [] 0) eq_refl eq_refl Hk) as H.
  destruct (blocks _ _ _ _ _ _ _ _) as [s1 o]. cbn [snd] in H |- *. exact H.
Qed.

Lemma InsertKnot_full_multiplicity_reads_out_of_range_witness :
  snd (InsertKnot 1 InsertExamples.polyline_knots InsertExamples.polyline_points 2 1 ([], []))
  = OutOfRange "temp" 1 1.
Proof.
  apply InsertKnot_full_multiplicity_reads_out_of_range.
  - lia.
  - exact InsertExamples.polyline_valid.
  - reflexivity.
  - lia.
  - exact InsertExamples.polyline_multiplicity.
  - rewrite InsertExamples.polyline_span. lia.
Defined.

End InsertFacts.
(** * Knot insertion keeps the curve *)

Import Spline.

Lemma N_support u kappa t q : forall i,
  (i < kappa - Z.of_nat q \/ kappa < i)%Z -> N u kappa t q i = 0.
Proof.
  induction q as [|q IH]; intros i Hi.
  - cbn [N]. destruct (Z.eqb_spec i kappa); [lia | reflexivity].
  - cbn [N]. rewrite (IH i), (IH (i + 1)%Z) by lia. ring.
Qed.

Lemma N_succ u kappa t q i :
  N u kappa t (S q) i =
  (t - u i) / (u (i + (Z.of_nat q + 1))%Z - u i) * N u kappa t q i
  + (u (i + (Z.of_nat q + 1) + 1)%Z - t) / (u (i + (Z.of_nat q + 1) + 1)%Z - u (i + 1)%Z)
    * N u kappa t q (i + 1).
Proof. cbn [N]. replace (Z.of_nat (S q)) with (Z.of_nat q + 1)%Z by lia. reflexivity. Qed.

Ltac split_index :=
  repeat match goal with
  | |- context [(?a <=? ?b)%Z] => destruct (Z.leb_spec a b); try lia
  | |- context [(?a =? ?b)%Z] => destruct (Z.eqb_spec a b); try lia
  end.

Ltac norm_index v :=
  repeat match goal with
  | |- context [v ?e] => progress ring_simplify e
  end.

Section Boehm.
Variables (v : Z -> R) (k : Z) (t : R) (kappa' : Z) (lo hi : Z).
Hypothesis Hmono : forall a b, (lo <= a)%Z -> (a <= b)%Z -> (b <= hi)%Z -> v a <= v b.
Hypothesis Hspan : v kappa' < v (kappa' + 1)%Z.

Lemma gap a b : (lo <= a <= kappa')%Z -> (kappa' + 1 <= b <= hi)%Z -> v a < v b.
Proof.
  intros Ha Hb.
  pose proof (Hmono a kappa' ltac:(lia) ltac:(lia) ltac:(lia)).
  pose proof (Hmono (kappa' + 1)%Z b ltac:(lia) ltac:(lia) ltac:(lia)). lra.
Qed.

Variable q : Z.
Hypothesis Hq : (1 <= q)%Z.
Hypothesis Hlo : (lo <= kappa' - q)%Z.
Hypothesis Hhi : (kappa' + q + 1 <= hi)%Z.

Lemma coef1 j :
  (kappa' - q + 1 <= j <= kappa')%Z ->
  (t - del v k j) / (del v k (j + q) - del v k j) * alpha v k (q - 1) j
  = alpha v k q j * ((t - v j) / (v (j + q)%Z - v j)).
Proof.
  intros Hj. unfold alpha, del.
  pose proof (gap j (j + q)%Z ltac:(lia) ltac:(lia)) as G.
  split_index; norm_index v; try (unfold Rdiv; ring).
  - replace j with (k - q + 1)%Z in * by lia. norm_index v.
    revert G. norm_index v. intros G.
    pose proof (Hmono (k + 1)%Z (k + 2)%Z ltac:(lia) ltac:(lia) ltac:(lia)).
    field. split; lra.
Qed.

Lemma coef3 j :
  (kappa' - q + 1 <= j <= kappa')%Z ->
  (del v k (j + q - 1) - t) / (del v k (j + q - 1) - del v k (j - 1))
    * (1 - alpha v k (q - 1) j)
  = (1 - alpha v k q (j - 1)) * ((v (j + q)%Z - t) / (v (j + q)%Z - v j)).
Proof.
  intros Hj. unfold alpha, del.
  pose proof (gap j (j + q)%Z ltac:(lia) ltac:(lia)) as G.
  pose proof (Hmono (j - 1)%Z j ltac:(lia) ltac:(lia) ltac:(lia)) as M.
  split_index; norm_index v; try (unfold Rdiv; ring).
  - revert G M. norm_index v. intros G M. field. split; lra.
  - replace j with (k + 1)%Z in * by lia. revert G M. norm_index v. intros G M.
    field. split; lra.
Qed.

Lemma coef2 j :
  (kappa' - q + 1 <= j <= kappa')%Z ->
  (t - del v k (j - 1)) / (del v k (j + q - 1) - del v k (j - 1)) * (1 - alpha v k (q - 1) j)
  + (del v k (j + q) - t) / (del v k (j + q) - del v k j) * alpha v k (q - 1) j
  = alpha v k q (j - 1) * ((v (j + q)%Z - t) / (v (j + q)%Z - v j))
    + (1 - alpha v k q j) * ((t - v j) / (v (j + q)%Z - v j)).
Proof.
  intros Hj. unfold alpha, del.
  pose proof (gap j (j + q)%Z ltac:(lia) ltac:(lia)) as G.
  pose proof (Hmono (j - 1)%Z j ltac:(lia) ltac:(lia) ltac:(lia)) as M.
  pose proof (Hmono (j + q)%Z (j + q + 1)%Z ltac:(lia) ltac:(lia) ltac:(lia)) as M'.
  split_index; norm_index v; try (unfold Rdiv; ring).
  all: revert G M M'; norm_index v; intros G M M'.
  - replace (k + 1)%Z with (j + q)%Z by lia.
    replace (1 - 1) with 0 by ring. rewrite Rmult_0_r, Rplus_0_l.
    field. split; lra.
  - field. repeat split; lra.
  - replace (k + 1)%Z with j by lia.
    replace (1 - 0) with 1 by ring. rewrite Rmult_0_r, Rplus_0_r.
    field. split; lra.
Qed.
End Boehm.

Section BoehmIdentity.
Variables (v : Z -> R) (k : Z) (t : R) (kappa kappa' : Z) (lo hi : Z).
Hypothesis Hmono : forall a b, (lo <= a)%Z -> (a <= b)%Z -> (b <= hi)%Z -> v a <= v b.
Hypothesis Hspan : v kappa' < v (kappa' + 1)%Z.
Hypothesis Hrel :
  (kappa < k /\ kappa' = kappa)%Z \/ (kappa = k /\ kappa' = k)%Z
  \/ (k <= kappa /\ kappa' = kappa + 1)%Z.

Lemma scaled_eq (x y n : R) : (n <> 0 -> x = y) -> x * n = y * n.
Proof.
  intros H. destruct (Req_dec n 0) as [->|Hn]; [ring | rewrite (H Hn); reflexivity].
Qed.

(** Boehm's identity: a basis function on the knots without [v (k + 1)] is
    a combination of two basis functions on the knots [v]. *)
Lemma boehm (q : nat) :
  (lo <= kappa' - Z.of_nat q)%Z -> (kappa' + Z.of_nat q + 1 <= hi)%Z ->
  forall i,
  N (del v k) kappa t q i
  = alpha v k (Z.of_nat q) i * N v kappa' t q i
    + (1 - alpha v k (Z.of_nat q) (i + 1)) * N v kappa' t q (i + 1).
Proof.
  induction q as [|q IH]; intros Hlo Hhi i.
  - cbn [N]. unfold alpha. cbn [Z.of_nat].
    destruct Hrel as [[H1 H2]|[[H1 H2]|[H1 H2]]]; subst kappa'; split_index; lra.
  - rewrite !N_succ. rewrite (IH ltac:(lia) ltac:(lia) i), (IH ltac:(lia) ltac:(lia) (i + 1)%Z).
    replace (Z.of_nat (S q)) with (Z.of_nat q + 1)%Z by lia.
    set (qz := (Z.of_nat q + 1)%Z).
    assert (Hqz : (1 <= qz)%Z) by lia.
    replace (Z.of_nat q) with (qz - 1)%Z by lia.
    replace (i + 1 + 1)%Z with (i + 2)%Z by lia.
    replace (i + 1 + qz)%Z with (i + qz + 1)%Z by lia.
    pose proof (coef1 v k t kappa' lo hi Hmono Hspan qz Hqz ltac:(lia) ltac:(lia) i) as C1.
    pose proof (coef2 v k t kappa' lo hi Hmono Hspan qz Hqz ltac:(lia) ltac:(lia) (i + 1)%Z) as C2.
    pose proof (coef3 v k t kappa' lo hi Hmono Hspan qz Hqz ltac:(lia) ltac:(lia) (i + 2)%Z) as C3.
    replace (i + 1 - 1)%Z with i in C2 by lia.
    replace (i + 1 + qz - 1)%Z with (i + qz)%Z in C2 by lia.
    replace (i + 1 + qz)%Z with (i + qz + 1)%Z in C2 by lia.
    replace (i + 2 - 1)%Z with (i + 1)%Z in C3 by lia.
    replace (i + 2 + qz - 1)%Z with (i + qz + 1)%Z in C3 by lia.
    replace (i + 2 + qz)%Z with (i + qz + 1 + 1)%Z in C3 by lia.
    set (n0 := N v kappa' t q i) in *.
    set (n1 := N v kappa' t q (i + 1)) in *.
    set (n2 := N v kappa' t q (i + 2)) in *.
    assert (E1 : (t - del v k i) / (del v k (i + qz) - del v k i) * alpha v k (qz - 1) i * n0
                 = alpha v k qz i * ((t - v i) / (v (i + qz)%Z - v i)) * n0).
    { apply scaled_eq. intros Hn. apply C1.
      destruct (Z_lt_le_dec i (kappa' - qz + 1)); [|destruct (Z_lt_le_dec kappa' i)]; [| |lia];
        exfalso; apply Hn; apply N_support; lia. }
    assert (E2 : ((t - del v k i) / (del v k (i + qz) - del v k i) * (1 - alpha v k (qz - 1) (i + 1))
                  + (del v k (i + qz + 1) - t) / (del v k (i + qz + 1) - del v k (i + 1))
                    * alpha v k (qz - 1) (i + 1)) * n1
                 = (alpha v k qz i * ((v (i + qz + 1)%Z - t) / (v (i + qz + 1)%Z - v (i + 1)%Z))
                    + (1 - alpha v k qz (i + 1)) * ((t - v (i + 1)%Z) / (v (i + qz + 1)%Z - v (i + 1)%Z)))
                   * n1).
    { apply scaled_eq. intros Hn. apply C2.
      destruct (Z_lt_le_dec (i + 1) (kappa' - qz + 1)); [|destruct (Z_lt_le_dec kappa' (i + 1))];
        [| |lia]; exfalso; apply Hn; apply N_support; lia. }
    assert (E3 : (del v k (i + qz + 1) - t) / (del v k (i + qz + 1) - del v k (i + 1))
                   * (1 - alpha v k (qz - 1) (i + 2)) * n2
                 = (1 - alpha v k qz (i + 1))
                   * ((v (i + qz + 1 + 1)%Z - t) / (v (i + qz + 1 + 1)%Z - v (i + 2)%Z)) * n2).
    { apply scaled_eq. intros Hn. apply C3.
      destruct (Z_lt_le_dec (i + 2) (kappa' - qz + 1)); [|destruct (Z_lt_le_dec kappa' (i + 2))];
        [| |lia]; exfalso; apply Hn; apply N_support; lia. }
    clear C1 C2 C3 IH.
    replace (i + 1 + 1)%Z with (i + 2)%Z by lia.
    unfold Rdiv in *.
    lra.
Qed.
End BoehmIdentity.

(** ** Sums of points *)

Ltac vec :=
  repeat match goal with x : XYZW |- _ => destruct x end;
  unfold XYZW_ops.add, XYZW_ops.scale, XYZW_ops.zero; cbn [WX WY WZ W];
  f_equal; ring.

Lemma add_zero_l x : XYZW_ops.add XYZW_ops.zero x = x.
Proof. vec. Qed.
Lemma add_zero_r x : XYZW_ops.add x XYZW_ops.zero = x.
Proof. vec. Qed.
Lemma add_assoc x y z :
  XYZW_ops.add x (XYZW_ops.add y z) = XYZW_ops.add (XYZW_ops.add x y) z.
Proof. vec. Qed.
Lemma add_swap x y z w :
  XYZW_ops.add (XYZW_ops.add x y) (XYZW_ops.add z w)
  = XYZW_ops.add (XYZW_ops.add x z) (XYZW_ops.add y w).
Proof. vec. Qed.
Lemma scale_zero x : XYZW_ops.scale 0 x = XYZW_ops.zero.
Proof. vec. Qed.
Lemma scale_one x : XYZW_ops.scale 1 x = x.
Proof. vec. Qed.

Lemma vsum_ext f g n : forall a,
  (forall i, (a <= i < a + Z.of_nat n)%Z -> f i = g i) -> vsum f a n = vsum g a n.
Proof.
  induction n as [|n IH]; intros a H; cbn [vsum]; [reflexivity|].
  rewrite (H a) by lia. rewrite (IH (a + 1)%Z); [reflexivity|]. intros i Hi. apply H. lia.
Qed.

Lemma vsum_zero f n : forall a,
  (forall i, (a <= i < a + Z.of_nat n)%Z -> f i = XYZW_ops.zero) -> vsum f a n = XYZW_ops.zero.
Proof.
  induction n as [|n IH]; intros a H; cbn [vsum]; [reflexivity|].
  rewrite (H a) by lia. rewrite (IH (a + 1)%Z); [apply add_zero_l|]. intros i Hi. apply H. lia.
Qed.

Lemma vsum_app f n1 n2 : forall a,
  vsum f a (n1 + n2) = XYZW_ops.add (vsum f a n1) (vsum f (a + Z.of_nat n1)%Z n2).
Proof.
  induction n1 as [|n1 IH]; intros a.
  - cbn [vsum Nat.add]. rewrite add_zero_l. f_equal. lia.
  - cbn [vsum Nat.add]. rewrite IH, add_assoc. do 2 f_equal. lia.
Qed.

Lemma vsum_add f g n : forall a,
  vsum (fun i => XYZW_ops.add (f i) (g i)) a n = XYZW_ops.add (vsum f a n) (vsum g a n).
Proof.
  induction n as [|n IH]; intros a; cbn [vsum]; [symmetry; apply add_zero_l|].
  rewrite IH. apply add_swap.
Qed.

Lemma vsum_shift f n : forall a, vsum (fun i => f (i + 1)%Z) a n = vsum f (a + 1)%Z n.
Proof. induction n as [|n IH]; intros a; cbn [vsum]; [reflexivity|]. rewrite IH. reflexivity. Qed.

(** A sum over a window is the sum over the support of the summand. *)
Lemma vsum_window f a n A M :
  (A <= a)%Z -> (a + Z.of_nat n <= A + Z.of_nat M)%Z ->
  (forall i, (A <= i < a \/ a + Z.of_nat n <= i < A + Z.of_nat M)%Z -> f i = XYZW_ops.zero) ->
  vsum f A M = vsum f a n.
Proof.
  intros H1 H2 H0.
  replace M with (Z.to_nat (a - A) + (n + Z.to_nat (A + Z.of_nat M - (a + Z.of_nat n))))%nat by lia.
  rewrite !vsum_app.
  rewrite (vsum_zero f (Z.to_nat (a - A))) by (intros; apply H0; lia).
  rewrite (vsum_zero f (Z.to_nat (A + Z.of_nat M - (a + Z.of_nat n))))
    by (intros; apply H0; lia).
  rewrite add_zero_l, add_zero_r. f_equal. lia.
Qed.

Section SingleInsertion.
Variables (v : Z -> R) (k : Z) (t : R) (kappa kappa' : Z) (lo hi : Z) (p : nat).
Variable c : Z -> XYZW.
Hypothesis Hmono : forall a b, (lo <= a)%Z -> (a <= b)%Z -> (b <= hi)%Z -> v a <= v b.
Hypothesis Hspan : v kappa' < v (kappa' + 1)%Z.
Hypothesis Hrel :
  (kappa < k /\ kappa' = kappa)%Z \/ (kappa = k /\ kappa' = k)%Z
  \/ (k <= kappa /\ kappa' = kappa + 1)%Z.
Hypothesis Hlo : (lo <= kappa' - Z.of_nat p)%Z.
Hypothesis Hhi : (kappa' + Z.of_nat p + 1 <= hi)%Z.

(** One insertion leaves the point of the curve where it is. *)
Lemma insertion_keeps_point :
  vsum (fun i => XYZW_ops.scale (N (del v k) kappa t p i) (c i)) (kappa - Z.of_nat p) (S p)
  = vsum (fun i => XYZW_ops.scale (N v kappa' t p i) (insP v k (Z.of_nat p) c i))
      (kappa' - Z.of_nat p) (S p).
Proof.
  set (A := (kappa - Z.of_nat p - 1)%Z). set (M := (p + 3)%nat).
  set (G := fun i => XYZW_ops.scale (alpha v k (Z.of_nat p) i * N v kappa' t p i) (c i)).
  set (H := fun i => XYZW_ops.scale ((1 - alpha v k (Z.of_nat p) i) * N v kappa' t p i)
                       (c (i - 1)%Z)).
  rewrite <- (vsum_window _ (kappa - Z.of_nat p) (S p) A M);
    [ | unfold A; lia | unfold A, M; lia
      | intros i Hi; rewrite N_support by (unfold A, M in Hi; lia); apply scale_zero ].
  rewrite <- (vsum_window _ (kappa' - Z.of_nat p) (S p) A M);
    [ | unfold A; lia | unfold A, M; lia
      | intros i Hi; rewrite N_support by (unfold A, M in Hi; lia); apply scale_zero ].
  rewrite (vsum_ext _ (fun i => XYZW_ops.add (G i) (H (i + 1)%Z))).
  2:{ intros i _. rewrite (boehm v k t kappa kappa' lo hi Hmono Hspan Hrel p Hlo Hhi i).
      unfold G, H. replace (i + 1 - 1)%Z with i by lia. generalize (c i). intros x. vec. }
  rewrite vsum_add, (vsum_shift H).
  assert (HA : H A = XYZW_ops.zero).
  { unfold H. rewrite N_support by (unfold A; lia). rewrite Rmult_0_r. apply scale_zero. }
  assert (HM : H (A + Z.of_nat M)%Z = XYZW_ops.zero).
  { unfold H. rewrite N_support by (unfold A, M; lia). rewrite Rmult_0_r. apply scale_zero. }
  assert (E : vsum H (A + 1)%Z M = vsum H A M).
  { pose proof (vsum_app H 1 M A) as E1. cbn [vsum Nat.add] in E1.
    pose proof (vsum_app H M 1 A) as E2. cbn [vsum] in E2.
    replace (M + 1)%nat with (S M) in E2 by lia. cbn [vsum] in E2.
    rewrite HA, add_zero_l in E1, E2. rewrite HM, !add_zero_r in E2.
    rewrite add_zero_l in E1. replace (A + Z.of_nat 1)%Z with (A + 1)%Z in E1 by lia.
    congruence. }
  rewrite E, <- vsum_add. apply vsum_ext. intros i _.
  unfold G, H, insP. generalize (c i) (c (i - 1)%Z). intros x y. vec.
Qed.
End SingleInsertion.

(** ** Repeated insertion *)

Lemma N_ext_window u u' kappa t q : 
  (forall j, (kappa - Z.of_nat q <= j <= kappa + Z.of_nat q + 1)%Z -> u j = u' j) ->
  forall i, N u kappa t q i = N u' kappa t q i.
Proof.
  induction q as [|q IH]; intros H i; [reflexivity|].
  destruct (Z_lt_le_dec i (kappa - Z.of_nat (S q))) as [Hi|Hi];
    [rewrite !N_support by lia; reflexivity|].
  destruct (Z_lt_le_dec kappa i) as [Hi'|Hi'];
    [rewrite !N_support by lia; reflexivity|].
  rewrite !N_succ. rewrite !IH by (intros; apply H; lia).
  rewrite !(H i), !(H (i + (Z.of_nat q + 1))%Z), !(H (i + (Z.of_nat q + 1) + 1)%Z),
    !(H (i + 1)%Z) by lia.
  reflexivity.
Qed.

Lemma del_insr u k ubar j i :
  (0 <= j)%Z -> del (insr u k ubar (j + 1)) (k + j) i = insr u k ubar j i.
Proof.
  intros Hj. unfold del, insr. split_index; try reflexivity; f_equal; lia.
Qed.

Lemma insr_mono u k ubar j lo hi :
  (forall a b, (lo <= a)%Z -> (a <= b)%Z -> (b <= hi)%Z -> u a <= u b) ->
  (lo <= k)%Z -> (k + 1 <= hi)%Z -> u k <= ubar <= u (k + 1)%Z -> (0 <= j)%Z ->
  forall a b, (lo <= a)%Z -> (a <= b)%Z -> (b <= hi + j)%Z ->
    insr u k ubar j a <= insr u k ubar j b.
Proof.
  intros Hmono Hlo Hhi Hu Hj a b Ha Hab Hb. unfold insr.
  split_index; try lra.
  - apply Hmono; lia.
  - pose proof (Hmono a k ltac:(lia) ltac:(lia) ltac:(lia)). lra.
  - apply Hmono; lia.
  - pose proof (Hmono (k + 1)%Z (b - j)%Z ltac:(lia) ltac:(lia) ltac:(lia)). lra.
  - apply Hmono; lia.
Qed.

Section Insertions.
Variables (u : Z -> R) (k : Z) (ubar t : R) (kappa : Z) (lo hi : Z) (p : nat).
Variable c : Z -> XYZW.
Variable shifted : bool.
Hypothesis Hmono : forall a b, (lo <= a)%Z -> (a <= b)%Z -> (b <= hi)%Z -> u a <= u b.
Hypothesis Hk : (lo <= k)%Z /\ (k + 1 <= hi)%Z.
Hypothesis Hubar : u k <= ubar <= u (k + 1)%Z.
Hypothesis Hlo : (lo <= kappa - Z.of_nat p)%Z.
Hypothesis Hhi : (kappa + Z.of_nat p + 1 <= hi)%Z.
Hypothesis Hspan : u kappa < u (kappa + 1)%Z.
Hypothesis Hshift :
  if shifted then (k <= kappa)%Z /\ (kappa = k -> ubar < u (k + 1)%Z)
  else (kappa <= k)%Z /\ (kappa = k -> u k < ubar).

Definition span_after (r : Z) : Z := if shifted then (kappa + r)%Z else kappa.

Lemma insertions_keep_point (r : nat) :
  vsum (fun i => XYZW_ops.scale (N u kappa t p i) (c i)) (kappa - Z.of_nat p) (S p)
  = vsum (fun i => XYZW_ops.scale (N (insr u k ubar (Z.of_nat r)) (span_after (Z.of_nat r)) t p i)
                     (Qr u k ubar (Z.of_nat p) c r i))
      (span_after (Z.of_nat r) - Z.of_nat p) (S p).
Proof.
  induction r as [|r IH].
  - unfold span_after. replace (kappa + Z.of_nat 0)%Z with kappa by lia.
    destruct shifted; apply vsum_ext; intros i _; cbn [Qr]; f_equal;
      apply N_ext_window; intros j _; unfold insr; split_index; f_equal; lia.
  - rewrite IH. clear IH. cbn [Qr].
    replace (Z.of_nat (S r)) with (Z.of_nat r + 1)%Z by lia.
    rewrite <- (insertion_keeps_point (insr u k ubar (Z.of_nat r + 1)) (k + Z.of_nat r) t
                  (span_after (Z.of_nat r)) (span_after (Z.of_nat r + 1)) lo
                  (hi + (Z.of_nat r + 1)) p).
    + apply vsum_ext. intros i _. f_equal. apply N_ext_window. intros j _.
      symmetry. apply del_insr. lia.
    + apply insr_mono; auto; lia.
    + generalize Hshift. unfold span_after, insr. destruct shifted; intros [H1 H2].
      * split_index.
        -- assert (E : kappa = k) by lia. specialize (H2 E). subst kappa.
           replace (k + (Z.of_nat r + 1) + 1 - (Z.of_nat r + 1))%Z with (k + 1)%Z by lia.
           assumption.
        -- replace (kappa + (Z.of_nat r + 1) + 1 - (Z.of_nat r + 1))%Z with (kappa + 1)%Z by lia.
           replace (kappa + (Z.of_nat r + 1) - (Z.of_nat r + 1))%Z with kappa by lia.
           assumption.
      * split_index; try assumption.
        assert (E : kappa = k) by lia. specialize (H2 E). rewrite E. assumption.
    + generalize Hshift. unfold span_after. destruct shifted; intros [H1 H2]; lia.
    + unfold span_after. destruct shifted; lia.
    + unfold span_after. destruct shifted; lia.
Qed.
End Insertions.

(** ** The points that the code computes are those of repeated insertion *)

Lemma comb_one x y : XYZW_ops.add (XYZW_ops.scale 1 x) (XYZW_ops.scale (1 - 1) y) = x.
Proof. vec. Qed.
Lemma comb_zero x y : XYZW_ops.add (XYZW_ops.scale 0 x) (XYZW_ops.scale (1 - 0) y) = y.
Proof. vec. Qed.

Ltac split_all :=
  repeat match goal with
  | |- context [(?a <=? ?b)%Z] => destruct (Z.leb_spec a b); try lia
  | |- context [(?a <? ?b)%Z] => destruct (Z.ltb_spec a b); try lia
  | |- context [(?a =? ?b)%Z] => destruct (Z.eqb_spec a b); try lia
  end.

Section ClosedForm.
Local Open Scope Z_scope.
Variables (degree : Z) (U : list R) (P : list XYZW) (ubar : R) (k s : Z).
Hypothesis Hs : 0 <= s.
Hypothesis Hmult : forall i, k - s < i <= k -> knot U i = ubar.

Local Abbreviation D := (InsertFacts.D degree U P ubar k).

Definition Qcf (j : Z) (i : Z) : XYZW :=
  if i <=? k - degree then pt P i
  else if i <=? k - degree + j then D (i - (k - degree)) 0
  else if i <=? k - s then D j (i - (k - degree + j))
  else if i <? k - s + j then D (k + j - s - i) (degree - (k + j - s - i) - s)
  else pt P (i - j).

Lemma alpha_one j i :
  i <= k + j - degree -> alpha (insr (knot U) k ubar (j + 1)) (k + j) degree i = 1%R.
Proof. intros Hi. unfold alpha. split_all. reflexivity. Qed.

Lemma alpha_zero j i :
  0 <= j -> k + j - degree < i -> k - s < i ->
  alpha (insr (knot U) k ubar (j + 1)) (k + j) degree i = 0%R.
Proof.
  intros Hj Hi' Hi. unfold alpha, insr. split_all; try reflexivity.
  - rewrite Hmult by lia. unfold Rdiv. lra.
  - unfold Rdiv. lra.
Qed.

Lemma alpha_ratio j i :
  0 <= j -> k + j - degree < i <= k - s ->
  alpha (insr (knot U) k ubar (j + 1)) (k + j) degree i
  = ((ubar - knot U i) / (knot U (i + degree - j) - knot U i))%R.
Proof.
  intros Hj Hi. unfold alpha, insr. split_all.
  replace (i + degree + 1 - (j + 1)) with (i + degree - j) by lia. reflexivity.
Qed.

Lemma Qr_closed (j : nat) :
  Z.of_nat j <= degree - s ->
  forall i, Qr (knot U) k ubar degree (pt P) j i = Qcf (Z.of_nat j) i.
Proof.
  induction j as [|j IH]; intros Hj i.
  - cbn [Qr]. unfold Qcf. change (Z.of_nat 0) with 0.
    split_all; unfold InsertFacts.D; change (Z.to_nat 0) with O; cbn [InsertFacts.Dtri];
      f_equal; lia.
  - cbn [Qr]. unfold insP. rewrite !IH by lia.
    replace (Z.of_nat (S j)) with (Z.of_nat j + 1) by lia.
    set (jz := Z.of_nat j) in *. assert (Hjz : 0 <= jz) by lia.
    destruct (Z_le_gt_dec i (k + jz - degree)) as [H1|H1].
    { rewrite alpha_one by lia. rewrite comb_one. unfold Qcf. split_all; f_equal; lia. }
    destruct (Z_le_gt_dec i (k - s)) as [H2|H2].
    { rewrite alpha_ratio by lia.
      assert (E : Qcf (jz + 1) i = D (jz + 1) (i - (k - degree + jz + 1))).
      { unfold Qcf. split_all; f_equal; lia. }
      rewrite E. rewrite (InsertFacts.D_step degree U P ubar k (jz + 1)) by lia. cbv zeta.
      replace (k - degree + (jz + 1) + (i - (k - degree + jz + 1))) with i by lia.
      replace (i - (k - degree + jz + 1) + k + 1) with (i + degree - jz) by lia.
      replace (jz + 1 - 1) with jz by lia.
      f_equal; f_equal.
      - unfold Qcf. split_all. f_equal; lia.
      - unfold Qcf. split_all; unfold InsertFacts.D.
        + replace jz with 0 by lia. change (Z.to_nat 0) with O. cbn [InsertFacts.Dtri].
          f_equal. lia.
        + f_equal; lia.
        + f_equal; lia. }
    rewrite alpha_zero by lia. rewrite comb_zero. unfold Qcf.
    split_all;
      first [ solve [f_equal; lia]
            | replace jz with 0 by lia; unfold InsertFacts.D; change (Z.to_nat 0) with O;
              cbn [InsertFacts.Dtri]; f_equal; lia ].
Qed.
End ClosedForm.
(** ** The evaluator and the basis functions *)

Lemma basis_row_length k U t q prev : length (Polynomials.basis_row k U t q prev) = S q.
Proof. unfold Polynomials.basis_row. rewrite List.length_map, List.length_seq. reflexivity. Qed.

Lemma basis_rows_length k U t q : length (Polynomials.basis_rows k U t q) = S q.
Proof. destruct q; [reflexivity | apply basis_row_length]. Qed.

Lemma basis_row_nth k U t q prev j :
  (j <= q)%nat ->
  nth j (Polynomials.basis_row k U t q prev) 0 =
    let i := (k - Z.of_nat q + Z.of_nat j)%Z in
    let q' := Z.of_nat q in
    (t - knot U i) / (knot U (i + q') - knot U i)
      * match j with O => 0 | S j' => nth j' prev 0 end
    + (knot U (i + q' + 1) - t) / (knot U (i + q' + 1) - knot U (i + 1)) * nth j prev 0.
Proof.
  intros Hj. unfold Polynomials.basis_row.
  set (f := fun j : nat => _).
  rewrite (nth_indep _ 0 (f O)) by (rewrite List.length_map, List.length_seq; lia).
  rewrite List.map_nth, List.seq_nth by lia. reflexivity.
Qed.

Lemma basis_rows_N k U t q : forall j,
  (j <= q)%nat ->
  nth j (Polynomials.basis_rows k U t q) 0 = N (knot U) k t q (k - Z.of_nat q + Z.of_nat j).
Proof.
  induction q as [|q IH]; intros j Hj.
  - replace j with O by lia. cbn [Polynomials.basis_rows nth N].
    destruct (Z.eqb_spec (k - Z.of_nat 0 + Z.of_nat 0) k); [reflexivity | lia].
  - cbn [Polynomials.basis_rows]. rewrite basis_row_nth by assumption. cbv zeta.
    rewrite N_succ.
    replace (Z.of_nat (S q)) with (Z.of_nat q + 1)%Z by lia.
    set (i := (k - (Z.of_nat q + 1) + Z.of_nat j)%Z).
    replace (i + (Z.of_nat q + 1) + 1)%Z with (i + (Z.of_nat q + 1) + 1)%Z by lia.
    f_equal; f_equal.
    + destruct j as [|j'].
      * rewrite N_support by lia. reflexivity.
      * rewrite IH by lia. f_equal. lia.
    + destruct (Nat.eq_dec j (S q)) as [->|Hne].
      * rewrite nth_overflow by (rewrite basis_rows_length; lia).
        rewrite N_support by lia. reflexivity.
      * rewrite IH by lia. f_equal. lia.
Qed.

Lemma blend_vsum (l : list R) (P : list XYZW) : forall a : nat,
  (a + length l <= length P)%nat ->
  BsplineCurve.blend l (drop a P)
  = vsum (fun i => XYZW_ops.scale (nth (Z.to_nat i - a) l 0) (pt P i)) (Z.of_nat a) (length l).
Proof.
  induction l as [|c l IH]; intros a Ha.
  - destruct (drop a P); reflexivity.
  - cbn [length] in Ha.
    destruct (lookup_lt_is_Some_2 P a ltac:(lia)) as [x Hx].
    rewrite (drop_S _ _ _ Hx). cbn [BsplineCurve.blend length vsum].
    f_equal.
    + replace (Z.to_nat (Z.of_nat a) - a)%nat with O by lia. cbn [nth].
      unfold pt. rewrite Nat2Z.id, nth_lookup, Hx. reflexivity.
    + rewrite IH by lia. replace (Z.of_nat (S a)) with (Z.of_nat a + 1)%Z by lia.
      apply vsum_ext. intros i Hi.
      replace (Z.to_nat i - a)%nat with (S (Z.to_nat i - S a)) by lia. reflexivity.
Qed.

(** The point of the evaluator is the sum of the basis functions of the
    span times the control points. *)
Lemma GetPointOnCurve_vsum (p : nat) U P t :
  let kappa := Polynomials.GetKnotSpanIndex (Z.of_nat p) U t in
  (Z.of_nat p <= kappa < size P)%Z ->
  BsplineCurve.GetPointOnCurve (Z.of_nat p) U t P
  = vsum (fun i => XYZW_ops.scale (N (knot U) kappa t p i) (pt P i)) (kappa - Z.of_nat p) (S p).
Proof.
  intros kappa Hk. unfold BsplineCurve.GetPointOnCurve, Polynomials.BasisFunctions.
  fold kappa. rewrite Nat2Z.id.
  rewrite blend_vsum by (rewrite basis_rows_length; unfold size in Hk; lia).
  rewrite basis_rows_length.
  replace (Z.of_nat (Z.to_nat (kappa - Z.of_nat p))) with (kappa - Z.of_nat p)%Z by lia.
  apply vsum_ext. intros i Hi. f_equal.
  rewrite basis_rows_N by lia. f_equal. lia.
Qed.

(** ** Nondecreasing knots *)

Lemma IsValidKnotVector_step U :
  ValidationUtils.IsValidKnotVector U = true <->
  forall i, (S i < length U)%nat -> nth i U 0 <= nth (S i) U 0.
Proof.
  induction U as [|a [|b U] IH].
  - split; [intros _ i Hi; cbn in Hi; lia | reflexivity].
  - split; [intros _ i Hi; cbn in Hi; lia | reflexivity].
  - cbn [ValidationUtils.IsValidKnotVector] in *. rewrite andb_true_iff, Rleb_spec, IH.
    split.
    + intros [Hab H] [|i] Hi; [exact Hab|]. apply (H i). cbn [length] in *. lia.
    + intros H. split; [apply (H O); cbn [length]; lia|].
      intros i Hi. apply (H (S i)). cbn [length] in *. lia.
Qed.

Lemma IsValidKnotVector_mono U :
  ValidationUtils.IsValidKnotVector U = true ->
  forall a b, (0 <= a)%Z -> (a <= b)%Z -> (b <= size U - 1)%Z -> knot U a <= knot U b.
Proof.
  intros Hv a b Ha Hab Hb. rewrite IsValidKnotVector_step in Hv.
  unfold knot, size in *.
  assert (Hn : forall n i, (i + n < length U)%nat -> nth i U 0 <= nth (i + n) U 0).
  { induction n as [|n IHn]; intros i Hi.
    - replace (i + 0)%nat with i by lia. lra.
    - pose proof (IHn i ltac:(lia)). pose proof (Hv (i + n)%nat ltac:(lia)).
      replace (i + S n)%nat with (S (i + n)) by lia. lra. }
  replace (Z.to_nat b) with (Z.to_nat a + (Z.to_nat b - Z.to_nat a))%nat by lia.
  apply Hn. lia.
Qed.

Lemma mono_IsValidKnotVector U :
  (forall a b, (0 <= a)%Z -> (a <= b)%Z -> (b <= size U - 1)%Z -> knot U a <= knot U b) ->
  ValidationUtils.IsValidKnotVector U = true.
Proof.
  intros H. apply IsValidKnotVector_step. intros i Hi.
  pose proof (H (Z.of_nat i) (Z.of_nat (S i)) ltac:(lia) ltac:(lia)
                ltac:(unfold size; lia)) as Hi'.
  unfold knot in Hi'. rewrite !Nat2Z.id in Hi'. exact Hi'.
Qed.

(** ** The span of a parameter *)

Lemma GetKnotSpanIndex_unique degree U t kappa :
  (forall a b, (0 <= a)%Z -> (a <= b)%Z -> (b <= size U - 1)%Z -> knot U a <= knot U b) ->
  (0 <= degree <= kappa)%Z -> (kappa <= size U - degree - 2)%Z ->
  knot U kappa <= t < knot U (kappa + 1) ->
  Polynomials.GetKnotSpanIndex degree U t = kappa.
Proof.
  intros Hmono Hd Hk Ht.
  destruct (InsertFacts.GetKnotSpanIndex_spec degree U t ltac:(lia)) as (H1 & H2 & H3).
  set (ks := Polynomials.GetKnotSpanIndex degree U t) in *.
  destruct (Z.lt_trichotomy ks kappa) as [Hlt|[Heq|Hgt]]; [|assumption|].
  - pose proof (H3 kappa ltac:(lia)). lra.
  - pose proof (H2 ltac:(lia)).
    pose proof (Hmono (kappa + 1)%Z ks ltac:(lia) ltac:(lia) ltac:(lia)). lra.
Qed.

(** The span of a parameter of the domain. *)
Lemma GetKnotSpanIndex_domain degree U t :
  let n := (size U - degree - 2)%Z in
  let kappa := Polynomials.GetKnotSpanIndex degree U t in
  (degree <= n)%Z -> knot U degree <= t < knot U (n + 1) ->
  (degree <= kappa <= n)%Z /\ knot U kappa <= t < knot U (kappa + 1).
Proof.
  intros n kappa Hn Ht.
  destruct (InsertFacts.GetKnotSpanIndex_spec degree U t Hn) as (H1 & H2 & H3).
  fold kappa in H1, H2, H3. fold n in H1, H3. split; [assumption|]. split.
  - destruct (Z.eq_dec kappa degree) as [->|]; [lra | apply H2; lia].
  - destruct (Z.eq_dec kappa n) as [->|]; [lra | apply H3; lia].
Qed.

(** ** The multiplicity of a knot *)

Section Multiplicity.
Variable ubar : R.

Definition separated (U : list R) : Prop :=
  forall x, In x U -> IsAlmostEqualTo ubar x = true -> x = ubar.

Lemma GetKnotMultiplicity_app U V :
  Polynomials.GetKnotMultiplicity (U ++ V) ubar
  = (Polynomials.GetKnotMultiplicity U ubar + Polynomials.GetKnotMultiplicity V ubar)%Z.
Proof.
  induction U as [|a U IH]; cbn [Polynomials.GetKnotMultiplicity app]; [reflexivity|].
  rewrite IH. lia.
Qed.

Lemma GetKnotMultiplicity_le U :
  (Polynomials.GetKnotMultiplicity U ubar <= Z.of_nat (length U))%Z.
Proof.
  induction U as [|a U IH]; cbn [Polynomials.GetKnotMultiplicity length]; [lia|].
  destruct (IsAlmostEqualTo ubar a); lia.
Qed.

Lemma GetKnotMultiplicity_above U :
  separated U -> (forall x, In x U -> ubar < x) -> Polynomials.GetKnotMultiplicity U ubar = 0%Z.
Proof.
  induction U as [|a U IH]; intros Hsep Hab; cbn [Polynomials.GetKnotMultiplicity]; [reflexivity|].
  rewrite IH; [|intros x Hx; apply Hsep; right; exact Hx | intros x Hx; apply Hab; right; exact Hx].
  destruct (IsAlmostEqualTo ubar a) eqn:E; [|reflexivity].
  pose proof (Hsep a (or_introl eq_refl) E). pose proof (Hab a (or_introl eq_refl)). lra.
Qed.

(** In a nondecreasing list that stays below [ubar] the copies of [ubar]
    are the last elements. *)
Lemma GetKnotMultiplicity_below U :
  separated U -> ValidationUtils.IsValidKnotVector U = true ->
  (forall x, In x U -> x <= ubar) ->
  forall i, (i < length U)%nat ->
    (Z.of_nat (length U) - Polynomials.GetKnotMultiplicity U ubar <= Z.of_nat i)%Z ->
    nth i U 0 = ubar.
Proof.
  induction U as [|a U IH]; intros Hsep Hv Hle i Hi Hm; [cbn in Hi; lia|].
  cbn [Polynomials.GetKnotMultiplicity length] in Hm.
  assert (Hv' : ValidationUtils.IsValidKnotVector U = true).
  { destruct U as [|b U]; [reflexivity|].
    cbn [ValidationUtils.IsValidKnotVector] in Hv. apply andb_true_iff in Hv. tauto. }
  destruct (IsAlmostEqualTo ubar a) eqn:E.
  - pose proof (Hsep a (or_introl eq_refl) E) as Ea.
    pose proof (IsValidKnotVector_mono (a :: U) Hv 0%Z (Z.of_nat i) ltac:(lia) ltac:(lia)
                  ltac:(unfold size; cbn [length] in *; lia)) as Hai.
    unfold knot in Hai. rewrite Nat2Z.id in Hai.
    change (nth (Z.to_nat 0) (a :: U) 0) with a in Hai.
    pose proof (Hle (nth i (a :: U) 0) (nth_In _ _ Hi)). lra.
  - pose proof (GetKnotMultiplicity_le U).
    destruct i as [|i]; [lia|]. cbn [nth]. apply IH; auto.
    + intros x Hx. apply Hsep. right. exact Hx.
    + intros x Hx. apply Hle. right. exact Hx.
    + cbn [length] in Hi. lia.
    + lia.
Qed.

Lemma multiplicity_block U k :
  separated U -> ValidationUtils.IsValidKnotVector U = true ->
  (0 <= k)%Z -> (k + 1 <= size U - 1)%Z ->
  knot U k <= ubar < knot U (k + 1) ->
  let s := Polynomials.GetKnotMultiplicity U ubar in
  (s <= k + 1)%Z /\ forall i, (0 <= i)%Z -> (k - s < i <= k)%Z -> knot U i = ubar.
Proof.
  intros Hsep Hv Hk Hk1 Hu s.
  pose proof (IsValidKnotVector_mono U Hv) as Hmono.
  set (n := Z.to_nat (k + 1)).
  assert (HU : U = take n U ++ drop n U) by (symmetry; apply take_drop).
  assert (Hs : s = Polynomials.GetKnotMultiplicity (take n U) ubar).
  { unfold s. rewrite HU at 1. rewrite GetKnotMultiplicity_app.
    rewrite (GetKnotMultiplicity_above (drop n U)); [lia | |].
    - intros x Hx. apply Hsep. rewrite HU. apply in_or_app. right. exact Hx.
    - intros x Hx. apply (In_nth _ _ 0) in Hx. destruct Hx as (j & Hj & <-).
      rewrite length_drop in Hj. rewrite nth_lookup, lookup_drop, <- nth_lookup.
      pose proof (Hmono (k + 1)%Z (Z.of_nat (n + j)) ltac:(lia) ltac:(lia)
                    ltac:(unfold size in *; lia)) as H.
      unfold knot in H, Hu. rewrite Nat2Z.id in H. unfold n in *. lra. }
  assert (Hlen : length (take n U) = n) by (rewrite length_take; unfold size in Hk1; lia).
  split.
  - rewrite Hs. pose proof (GetKnotMultiplicity_le (take n U)). lia.
  - intros i Hi0 Hi.
    pose proof (GetKnotMultiplicity_below (take n U)) as H.
    specialize (H ltac:(intros x Hx; apply Hsep; rewrite HU; apply in_or_app; left; exact Hx)).
    assert (Hvt : ValidationUtils.IsValidKnotVector (take n U) = true).
    { apply IsValidKnotVector_step. intros j Hj. rewrite Hlen in Hj.
      rewrite !nth_lookup, !lookup_take_lt, <- !nth_lookup by lia.
      apply IsValidKnotVector_step; [assumption | unfold size in Hk1; lia]. }
    specialize (H Hvt).
    assert (Hle : forall x, In x (take n U) -> x <= ubar).
    { intros x Hx. apply (In_nth _ _ 0) in Hx. destruct Hx as (j & Hj & <-).
      rewrite Hlen in Hj. rewrite nth_lookup, lookup_take_lt, <- nth_lookup by lia.
      pose proof (Hmono (Z.of_nat j) k ltac:(lia) ltac:(lia) ltac:(lia)) as H'.
      unfold knot in H', Hu. rewrite Nat2Z.id in H'. lra. }
    specialize (H Hle (Z.to_nat i) ltac:(lia) ltac:(lia)).
    rewrite nth_lookup, lookup_take_lt, <- nth_lookup in H by lia. exact H.
Qed.
End Multiplicity.

Section InsertKnotCurve.
Import NurbsCurve.

(** ** [InsertKnot] keeps the curve *)

Lemma knots_inserted_insr U ubar k r U' :
  InsertFacts.knots_inserted U ubar k r U' -> (0 <= k)%Z -> (0 <= r)%Z ->
  forall j, (0 <= j < size U + r)%Z -> knot U' j = insr (knot U) k ubar r j.
Proof.
  intros (_ & H1 & H2 & H3) Hk Hr j Hj. unfold insr. split_all.
  - apply H1; lia.
  - apply H2; lia.
  - apply H3; lia.
Qed.

Lemma points_inserted_Qcf degree U P ubar k s r P' :
  InsertFacts.points_inserted degree U P ubar k s r P' ->
  (1 <= r <= degree - s)%Z ->
  forall i, (0 <= i < size P + r)%Z -> pt P' i = Qcf degree U P ubar k s r i.
Proof.
  intros (_ & H1 & H2 & H3 & H4 & H5) Hr i Hi. unfold Qcf. split_all.
  - apply H1; lia.
  - rewrite <- H2 by lia. f_equal. lia.
  - destruct (Z.eq_dec i (k - s)%Z) as [->|Hne].
    + replace (k - s)%Z with (k + r - r - s)%Z at 1 by lia. rewrite H4 by lia. f_equal. lia.
    + apply H3; lia.
  - replace i with (k + r - (k + r - s - i) - s)%Z at 1 by lia. apply H4. lia.
  - replace i with (i - r + r)%Z at 1 by lia. apply H5. lia.
Qed.

(** The evaluation of a curve at a parameter between its first and last
    knots returns the point of the evaluator. *)
Lemma GetPointOnCurve_Ok degree U t P :
  (0 < degree)%Z -> ValidationUtils.IsValidKnotVector U = true ->
  size U = (size P + degree + 1)%Z -> (0 < size P)%Z ->
  knot U 0 <= t <= knot U (size U - 1) ->
  GetPointOnCurve degree U t P
  = Ok (XYZW_ops.ToXYZ (BsplineCurve.GetPointOnCurve degree U t P) true).
Proof.
  intros Hd Hv Hsz Hp Ht. unfold GetPointOnCurve, ValidationUtils.IsValidNurbs.
  rewrite Hv.
  replace (0 <? degree)%Z with true by (symmetry; apply Z.ltb_lt; lia).
  replace (0 <? size U)%Z with true by (symmetry; apply Z.ltb_lt; lia).
  replace (0 <? size P)%Z with true by (symmetry; apply Z.ltb_lt; lia).
  replace (size U =? size P + degree + 1)%Z with true by (symmetry; apply Z.eqb_eq; lia).
  unfold VALIDATE_ARGUMENT_RANGE.
  rewrite (InsertFacts.at_nth 0 "knotVector" U 0) by lia.
  rewrite (InsertFacts.at_nth 0 "knotVector" U (size U - 1)) by lia.
  fold (knot U 0). fold (knot U (size U - 1)).
  cbn [bind]. rewrite !Rleb_true by lra. reflexivity.
Qed.

(** The span of a parameter of the closed domain [U[p], U[n+1]]: at the
    right end it is the last span. *)
Lemma GetKnotSpanIndex_closed_domain degree U t :
  let n := (size U - degree - 2)%Z in
  let kappa := Polynomials.GetKnotSpanIndex degree U t in
  (degree <= n)%Z -> knot U degree <= t ->
  (degree <= kappa <= n)%Z /\ knot U kappa <= t /\ ((kappa < n)%Z -> t < knot U (kappa + 1)).
Proof.
  intros n kappa Hn Ht.
  destruct (InsertFacts.GetKnotSpanIndex_spec degree U t Hn) as (H1 & H2 & H3).
  fold kappa in H1, H2, H3. fold n in H1, H3. split; [assumption|]. split.
  - destruct (Z.eq_dec kappa degree) as [->|]; [lra | apply H2; lia].
  - intros Hk. apply H3. lia.
Qed.

Lemma GetKnotSpanIndex_closed_unique degree U t kappa :
  (forall a b, (0 <= a)%Z -> (a <= b)%Z -> (b <= size U - 1)%Z -> knot U a <= knot U b) ->
  (0 <= degree <= kappa)%Z -> (kappa <= size U - degree - 2)%Z ->
  knot U kappa <= t -> ((kappa < size U - degree - 2)%Z -> t < knot U (kappa + 1)) ->
  Polynomials.GetKnotSpanIndex degree U t = kappa.
Proof.
  intros Hmono Hd Hk Ht Ht'.
  destruct (InsertFacts.GetKnotSpanIndex_spec degree U t ltac:(lia)) as (H1 & H2 & H3).
  set (ks := Polynomials.GetKnotSpanIndex degree U t) in *.
  destruct (Z.lt_trichotomy ks kappa) as [Hlt|[Heq|Hgt]]; [|assumption|].
  - pose proof (H3 kappa ltac:(lia)). lra.
  - pose proof (H2 ltac:(lia)). pose proof (Ht' ltac:(lia)).
    pose proof (Hmono (kappa + 1)%Z ks ltac:(lia) ltac:(lia) ltac:(lia)). lra.
Qed.

Lemma span_after_insertion U k ubar r kappa n t :
  (1 <= r)%Z -> (k <= n)%Z -> (kappa <= n)%Z ->
  knot U k <= ubar < knot U (k + 1) ->
  knot U kappa <= t -> ((kappa < n)%Z -> t < knot U (kappa + 1)) ->
  exists shifted : bool,
    (if shifted then (k <= kappa)%Z /\ (kappa = k -> ubar < knot U (k + 1))
     else (kappa <= k)%Z /\ (kappa = k -> knot U k < ubar)) /\
    insr (knot U) k ubar r (span_after kappa shifted r) <= t /\
    ((span_after kappa shifted r < n + r)%Z ->
     t < insr (knot U) k ubar r (span_after kappa shifted r + 1)).
Proof.
  intros Hr Hkn Hkapn Hu Ht Ht'.
  destruct (Z.lt_trichotomy kappa k) as [Hlt|[Heq|Hgt]].
  - exists false. split; [split; [lia | intros; lia]|].
    unfold span_after, insr. split_all. split; [lra | intros _; apply Ht'; lia].
  - subst kappa. destruct (Rle_dec ubar t) as [Hle|Hgt].
    + exists true. split; [split; [lia | intros; lra]|].
      unfold span_after, insr. split_all.
      replace (k + r + 1 - r)%Z with (k + 1)%Z by lia.
      split; [lra | intros H'; apply Ht'; lia].
    + exists false. split; [split; [lia | intros; lra]|].
      unfold span_after, insr. split_all. split; [lra | intros _; lra].
  - exists true. split; [split; [lia | intros; lia]|].
    unfold span_after, insr. split_all.
    replace (kappa + r + 1 - r)%Z with (kappa + 1)%Z by lia.
    replace (kappa + r - r)%Z with kappa by lia.
    split; [lra | intros H'; apply Ht'; lia].
Qed.

Lemma InsertKnot_keeps_evaluator (pn : nat) p U P ubar times t out :
  p = Z.of_nat pn ->
  (0 < p)%Z -> ValidationUtils.IsValidKnotVector U = true ->
  size U = (size P + p + 1)%Z ->
  knot U p <= ubar < knot U (size P) ->
  separated ubar U ->
  (1 <= times <= p - Polynomials.GetKnotMultiplicity U ubar)%Z ->
  knot U p <= t <= knot U (size P) ->
  (t = knot U (size P) -> knot U (size P - 1) < knot U (size P)) ->
  exists U' P',
    InsertKnot p U P ubar times out = ((U', P'), Ok tt) /\
    BsplineCurve.GetPointOnCurve p U' t P' = BsplineCurve.GetPointOnCurve p U t P /\
    ValidationUtils.IsValidKnotVector U' = true /\
    size U' = (size U + times)%Z /\ size P' = (size P + times)%Z /\
    knot U' 0 <= t <= knot U' (size U' - 1).
Proof.
  intros Ep Hp Hv Hsz Hu Hsep Htimes Ht Hend.
  pose proof (IsValidKnotVector_mono U Hv) as Hmono.
  assert (HP0 : (0 <= size P)%Z) by (unfold size; lia).
  assert (HnP : (p + 1 <= size P)%Z).
  { destruct (Z_lt_le_dec (size P) (p + 1)) as [H|H]; [|assumption]. exfalso.
    pose proof (Hmono (size P) p ltac:(lia) ltac:(lia) ltac:(lia)). lra. }
  (* the span and the multiplicity of the knot *)
  pose proof (GetKnotSpanIndex_domain p U ubar) as Hk. cbv zeta in Hk.
  replace (size U - p - 2 + 1)%Z with (size P) in Hk by lia.
  specialize (Hk ltac:(lia) Hu). destruct Hk as (Hk & Huk).
  set (k := Polynomials.GetKnotSpanIndex p U ubar) in *.
  destruct (multiplicity_block ubar U k Hsep Hv ltac:(lia) ltac:(lia) Huk) as (Hsk & Hmult).
  pose proof (InsertFacts.GetKnotMultiplicity_nonneg U ubar) as Hs0.
  set (s := Polynomials.GetKnotMultiplicity U ubar) in *.
  assert (Hr : clamp_times p s times = times).
  { unfold clamp_times. destruct (Z.gtb_spec (s + times) p); [lia | reflexivity]. }
  (* the run *)
  destruct (InsertFacts.InsertKnot_run p U P ubar times out Hp Hv Hsz HnP ltac:(lia)
              ltac:(fold s; lia)) as (U' & P' & E & K & Pt).
  fold k s in K, Pt. rewrite Hr in K, Pt.
  exists U', P'. split; [exact E|].
  pose proof (knots_inserted_insr U ubar k times U' K ltac:(lia) ltac:(lia)) as HU'.
  pose proof (points_inserted_Qcf p U P ubar k s times P' Pt ltac:(lia)) as HP'.
  destruct K as (KU & _). destruct Pt as (KP & _).
  assert (Hmono' : forall a b, (0 <= a)%Z -> (a <= b)%Z -> (b <= size U' - 1)%Z ->
                     knot U' a <= knot U' b).
  { intros a b Ha Hab Hb. rewrite !HU' by lia.
    apply (insr_mono (knot U) k ubar times 0 (size U - 1)); auto; try lia; lra. }
  (* the span of the parameter, before and after *)
  pose proof (GetKnotSpanIndex_closed_domain p U t) as Hkap. cbv zeta in Hkap.
  specialize (Hkap ltac:(lia) ltac:(lra)). destruct Hkap as (Hkap & Htk & Htk').
  set (kappa := Polynomials.GetKnotSpanIndex p U t) in *.
  assert (Hnd : knot U kappa < knot U (kappa + 1)).
  { destruct (Z_lt_le_dec kappa (size U - p - 2)) as [H|H].
    - specialize (Htk' H). lra.
    - replace kappa with (size P - 1)%Z in * by lia.
      replace (size P - 1 + 1)%Z with (size P) by lia.
      destruct (Req_dec t (knot U (size P))) as [Et|Net]; [auto | lra]. }
  destruct (span_after_insertion U k ubar times kappa (size U - p - 2) t
              ltac:(lia) ltac:(lia) ltac:(lia) Huk Htk Htk')
    as (shifted & Hshift & Hspan1 & Hspan2).
  set (kappa' := span_after kappa shifted times) in *.
  assert (Hkap' : (kappa <= kappa' <= kappa + times)%Z)
    by (unfold kappa', span_after; destruct shifted; lia).
  assert (Espan : Polynomials.GetKnotSpanIndex p U' t = kappa').
  { apply GetKnotSpanIndex_closed_unique; [exact Hmono' | lia | lia | |].
    - rewrite HU' by lia. exact Hspan1.
    - intros H. rewrite HU' by lia. apply Hspan2. lia. }
  split; [|split; [apply mono_IsValidKnotVector; exact Hmono' | split; [exact KU | split; [exact KP|]]]].
  - assert (E1 : BsplineCurve.GetPointOnCurve p U' t P'
                 = vsum (fun i => XYZW_ops.scale (N (knot U') kappa' t pn i) (pt P' i))
                     (kappa' - p) (S pn)).
    { rewrite <- Espan. rewrite Ep. apply GetPointOnCurve_vsum. rewrite <- Ep, Espan. lia. }
    assert (E2 : BsplineCurve.GetPointOnCurve p U t P
                 = vsum (fun i => XYZW_ops.scale (N (knot U) kappa t pn i) (pt P i))
                     (kappa - p) (S pn)).
    { unfold kappa. rewrite Ep. apply GetPointOnCurve_vsum. rewrite <- Ep. fold kappa. lia. }
    rewrite E1, E2.
    assert (E3 := insertions_keep_point (knot U) k ubar t kappa 0 (size U - 1) pn (pt P)
               shifted Hmono ltac:(lia) ltac:(lra) ltac:(lia) ltac:(lia)
               Hnd Hshift (Z.to_nat times)).
    replace (Z.of_nat (Z.to_nat times)) with times in E3 by lia. fold kappa' in E3.
    rewrite <- Ep in E3. rewrite E3.
    apply vsum_ext. intros i Hi. f_equal.
    + apply N_ext_window. intros j Hj. apply HU'. lia.
    + rewrite HP' by lia.
      rewrite (Qr_closed p U P ubar k s Hs0) by (try lia; intros; apply Hmult; lia).
      f_equal. lia.
  - pose proof (Hmono' 0%Z kappa' ltac:(lia) ltac:(lia) ltac:(lia)).
    pose proof (Hmono' (size P + times)%Z (size U' - 1)%Z ltac:(lia) ltac:(lia) ltac:(lia)) as H'.
    rewrite <- HU' in Hspan1 by lia.
    rewrite (HU' (size P + times)%Z) in H' by lia.
    unfold insr in H' at 1.
    destruct (Z.leb_spec (size P + times) k); [lia|].
    destruct (Z.leb_spec (size P + times) (k + times)); [lia|].
    replace (size P + times - times)%Z with (size P) in H' by lia. lra.
Qed.

(** C1 (amended).  On a checked curve, for a knot value [ubar] of the
    half-open domain [U[p], U[n+1]) whose copies in [U] are told apart from
    the other knots by the tolerance of the multiplicity, and a count of at
    most [p] minus its multiplicity: [InsertKnot] returns, and at every
    parameter of the domain [U[p], U[n+1]] (at the right end when the last
    span is not empty) the curve on the returned knots and control points
    evaluates to the same point as the curve before.  The arithmetic is that
    of the real numbers, so the two points are equal. *)
Theorem InsertKnot_keeps_curve p U P ubar times t out :
  (0 < p)%Z -> ValidationUtils.IsValidKnotVector U = true ->
  size U = (size P + p + 1)%Z ->
  knot U p <= ubar < knot U (size P) ->
  separated ubar U ->
  (1 <= times <= p - Polynomials.GetKnotMultiplicity U ubar)%Z ->
  knot U p <= t <= knot U (size P) ->
  (t = knot U (size P) -> knot U (size P - 1) < knot U (size P)) ->
  exists U' P' x,
    InsertKnot p U P ubar times out = ((U', P'), Ok tt) /\
    GetPointOnCurve p U t P = Ok x /\
    GetPointOnCurve p U' t P' = Ok x.
Proof.
  intros Hp Hv Hsz Hu Hsep Htimes Ht Hend.
  destruct (InsertKnot_keeps_evaluator (Z.to_nat p) p U P ubar times t out ltac:(lia)
              Hp Hv Hsz Hu Hsep Htimes Ht Hend) as (U' & P' & E & Ev & Hv' & HU' & HP' & Ht').
  exists U', P', (XYZW_ops.ToXYZ (BsplineCurve.GetPointOnCurve p U t P) true).
  split; [exact E|].
  pose proof (IsValidKnotVector_mono U Hv) as Hmono.
  assert (HP0 : (0 <= size P)%Z) by (unfold size; lia).
  assert (HnP : (p + 1 <= size P)%Z).
  { destruct (Z_lt_le_dec (size P) (p + 1)) as [H|H]; [|assumption]. exfalso.
    pose proof (Hmono (size P) p ltac:(lia) ltac:(lia) ltac:(lia)). lra. }
  split.
  - apply GetPointOnCurve_Ok; auto; [lia|].
    pose proof (Hmono 0%Z p ltac:(lia) ltac:(lia) ltac:(lia)).
    pose proof (Hmono (size P) (size U - 1)%Z ltac:(lia) ltac:(lia) ltac:(lia)). lra.
  - rewrite <- Ev. apply GetPointOnCurve_Ok; auto; lia.
Qed.

Lemma InsertKnot_keeps_curve_witness :
  exists U' P' x,
    InsertKnot 2 RemoveFacts.U RemoveFacts.P 1 1 ([], []) = ((U', P'), Ok tt) /\
    GetPointOnCurve 2 RemoveFacts.U 2 RemoveFacts.P = Ok x /\
    GetPointOnCurve 2 U' 2 P' = Ok x.
Proof.
  apply InsertKnot_keeps_curve.
  - lia.
  - exact RemoveFacts.U_valid.
  - reflexivity.
  - change (knot RemoveFacts.U 2) with 0. change (knot RemoveFacts.U _) with 2. lra.
  - intros x Hx E. unfold RemoveFacts.U in Hx. cbn [In] in Hx.
    destruct Hx as [<-|[<-|[<-|[<-|[<-|[<-|[<-|[]]]]]]]]; try reflexivity;
      rewrite IsAlmostEqualTo_false in E by (unfold DoubleEpsilon; lra); discriminate.
  - rewrite RemoveFacts.U_multiplicity. lia.
  - change (knot RemoveFacts.U 2) with 0. change (knot RemoveFacts.U _) with 2. lra.
  - intros _. change (knot RemoveFacts.U (size RemoveFacts.P - 1)) with 1.
    change (knot RemoveFacts.U _) with 2. lra.
Defined.

End InsertKnotCurve.

(** ** Insertions that move the curve *)

Module CurveExamples.
Import NurbsCurve.

(** A curve of degree 2 on the uniform knots 0, ..., 5: the domain is [[2, 3]]. *)
Definition uniform_knots : list R := [0; 1; 2; 3; 4; 5].
Definition uniform_points : list XYZW := [mkXYZW 0 0 0 1; mkXYZW 1 0 0 1; mkXYZW 2 0 0 1].

Lemma uniform_valid : ValidationUtils.IsValidKnotVector uniform_knots = true.
Proof.
  unfold uniform_knots. cbn [ValidationUtils.IsValidKnotVector]. decide_R. reflexivity.
Qed.

Lemma uniform_span : Polynomials.GetKnotSpanIndex 2 uniform_knots 3 = 2%Z.
Proof. run_R. reflexivity. Qed.

Lemma uniform_multiplicity : Polynomials.GetKnotMultiplicity uniform_knots 3 = 1%Z.
Proof.
  unfold uniform_knots. cbn [Polynomials.GetKnotMultiplicity]. decide_R. reflexivity.
Qed.

Definition refined_knots : list R := [0; 1; 2; 3; 3; 4; 5].
Definition refined_points : list XYZW :=
  [mkXYZW 0 0 0 1; mkXYZW 1 0 0 1; mkXYZW 1 0 0 1; mkXYZW 2 0 0 1].

Lemma InsertKnot_at_domain_end :
  InsertKnot 2 uniform_knots uniform_points 3 1 ([], [])
  = ((refined_knots, refined_points), Ok tt).
Proof.
  unfold InsertKnot, InsertKnot_validate. rewrite uniform_valid.
  run_steps. unfold with_locals, InsertKnot_body.
  rewrite uniform_span, uniform_multiplicity. cbv zeta.
  run_steps. cbv -[IZR Rplus Rminus Rmult Rdiv Rinv Ropp].
  unfold refined_knots, refined_points. repeat f_equal; field.
Qed.

Lemma refined_valid : ValidationUtils.IsValidKnotVector refined_knots = true.
Proof.
  unfold refined_knots. cbn [ValidationUtils.IsValidKnotVector]. decide_R. reflexivity.
Qed.

Lemma uniform_span_mid : Polynomials.GetKnotSpanIndex 2 uniform_knots (5 / 2) = 2%Z.
Proof. run_R. reflexivity. Qed.

Lemma refined_span_mid : Polynomials.GetKnotSpanIndex 2 refined_knots (5 / 2) = 2%Z.
Proof. run_R. reflexivity. Qed.

Lemma uniform_point_mid :
  GetPointOnCurve 2 uniform_knots (5 / 2) uniform_points = Ok (mkXYZ 1 0 0).
Proof.
  rewrite GetPointOnCurve_Ok;
    [ | lia | exact uniform_valid | reflexivity | reflexivity
      | change (knot uniform_knots 0) with 0; change (knot uniform_knots _) with 5; lra ].
  unfold BsplineCurve.GetPointOnCurve. rewrite uniform_span_mid.
  cbv -[IZR Rplus Rminus Rmult Rdiv Rinv Ropp]. do 2 f_equal; field.
Qed.

Lemma refined_point_mid :
  GetPointOnCurve 2 refined_knots (5 / 2) refined_points = Ok (mkXYZ (7 / 8) 0 0).
Proof.
  rewrite GetPointOnCurve_Ok;
    [ | lia | exact refined_valid | reflexivity | reflexivity
      | change (knot refined_knots 0) with 0; change (knot refined_knots _) with 5; lra ].
  unfold BsplineCurve.GetPointOnCurve. rewrite refined_span_mid.
  cbv -[IZR Rplus Rminus Rmult Rdiv Rinv Ropp]. do 2 f_equal; rewrite !Rmult_0_r; field.
Qed.

(** A clamped curve of degree 2 and a value one hundred-billionth below its
    knot 1, within the tolerance of the multiplicity. *)
Definition near_one : R := 1 - / 100000000000.
Definition arch_knots : list R := [0; 0; 0; 1; 2; 2; 2].
Definition arch_points : list XYZW :=
  [mkXYZW 0 0 0 1; mkXYZW 1 2 0 1; mkXYZW 3 3 0 1; mkXYZW 4 0 0 1].

Lemma arch_valid : ValidationUtils.IsValidKnotVector arch_knots = true.
Proof.
  unfold arch_knots. cbn [ValidationUtils.IsValidKnotVector]. decide_R. reflexivity.
Qed.

Lemma arch_span_near : Polynomials.GetKnotSpanIndex 2 arch_knots near_one = 2%Z.
Proof.
  unfold arch_knots, near_one. run_R. reflexivity.
Qed.

Lemma arch_multiplicity_near : Polynomials.GetKnotMultiplicity arch_knots near_one = 1%Z.
Proof.
  unfold arch_knots, near_one. cbn [Polynomials.GetKnotMultiplicity]. decide_R. reflexivity.
Qed.

Definition near_knots : list R := [0; 0; 0; near_one; 1; 2; 2; 2].
Definition near_points : list XYZW :=
  [mkXYZW 0 0 0 1; mkXYZW near_one (2 * near_one) 0 1; mkXYZW 1 2 0 1; mkXYZW 3 3 0 1;
   mkXYZW 4 0 0 1].

Lemma InsertKnot_near_a_knot :
  InsertKnot 2 arch_knots arch_points near_one 1 ([], [])
  = ((near_knots, near_points), Ok tt).
Proof.
  unfold InsertKnot, InsertKnot_validate. rewrite arch_valid.
  run_steps. unfold with_locals, InsertKnot_body.
  rewrite arch_span_near, arch_multiplicity_near. cbv zeta.
  run_steps. cbv -[IZR Rplus Rminus Rmult Rdiv Rinv Ropp near_one].
  unfold near_knots, near_points. repeat f_equal; unfold near_one; field.
Qed.

Lemma near_valid : ValidationUtils.IsValidKnotVector near_knots = true.
Proof.
  unfold near_knots, near_one. cbn [ValidationUtils.IsValidKnotVector]. decide_R. reflexivity.
Qed.

Lemma arch_span_half : Polynomials.GetKnotSpanIndex 2 arch_knots (1 / 2) = 2%Z.
Proof. run_R. reflexivity. Qed.

Lemma near_span_half : Polynomials.GetKnotSpanIndex 2 near_knots (1 / 2) = 2%Z.
Proof.
  unfold near_knots, near_one. run_R. reflexivity.
Qed.

Lemma arch_point_half :
  GetPointOnCurve 2 arch_knots (1 / 2) arch_points = Ok (mkXYZ 1 (13 / 8) 0).
Proof.
  rewrite GetPointOnCurve_Ok;
    [ | lia | exact arch_valid | reflexivity | reflexivity
      | change (knot arch_knots 0) with 0; change (knot arch_knots _) with 2; lra ].
  unfold BsplineCurve.GetPointOnCurve. rewrite arch_span_half.
  cbv -[IZR Rplus Rminus Rmult Rdiv Rinv Ropp]. do 2 f_equal; rewrite ?Rmult_0_r; field.
Qed.

Lemma near_point_half :
  GetPointOnCurve 2 near_knots (1 / 2) near_points = Ok (mkXYZ (3 / 4) (3 / 2) 0).
Proof.
  rewrite GetPointOnCurve_Ok;
    [ | lia | exact near_valid | reflexivity | reflexivity
      | change (knot near_knots 0) with 0; change (knot near_knots _) with 2; lra ].
  unfold BsplineCurve.GetPointOnCurve. rewrite near_span_half.
  cbv -[IZR Rplus Rminus Rmult Rdiv Rinv Ropp near_one].
  do 2 f_equal; rewrite ?Rmult_0_r; unfold near_one; field; lra.
Qed.

(** C1, as stated, fails.  First input: the knots are uniform and the value
    3 is the right end U[n+1] of the domain; its multiplicity is 1, the count
    1 is at most 2 - 1; the span returned for it is n, and the curve at 5/2
    moves from (1, 0, 0) to (7/8, 0, 0).  Second input: the value lies within
    1e-10 of the knot 1 without being equal to it; the multiplicity counts
    the knot 1, the span is the one before it, and the curve at 1/2 moves
    from (1, 13/8, 0) to (3/4, 3/2, 0). *)
Lemma InsertKnot_moves_curve :
  (Polynomials.GetKnotMultiplicity uniform_knots 3 = 1%Z /\
   InsertKnot 2 uniform_knots uniform_points 3 1 ([], [])
     = ((refined_knots, refined_points), Ok tt) /\
   GetPointOnCurve 2 uniform_knots (5 / 2) uniform_points = Ok (mkXYZ 1 0 0) /\
   GetPointOnCurve 2 refined_knots (5 / 2) refined_points = Ok (mkXYZ (7 / 8) 0 0)) /\
  (Polynomials.GetKnotMultiplicity arch_knots near_one = 1%Z /\
   InsertKnot 2 arch_knots arch_points near_one 1 ([], [])
     = ((near_knots, near_points), Ok tt) /\
   GetPointOnCurve 2 arch_knots (1 / 2) arch_points = Ok (mkXYZ 1 (13 / 8) 0) /\
   GetPointOnCurve 2 near_knots (1 / 2) near_points = Ok (mkXYZ (3 / 4) (3 / 2) 0)).
Proof.
  split; repeat split.
  - exact uniform_multiplicity.
  - exact InsertKnot_at_domain_end.
  - exact uniform_point_mid.
  - exact refined_point_mid.
  - exact arch_multiplicity_near.
  - exact InsertKnot_near_a_knot.
  - exact arch_point_half.
  - exact near_point_half.
Qed.

End CurveExamples.
(** * Validation comes first *)

Module ValidationFacts.
Import NurbsCurve.

(** The preconditions that the checked operations share. *)
Definition violates (degree : Z) (knotVector : list R) (controlPoints : list XYZW) : Prop :=
  (degree <= 0)%Z \/ knotVector = [] \/
  ValidationUtils.IsValidKnotVector knotVector = false \/
  controlPoints = [] \/
  size knotVector <> (size controlPoints + degree + 1)%Z.

(** A parameter outside [[U[0], U[m]]]. *)
Definition outside (knotVector : list R) (t : R) : Prop :=
  knotVector <> [] /\ (t < knot knotVector 0 \/ knot knotVector (size knotVector - 1) < t).

Lemma size_pos_false {A} (v : list A) : v = [] -> (0 <? size v)%Z = false.
Proof. intros ->. reflexivity. Qed.

Lemma violates_checks degree U P :
  violates degree U P ->
  (0 <? degree)%Z = false \/ (0 <? size U)%Z = false \/
  ValidationUtils.IsValidKnotVector U = false \/ (0 <? size P)%Z = false \/
  ValidationUtils.IsValidNurbs degree (size U) (size P) = false.
Proof.
  intros [H|[H|[H|[H|H]]]].
  - left. apply Z.ltb_ge. lia.
  - right. left. apply size_pos_false, H.
  - auto.
  - right. right. right. left. apply size_pos_false, H.
  - right. right. right. right. apply Z.eqb_neq, H.
Qed.

(** What the two kinds of violation say about the tests of the checks. *)
Definition fails_a_check (degree : Z) (U : list R) (P : list XYZW) (t : option R) : Prop :=
  (0 <? degree)%Z = false \/ (0 <? size U)%Z = false \/
  ValidationUtils.IsValidKnotVector U = false \/ (0 <? size P)%Z = false \/
  ValidationUtils.IsValidNurbs degree (size U) (size P) = false \/
  match t with
  | Some x => Rleb (knot U 0) x && Rleb x (knot U (size U - 1)) = false
  | None => False
  end.

Lemma violates_fails degree U P t : violates degree U P -> fails_a_check degree U P t.
Proof. intros H. apply violates_checks in H. unfold fails_a_check. tauto. Qed.

Lemma outside_fails degree U P t : outside U t -> fails_a_check degree U P (Some t).
Proof.
  intros [_ H]. do 5 right.
  destruct H; [rewrite Rleb_false by lra; reflexivity|].
  rewrite (Rleb_false t) by lra. apply andb_false_r.
Qed.

(** A run that ends in a throw on the state [s]. *)
Definition throws_at {St A} (s : St) (r : St * Outcome A) : Prop :=
  fst r = s /\ is_Throw (snd r) = true.

Lemma throws_at_exists {St A} (s : St) (r : St * Outcome A) :
  throws_at s r -> exists name, r = (s, Throw name).
Proof.
  destruct r as [s' [a|name|b i n|]]; intros [H1 H2]; try discriminate.
  exists name. cbn in H1. subst. reflexivity.
Qed.

Lemma throws_at_snd {St A} (s : St) (r : St * Outcome A) :
  throws_at s r -> exists name, snd r = Throw name.
Proof. intros H. destruct (throws_at_exists s r H) as [name ->]. exists name. reflexivity. Qed.

Lemma rbind_validate {St A} b name (k : unit -> Run St A) s :
  rbind (VALIDATE_ARGUMENT b name) k s = if b then k tt s else (s, Throw name).
Proof. destruct b; reflexivity. Qed.

(** The range check on a knot vector that is not empty. *)
Lemma rbind_range {St A} name U t (k : unit -> Run St A) (s : St) :
  (0 <? size U)%Z = true ->
  rbind (VALIDATE_ARGUMENT_RANGE name (Ok t) (at_ "knotVector" U 0)
           (at_ "knotVector" U (size U - 1))) k s
  = if Rleb (knot U 0) t && Rleb t (knot U (size U - 1)) then k tt s else (s, Throw name).
Proof.
  intros H. apply Z.ltb_lt in H. unfold rbind, VALIDATE_ARGUMENT_RANGE.
  rewrite (InsertFacts.at_nth 0 "knotVector" U 0) by lia.
  rewrite (InsertFacts.at_nth 0 "knotVector" U (size U - 1)) by lia.
  cbn [bind]. fold (knot U 0). fold (knot U (size U - 1)).
  destruct (Rleb (knot U 0) t && Rleb t (knot U (size U - 1))); reflexivity.
Qed.

(** One check of a chain: it throws on the state it got, or the chain goes
    on. *)
Ltac check :=
  cbv beta; rewrite ?rbind_assoc;
  lazymatch goal with
  | |- throws_at _ (rbind (VALIDATE_ARGUMENT ?b _) _ _) =>
      let E := fresh "E" in
      rewrite rbind_validate; destruct b eqn:E; [| split; reflexivity]
  | |- throws_at _ (rbind (VALIDATE_ARGUMENT_RANGE _ (Ok ?t) (at_ _ ?U 0) _) _ _) =>
      let E := fresh "E" in
      rewrite rbind_range by assumption;
      destruct (Rleb (knot U 0) t && Rleb t (knot U (size U - 1))) eqn:E;
      [| split; reflexivity]
  end.

Ltac no_check_fails H :=
  exfalso; unfold fails_a_check in H; intuition congruence.

(** A chain that starts with the five shared checks throws at the first
    check that fails, on the state it got. *)
Lemma shared_checks_throw {St A} degree U P (rest : Run St A) (s : St) :
  fails_a_check degree U P None ->
  throws_at s
    ((VALIDATE_ARGUMENT (0 <? degree)%Z "degree" ;;
      VALIDATE_ARGUMENT (0 <? size U)%Z "knotVector" ;;
      VALIDATE_ARGUMENT (ValidationUtils.IsValidKnotVector U) "knotVector" ;;
      VALIDATE_ARGUMENT (0 <? size P)%Z "controlPoints" ;;
      VALIDATE_ARGUMENT (ValidationUtils.IsValidNurbs degree (size U) (size P))
        "controlPoints" ;;
      rest) s).
Proof. intros H. do 5 check. no_check_fails H. Qed.

(** The operations that check a parameter against the knots. *)
Lemma GetPointOnCurve_throws degree U t P :
  fails_a_check degree U P (Some t) -> exists name, GetPointOnCurve degree U t P = Throw name.
Proof.
  intros H. unfold GetPointOnCurve. apply (throws_at_snd tt).
  do 6 check. no_check_fails H.
Qed.

Lemma ComputeRationalCurveDerivatives_throws CD degree derivative U t P :
  fails_a_check degree U P (Some t) ->
  exists name, ComputeRationalCurveDerivatives CD degree derivative U t P = Throw name.
Proof.
  intros H. unfold ComputeRationalCurveDerivatives.
  match goal with |- context [snd (_ ?s0)] => apply (throws_at_snd s0) end.
  do 7 check. no_check_fails H.
Qed.

Lemma GetPointOnCurveByCornerCut_throws degree U t P :
  fails_a_check degree U P (Some t) ->
  exists name, GetPointOnCurveByCornerCut degree U t P = Throw name.
Proof.
  intros H. unfold GetPointOnCurveByCornerCut. apply (throws_at_snd []).
  do 6 check. no_check_fails H.
Qed.

Lemma RemoveKnot_throws degree U P u times out :
  fails_a_check degree U P (Some u) ->
  exists name, RemoveKnot degree U P u times out = (out, Throw name).
Proof.
  intros H. apply throws_at_exists. unfold RemoveKnot, RemoveKnot_validate.
  do 6 check. no_check_fails H.
Qed.

(** The operations that take no parameter of the curve. *)
Lemma InsertKnot_throws degree U P u times out :
  fails_a_check degree U P None ->
  exists name, InsertKnot degree U P u times out = (out, Throw name).
Proof.
  intros H. apply throws_at_exists. unfold InsertKnot, InsertKnot_validate.
  do 5 check. no_check_fails H.
Qed.

Lemma RefineKnotVector_throws degree U P X out :
  fails_a_check degree U P None ->
  exists name, RefineKnotVector degree U P X out = (out, Throw name).
Proof.
  intros H. apply throws_at_exists. unfold RefineKnotVector, RefineKnotVector_validate.
  do 5 check. no_check_fails H.
Qed.

Lemma DecomposeToBeziers_throws fuel degree U P :
  fails_a_check degree U P None ->
  exists name, snd (DecomposeToBeziers fuel degree U P) = Throw name.
Proof.
  intros H. unfold DecomposeToBeziers.
  match goal with |- context [snd (_ ?s0)] => apply (throws_at_snd s0) end.
  apply shared_checks_throw, H.
Qed.

Lemma ElevateDegree_throws {A} degree U P times (body : Run (list R * list XYZW) A) out :
  fails_a_check degree U P None ->
  exists name, (ElevateDegree_checks degree U P times ;; body) out = (out, Throw name).
Proof.
  intros H. apply throws_at_exists. unfold ElevateDegree_checks.
  do 5 check. no_check_fails H.
Qed.

Lemma ReduceDegree_throws {A} degree U P (body : Run (list R * list XYZW) A) out :
  fails_a_check degree U P None ->
  exists name, (ReduceDegree_checks degree U P ;; body) out = (out, Throw name).
Proof.
  intros H. apply throws_at_exists. unfold ReduceDegree_checks.
  check.
  assert (E0 : (0 <? degree)%Z = true).
  { unfold ValidationUtils.IsValidDegreeReduction in E. apply Z.ltb_lt in E.
    apply Z.ltb_lt. lia. }
  do 4 check. no_check_fails H.
Qed.

Lemma EquallyTessellate_throws degree U P out :
  fails_a_check degree U P None ->
  exists name, EquallyTessellate degree U P out = (out, Throw name).
Proof.
  intros H. apply throws_at_exists. unfold EquallyTessellate.
  apply shared_checks_throw, H.
Qed.

Lemma GetParamOnCurve_throws CD IsClosed MaxDistance fuel degree U P givenPoint :
  fails_a_check degree U P None ->
  exists name,
    snd (GetParamOnCurve CD IsClosed MaxDistance fuel degree U P givenPoint) = Throw name.
Proof.
  intros H. unfold GetParamOnCurve.
  match goal with |- context [snd (_ ?s0)] => apply (throws_at_snd s0) end.
  apply shared_checks_throw, H.
Qed.

(** C6, as stated, fails.  [CreateTransform] has no check at all: on an empty
    control net the call returns normally, and the caller's buffer, which
    held one point, is resized to nothing. *)
Lemma CreateTransform_returns_on_empty_net :
  CreateTransform unit (fun _ p => p) [] tt [mkXYZW 1 1 1 1] = ([], Ok tt).
Proof. reflexivity. Qed.

(** C6, as amended.  Every operation of the curve engine that opens with the
    argument checks fails at once, and leaves the output buffers of the
    caller as they were at the call, when the degree is not positive, the
    knot vector is empty or decreasing, the control net is empty, or the
    sizes do not fit [|U| = |P| + p + 1]; the operations that take a
    parameter of the curve ([GetPointOnCurve],
    [ComputeRationalCurveDerivatives], [GetPointOnCurveByCornerCut], and
    [RemoveKnot] for its knot value) do so also when the parameter lies
    outside [[U[0], U[m]]].  For [ElevateDegree] and [ReduceDegree] the
    statement is about their checks followed by any run.  The operations
    without checks ([CreateTransform], [Reverse], [CreateArc],
    [GlobalInterpolation]) are not covered. *)
Theorem checked_operations_throw_before_writing :
  forall (ComputeDerivatives : Z -> Z -> list R -> R -> list XYZW -> list XYZW)
         (IsClosed : list XYZW -> bool) (MaxDistance : R) (fuel : nat)
         (degree : Z) (knotVector : list R) (controlPoints : list XYZW)
         (t : R) (derivative times : Z) (insertKnotElements : list R) (givenPoint : XYZ)
         (out : list R * list XYZW) (samples : list XYZ * list R)
         (A : Type) (body : Run (list R * list XYZW) A),
    violates degree knotVector controlPoints \/ outside knotVector t ->
    ((exists name, GetPointOnCurve degree knotVector t controlPoints = Throw name) /\
     (exists name,
        ComputeRationalCurveDerivatives ComputeDerivatives degree derivative knotVector t
          controlPoints = Throw name) /\
     (exists name, GetPointOnCurveByCornerCut degree knotVector t controlPoints = Throw name) /\
     (exists name,
        RemoveKnot degree knotVector controlPoints t times out = (out, Throw name))) /\
    (violates degree knotVector controlPoints ->
     (exists name,
        InsertKnot degree knotVector controlPoints t times out = (out, Throw name)) /\
     (exists name,
        RefineKnotVector degree knotVector controlPoints insertKnotElements out
        = (out, Throw name)) /\
     (exists name, snd (DecomposeToBeziers fuel degree knotVector controlPoints) = Throw name) /\
     (exists name,
        (ElevateDegree_checks degree knotVector controlPoints times ;; body) out
        = (out, Throw name)) /\
     (exists name,
        (ReduceDegree_checks degree knotVector controlPoints ;; body) out
        = (out, Throw name)) /\
     (exists name,
        EquallyTessellate degree knotVector controlPoints samples = (samples, Throw name)) /\
     (exists name,
        snd (GetParamOnCurve ComputeDerivatives IsClosed MaxDistance fuel degree knotVector
               controlPoints givenPoint) = Throw name)).
Proof.
  intros CD IsClosed MaxDistance fuel degree U P t derivative times X givenPoint out samples
         A body Hv.
  split.
  - assert (H : fails_a_check degree U P (Some t))
      by (destruct Hv; [apply violates_fails | apply outside_fails]; assumption).
    repeat split.
    + apply GetPointOnCurve_throws, H.
    + apply ComputeRationalCurveDerivatives_throws, H.
    + apply GetPointOnCurveByCornerCut_throws, H.
    + apply RemoveKnot_throws, H.
  - intros Hv'. pose proof (violates_fails degree U P None Hv') as H.
    repeat split.
    + apply InsertKnot_throws, H.
    + apply RefineKnotVector_throws, H.
    + apply DecomposeToBeziers_throws, H.
    + apply ElevateDegree_throws, H.
    + apply ReduceDegree_throws, H.
    + apply EquallyTessellate_throws, H.
    + apply GetParamOnCurve_throws, H.
Qed.

Lemma checked_operations_throw_before_writing_witness :
  (exists name,
     GetPointOnCurve 1 [0; 0; 1; 1] 2 [mkXYZW 0 0 0 1; mkXYZW 1 0 0 1] = Throw name) /\
  (exists name,
     RemoveKnot 1 [0; 0; 1; 1] [mkXYZW 0 0 0 1; mkXYZW 1 0 0 1] 2 1 ([7], [])
     = (([7], []), Throw name)).
Proof.
  assert (H : violates 1 [0; 0; 1; 1] [mkXYZW 0 0 0 1; mkXYZW 1 0 0 1]
              \/ outside [0; 0; 1; 1] 2).
  { right. split; [discriminate|]. right. change (knot [0; 0; 1; 1] _) with 1. lra. }
  pose proof (checked_operations_throw_before_writing
                (fun _ _ _ _ P => P) (fun _ => false) 0 O
                1 [0; 0; 1; 1] [mkXYZW 0 0 0 1; mkXYZW 1 0 0 1] 2 1 1 [] (mkXYZ 0 0 0)
                ([7], []) ([], []) unit (ret tt) H) as [(H1 & _ & _ & H4) _].
  split; assumption.
Defined.

End ValidationFacts.

(** * More on [InsertKnot] *)

Module InsertKnotFacts.
Import NurbsCurve.







End InsertKnotFacts.

(** * The corner cut *)

Module CornerCutFacts.
Import NurbsCurve.

(** On a checked curve, [GetPointOnCurveByCornerCut] returns the first
    control point, projected, for a parameter that the tolerance does not
    tell from the first knot, and the last control point for a parameter
    that it does not tell from the last knot. *)
Theorem GetPointOnCurveByCornerCut_at_the_ends degree U P t :
  (0 < degree)%Z -> ValidationUtils.IsValidKnotVector U = true ->
  (0 < size P)%Z -> size U = (size P + degree + 1)%Z ->
  knot U 0 <= t <= knot U (size U - 1) ->
  (IsAlmostEqualTo t (knot U 0) = true ->
   GetPointOnCurveByCornerCut degree U t P = Ok (XYZW_ops.ToXYZ (pt P 0) true)) /\
  (IsAlmostEqualTo t (knot U 0) = false ->
   IsAlmostEqualTo t (knot U (size U - 1)) = true ->
   GetPointOnCurveByCornerCut degree U t P = Ok (XYZW_ops.ToXYZ (pt P (size P - 1)) true)).
Proof.
  intros Hd Hv HP Hsz Ht.
  assert (HU : (0 < size U)%Z) by lia.
  assert (Echecks : forall (rest : Run (list XYZW) XYZ),
    (VALIDATE_ARGUMENT (0 <? degree)%Z "degree" ;;
     VALIDATE_ARGUMENT (0 <? size U)%Z "knotVector" ;;
     VALIDATE_ARGUMENT (ValidationUtils.IsValidKnotVector U) "knotVector" ;;
     VALIDATE_ARGUMENT_RANGE "paramT" (Ok t) (at_ "knotVector" U 0)
       (at_ "knotVector" U (size U - 1)) ;;
     VALIDATE_ARGUMENT (0 <? size P)%Z "controlPoints" ;;
     VALIDATE_ARGUMENT (ValidationUtils.IsValidNurbs degree (size U) (size P))
       "controlPoints" ;;
     rest) [] = rest []).
  { intros rest.
    assert (E1 : (0 <? degree)%Z = true) by (apply Z.ltb_lt; lia).
    assert (E2 : (0 <? size U)%Z = true) by (apply Z.ltb_lt; lia).
    assert (E3 : (0 <? size P)%Z = true) by (apply Z.ltb_lt; lia).
    assert (E4 : ValidationUtils.IsValidNurbs degree (size U) (size P) = true).
    { unfold ValidationUtils.IsValidNurbs. apply Z.eqb_eq. lia. }
    rewrite E1, E2, E3, E4, Hv.
    rewrite !ValidationFacts.rbind_validate.
    rewrite ValidationFacts.rbind_range by assumption.
    rewrite !Rleb_true by lra. cbn [andb].
    rewrite !ValidationFacts.rbind_validate. reflexivity. }
  unfold GetPointOnCurveByCornerCut. rewrite Echecks.
  erewrite rbind_Ok by (apply (InsertFacts.get_nth 0%R); lia). fold (knot U 0).
  split.
  - intros ->.
    erewrite rbind_Ok by (apply (InsertFacts.get_nth XYZW_ops.zero); lia). reflexivity.
  - intros -> Hl.
    erewrite rbind_Ok by (apply (InsertFacts.get_nth 0%R); lia).
    replace (size P - 1 + degree + 1)%Z with (size U - 1)%Z by lia.
    fold (knot U (size U - 1)). rewrite Hl.
    erewrite rbind_Ok by (apply (InsertFacts.get_nth XYZW_ops.zero); lia). reflexivity.
Qed.

Lemma GetPointOnCurveByCornerCut_at_the_ends_witness :
  GetPointOnCurveByCornerCut 2 RemoveFacts.U 0 RemoveFacts.P
  = Ok (XYZW_ops.ToXYZ (pt RemoveFacts.P 0) true).
Proof.
  destruct (GetPointOnCurveByCornerCut_at_the_ends 2 RemoveFacts.U RemoveFacts.P 0) as (H & _).
  - lia.
  - exact RemoveFacts.U_valid.
  - reflexivity.
  - reflexivity.
  - change (knot RemoveFacts.U 0) with 0. change (knot RemoveFacts.U _) with 2. lra.
  - apply H. change (knot RemoveFacts.U 0) with 0. unfold IsAlmostEqualTo, DoubleEpsilon.
    apply Rltb_true. replace (0 - 0) with 0 by ring. rewrite Rabs_R0. lra.
Defined.

(** ** The corner cut and the evaluator *)

Section CornerCutRun.
Local Open Scope Z_scope.
Variables (degree : Z) (U : list R) (P : list XYZW) (t : R) (k s : Z).
Hypothesis Hsize : size U = size P + degree + 1.
Hypothesis Hk : degree <= k < size P.
Hypothesis Hs : 0 <= s <= degree.
Hypothesis Hdegree : 0 < degree.

Local Abbreviation D := (InsertFacts.D degree U P t k).

(** The triangle of [GetPointOnCurveByCornerCut]: the statements that follow
    the two tests on the ends. *)
Definition corner_cut_triangle : Run (list XYZW) XYZ :=
  modify (fun _ => vresize "temp" XYZW_ops.zero (degree - s + 1) []) ;;
  for_range 0 (degree - s) (fun i =>
    do x <- get "controlPoints" P (k - degree + i);
    modify (fun temp => put "temp" temp i x)) ;;
  for_range 1 (degree - s) (fun j =>
    for_range 0 (degree - s - j) (fun i =>
      do uLi <- get "knotVector" U (k - degree + j + i);
      do uk1 <- get "knotVector" U (i + k + 1);
      let alpha := ((t - uLi) / (uk1 - uLi))%R in
      do t1 <- read (fun temp => at_ "temp" temp (i + 1));
      do t0 <- read (fun temp => at_ "temp" temp i);
      modify (fun temp => put "temp" temp i
        (XYZW_ops.add (XYZW_ops.scale alpha t1)
                      (XYZW_ops.scale (1 - alpha)%R t0))))) ;;
  do r <- read (fun temp => at_ "temp" temp 0);
  ret (XYZW_ops.ToXYZ r true).

Lemma temp_at_pt (temp : list XYZW) i :
  0 <= i < size temp -> read (fun temp => at_ "temp" temp i) temp = (temp, Ok (pt temp i)).
Proof.
  intros Hi. unfold read, pt. rewrite (InsertFacts.at_nth XYZW_ops.zero) by assumption.
  reflexivity.
Qed.

Lemma temp_put (temp : list XYZW) i x :
  0 <= i < size temp ->
  modify (fun temp => put "temp" temp i x) temp = (<[Z.to_nat i := x]> temp, Ok tt).
Proof. intros Hi. unfold modify. rewrite put_Ok by assumption. reflexivity. Qed.

Lemma corner_cut_triangle_run temp0 :
  exists temp,
    corner_cut_triangle temp0 = (temp, Ok (XYZW_ops.ToXYZ (D (degree - s) 0) true)).
Proof.
  unfold corner_cut_triangle.
  assert (Ea : modify (fun _ => vresize "temp" XYZW_ops.zero (degree - s + 1) []) temp0
               = (resize (Z.to_nat (degree - s + 1)) XYZW_ops.zero [], Ok tt)).
  { unfold modify. rewrite vresize_Ok by lia. reflexivity. }
  rewrite (rbind_Ok _ _ _ _ _ Ea). clear Ea.
  (* the load *)
  destruct (InsertFacts.for_range_rule
    (fun i temp => size temp = degree - s + 1 /\
                   forall i', 0 <= i' < i -> pt temp i' = pt P (k - degree + i'))
    0 (degree - s)
    (fun i => do x <- get "controlPoints" P (k - degree + i);
              modify (fun temp => put "temp" temp i x))
    (resize (Z.to_nat (degree - s + 1)) XYZW_ops.zero [])) as (tb & Eb & Hb1 & Hb2).
  { lia. }
  { split; [rewrite size_resize; lia | intros; lia]. }
  { intros i temp Hi (H1 & H2). eexists. split.
    - erewrite rbind_Ok by (apply (InsertFacts.get_nth XYZW_ops.zero); lia).
      apply temp_put. lia.
    - rewrite size_insert. split; [assumption|].
      intros i' Hi'. rewrite InsertFacts.pt_put by lia.
      destruct (Z.eqb_spec i' i) as [->|]; [reflexivity | apply H2; lia]. }
  rewrite (rbind_Ok _ _ _ _ _ Eb). clear Eb.
  (* the rounds *)
  destruct (InsertFacts.for_range_rule
    (fun j temp => size temp = degree - s + 1 /\
                   forall i, 0 <= i <= degree - s - (j - 1) -> pt temp i = D (j - 1) i)
    1 (degree - s)
    (fun j =>
      for_range 0 (degree - s - j) (fun i =>
        do uLi <- get "knotVector" U (k - degree + j + i);
        do uk1 <- get "knotVector" U (i + k + 1);
        let alpha := ((t - uLi) / (uk1 - uLi))%R in
        do t1 <- read (fun temp => at_ "temp" temp (i + 1));
        do t0 <- read (fun temp => at_ "temp" temp i);
        modify (fun temp => put "temp" temp i
          (XYZW_ops.add (XYZW_ops.scale alpha t1)
                        (XYZW_ops.scale (1 - alpha)%R t0)))))
    tb) as (tc & Ec & Hc1 & Hc2).
  { lia. }
  { split; [assumption|]. intros i Hi. rewrite Hb2 by lia.
    unfold InsertFacts.D. replace (Z.to_nat (1 - 1)) with O by lia. reflexivity. }
  { intros j temp Hj (H1 & H2).
    destruct (InsertFacts.for_range_rule
      (fun i temp' => size temp' = degree - s + 1 /\
         (forall i', 0 <= i' < i -> pt temp' i' = D j i') /\
         (forall i', i <= i' <= degree - s - (j - 1) -> pt temp' i' = D (j - 1) i'))
      0 (degree - s - j)
      (fun i =>
        do uLi <- get "knotVector" U (k - degree + j + i);
        do uk1 <- get "knotVector" U (i + k + 1);
        let alpha := ((t - uLi) / (uk1 - uLi))%R in
        do t1 <- read (fun temp => at_ "temp" temp (i + 1));
        do t0 <- read (fun temp => at_ "temp" temp i);
        modify (fun temp => put "temp" temp i
          (XYZW_ops.add (XYZW_ops.scale alpha t1)
                        (XYZW_ops.scale (1 - alpha)%R t0))))
      temp) as (td & Ed & Hd1 & Hd2 & Hd3).
    { lia. }
    { split; [assumption|]. split; [intros; lia | assumption]. }
    { intros i temp' Hi (F1 & F2 & F3). eexists. split.
      - erewrite rbind_Ok by (apply (InsertFacts.get_nth 0%R); lia).
        erewrite rbind_Ok by (apply (InsertFacts.get_nth 0%R); lia).
        cbv zeta.
        erewrite rbind_Ok by (apply temp_at_pt; lia).
        erewrite rbind_Ok by (apply temp_at_pt; lia).
        apply temp_put. lia.
      - rewrite size_insert. split; [assumption|]. split.
        + intros i' Hi'. rewrite InsertFacts.pt_put by lia.
          destruct (Z.eqb_spec i' i) as [->|]; [|apply F2; lia].
          rewrite (InsertFacts.D_step degree U P t k j i) by lia. cbv zeta.
          rewrite !F3 by lia. reflexivity.
        + intros i' Hi'. rewrite InsertFacts.pt_put by lia.
          InsertFacts.decide_index. apply F3; lia. }
    exists td. split; [exact Ed|]. split; [assumption|].
    intros i Hi. replace (j + 1 - 1) with j by lia. apply Hd2. lia. }
  rewrite (rbind_Ok _ _ _ _ _ Ec). clear Ec.
  erewrite rbind_Ok by (apply temp_at_pt; lia).
  exists tc. unfold ret. rewrite Hc2 by lia.
  replace (degree - s + 1 - 1) with (degree - s) by lia. reflexivity.
Qed.
End CornerCutRun.

(** At a knot of full multiplicity the basis functions of the span are 0
    and 1: with [u] equal to [t] on the [q] knots up to [kappa], and a knot
    above [t] after them, the function of index [kappa - q] is 1 at [t]. *)
Lemma N_at_full_knot (u : Z -> R) (kappa : Z) (t : R) (q : nat) :
  (forall i, (kappa - Z.of_nat q < i <= kappa)%Z -> u i = t) ->
  t < u (kappa + 1)%Z ->
  forall i, N u kappa t q i = if (i =? kappa - Z.of_nat q)%Z then 1 else 0.
Proof.
  induction q as [|q IH]; intros Hu Ht i.
  - cbn [N]. replace (kappa - Z.of_nat 0)%Z with kappa by lia. reflexivity.
  - rewrite N_succ. rewrite !IH by (auto; intros j Hj; apply Hu; lia).
    destruct (Z.eqb_spec i (kappa - Z.of_nat (S q))) as [->|Hne].
    + destruct (Z.eqb_spec (kappa - Z.of_nat (S q)) (kappa - Z.of_nat q)) as [E|_]; [lia|].
      destruct (Z.eqb_spec (kappa - Z.of_nat (S q) + 1) (kappa - Z.of_nat q)) as [_|E]; [|lia].
      replace (kappa - Z.of_nat (S q) + (Z.of_nat q + 1) + 1)%Z with (kappa + 1)%Z by lia.
      rewrite (Hu (kappa - Z.of_nat (S q) + 1)%Z) by lia. rewrite Rmult_0_r. field. lra.
    + destruct (Z.eqb_spec (i + 1) (kappa - Z.of_nat q)) as [E|_]; [lia|].
      destruct (Z.eqb_spec i (kappa - Z.of_nat q)) as [->|_]; [|ring].
      rewrite (Hu (kappa - Z.of_nat q)%Z) by lia.
      unfold Rdiv. ring.
Qed.

Lemma vsum_first f a n :
  (forall i, (a < i < a + Z.of_nat (S n))%Z -> f i = XYZW_ops.zero) ->
  vsum f a (S n) = f a.
Proof.
  intros H. cbn [vsum]. rewrite vsum_zero; [apply add_zero_r|].
  intros i Hi. apply H. lia.
Qed.

Lemma GetKnotMultiplicity_all t (U : list R) :
  (forall x, In x U -> x = t) ->
  Polynomials.GetKnotMultiplicity U t = Z.of_nat (length U).
Proof.
  induction U as [|a U IH]; intros H; cbn [Polynomials.GetKnotMultiplicity length]; [reflexivity|].
  rewrite IH by (intros x Hx; apply H; right; exact Hx).
  rewrite (H a (or_introl eq_refl)).
  replace (IsAlmostEqualTo t t) with true; [lia|].
  symmetry. unfold IsAlmostEqualTo, DoubleEpsilon. apply Rltb_true.
  replace (t - t) with 0 by ring. rewrite Rabs_R0. lra.
Qed.

(** On a checked curve, at a parameter of the half-open domain
    [U[degree], U[n+1]) whose copies among the knots are told apart from the
    other knots by the tolerance, and which is a knot at most [degree]
    times, the corner cut and the evaluator return the same point. *)
Theorem GetPointOnCurveByCornerCut_is_GetPointOnCurve degree U P t :
  (0 < degree)%Z -> ValidationUtils.IsValidKnotVector U = true ->
  size U = (size P + degree + 1)%Z ->
  knot U degree <= t < knot U (size P) ->
  separated t U ->
  (Polynomials.GetKnotMultiplicity U t <= degree)%Z ->
  exists x,
    GetPointOnCurve degree U t P = Ok x /\
    GetPointOnCurveByCornerCut degree U t P = Ok x.
Proof.
  intros Hp Hv Hsz Ht Hsep Hsp.
  pose proof (IsValidKnotVector_mono U Hv) as Hmono.
  assert (HP0 : (0 <= size P)%Z) by (unfold size; lia).
  assert (HnP : (degree + 1 <= size P)%Z).
  { destruct (Z_lt_le_dec (size P) (degree + 1)) as [H|H]; [|assumption]. exfalso.
    pose proof (Hmono (size P) degree ltac:(lia) ltac:(lia) ltac:(lia)). lra. }
  pose proof (GetKnotSpanIndex_domain degree U t) as Hk. cbv zeta in Hk.
  replace (size U - degree - 2 + 1)%Z with (size P) in Hk by lia.
  specialize (Hk ltac:(lia) Ht). destruct Hk as (Hk & Huk).
  destruct (multiplicity_block t U (Polynomials.GetKnotSpanIndex degree U t) Hsep Hv
              ltac:(lia) ltac:(lia) Huk) as (Hsk & Hmult).
  pose proof (InsertFacts.GetKnotMultiplicity_nonneg U t) as Hs0.
  assert (Hends : knot U 0 <= t <= knot U (size U - 1)).
  { pose proof (Hmono 0%Z degree ltac:(lia) ltac:(lia) ltac:(lia)).
    pose proof (Hmono (size P) (size U - 1)%Z ltac:(lia) ltac:(lia) ltac:(lia)). lra. }
  (* the parameter is told from the two end knots *)
  assert (Hin : forall i, (0 <= i < size U)%Z -> In (knot U i) U).
  { intros i Hi. unfold knot. apply nth_In. unfold size in Hi. lia. }
  assert (Efirst : IsAlmostEqualTo t (knot U 0) = false).
  { destruct (IsAlmostEqualTo t (knot U 0)) eqn:E; [exfalso | reflexivity].
    pose proof (Hsep _ (Hin 0%Z ltac:(lia)) E) as E0.
    set (n := Z.to_nat (degree + 1)).
    assert (Hall : Polynomials.GetKnotMultiplicity (take n U) t = Z.of_nat (length (take n U))).
    { apply GetKnotMultiplicity_all. intros x Hx. apply (In_nth _ _ 0) in Hx.
      destruct Hx as (j & Hj & <-). rewrite length_take in Hj. unfold size in *.
      rewrite nth_lookup, lookup_take_lt, <- nth_lookup by lia.
      pose proof (Hmono 0%Z (Z.of_nat j) ltac:(lia) ltac:(lia) ltac:(unfold size; lia)) as H1.
      pose proof (Hmono (Z.of_nat j) degree ltac:(lia) ltac:(lia) ltac:(unfold size; lia)) as H2.
      unfold knot in H1, H2, E0, Ht. rewrite Nat2Z.id in H1, H2.
      change (nth (Z.to_nat 0) U 0) with (nth 0 U 0) in *. lra. }
    rewrite length_take in Hall.
    pose proof (GetKnotMultiplicity_app t (take n U) (drop n U)) as Happ.
    rewrite take_drop in Happ.
    pose proof (InsertFacts.GetKnotMultiplicity_nonneg (drop n U) t).
    unfold size in *. lia. }
  assert (Elast : IsAlmostEqualTo t (knot U (size U - 1)) = false).
  { destruct (IsAlmostEqualTo t (knot U (size U - 1))) eqn:E; [exfalso | reflexivity].
    pose proof (Hsep _ (Hin (size U - 1)%Z ltac:(lia)) E) as E0.
    pose proof (Hmono (size P) (size U - 1)%Z ltac:(lia) ltac:(lia) ltac:(lia)). lra. }
  set (k := Polynomials.GetKnotSpanIndex degree U t) in *.
  set (s := Polynomials.GetKnotMultiplicity U t) in *.
  (* the corner cut *)
  assert (Ecut : GetPointOnCurveByCornerCut degree U t P
                 = snd (corner_cut_triangle degree U P t k s [])).
  { unfold GetPointOnCurveByCornerCut.
    assert (E1 : (0 <? degree)%Z = true) by (apply Z.ltb_lt; lia).
    assert (E2 : (0 <? size U)%Z = true) by (apply Z.ltb_lt; lia).
    assert (E3 : (0 <? size P)%Z = true) by (apply Z.ltb_lt; lia).
    assert (E4 : ValidationUtils.IsValidNurbs degree (size U) (size P) = true).
    { unfold ValidationUtils.IsValidNurbs. apply Z.eqb_eq. lia. }
    rewrite E1, E2, E3, E4, Hv.
    rewrite !ValidationFacts.rbind_validate.
    rewrite ValidationFacts.rbind_range by assumption.
    rewrite !Rleb_true by lra. cbn [andb].
    rewrite !ValidationFacts.rbind_validate.
    erewrite rbind_Ok by (apply (InsertFacts.get_nth 0%R); lia). fold (knot U 0).
    rewrite Efirst.
    erewrite rbind_Ok by (apply (InsertFacts.get_nth 0%R); lia).
    replace (size P - 1 + degree + 1)%Z with (size U - 1)%Z by lia.
    fold (knot U (size U - 1)). rewrite Elast. reflexivity. }
  destruct (corner_cut_triangle_run degree U P t k s Hsz ltac:(lia) ltac:(lia) Hp [])
    as (temp & Erun).
  rewrite Ecut, Erun. cbn [snd].
  rewrite GetPointOnCurve_Ok by (assumption || lia).
  eexists. split; [reflexivity|]. do 2 f_equal.
  (* the evaluator *)
  set (pn := Z.to_nat degree). assert (Ep : degree = Z.of_nat pn) by lia.
  set (r := (degree - s)%Z).
  assert (E2 : BsplineCurve.GetPointOnCurve degree U t P
               = vsum (fun i => XYZW_ops.scale (N (knot U) k t pn i) (pt P i))
                   (k - degree) (S pn)).
  { unfold k. rewrite Ep. apply GetPointOnCurve_vsum. rewrite <- Ep. fold k. lia. }
  rewrite E2.
  assert (E3 := insertions_keep_point (knot U) k t t k 0 (size U - 1) pn (pt P)
             true Hmono ltac:(lia) ltac:(lra) ltac:(lia) ltac:(lia)
             ltac:(lra) ltac:(split; [lia | intros _; lra]) (Z.to_nat r)).
  replace (Z.of_nat (Z.to_nat r)) with r in E3 by lia.
  rewrite <- Ep in E3. rewrite E3. unfold span_after.
  rewrite vsum_first.
  - rewrite N_at_full_knot.
    + replace (k + r - degree =? k + r - Z.of_nat pn)%Z with true
        by (symmetry; apply Z.eqb_eq; lia).
      rewrite scale_one.
      rewrite (Qr_closed degree U P t k s Hs0) by (try lia; intros; apply Hmult; lia).
      replace (Z.of_nat (Z.to_nat r)) with r by lia.
      unfold Qcf. destruct (Z.leb_spec (k + r - degree) (k - degree)).
      * assert (r = 0%Z) by lia. unfold InsertFacts.D.
        replace (Z.to_nat r) with O by lia. cbn [InsertFacts.Dtri].
        f_equal. lia.
      * destruct (Z.leb_spec (k + r - degree) (k - degree + r)); [|lia].
        f_equal. lia.
    + intros i Hi. unfold insr.
      destruct (Z.leb_spec i k); [apply Hmult; lia|].
      destruct (Z.leb_spec i (k + r)); [reflexivity | lia].
    + unfold insr. destruct (Z.leb_spec (k + r + 1) k); [lia|].
      destruct (Z.leb_spec (k + r + 1) (k + r)); [lia|].
      replace (k + r + 1 - r)%Z with (k + 1)%Z by lia. lra.
  - intros i Hi. rewrite N_at_full_knot.
    + replace (i =? k + r - Z.of_nat pn)%Z with false
        by (symmetry; apply Z.eqb_neq; lia).
      apply scale_zero.
    + intros j Hj. unfold insr.
      destruct (Z.leb_spec j k); [apply Hmult; lia|].
      destruct (Z.leb_spec j (k + r)); [reflexivity | lia].
    + unfold insr. destruct (Z.leb_spec (k + r + 1) k); [lia|].
      destruct (Z.leb_spec (k + r + 1) (k + r)); [lia|].
      replace (k + r + 1 - r)%Z with (k + 1)%Z by lia. lra.
Qed.

Lemma GetPointOnCurveByCornerCut_is_GetPointOnCurve_witness :
  exists x,
    GetPointOnCurve 2 RemoveFacts.U 1 RemoveFacts.P = Ok x /\
    GetPointOnCurveByCornerCut 2 RemoveFacts.U 1 RemoveFacts.P = Ok x.
Proof.
  apply GetPointOnCurveByCornerCut_is_GetPointOnCurve.
  - lia.
  - exact RemoveFacts.U_valid.
  - reflexivity.
  - change (knot RemoveFacts.U 2) with 0. change (knot RemoveFacts.U _) with 2. lra.
  - intros x Hx E. unfold IsAlmostEqualTo, Rltb, DoubleEpsilon in E.
    destruct (Rlt_dec (Rabs (1 - x)) (/ 10000000000)) as [H|H]; [|discriminate].
    apply Rabs_def2 in H. unfold RemoveFacts.U in Hx. cbn [In] in Hx.
    repeat (destruct Hx as [<-|Hx]; [lra|]). contradiction.
  - rewrite RemoveFacts.U_multiplicity. lia.
Defined.
End CornerCutFacts.

(** * The checks of the counts *)

Module CountFacts.
Import NurbsCurve.
Import ValidationFacts.

(** The checks of the counts: a count of insertions, removals or elevations
    that is not positive, an empty list of knots to insert, an order of
    derivation that is not positive and a degree below two for the reduction
    are refused with a throw, on any curve, and the output buffers of the
    caller are as they were at the call. *)
Theorem counts_are_checked :
  forall (ComputeDerivatives : Z -> Z -> list R -> R -> list XYZW -> list XYZW)
         (degree : Z) (knotVector : list R) (controlPoints : list XYZW)
         (t : R) (derivative times : Z) (out : list R * list XYZW)
         (A : Type) (body : Run (list R * list XYZW) A),
    ((times <= 0)%Z ->
     (exists name,
        InsertKnot degree knotVector controlPoints t times out = (out, Throw name)) /\
     (exists name,
        RemoveKnot degree knotVector controlPoints t times out = (out, Throw name)) /\
     (exists name,
        (ElevateDegree_checks degree knotVector controlPoints times ;; body) out
        = (out, Throw name))) /\
    (exists name,
       RefineKnotVector degree knotVector controlPoints [] out = (out, Throw name)) /\
    ((derivative <= 0)%Z ->
     exists name,
       ComputeRationalCurveDerivatives ComputeDerivatives degree derivative knotVector t
         controlPoints = Throw name) /\
    ((degree <= 1)%Z ->
     exists name,
       (ReduceDegree_checks degree knotVector controlPoints ;; body) out = (out, Throw name)).
Proof.
  intros CD degree U P t derivative times out A body.
  split; [|split; [|split]].
  - intros Ht. assert (Et : (0 <? times)%Z = false) by (apply Z.ltb_ge; lia).
    split; [|split]; apply throws_at_exists.
    + unfold InsertKnot, InsertKnot_validate. do 6 check. congruence.
    + unfold RemoveKnot, RemoveKnot_validate. do 7 check. congruence.
    + unfold ElevateDegree_checks. do 6 check. congruence.
  - apply throws_at_exists. unfold RefineKnotVector, RefineKnotVector_validate.
    do 6 check. discriminate.
  - intros Hd. assert (Ed : (0 <? derivative)%Z = false) by (apply Z.ltb_ge; lia).
    unfold ComputeRationalCurveDerivatives.
    match goal with |- context [snd (_ ?s0)] => apply (throws_at_snd s0) end.
    do 2 check. congruence.
  - intros Hd. apply throws_at_exists. unfold ReduceDegree_checks. check.
    unfold ValidationUtils.IsValidDegreeReduction in E. apply Z.ltb_lt in E. lia.
Qed.

Lemma counts_are_checked_witness :
  exists name,
    InsertKnot 1 [0; 0; 1; 1] [mkXYZW 0 0 0 1; mkXYZW 1 0 0 1] (1 / 2) 0 ([7], [])
    = (([7], []), Throw name).
Proof.
  destruct (counts_are_checked (fun _ _ _ _ P => P) 1 [0; 0; 1; 1]
              [mkXYZW 0 0 0 1; mkXYZW 1 0 0 1] (1 / 2) 0 0 ([7], []) unit (ret tt))
    as (H & _).
  destruct (H ltac:(lia)) as (H1 & _). exact H1.
Defined.
End CountFacts.

(** * [CreateTransform] *)

Module TransformFacts.
Import NurbsCurve.

Section Transform.
Variable Matrix4d : Type.
Variable OfPoint : Matrix4d -> XYZ -> XYZ.

(** What [CreateTransform] stores for one control point: the image of the
    projected point, with the weight of the control point. *)
Definition transformed (matrix : Matrix4d) (p : XYZW) : XYZW :=
  XYZW_ops.of_XYZ (OfPoint matrix (XYZW_ops.ToXYZ p true)) (XYZW_ops.GetW p).

(** [CreateTransform] always returns; whatever the output vector held, it
    then holds one transformed point per control point, in the same order
    and with the same weight. *)
Theorem CreateTransform_maps_every_point (controlPoints : list XYZW) (matrix : Matrix4d)
    (transformedControlPoints : list XYZW) :
  CreateTransform Matrix4d OfPoint controlPoints matrix transformedControlPoints
  = (map (transformed matrix) controlPoints, Ok tt) /\
  map XYZW_ops.GetW (map (transformed matrix) controlPoints)
  = map XYZW_ops.GetW controlPoints.
Proof.
  split.
  - unfold CreateTransform. cbv zeta.
    assert (E1 : modify (vresize "transformedControlPoints" XYZW_ops.zero (size controlPoints))
                   transformedControlPoints
                 = (resize (length controlPoints) XYZW_ops.zero transformedControlPoints, Ok tt)).
    { unfold modify, vresize, size.
      destruct (Z.leb_spec 0 (Z.of_nat (length controlPoints))); [|lia].
      rewrite Nat2Z.id. reflexivity. }
    rewrite (rbind_Ok _ _ _ _ _ E1).
    destruct (InsertFacts.for_range_rule
      (fun i v => length v = length controlPoints /\
                  take (Z.to_nat i) v = map (transformed matrix) (take (Z.to_nat i) controlPoints))
      0 (size controlPoints - 1)
      (fun i =>
         do temp <- get "controlPoints" controlPoints i;
         modify (fun v => put "transformedControlPoints" v i
           (XYZW_ops.of_XYZ (OfPoint matrix (XYZW_ops.ToXYZ temp true)) (XYZW_ops.GetW temp))))
      (resize (length controlPoints) XYZW_ops.zero transformedControlPoints))
      as (v & E & Hlen & Hv).
    + unfold size. lia.
    + split; [apply length_resize | reflexivity].
    + intros i v Hi (Hlen & Hv). unfold size in Hi.
      destruct (lookup_lt_is_Some_2 controlPoints (Z.to_nat i) ltac:(lia)) as [p Hp].
      exists (<[Z.to_nat i := transformed matrix p]> v). split.
      * erewrite rbind_Ok by (unfold get, read, at_; destruct (Z.leb_spec 0 i); [|lia];
                              rewrite Hp; reflexivity).
        unfold modify, put. destruct (Z.leb_spec 0 i); [|lia].
        destruct (Z.ltb_spec i (Z.of_nat (length v))); [|lia]. reflexivity.
      * split; [rewrite length_insert; assumption|].
        replace (Z.to_nat (i + 1)) with (S (Z.to_nat i)) by lia.
        rewrite (take_S_r controlPoints _ p Hp), map_app, <- Hv.
        rewrite (take_S_r _ _ (transformed matrix p))
          by (apply list_lookup_insert_eq; lia).
        rewrite take_insert_ge by lia. reflexivity.
    + rewrite E. f_equal. unfold size in Hv.
      replace (Z.to_nat (Z.of_nat (length controlPoints) - 1 + 1))
        with (length controlPoints) in Hv by lia.
      rewrite firstn_all in Hv. rewrite <- Hlen in Hv at 1. rewrite firstn_all in Hv. exact Hv.
  - rewrite map_map. apply map_ext. intros p. reflexivity.
Qed.
End Transform.
End TransformFacts.

(** * The segments of [CreateArc] *)

Module ArcSegmentFacts.
Import NurbsCurve.



End ArcSegmentFacts.

(** * Conic arcs *)

Module ConicFacts.
Import NurbsCurve.

Section Conic.
Variable ComputeRays :
  XYZ -> XYZ -> XYZ -> XYZ -> CurveCurveIntersectionType * R * R * XYZ.
Variable AngleTo : XYZ -> XYZ -> R.
Variables IsGreaterThanOrEqual IsGreaterThan IsLessThan : R -> R -> bool.
Variable AngleToRadians : R -> R.

(** [SplitArc] gives the two inserted points and their midpoint; the weight
    that it computes stays in its parameter object. *)
Lemma SplitArc_points start projectPoint w end_ insertWeight0 refs :
  let Q := XYZ_ops.divide (XYZ_ops.add start (XYZ_ops.scale w projectPoint)) (1 + w) in
  let R_ := XYZ_ops.divide (XYZ_ops.add (XYZ_ops.scale w projectPoint) end_) (1 + w) in
  SplitArc start projectPoint w end_ insertWeight0 refs
  = (Q, XYZ_ops.divide (XYZ_ops.add Q R_) 2, R_).
Proof. reflexivity. Qed.






End Conic.
End ConicFacts.

(** * [ToUnclampCurve] *)

Module UnclampFacts.
Import NurbsCurve.
Local Open Scope Z_scope.

Lemma for_down_n_rule {St} (I : Z -> St -> Prop) (body : Z -> Run St unit) n :
  forall hi s,
  I hi s ->
  (forall i s, hi - Z.of_nat n < i <= hi -> I i s ->
     exists s', body i s = (s', Ok tt) /\ I (i - 1) s') ->
  exists s', for_down_n n hi body s = (s', Ok tt) /\ I (hi - Z.of_nat n) s'.
Proof.
  induction n as [|n IH]; intros hi s H0 Hstep.
  - exists s. split; [reflexivity|]. replace (hi - Z.of_nat 0) with hi by lia. assumption.
  - destruct (Hstep hi s) as (s1 & E1 & H1); [lia | assumption |].
    destruct (IH (hi - 1) s1 H1) as (s2 & E2 & H2).
    { intros i s' Hi. apply Hstep. lia. }
    exists s2. split.
    + cbn [for_down_n]. rewrite (rbind_Ok _ _ _ _ _ E1). exact E2.
    + replace (hi - Z.of_nat (S n)) with (hi - 1 - Z.of_nat n) by lia. assumption.
Qed.

Lemma for_down_rule {St} (I : Z -> St -> Prop) hi lo (body : Z -> Run St unit) s :
  lo <= hi + 1 ->
  I hi s ->
  (forall i s, lo <= i <= hi -> I i s -> exists s', body i s = (s', Ok tt) /\ I (i - 1) s') ->
  exists s', for_down hi lo body s = (s', Ok tt) /\ I (lo - 1) s'.
Proof.
  intros Hle H0 Hstep. unfold for_down.
  destruct (for_down_n_rule I body (Z.to_nat (hi + 1 - lo)) hi s H0) as (s' & E & H').
  { intros i s' Hi. apply Hstep. lia. }
  exists s'. split; [assumption|].
  replace (lo - 1) with (hi - Z.of_nat (Z.to_nat (hi + 1 - lo))) by lia. assumption.
Qed.

Lemma u32_small x : 0 <= x < 4294967296 -> u32 x = x.
Proof. intros H. unfold u32. apply Z.mod_small. assumption. Qed.

Section Steps.
Variable s : UnclampState.

Lemma uc_knot_at_Ok i :
  0 <= i < size (uc_knotVector s) -> exists x, uc_knot_at i s = (s, Ok x).
Proof.
  intros Hi. unfold uc_knot_at, read.
  destruct (at_is_Ok "knotVector" (uc_knotVector s) i Hi) as (x & -> & _). eauto.
Qed.

Lemma uc_point_at_Ok i :
  0 <= i < size (uc_controlPoints s) -> exists x, uc_point_at i s = (s, Ok x).
Proof.
  intros Hi. unfold uc_point_at, read.
  destruct (at_is_Ok "controlPoints" (uc_controlPoints s) i Hi) as (x & -> & _). eauto.
Qed.

Lemma uc_set_knot_Ok i x :
  0 <= i < size (uc_knotVector s) ->
  uc_set_knot i x s
  = (mkUnclampState (<[Z.to_nat i := x]> (uc_knotVector s)) (uc_controlPoints s) (uc_k s),
     Ok tt).
Proof. intros Hi. unfold uc_set_knot, modify. rewrite put_Ok by assumption. reflexivity. Qed.

Lemma uc_set_point_Ok i x :
  0 <= i < size (uc_controlPoints s) ->
  uc_set_point i x s
  = (mkUnclampState (uc_knotVector s) (<[Z.to_nat i := x]> (uc_controlPoints s)) (uc_k s),
     Ok tt).
Proof. intros Hi. unfold uc_set_point, modify. rewrite put_Ok by assumption. reflexivity. Qed.
End Steps.

Ltac uc_proj := cbn [uc_knotVector uc_controlPoints uc_k].

(** On a curve of degree two or more whose sizes fit
    [|U| = |P| + degree + 1] and that has [degree + 1] control points at
    least, [ToUnclampCurve] does not return: after its first loop it reads
    [knotVector[n + degree + 2]], the element one past the end of the knot
    vector. *)
Theorem ToUnclampCurve_reads_past_the_end degree U P :
  2 <= degree -> size U = size P + degree + 1 -> degree + 1 <= size P ->
  size U < 2147483648 ->
  exists U' P',
    ToUnclampCurve degree (U, P) = ((U', P'), OutOfRange "knotVector" (size U) (length U)) /\
    length U' = length U /\ length P' = length P.
Proof.
  intros Hd Hsz Hn Hbig. unfold ToUnclampCurve, with_locals, ToUnclampCurve_body.
  cbn [fst snd].
  set (s0 := mkUnclampState U P 0).
  rewrite (rbind_Ok _ _ s0 s0 (size P - 1)) by reflexivity.
  rewrite (u32_small (degree - 2)) by lia.
  destruct (InsertFacts.for_range_rule
    (fun _ s => size (uc_knotVector s) = size U /\ size (uc_controlPoints s) = size P)
    0 (degree - 2 - 1)
    (fun i =>
      do a <- uc_knot_at (u32 (degree - i));
      do b <- uc_knot_at (size P - 1 - i);
      uc_set_knot (u32 (degree - i - 1)) (a - b)%R ;;
      uc_set_k (to_int (u32 (degree - 1))) ;;
      for_down i 0 (fun j =>
        do k <- uc_get_k;
        do up <- uc_knot_at degree;
        do uk <- uc_knot_at k;
        do uj <- uc_knot_at (u32 (degree + j + 1));
        let alfa := ((up - uk) / (uj - uk))%R in
        do pj <- uc_point_at j;
        do pj1 <- uc_point_at (j + 1);
        uc_set_point j
          (XYZW_ops.divide (XYZW_ops.sub pj (XYZW_ops.scale alfa pj1)) (1 - alfa)%R) ;;
        uc_set_k (k - 1)))
    s0) as (s1 & E1 & HU1 & HP1).
  { lia. }
  { split; reflexivity. }
  { intros i s Hi (HU & HP).
    rewrite (u32_small (degree - i)), (u32_small (degree - i - 1)), (u32_small (degree - 1))
      by lia.
    destruct (uc_knot_at_Ok s (degree - i) ltac:(lia)) as (a & Ea).
    destruct (uc_knot_at_Ok s (size P - 1 - i) ltac:(lia)) as (b & Eb).
    rewrite (rbind_Ok _ _ _ _ _ Ea), (rbind_Ok _ _ _ _ _ Eb).
    rewrite (rbind_Ok _ _ _ _ _ (uc_set_knot_Ok s (degree - i - 1) _ ltac:(lia))).
    unfold to_int. destruct (Z.ltb_spec (degree - 1) 2147483648); [|lia].
    match goal with |- context [rbind (uc_set_k ?k) _ ?s'] =>
      rewrite (rbind_Ok _ _ s'
                 (mkUnclampState (uc_knotVector s') (uc_controlPoints s') k) tt)
        by reflexivity
    end. uc_proj.
    destruct (for_down_rule
      (fun j s' => size (uc_knotVector s') = size U /\ size (uc_controlPoints s') = size P /\
                   uc_k s' = degree - 1 - (i - j))
      i 0
      (fun j =>
        do k <- uc_get_k;
        do up <- uc_knot_at degree;
        do uk <- uc_knot_at k;
        do uj <- uc_knot_at (u32 (degree + j + 1));
        let alfa := ((up - uk) / (uj - uk))%R in
        do pj <- uc_point_at j;
        do pj1 <- uc_point_at (j + 1);
        uc_set_point j
          (XYZW_ops.divide (XYZW_ops.sub pj (XYZW_ops.scale alfa pj1)) (1 - alfa)%R) ;;
        uc_set_k (k - 1))
      (mkUnclampState (<[Z.to_nat (degree - i - 1) := (a - b)%R]> (uc_knotVector s))
         (uc_controlPoints s) (degree - 1))) as (s2 & E2 & HU2 & HP2 & _).
    { lia. }
    { uc_proj. rewrite size_insert. repeat split; auto. lia. }
    { intros j s' Hj (HU' & HP' & Hk').
      rewrite (rbind_Ok _ _ s' s' (uc_k s')) by reflexivity.
      rewrite (u32_small (degree + j + 1)) by lia.
      destruct (uc_knot_at_Ok s' degree ltac:(lia)) as (up & Eup).
      destruct (uc_knot_at_Ok s' (uc_k s') ltac:(lia)) as (uk & Euk).
      destruct (uc_knot_at_Ok s' (degree + j + 1) ltac:(lia)) as (uj & Euj).
      destruct (uc_point_at_Ok s' j ltac:(lia)) as (pj & Epj).
      destruct (uc_point_at_Ok s' (j + 1) ltac:(lia)) as (pj1 & Epj1).
      rewrite (rbind_Ok _ _ _ _ _ Eup), (rbind_Ok _ _ _ _ _ Euk), (rbind_Ok _ _ _ _ _ Euj).
      cbv zeta.
      rewrite (rbind_Ok _ _ _ _ _ Epj), (rbind_Ok _ _ _ _ _ Epj1).
      rewrite (rbind_Ok _ _ _ _ _ (uc_set_point_Ok s' j _ ltac:(lia))).
      eexists. split; [reflexivity|]. uc_proj. rewrite size_insert.
      repeat split; auto. lia. }
    exists s2. split; [exact E2 | split; assumption]. }
  rewrite (rbind_Ok _ _ _ _ _ E1).
  destruct (uc_knot_at_Ok s1 1 ltac:(lia)) as (u1 & Eu1).
  rewrite (rbind_Ok _ _ _ _ _ Eu1).
  rewrite (u32_small (size P - 1 + degree + 2)) by lia.
  exists (uc_knotVector s1), (uc_controlPoints s1).
  assert (Eout : uc_knot_at (size P - 1 + degree + 2) s1
                 = (s1, OutOfRange "knotVector" (size U) (length U))).
  { unfold uc_knot_at, read. rewrite at_out_of_range by lia.
    unfold size in *. do 2 f_equal; lia. }
  unfold rbind at 1. rewrite Eout. unfold size in *. repeat split; lia.
Qed.

Lemma ToUnclampCurve_reads_past_the_end_witness :
  exists U' P',
    ToUnclampCurve 2 ([0; 0; 0; 1; 1; 1]%R, [mkXYZW 0 0 0 1; mkXYZW 1 1 0 1; mkXYZW 2 0 0 1])
    = ((U', P'), OutOfRange "knotVector" 6 6) /\
    length U' = 6%nat /\ length P' = 3%nat.
Proof.
  apply (ToUnclampCurve_reads_past_the_end 2 [0; 0; 0; 1; 1; 1]%R
           [mkXYZW 0 0 0 1; mkXYZW 1 1 0 1; mkXYZW 2 0 0 1]).
  - lia.
  - reflexivity.
  - vm_compute. discriminate.
  - reflexivity.
Defined.
End UnclampFacts.

(** * The matrix templates of [MathUtils] *)

Module MathUtilsFacts.
Import MathUtils.
Local Open Scope Z_scope.

Lemma get_lookup {St A} name (v : list A) (i : Z) (x : A) (s : St) :
  0 <= i -> v !! Z.to_nat i = Some x -> get name v i s = (s, Ok x).
Proof.
  intros Hi Hx. unfold get, read, at_.
  destruct (Z.leb_spec 0 i); [|lia]. rewrite Hx. reflexivity.
Qed.

Lemma get_outside {St A} name (v : list A) (i : Z) (s : St) :
  size v <= i -> get (S := St) name v i s = (s, OutOfRange name i (length v)).
Proof.
  intros Hi. unfold get, read. rewrite at_out_of_range by lia. reflexivity.
Qed.

Lemma rbind_first {St A B} (c c' : Run St A) (k : A -> Run St B) s :
  c s = c' s -> rbind c k s = rbind c' k s.
Proof. intros H. unfold rbind. rewrite H. reflexivity. Qed.

(** A counting loop is its first turns followed by the others. *)
Lemma for_up_app {St} (body : Z -> Run St unit) n1 n2 : forall lo s,
  for_up (n1 + n2) lo body s = (for_up n1 lo body ;; for_up n2 (lo + Z.of_nat n1) body) s.
Proof.
  induction n1 as [|n1 IH]; intros lo s.
  - cbn [for_up Nat.add]. rewrite rbind_ret. f_equal. lia.
  - cbn [for_up Nat.add]. rewrite rbind_assoc. apply InsertFacts.rbind_ext.
    intros _ s'. rewrite IH.
    replace (lo + 1 + Z.of_nat n1) with (lo + Z.of_nat (S n1)) by lia. reflexivity.
Qed.

Lemma for_range_split {St} lo mid hi (body : Z -> Run St unit) s :
  lo <= mid <= hi + 1 ->
  for_range lo hi body s = (for_range lo (mid - 1) body ;; for_range mid hi body) s.
Proof.
  intros H. unfold for_range.
  replace (Z.to_nat (hi + 1 - lo))
    with (Z.to_nat (mid - 1 + 1 - lo) + Z.to_nat (hi + 1 - mid))%nat by lia.
  rewrite for_up_app.
  replace (lo + Z.of_nat (Z.to_nat (mid - 1 + 1 - lo))) with mid by lia. reflexivity.
Qed.

(** The column of index [i]. *)
Definition column {T} (matrix : list (list T)) (i : nat) : list T :=
  omap (fun row => row !! i) matrix.

Lemma column_cons {T} (row : list T) rows i x :
  row !! i = Some x -> column (row :: rows) i = x :: column rows i.
Proof. intros Hx. unfold column. cbn. rewrite Hx. reflexivity. Qed.

Lemma column_lookup {T} (matrix : list (list T)) (i j : nat) :
  Forall (fun row => (i < length row)%nat) matrix ->
  column matrix i !! j = matrix !! j ≫= (fun row => row !! i).
Proof.
  intros Hrows. revert j. induction Hrows as [|row rows Hrow Hrest IH]; intros j.
  - reflexivity.
  - assert (Hx : is_Some (row !! i)) by (apply lookup_lt_is_Some_2; lia).
    destruct Hx as [x Hx]. rewrite (column_cons _ _ _ _ Hx).
    destruct j as [|j]; cbn.
    + symmetry. exact Hx.
    + apply IH.
Qed.

Lemma column_length {T} (matrix : list (list T)) (i : nat) :
  Forall (fun row => (i < length row)%nat) matrix ->
  length (column matrix i) = length matrix.
Proof.
  intros Hrows. induction Hrows as [|row rows Hrow Hrest IH]; [reflexivity|].
  assert (Hx : is_Some (row !! i)) by (apply lookup_lt_is_Some_2; lia).
  destruct Hx as [x Hx]. rewrite (column_cons _ _ _ _ Hx). cbn. f_equal. exact IH.
Qed.

Lemma column_take {T} (matrix : list (list T)) (i j : nat) row x :
  matrix !! j = Some row -> row !! i = Some x ->
  column (take (S j) matrix) i = column (take j matrix) i ++ [x].
Proof.
  intros Hrow Hx. unfold column. rewrite (take_S_r _ _ _ Hrow), omap_app. cbn.
  rewrite Hx. reflexivity.
Qed.

Section Columns.
Context {T : Type}.
Variable matrix : list (list T).

(** The turn [j] of the inner loop, for the column [i]. *)
Definition push (i j : Z) : Run (TransposeState (T := T)) unit :=
  do row <- get "matrix" matrix j;
  do x <- get "matrix[j]" row i;
  modify (fun s => Ok (mkTransposeState (tr_transposed s) (tr_temp s ++ [x]))).

(** The turn [i] of the outer loop. *)
Definition turn (i : Z) : Run (TransposeState (T := T)) unit :=
  for_range 0 (size matrix - 1) (push i) ;;
  modify (fun s => Ok (mkTransposeState (tr_transposed s ++ [tr_temp s]) (tr_temp s))) ;;
  modify (fun s => Ok (mkTransposeState (tr_transposed s) [])).

Lemma Transpose_body_turns :
  Transpose_body matrix
  = (do row0 <- get "matrix" matrix 0; for_range 0 (size row0 - 1) turn).
Proof. reflexivity. Qed.

(** The first [n] rows pushed to [temp], when they have the index [i]. *)
Lemma push_rows (i : Z) (n : nat) tp :
  0 <= i -> (n <= length matrix)%nat ->
  Forall (fun row => i < size row) (take n matrix) ->
  for_range 0 (Z.of_nat n - 1) (push i) (mkTransposeState tp [])
  = (mkTransposeState tp (column (take n matrix) (Z.to_nat i)), Ok tt).
Proof.
  intros Hi Hn Hrows.
  destruct (InsertFacts.for_range_rule
    (fun j s => s = mkTransposeState tp (column (take (Z.to_nat j) matrix) (Z.to_nat i)))
    0 (Z.of_nat n - 1) (push i) (mkTransposeState tp [])) as (s' & E & H').
  - lia.
  - reflexivity.
  - intros j s Hj ->.
    destruct (lookup_lt_is_Some_2 matrix (Z.to_nat j) ltac:(lia)) as [row Hrow].
    assert (Hlen : i < size row).
    { apply (proj1 (Forall_lookup _ _) Hrows (Z.to_nat j)).
      rewrite lookup_take_lt by lia. exact Hrow. }
    unfold size in Hlen.
    destruct (lookup_lt_is_Some_2 row (Z.to_nat i) ltac:(lia)) as [x Hx].
    eexists. split.
    + unfold push.
      erewrite rbind_Ok by (apply get_lookup; [lia | exact Hrow]).
      erewrite rbind_Ok by (apply get_lookup; [lia | exact Hx]).
      reflexivity.
    + cbn [tr_transposed tr_temp]. f_equal.
      replace (Z.to_nat (j + 1)) with (S (Z.to_nat j)) by lia.
      symmetry. apply (column_take _ _ _ row); assumption.
  - rewrite E, H'. replace (Z.to_nat (Z.of_nat n - 1 + 1)) with n by lia. reflexivity.
Qed.

(** One turn of the outer loop appends the column of index [i]. *)
Lemma turn_column (i : Z) tp :
  0 <= i -> Forall (fun row => i < size row) matrix ->
  turn i (mkTransposeState tp [])
  = (mkTransposeState (tp ++ [column matrix (Z.to_nat i)]) [], Ok tt).
Proof.
  intros Hi Hrows. unfold turn, size.
  erewrite rbind_Ok.
  2:{ apply push_rows; [assumption | reflexivity | rewrite firstn_all; assumption]. }
  rewrite firstn_all. reflexivity.
Qed.

(** The columns of the indices below [n]. *)
Definition columns (n : nat) : list (list T) := map (column matrix) (seq 0 n).

(** The first [m] turns, on rows that have [m] elements at least. *)
Lemma turns_columns (m : nat) transposed :
  Forall (fun row => (m <= length row)%nat) matrix ->
  for_range 0 (Z.of_nat m - 1) turn (mkTransposeState transposed [])
  = (mkTransposeState (transposed ++ columns m) [], Ok tt).
Proof.
  intros Hrows.
  destruct (InsertFacts.for_range_rule
    (fun i s => s = mkTransposeState (transposed ++ columns (Z.to_nat i)) [])
    0 (Z.of_nat m - 1) turn (mkTransposeState transposed [])) as (s' & E & H').
  - lia.
  - unfold columns. cbn. rewrite app_nil_r. reflexivity.
  - intros i s Hi ->. eexists. split.
    + apply turn_column; [lia|]. eapply Forall_impl; [exact Hrows|].
      intros row Hrow. unfold size. cbn in Hrow. lia.
    + f_equal. replace (Z.to_nat (i + 1)) with (S (Z.to_nat i)) by lia.
      unfold columns. rewrite seq_S, map_app, app_assoc. reflexivity.
  - rewrite E, H'. replace (Z.to_nat (Z.of_nat m - 1 + 1)) with m by lia. reflexivity.
Qed.
End Columns.

(** On a matrix with at least one row and rows of one length [m],
    [Transpose] builds the [m] columns of the matrix behind the former
    content of its own copy of [transposed]: the entry [j] of the column [i]
    is the entry [i] of the row [j].  The copy is dropped at the return, and
    the vector of the caller is as it was. *)
Theorem Transpose_builds_and_drops {T} (matrix : list (list T)) (m : nat) transposed :
  matrix <> [] -> Forall (fun row => length row = m) matrix ->
  exists cols,
    Transpose_body matrix (mkTransposeState transposed [])
    = (mkTransposeState (transposed ++ cols) [], Ok tt) /\
    length cols = m /\
    (forall i j, (i < m)%nat -> cols !! i ≫= (fun col => col !! j)
                                 = matrix !! j ≫= (fun row => row !! i)) /\
    Transpose matrix transposed = (transposed, Ok tt).
Proof.
  intros Hne Hrows. exists (columns matrix m).
  assert (E : Transpose_body matrix (mkTransposeState transposed [])
              = (mkTransposeState (transposed ++ columns matrix m) [], Ok tt)).
  { rewrite Transpose_body_turns.
    assert (Hr0 : is_Some (matrix !! 0%nat)).
    { apply lookup_lt_is_Some_2. destruct matrix; [congruence | cbn; lia]. }
    destruct Hr0 as [row0 Hr0].
    erewrite rbind_Ok by (apply (get_lookup _ _ _ row0); [lia | exact Hr0]).
    assert (H0 : length row0 = m) by (apply (proj1 (Forall_lookup _ _) Hrows 0%nat), Hr0).
    unfold size at 1. rewrite H0. apply turns_columns.
    eapply Forall_impl; [exact Hrows|]. intros row Hrow. cbn in Hrow. lia. }
  split; [exact E|]. split; [|split].
  - unfold columns. rewrite length_map, length_seq. reflexivity.
  - intros i j Hi. unfold columns. rewrite list_lookup_fmap, lookup_seq_lt by assumption.
    cbn. apply column_lookup.
    eapply Forall_impl; [exact Hrows|]. intros row Hrow. cbn in Hrow. lia.
  - unfold Transpose. rewrite E. reflexivity.
Qed.

Lemma Transpose_builds_and_drops_witness :
  exists cols,
    Transpose_body [[1; 2; 3]; [4; 5; 6]] (mkTransposeState [] [])
    = (mkTransposeState ([] ++ cols) [], Ok tt) /\
    length cols = 3%nat /\
    Transpose [[1; 2; 3]; [4; 5; 6]] [] = ([], Ok tt).
Proof.
  destruct (Transpose_builds_and_drops [[1; 2; 3]; [4; 5; 6]] 3 [])
    as (cols & E & Hlen & _ & Hdrop).
  - discriminate.
  - repeat constructor.
  - exists cols. repeat split; assumption.
Defined.

(** [Transpose] has no check of the shape of the matrix.  On a matrix
    without rows it reads [matrix[0]].  On a matrix with a row that is
    shorter than the rows before it, and not longer than any row, it reads
    that row at the index of its length: the first columns are built, and
    the next one stops at the short row. *)
Theorem Transpose_ragged {T} (matrix : list (list T)) (J : nat) (short : list T) transposed :
  matrix !! J = Some short ->
  Forall (fun row => (length short <= length row)%nat) matrix ->
  Forall (fun row => (length short < length row)%nat) (take J matrix) ->
  (0 < J)%nat ->
  Transpose ([] : list (list T)) transposed = (transposed, OutOfRange "matrix" 0 0) /\
  Transpose matrix transposed
  = (transposed, OutOfRange "matrix[j]" (size short) (length short)).
Proof.
  intros HJ Hall Hbefore HJ0. split; [reflexivity|].
  set (m := length short).
  assert (HJlen : (J < length matrix)%nat) by (apply lookup_lt_Some in HJ; exact HJ).
  assert (Hr0 : is_Some (matrix !! 0%nat)) by (apply lookup_lt_is_Some_2; lia).
  destruct Hr0 as [row0 Hr0].
  assert (H0 : (m < length row0)%nat).
  { apply (proj1 (Forall_lookup _ _) Hbefore 0%nat).
    rewrite lookup_take_lt by lia. exact Hr0. }
  unfold Transpose. f_equal. rewrite Transpose_body_turns.
  erewrite rbind_Ok by (apply (get_lookup _ _ _ row0); [lia | exact Hr0]).
  cbv beta. rewrite (for_range_split 0 (Z.of_nat m)) by (unfold size; lia).
  erewrite rbind_Ok by (apply turns_columns; exact Hall).
  rewrite for_range_step by (unfold size; lia).
  unfold turn at 1. rewrite !rbind_assoc.
  rewrite (rbind_first _ _ _ _ (for_range_split 0 (Z.of_nat J) (size matrix - 1) _ _
             ltac:(unfold size; lia))).
  rewrite rbind_assoc.
  erewrite rbind_Ok.
  2:{ apply push_rows; [lia | lia |].
      eapply Forall_impl; [exact Hbefore|]. intros row Hrow. unfold size. cbn in Hrow.
      fold m in Hrow. lia. }
  rewrite for_range_step by (unfold size; lia).
  rewrite !rbind_assoc. unfold push at 1. rewrite !rbind_assoc.
  erewrite rbind_Ok by (apply get_lookup; [lia | rewrite Nat2Z.id; exact HJ]).
  rewrite !rbind_assoc. unfold rbind at 1.
  rewrite get_outside by (unfold size, m; lia). reflexivity.
Qed.

Lemma Transpose_ragged_witness :
  Transpose [[1; 2]; [3]] [] = ([], OutOfRange "matrix[j]" 1 1).
Proof.
  destruct (Transpose_ragged [[1; 2]; [3]] 1 [3] []) as (_ & H).
  - reflexivity.
  - repeat constructor.
  - repeat constructor.
  - lia.
  - exact H.
Defined.

(** [GetColumn] first resizes its copy of [columnData] to the number of
    rows and then appends the entries of the column: on an empty vector the
    copy ends with as many default values before the column.  The vector of
    the caller is as it was. *)
Theorem GetColumn_appends_after_resize {T} (T0 : T) (matrix : list (list T)) (m : nat)
    (columnIndex : Z) columnData :
  Forall (fun row => length row = m) matrix -> 0 <= columnIndex < Z.of_nat m ->
  GetColumn_body T0 matrix columnIndex columnData
  = (resize (length matrix) T0 columnData ++ column matrix (Z.to_nat columnIndex), Ok tt) /\
  length (resize (length matrix) T0 columnData ++ column matrix (Z.to_nat columnIndex))
  = (2 * length matrix)%nat /\
  GetColumn T0 matrix columnIndex columnData = (columnData, Ok tt).
Proof.
  intros Hrows Hc.
  assert (E : GetColumn_body T0 matrix columnIndex columnData
    = (resize (length matrix) T0 columnData ++ column matrix (Z.to_nat columnIndex), Ok tt)).
  { unfold GetColumn_body.
    assert (E1 : modify (vresize "columnData" T0 (size matrix)) columnData
                 = (resize (length matrix) T0 columnData, Ok tt)).
    { unfold modify, vresize, size. destruct (Z.leb_spec 0 (Z.of_nat (length matrix))); [|lia].
      rewrite Nat2Z.id. reflexivity. }
    rewrite (rbind_Ok _ _ _ _ _ E1).
    destruct (InsertFacts.for_range_rule
      (fun i s => s = resize (length matrix) T0 columnData
                      ++ column (take (Z.to_nat i) matrix) (Z.to_nat columnIndex))
      0 (size matrix - 1)
      (fun i => do row <- get "matrix" matrix i;
                do x <- get "matrix[i]" row columnIndex;
                modify (fun columnData => Ok (columnData ++ [x])))
      (resize (length matrix) T0 columnData)) as (s' & E & H').
    - unfold size. lia.
    - cbn. rewrite app_nil_r. reflexivity.
    - intros i s Hi ->. unfold size in Hi.
      destruct (lookup_lt_is_Some_2 matrix (Z.to_nat i) ltac:(lia)) as [row Hrow].
      assert (Hlen : length row = m).
      { apply (proj1 (Forall_lookup _ _) Hrows _ _ Hrow). }
      destruct (lookup_lt_is_Some_2 row (Z.to_nat columnIndex) ltac:(lia)) as [x Hx].
      eexists. split.
      + erewrite rbind_Ok by (apply get_lookup; [lia | exact Hrow]).
        erewrite rbind_Ok by (apply get_lookup; [lia | exact Hx]).
        reflexivity.
      + replace (Z.to_nat (i + 1)) with (S (Z.to_nat i)) by lia.
        rewrite (column_take matrix _ _ row x Hrow Hx), app_assoc. reflexivity.
    - rewrite E, H'. unfold size.
      replace (Z.to_nat (Z.of_nat (length matrix) - 1 + 1)) with (length matrix) by lia.
      rewrite firstn_all. reflexivity. }
  split; [exact E|]. split.
  - rewrite length_app, length_resize, column_length; [lia|].
    eapply Forall_impl; [exact Hrows|]. intros row Hrow. cbn in Hrow. lia.
  - unfold GetColumn. rewrite E. reflexivity.
Qed.

Lemma GetColumn_appends_after_resize_witness :
  GetColumn_body 0%R [[1; 2]; [3; 4]]%R 1 [] = ([0; 0; 2; 4]%R, Ok tt) /\
  GetColumn 0%R [[1; 2]; [3; 4]]%R 1 [] = ([], Ok tt).
Proof.
  destruct (GetColumn_appends_after_resize 0%R [[1; 2]; [3; 4]]%R 2 1 [])
    as (E & _ & Hdrop).
  - repeat constructor.
  - lia.
  - split; [exact E | exact Hdrop].
Defined.
End MathUtilsFacts.

(** * The vectors [UVW] *)

Module UVWFacts.
Import UVW.

(** The cross product is orthogonal to both operands, changes sign when the
    operands are swapped, and its squared length is
    [|a|^2 |b|^2 - (a . b)^2]. *)
Theorem CrossProduct_orthogonal a b :
  DotProduct (CrossProduct a b) a = 0 /\
  DotProduct (CrossProduct a b) b = 0 /\
  CrossProduct b a = neg (CrossProduct a b) /\
  SqrLength (CrossProduct a b) = SqrLength a * SqrLength b - DotProduct a b * DotProduct a b.
Proof.
  destruct a as [a0 a1 a2], b as [b0 b1 b2].
  unfold DotProduct, CrossProduct, SqrLength, neg; cbn [GetU GetV GetW].
  repeat split; try ring. f_equal; ring.
Qed.




End UVWFacts.

(** * The candidate of a Newton step *)

Module ParamDomainFacts.
Import NurbsCurve.


End ParamDomainFacts.

(** * The quotient rule of [ComputeRationalCurveDerivatives] *)

Module DerivativeFacts.
Import NurbsCurve.

(** The entry [i] of a vector of points, the zero vector outside. *)
Definition xyz (v : list XYZ) (i : Z) : XYZ := nth (Z.to_nat i) v XYZ_ops.zero.

(** [A - sum_{i = 1..n} Binomial(k, i) w_i D_{k-i}], the terms taken away in
    the order of the indices. *)
Fixpoint rational_rest (k : Z) (w : Z -> R) (D : Z -> XYZ) (n : nat) (A : XYZ) : XYZ :=
  match n with
  | O => A
  | S n' =>
      XYZ_ops.sub (rational_rest k w D n' A)
        (XYZ_ops.scale (Binomial k (Z.of_nat n) * w (Z.of_nat n)) (D (k - Z.of_nat n)%Z))
  end.

Lemma rational_rest_ext k w D D' n A :
  (forall i, (k - Z.of_nat n <= i < k)%Z -> D i = D' i) ->
  rational_rest k w D n A = rational_rest k w D' n A.
Proof.
  induction n as [|n IH]; intros H; cbn [rational_rest]; [reflexivity|].
  rewrite IH by (intros i Hi; apply H; lia). rewrite (H (k - Z.of_nat (S n))%Z) by lia.
  reflexivity.
Qed.

Section Derivatives.
Local Open Scope Z_scope.
Variable ComputeDerivatives : Z -> Z -> list R -> R -> list XYZW -> list XYZW.
Variables (degree derivative : Z) (knotVector : list R) (paramT : R)
          (controlPoints : list XYZW).

Local Abbreviation ders :=
  (ComputeDerivatives degree derivative knotVector paramT controlPoints).
Local Abbreviation A := (fun i => XYZW_ops.ToXYZ (pt ders i) false).
Local Abbreviation w := (fun i => XYZW_ops.GetW (pt ders i)).

Hypothesis Hderivative : 0 < derivative.
Hypothesis Hders : size ders = derivative + 1.

Ltac dv_proj := cbn [dv_derivatives dv_Aders dv_wders dv_v].

(** The statements that follow the checks. *)
Definition quotient_rule : Run DerivState (list XYZ) :=
  modify (fun s =>
    let* d := vresize "derivatives" XYZ_ops.zero (derivative + 1) [] in
    let* a := vresize "Aders" XYZ_ops.zero (derivative + 1) [] in
    let* w := vresize "wders" 0%R (derivative + 1) [] in
    Ok (mkDerivState d a w XYZ_ops.zero)) ;;
  for_below_size 0 ders (fun i =>
    do x <- get "ders" ders i;
    modify (fun s => let* a := put "Aders" (dv_Aders s) i (XYZW_ops.ToXYZ x false) in
                     Ok (mkDerivState (dv_derivatives s) a (dv_wders s) (dv_v s)))) ;;
  for_below_size 0 ders (fun i =>
    do x <- get "ders" ders i;
    modify (fun s => let* w := put "wders" (dv_wders s) i (XYZW_ops.GetW x) in
                     Ok (mkDerivState (dv_derivatives s) (dv_Aders s) w (dv_v s)))) ;;
  for_range 0 derivative (fun k =>
    do a <- read (fun s => at_ "Aders" (dv_Aders s) k);
    modify (fun s => Ok (mkDerivState (dv_derivatives s) (dv_Aders s) (dv_wders s) a)) ;;
    for_range 1 k (fun i =>
      do w <- read (fun s => at_ "wders" (dv_wders s) i);
      do d <- read (fun s => at_ "derivatives" (dv_derivatives s) (k - i));
      modify (fun s => Ok (mkDerivState (dv_derivatives s) (dv_Aders s) (dv_wders s)
                (XYZ_ops.sub (dv_v s) (XYZ_ops.scale (Binomial k i * w) d))))) ;;
    do w0 <- read (fun s => at_ "wders" (dv_wders s) 0);
    modify (fun s =>
      let* d := put "derivatives" (dv_derivatives s) k (XYZ_ops.divide (dv_v s) w0) in
      Ok (mkDerivState d (dv_Aders s) (dv_wders s) (dv_v s)))) ;;
  read (fun s => Ok (dv_derivatives s)).

(** What the loop over the orders has done before the order [k]. *)
Definition orders_done (k : Z) (s : DerivState) : Prop :=
  size (dv_derivatives s) = derivative + 1 /\
  size (dv_Aders s) = derivative + 1 /\
  size (dv_wders s) = derivative + 1 /\
  (forall i, 0 <= i <= derivative -> xyz (dv_Aders s) i = A i) /\
  (forall i, 0 <= i <= derivative -> knot (dv_wders s) i = w i) /\
  (forall j, 0 <= j < k ->
     xyz (dv_derivatives s) j
     = XYZ_ops.divide (rational_rest j w (xyz (dv_derivatives s)) (Z.to_nat j) (A j)) (w 0)).

Lemma quotient_rule_run s0 :
  exists s1, quotient_rule s0 = (s1, Ok (dv_derivatives s1)) /\
             orders_done (derivative + 1) s1.
Proof.
  unfold quotient_rule.
  (* the three vectors *)
  set (sa := mkDerivState (resize (Z.to_nat (derivative + 1)) XYZ_ops.zero [])
               (resize (Z.to_nat (derivative + 1)) XYZ_ops.zero [])
               (resize (Z.to_nat (derivative + 1)) 0%R []) XYZ_ops.zero).
  assert (Ea : modify (fun s =>
      let* d := vresize "derivatives" XYZ_ops.zero (derivative + 1) [] in
      let* a := vresize "Aders" XYZ_ops.zero (derivative + 1) [] in
      let* w := vresize "wders" 0%R (derivative + 1) [] in
      Ok (mkDerivState d a w XYZ_ops.zero)) s0 = (sa, Ok tt)).
  { unfold modify. rewrite !vresize_Ok by lia. reflexivity. }
  rewrite (rbind_Ok _ _ _ _ _ Ea). clear Ea.
  (* Aders *)
  destruct (InsertFacts.for_below_size_rule
    (fun i s => dv_derivatives s = dv_derivatives sa /\ dv_wders s = dv_wders sa /\
                size (dv_Aders s) = derivative + 1 /\
                forall i', 0 <= i' < i -> xyz (dv_Aders s) i' = A i')
    0 ders
    (fun i =>
      do x <- get "ders" ders i;
      modify (fun s => let* a := put "Aders" (dv_Aders s) i (XYZW_ops.ToXYZ x false) in
                       Ok (mkDerivState (dv_derivatives s) a (dv_wders s) (dv_v s))))
    sa) as (sb & Eb & Hb1 & Hb2 & Hb3 & Hb4).
  { unfold size. lia. }
  { unfold sa; dv_proj. rewrite size_resize. repeat split; auto; intros; lia. }
  { intros i s Hi (H1 & H2 & H3 & H4). eexists. split.
    - erewrite rbind_Ok by (apply (InsertFacts.get_nth XYZW_ops.zero); lia).
      unfold modify. rewrite put_Ok by lia. reflexivity.
    - dv_proj. rewrite size_insert. repeat split; auto.
      intros i' Hi'. unfold xyz. rewrite InsertFacts.nth_put by lia.
      destruct (Z.eqb_spec i' i) as [->|]; [reflexivity | apply H4; lia]. }
  rewrite (rbind_Ok _ _ _ _ _ Eb). clear Eb.
  (* wders *)
  destruct (InsertFacts.for_below_size_rule
    (fun i s => dv_derivatives s = dv_derivatives sa /\ dv_Aders s = dv_Aders sb /\
                size (dv_wders s) = derivative + 1 /\
                forall i', 0 <= i' < i -> knot (dv_wders s) i' = w i')
    0 ders
    (fun i =>
      do x <- get "ders" ders i;
      modify (fun s => let* w := put "wders" (dv_wders s) i (XYZW_ops.GetW x) in
                       Ok (mkDerivState (dv_derivatives s) (dv_Aders s) w (dv_v s))))
    sb) as (sc & Ec & Hc1 & Hc2 & Hc3 & Hc4).
  { unfold size. lia. }
  { rewrite Hb2. unfold sa; dv_proj. rewrite size_resize. repeat split; auto; intros; lia. }
  { intros i s Hi (H1 & H2 & H3 & H4). eexists. split.
    - erewrite rbind_Ok by (apply (InsertFacts.get_nth XYZW_ops.zero); lia).
      unfold modify. rewrite put_Ok by lia. reflexivity.
    - dv_proj. rewrite size_insert. repeat split; auto.
      intros i' Hi'. rewrite InsertFacts.knot_put by lia.
      destruct (Z.eqb_spec i' i) as [->|]; [reflexivity | apply H4; lia]. }
  rewrite (rbind_Ok _ _ _ _ _ Ec). clear Ec.
  (* the orders *)
  destruct (InsertFacts.for_range_rule orders_done 0 derivative
    (fun k =>
      do a <- read (fun s => at_ "Aders" (dv_Aders s) k);
      modify (fun s => Ok (mkDerivState (dv_derivatives s) (dv_Aders s) (dv_wders s) a)) ;;
      for_range 1 k (fun i =>
        do w <- read (fun s => at_ "wders" (dv_wders s) i);
        do d <- read (fun s => at_ "derivatives" (dv_derivatives s) (k - i));
        modify (fun s => Ok (mkDerivState (dv_derivatives s) (dv_Aders s) (dv_wders s)
                  (XYZ_ops.sub (dv_v s) (XYZ_ops.scale (Binomial k i * w) d))))) ;;
      do w0 <- read (fun s => at_ "wders" (dv_wders s) 0);
      modify (fun s =>
        let* d := put "derivatives" (dv_derivatives s) k (XYZ_ops.divide (dv_v s) w0) in
        Ok (mkDerivState d (dv_Aders s) (dv_wders s) (dv_v s))))
    sc) as (sd & Ed & Hd).
  { lia. }
  { unfold orders_done. rewrite Hc1, Hc2. unfold sa at 1; dv_proj. rewrite size_resize.
    repeat split; auto; try lia.
    - intros i Hi. apply Hb4. rewrite Hders. lia.
    - intros i Hi. apply Hc4. rewrite Hders. lia. }
  { intros k s Hk (F1 & F2 & F3 & F4 & F5 & F6).
    assert (Ea : read (fun s => at_ "Aders" (dv_Aders s) k) s = (s, Ok (A k))).
    { unfold read. rewrite (InsertFacts.at_nth XYZ_ops.zero) by lia.
      fold (xyz (dv_Aders s) k). rewrite F4 by lia. reflexivity. }
    rewrite (rbind_Ok _ _ _ _ _ Ea). clear Ea.
    set (s1 := mkDerivState (dv_derivatives s) (dv_Aders s) (dv_wders s) (A k)).
    rewrite (rbind_Ok _ _ s s1 tt) by reflexivity.
    destruct (InsertFacts.for_range_rule
      (fun i s' => dv_derivatives s' = dv_derivatives s /\ dv_Aders s' = dv_Aders s /\
                   dv_wders s' = dv_wders s /\
                   dv_v s' = rational_rest k w (xyz (dv_derivatives s))
                               (Z.to_nat (i - 1)) (A k))
      1 k
      (fun i =>
        do w <- read (fun s => at_ "wders" (dv_wders s) i);
        do d <- read (fun s => at_ "derivatives" (dv_derivatives s) (k - i));
        modify (fun s => Ok (mkDerivState (dv_derivatives s) (dv_Aders s) (dv_wders s)
                  (XYZ_ops.sub (dv_v s) (XYZ_ops.scale (Binomial k i * w) d)))))
      s1) as (s2 & E2 & G1 & G2 & G3 & G4).
    { lia. }
    { unfold s1; dv_proj. repeat split; auto. }
    { intros i s' Hi (G1 & G2 & G3 & G4). eexists. split.
      - assert (Ew : read (fun s => at_ "wders" (dv_wders s) i) s' = (s', Ok (w i))).
        { unfold read. rewrite G3. rewrite (InsertFacts.at_nth 0%R) by lia.
          fold (knot (dv_wders s) i). rewrite F5 by lia. reflexivity. }
        rewrite (rbind_Ok _ _ _ _ _ Ew).
        assert (Edv : read (fun s => at_ "derivatives" (dv_derivatives s) (k - i)) s'
                      = (s', Ok (xyz (dv_derivatives s) (k - i)))).
        { unfold read. rewrite G1. rewrite (InsertFacts.at_nth XYZ_ops.zero) by lia.
          reflexivity. }
        rewrite (rbind_Ok _ _ _ _ _ Edv). reflexivity.
      - dv_proj. repeat split; auto. rewrite G4.
        replace (Z.to_nat (i + 1 - 1)) with (S (Z.to_nat (i - 1))) by lia.
        cbn [rational_rest].
        replace (Z.of_nat (S (Z.to_nat (i - 1)))) with i by lia. reflexivity. }
    rewrite (rbind_Ok _ _ _ _ _ E2). clear E2.
    assert (Ew0 : read (fun s => at_ "wders" (dv_wders s) 0) s2 = (s2, Ok (w 0))).
    { unfold read. rewrite G3. rewrite (InsertFacts.at_nth 0%R) by lia.
      fold (knot (dv_wders s) 0). rewrite F5 by lia. reflexivity. }
    rewrite (rbind_Ok _ _ _ _ _ Ew0). clear Ew0.
    eexists. split.
    - unfold modify. rewrite put_Ok by (rewrite G1; lia). reflexivity.
    - unfold orders_done; dv_proj. rewrite G1, G2, G3, G4, size_insert.
      replace (Z.to_nat (k + 1 - 1)) with (Z.to_nat k) by lia.
      repeat split; auto.
      intros j Hj. unfold xyz at 1. rewrite InsertFacts.nth_put by lia.
      destruct (Z.eqb_spec j k) as [->|Hne].
      + f_equal. apply rational_rest_ext. intros i Hi. unfold xyz.
        rewrite InsertFacts.nth_put by lia.
        destruct (Z.eqb_spec i k); [lia | reflexivity].
      + fold (xyz (dv_derivatives s) j). rewrite F6 by lia. f_equal.
        apply rational_rest_ext. intros i Hi. unfold xyz.
        rewrite InsertFacts.nth_put by lia.
        destruct (Z.eqb_spec i k); [lia | reflexivity]. }
  rewrite (rbind_Ok _ _ _ _ _ Ed). exists sd. split; [reflexivity | exact Hd].
Qed.
End Derivatives.

(** On a checked curve, for an order of at least one and a parameter in
    [[U[0], U[m]]], when [ComputeDerivatives] gives [derivative + 1]
    weighted derivatives [(A_k, w_k)], [ComputeRationalCurveDerivatives]
    returns [derivative + 1] vectors that satisfy the quotient rule
    [D_k = (A_k - sum_{i = 1..k} Binomial(k, i) w_i D_{k-i}) / w_0]; the
    first one is [A_0 / w_0]. *)
Theorem ComputeRationalCurveDerivatives_quotient_rule
    (ComputeDerivatives : Z -> Z -> list R -> R -> list XYZW -> list XYZW)
    (degree derivative : Z) (U : list R) (t : R) (P : list XYZW) :
  (0 < degree)%Z -> (0 < derivative)%Z ->
  ValidationUtils.IsValidKnotVector U = true ->
  (0 < size P)%Z -> size U = (size P + degree + 1)%Z ->
  knot U 0 <= t <= knot U (size U - 1) ->
  size (ComputeDerivatives degree derivative U t P) = (derivative + 1)%Z ->
  let A := fun i => XYZW_ops.ToXYZ (pt (ComputeDerivatives degree derivative U t P) i) false in
  let w := fun i => XYZW_ops.GetW (pt (ComputeDerivatives degree derivative U t P) i) in
  exists D,
    ComputeRationalCurveDerivatives ComputeDerivatives degree derivative U t P = Ok D /\
    size D = (derivative + 1)%Z /\
    xyz D 0 = XYZ_ops.divide (A 0%Z) (w 0%Z) /\
    forall k, (0 <= k <= derivative)%Z ->
      xyz D k = XYZ_ops.divide (rational_rest k w (xyz D) (Z.to_nat k) (A k)) (w 0%Z).
Proof.
  intros Hd Hder Hv HP Hsz Ht Hders A w.
  destruct (quotient_rule_run ComputeDerivatives degree derivative U t P Hder Hders
              (mkDerivState [] [] [] XYZ_ops.zero)) as (s1 & E & F1 & _ & _ & _ & _ & F6).
  exists (dv_derivatives s1).
  assert (Erun : ComputeRationalCurveDerivatives ComputeDerivatives degree derivative U t P
                 = Ok (dv_derivatives s1)).
  { unfold ComputeRationalCurveDerivatives.
    assert (E1 : (0 <? degree)%Z = true) by (apply Z.ltb_lt; lia).
    assert (E2 : (0 <? size U)%Z = true) by (apply Z.ltb_lt; lia).
    assert (E3 : (0 <? size P)%Z = true) by (apply Z.ltb_lt; lia).
    assert (E4 : ValidationUtils.IsValidNurbs degree (size U) (size P) = true).
    { unfold ValidationUtils.IsValidNurbs. apply Z.eqb_eq. lia. }
    assert (E5 : (0 <? derivative)%Z = true) by (apply Z.ltb_lt; lia).
    rewrite E1, E2, E3, E4, E5, Hv.
    rewrite !ValidationFacts.rbind_validate.
    rewrite ValidationFacts.rbind_range by assumption.
    rewrite !Rleb_true by lra. cbn [andb].
    rewrite !ValidationFacts.rbind_validate. cbv zeta.
    change (snd (quotient_rule ComputeDerivatives degree derivative U t P
                   (mkDerivState [] [] [] XYZ_ops.zero)) = Ok (dv_derivatives s1)).
    rewrite E. reflexivity. }
  split; [exact Erun|]. split; [exact F1|]. split.
  - rewrite (F6 0%Z) by lia. reflexivity.
  - intros k Hk. apply F6. lia.
Qed.

Lemma ComputeRationalCurveDerivatives_quotient_rule_witness :
  exists D,
    ComputeRationalCurveDerivatives
      (fun _ _ _ _ _ => [mkXYZW 2 4 6 2; mkXYZW 1 0 0 1])
      1 1 [0; 0; 1; 1] (1 / 2) [mkXYZW 0 0 0 1; mkXYZW 1 0 0 1] = Ok D /\
    xyz D 0 = mkXYZ (2 / 2) (4 / 2) (6 / 2).
Proof.
  destruct (ComputeRationalCurveDerivatives_quotient_rule
              (fun _ _ _ _ _ => [mkXYZW 2 4 6 2; mkXYZW 1 0 0 1])
              1 1 [0; 0; 1; 1] (1 / 2) [mkXYZW 0 0 0 1; mkXYZW 1 0 0 1])
    as (D & E & _ & H0 & _).
  - lia.
  - lia.
  - cbn [ValidationUtils.IsValidKnotVector]. decide_R. reflexivity.
  - reflexivity.
  - reflexivity.
  - change (knot [0; 0; 1; 1] 0) with 0. change (knot [0; 0; 1; 1] _) with 1. lra.
  - reflexivity.
  - exists D. split; [exact E | exact H0].
Defined.
End DerivativeFacts.

(** * [RefineKnotVector] returns *)

Module RefineFacts.
Import NurbsCurve.
Local Open Scope Z_scope.

(** The rule of [while]: an invariant that the body keeps and a measure that
    it decreases, with enough tests at hand, give a loop that returns on a
    state where the test fails. *)
Lemma while_rule {St} (I : St -> Prop) (measure : St -> nat)
    (cond : St -> Outcome bool) (body : Run St unit) :
  (forall s, I s -> exists c, cond s = Ok c /\
     (c = true -> exists s', body s = (s', Ok tt) /\ I s' /\ (measure s' < measure s)%nat)) ->
  forall fuel s, I s -> (measure s < fuel)%nat ->
  exists s', while fuel cond body s = (s', Ok tt) /\ I s' /\ cond s' = Ok false.
Proof.
  intros Hstep. induction fuel as [|fuel IH]; intros s Hs Hm; [lia|].
  destruct (Hstep s Hs) as (c & Ec & Hc). destruct c.
  - destruct (Hc eq_refl) as (s1 & Eb & H1 & Hm1).
    destruct (IH s1 H1 ltac:(lia)) as (s2 & E2 & H2 & C2).
    exists s2. rewrite while_true by assumption. rewrite (rbind_Ok _ _ _ _ _ Eb). auto.
  - exists s. rewrite while_false by assumption. auto.
Qed.

Ltac rf_proj := cbn [rf_knots rf_points rf_i rf_k].

Section Steps.
Variable s : RefineState.

Lemma rf_set_knots_put name i x :
  0 <= i < size (rf_knots s) ->
  rf_set_knots (fun v => put name v i x) s
  = (mkRefineState (<[Z.to_nat i := x]> (rf_knots s)) (rf_points s) (rf_i s) (rf_k s), Ok tt).
Proof. intros Hi. unfold rf_set_knots, modify. rewrite put_Ok by assumption. reflexivity. Qed.

Lemma rf_set_points_put name i x :
  0 <= i < size (rf_points s) ->
  rf_set_points (fun v => put name v i x) s
  = (mkRefineState (rf_knots s) (<[Z.to_nat i := x]> (rf_points s)) (rf_i s) (rf_k s), Ok tt).
Proof. intros Hi. unfold rf_set_points, modify. rewrite put_Ok by assumption. reflexivity. Qed.

Lemma rf_knot_at_Ok i :
  0 <= i < size (rf_knots s) -> rf_knot_at i s = (s, Ok (knot (rf_knots s) i)).
Proof.
  intros Hi. unfold rf_knot_at, read. rewrite (InsertFacts.at_nth 0%R) by assumption.
  reflexivity.
Qed.

Lemma rf_point_at_Ok i :
  0 <= i < size (rf_points s) -> rf_point_at i s = (s, Ok (pt (rf_points s) i)).
Proof.
  intros Hi. unfold rf_point_at, read.
  rewrite (InsertFacts.at_nth XYZW_ops.zero) by assumption. reflexivity.
Qed.
End Steps.

Section RefineRun.
Variables (degree : Z) (knotVector : list R) (controlPoints : list XYZW)
          (insertKnotElements : list R).

Local Abbreviation n := (size controlPoints - 1).
Local Abbreviation m := (size controlPoints - 1 + degree + 1).
Local Abbreviation r := (size insertKnotElements - 1).
Local Abbreviation a :=
  (Polynomials.GetKnotSpanIndex degree knotVector (knot insertKnotElements 0)).
Local Abbreviation b :=
  (Polynomials.GetKnotSpanIndex degree knotVector
     (knot insertKnotElements (size insertKnotElements - 1)) + 1).

Hypothesis Hdegree : 0 < degree.
Hypothesis Hvalid : ValidationUtils.IsValidKnotVector knotVector = true.
Hypothesis Hsize : size knotVector = size controlPoints + degree + 1.
Hypothesis HX : 0 < size insertKnotElements.
Hypothesis Hfirst : (knot knotVector degree <= knot insertKnotElements 0)%R.
Hypothesis Horder :
  (knot insertKnotElements 0 <= knot insertKnotElements (size insertKnotElements - 1))%R.
Hypothesis Hlast :
  (knot insertKnotElements (size insertKnotElements - 1)
   < knot knotVector (size controlPoints))%R.

Lemma spans :
  degree <= n /\ degree <= a /\ a < b /\ b <= n + 1 /\
  (forall i, b <= i <= m ->
     (knot insertKnotElements (size insertKnotElements - 1) < knot knotVector i)%R).
Proof.
  pose proof (IsValidKnotVector_mono knotVector Hvalid) as Hmono.
  assert (HP0 : 0 <= size controlPoints) by (unfold size; lia).
  assert (Hn : degree <= n).
  { destruct (Z_lt_le_dec n degree) as [H|H]; [exfalso | assumption].
    pose proof (Hmono (size controlPoints) degree ltac:(lia) ltac:(lia) ltac:(lia)). lra. }
  pose proof (GetKnotSpanIndex_domain degree knotVector (knot insertKnotElements 0)) as Ha.
  cbv zeta in Ha. replace (size knotVector - degree - 2 + 1) with (size controlPoints) in Ha by lia.
  specialize (Ha ltac:(lia) ltac:(lra)). destruct Ha as (Ha1 & Ha2).
  pose proof (GetKnotSpanIndex_domain degree knotVector
                (knot insertKnotElements (size insertKnotElements - 1))) as Hb.
  cbv zeta in Hb. replace (size knotVector - degree - 2 + 1) with (size controlPoints) in Hb by lia.
  specialize (Hb ltac:(lia) ltac:(lra)). destruct Hb as (Hb1 & Hb2).
  split; [exact Hn|]. split; [lia|]. split; [|split; [lia|]].
  - destruct (Z_lt_le_dec a b) as [H|H]; [assumption | exfalso].
    pose proof (Hmono b a ltac:(lia) ltac:(lia) ltac:(lia)). lra.
  - intros i Hi. pose proof (Hmono b i ltac:(lia) ltac:(lia) ltac:(lia)). lra.
Qed.

(** The knots up to the span of the first element, and those from the index
    [b + degree] on (moved up by the number of elements), are those of the
    curve. *)
Definition knots_kept (v : list R) : Prop :=
  (forall j, 0 <= j <= a -> knot v j = knot knotVector j) /\
  (forall j, b + degree <= j <= m -> knot v (j + r + 1) = knot knotVector j).

Lemma knots_kept_put v k x :
  knots_kept v -> a < k <= b + degree + r -> k < size v ->
  knots_kept (<[Z.to_nat k := x]> v).
Proof.
  destruct spans as (Hn & Ha & Hab & Hb & Habove).
  intros (H1 & H2) Hk Hsz. split; intros j Hj.
  - rewrite InsertFacts.knot_put by lia. InsertFacts.decide_index. apply H1. lia.
  - rewrite InsertFacts.knot_put by lia. InsertFacts.decide_index. apply H2. lia.
Qed.

(** The turn [j] of the last loop of [RefineKnotVector]. *)
Definition refine_turn (j : Z) : Run RefineState unit :=
  do xj <- get "insertKnotElements" insertKnotElements j;
  do i0 <- rf_get_i;
  while (Z.to_nat (i0 - a) + 1)
    (fun s => let* ui := at_ "knotVector" knotVector (rf_i s) in
              Ok (Rleb xj ui && (a <? rf_i s)%Z))
    (do i <- rf_get_i;
     do k <- rf_get_k;
     do x <- get "controlPoints" controlPoints (i - degree - 1);
     rf_set_points (fun v => put "updatedControlPoints" v (k - degree - 1) x) ;;
     do u <- get "knotVector" knotVector i;
     rf_set_knots (fun v => put "insertedKnotVector" v k u) ;;
     rf_set_ik (i - 1) (k - 1)) ;;
  do i <- rf_get_i;
  do k <- rf_get_k;
  do x <- rf_point_at (k - degree);
  rf_set_points (fun v => put "updatedControlPoints" v (k - degree - 1) x) ;;
  for_range 1 degree (fun l =>
    let ind := (k - degree + l)%Z in
    do ukl <- rf_knot_at (k + l);
    let alpha := (ukl - xj)%R in
    if IsAlmostEqualTo (Rabs alpha) 0
    then
      do x <- rf_point_at ind;
      rf_set_points (fun v => put "updatedControlPoints" v (ind - 1) x)
    else
      do ukl' <- rf_knot_at (k + l);
      do u <- get "knotVector" knotVector (i - degree + l);
      let alpha := (alpha / (ukl' - u))%R in
      do x1 <- rf_point_at (ind - 1);
      do x2 <- rf_point_at ind;
      rf_set_points (fun v => put "updatedControlPoints" v (ind - 1)
        (XYZW_ops.add (XYZW_ops.scale alpha x1) (XYZW_ops.scale (1 - alpha)%R x2)))) ;;
  rf_set_knots (fun v => put "insertedKnotVector" v k xj) ;;
  rf_set_ik i (k - 1).

(** The state before the turn [j]. *)
Definition turns_left (j : Z) (s : RefineState) : Prop :=
  size (rf_knots s) = m + r + 2 /\ size (rf_points s) = n + r + 2 /\
  rf_k s = rf_i s + j + 1 /\ a <= rf_i s <= b + degree - 1 /\
  (j < r -> rf_i s <= b - 1) /\ knots_kept (rf_knots s).

Lemma refine_turn_spec j s :
  0 <= j <= r -> turns_left j s ->
  exists s', refine_turn j s = (s', Ok tt) /\ turns_left (j - 1) s'.
Proof.
  intros Hj (HK & HPt & Hk & Hi & Hib & Hkept).
  destruct spans as (Hn & Ha & Hab & Hb & Habove).
  unfold refine_turn.
  erewrite rbind_Ok by (apply (InsertFacts.get_nth 0%R); lia).
  rewrite (rbind_Ok _ _ s s (rf_i s)) by reflexivity.
  set (xj := nth (Z.to_nat j) insertKnotElements 0%R).
  (* the while loop *)
  destruct (while_rule
    (fun s' => size (rf_knots s') = m + r + 2 /\ size (rf_points s') = n + r + 2 /\
               rf_k s' = rf_i s' + j + 1 /\ a <= rf_i s' <= rf_i s /\
               knots_kept (rf_knots s'))
    (fun s' => Z.to_nat (rf_i s' - a))
    (fun s => let* ui := at_ "knotVector" knotVector (rf_i s) in
              Ok (Rleb xj ui && (a <? rf_i s)%Z))
    (do i <- rf_get_i;
     do k <- rf_get_k;
     do x <- get "controlPoints" controlPoints (i - degree - 1);
     rf_set_points (fun v => put "updatedControlPoints" v (k - degree - 1) x) ;;
     do u <- get "knotVector" knotVector i;
     rf_set_knots (fun v => put "insertedKnotVector" v k u) ;;
     rf_set_ik (i - 1) (k - 1))) with (fuel := (Z.to_nat (rf_i s - a) + 1)%nat) (s := s)
    as (s1 & E1 & (HK1 & HP1 & Hk1 & Hi1 & Hkept1) & C1).
  { intros s' (HK' & HP' & Hk' & Hi' & Hkept').
    rewrite (InsertFacts.at_nth 0%R) by lia. cbn [bind].
    eexists. split; [reflexivity|]. intros Hc.
    apply andb_true_iff in Hc. destruct Hc as (_ & Hc). apply Z.ltb_lt in Hc.
    rewrite (rbind_Ok _ _ s' s' (rf_i s')) by reflexivity.
    rewrite (rbind_Ok _ _ s' s' (rf_k s')) by reflexivity.
    erewrite rbind_Ok by (apply (InsertFacts.get_nth XYZW_ops.zero); lia).
    erewrite rbind_Ok by (apply rf_set_points_put; lia).
    erewrite rbind_Ok by (apply (InsertFacts.get_nth 0%R); rf_proj; lia).
    erewrite rbind_Ok by (apply rf_set_knots_put; rf_proj; lia).
    eexists. split; [reflexivity|]. rf_proj. rewrite !size_insert.
    split; [|lia].
    split; [assumption|]. split; [assumption|]. split; [lia|]. split; [lia|].
    apply knots_kept_put; [assumption | lia | lia]. }
  { split; [assumption|]. split; [assumption|]. split; [assumption|]. split; [lia|].
    assumption. }
  { lia. }
  rewrite (rbind_Ok _ _ _ _ _ E1). clear E1.
  (* after the loop the index is below b *)
  assert (Hi1b : rf_i s1 <= b - 1).
  { destruct (Z_le_gt_dec (rf_i s1) (b - 1)) as [H|H]; [assumption | exfalso].
    assert (Hjr : j = r) by (destruct (Z.eq_dec j r); [assumption | lia]).
    rewrite (InsertFacts.at_nth 0%R) in C1 by lia. cbn [bind] in C1.
    injection C1 as C1. apply andb_false_iff in C1. destruct C1 as [C1|C1].
    - specialize (Habove (rf_i s1) ltac:(lia)). unfold xj in C1. rewrite Hjr in C1.
      fold (knot knotVector (rf_i s1)) in C1.
      fold (knot insertKnotElements (size insertKnotElements - 1)) in C1.
      rewrite Rleb_true in C1 by lra. discriminate.
    - apply Z.ltb_ge in C1. lia. }
  clear C1.
  rewrite (rbind_Ok _ _ s1 s1 (rf_i s1)) by reflexivity.
  rewrite (rbind_Ok _ _ s1 s1 (rf_k s1)) by reflexivity.
  erewrite rbind_Ok by (apply rf_point_at_Ok; lia).
  erewrite rbind_Ok by (apply rf_set_points_put; lia).
  match goal with |- context [rbind (for_range 1 degree ?body) _ ?s2] =>
    destruct (InsertFacts.for_range_rule
      (fun _ s' => rf_knots s' = rf_knots s1 /\ size (rf_points s') = n + r + 2 /\
                   rf_i s' = rf_i s1 /\ rf_k s' = rf_k s1)
      1 degree body s2) as (s3 & E3 & HK3 & HP3 & Hi3 & Hk3)
  end.
  { lia. }
  { rf_proj. rewrite size_insert. auto. }
  { intros l s' Hl (HK' & HP' & Hi' & Hk'). cbv zeta.
    erewrite rbind_Ok by (apply rf_knot_at_Ok; rewrite HK'; lia).
    destruct (IsAlmostEqualTo _ 0).
    - erewrite rbind_Ok by (apply rf_point_at_Ok; lia).
      eexists. split; [apply rf_set_points_put; lia|].
      rf_proj. rewrite size_insert. auto.
    - erewrite rbind_Ok by (apply rf_knot_at_Ok; rewrite HK'; lia).
      erewrite rbind_Ok by (apply (InsertFacts.get_nth 0%R); lia).
      erewrite rbind_Ok by (apply rf_point_at_Ok; lia).
      erewrite rbind_Ok by (apply rf_point_at_Ok; lia).
      eexists. split; [apply rf_set_points_put; lia|].
      rf_proj. rewrite size_insert. auto. }
  rewrite (rbind_Ok _ _ _ _ _ E3). clear E3.
  erewrite rbind_Ok by (apply rf_set_knots_put; rewrite HK3; lia).
  eexists. split; [reflexivity|].
  unfold turns_left; rf_proj. rewrite size_insert, HK3.
  split; [assumption|]. split; [assumption|]. split; [lia|]. split; [lia|].
  split; [lia|]. apply knots_kept_put; [assumption | lia | lia].
Qed.

Lemma RefineKnotVector_body_turns :
  RefineKnotVector_body degree knotVector controlPoints insertKnotElements
  = (do x0 <- get "insertKnotElements" insertKnotElements 0;
     do xr <- get "insertKnotElements" insertKnotElements r;
     let a := Polynomials.GetKnotSpanIndex degree knotVector x0 in
     let b := (Polynomials.GetKnotSpanIndex degree knotVector xr + 1)%Z in
     rf_set_knots (vresize "insertedKnotVector" 0%R (m + r + 2)) ;;
     for_range 0 a (fun j =>
       do x <- get "knotVector" knotVector j;
       rf_set_knots (fun v => put "insertedKnotVector" v j x)) ;;
     for_range (b + degree) m (fun j =>
       do x <- get "knotVector" knotVector j;
       rf_set_knots (fun v => put "insertedKnotVector" v (j + r + 1) x)) ;;
     rf_set_points (vresize "updatedControlPoints" XYZW_ops.zero (n + r + 2)) ;;
     for_range 0 (a - degree) (fun j =>
       do x <- get "controlPoints" controlPoints j;
       rf_set_points (fun v => put "updatedControlPoints" v j x)) ;;
     for_range (b - 1) n (fun j =>
       do x <- get "controlPoints" controlPoints j;
       rf_set_points (fun v => put "updatedControlPoints" v (j + r + 1) x)) ;;
     rf_set_ik (b + degree - 1) (b + degree + r) ;;
     for_down r 0 (fun j =>
       do xj <- get "insertKnotElements" insertKnotElements j;
       do i0 <- rf_get_i;
       while (Z.to_nat (i0 - a) + 1)
         (fun s => let* ui := at_ "knotVector" knotVector (rf_i s) in
                   Ok (Rleb xj ui && (a <? rf_i s)%Z))
         (do i <- rf_get_i;
          do k <- rf_get_k;
          do x <- get "controlPoints" controlPoints (i - degree - 1);
          rf_set_points (fun v => put "updatedControlPoints" v (k - degree - 1) x) ;;
          do u <- get "knotVector" knotVector i;
          rf_set_knots (fun v => put "insertedKnotVector" v k u) ;;
          rf_set_ik (i - 1) (k - 1)) ;;
       do i <- rf_get_i;
       do k <- rf_get_k;
       do x <- rf_point_at (k - degree);
       rf_set_points (fun v => put "updatedControlPoints" v (k - degree - 1) x) ;;
       for_range 1 degree (fun l =>
         let ind := (k - degree + l)%Z in
         do ukl <- rf_knot_at (k + l);
         let alpha := (ukl - xj)%R in
         if IsAlmostEqualTo (Rabs alpha) 0
         then
           do x <- rf_point_at ind;
           rf_set_points (fun v => put "updatedControlPoints" v (ind - 1) x)
         else
           do ukl' <- rf_knot_at (k + l);
           do u <- get "knotVector" knotVector (i - degree + l);
           let alpha := (alpha / (ukl' - u))%R in
           do x1 <- rf_point_at (ind - 1);
           do x2 <- rf_point_at ind;
           rf_set_points (fun v => put "updatedControlPoints" v (ind - 1)
             (XYZW_ops.add (XYZW_ops.scale alpha x1) (XYZW_ops.scale (1 - alpha)%R x2)))) ;;
       rf_set_knots (fun v => put "insertedKnotVector" v k xj) ;;
       rf_set_ik i (k - 1))).
Proof. reflexivity. Qed.

Lemma RefineKnotVector_body_run s0 :
  exists s1,
    RefineKnotVector_body degree knotVector controlPoints insertKnotElements s0 = (s1, Ok tt) /\
    size (rf_knots s1) = size knotVector + size insertKnotElements /\
    size (rf_points s1) = size controlPoints + size insertKnotElements /\
    knots_kept (rf_knots s1).
Proof.
  destruct spans as (Hn & Ha & Hab & Hb & Habove).
  rewrite RefineKnotVector_body_turns.
  erewrite rbind_Ok by (apply (InsertFacts.get_nth 0%R); lia).
  erewrite rbind_Ok by (apply (InsertFacts.get_nth 0%R); lia).
  fold (knot insertKnotElements 0). fold (knot insertKnotElements (size insertKnotElements - 1)).
  cbv zeta.
  (* the knots *)
  assert (E1 : rf_set_knots (vresize "insertedKnotVector" 0%R (m + r + 2)) s0
               = (mkRefineState (resize (Z.to_nat (m + r + 2)) 0%R (rf_knots s0))
                    (rf_points s0) (rf_i s0) (rf_k s0), Ok tt)).
  { unfold rf_set_knots, modify. rewrite vresize_Ok by lia. reflexivity. }
  rewrite (rbind_Ok _ _ _ _ _ E1). clear E1.
  match goal with |- context [rbind (for_range 0 a ?body) _ ?s] =>
    destruct (InsertFacts.for_range_rule
      (fun j s' => size (rf_knots s') = m + r + 2 /\
                   forall j', 0 <= j' < j -> knot (rf_knots s') j' = knot knotVector j')
      0 a body s) as (s2 & E2 & HK2 & Hlow2)
  end.
  { lia. }
  { rf_proj. rewrite size_resize. split; [lia | intros; lia]. }
  { intros j s' Hj (HK' & Hlow').
    erewrite rbind_Ok by (apply (InsertFacts.get_nth 0%R); lia).
    eexists. split; [apply rf_set_knots_put; lia|]. rf_proj. rewrite size_insert.
    split; [assumption|]. intros j' Hj'. rewrite InsertFacts.knot_put by lia.
    destruct (Z.eqb_spec j' j) as [->|]; [reflexivity | apply Hlow'; lia]. }
  rewrite (rbind_Ok _ _ _ _ _ E2). clear E2.
  match goal with |- context [rbind (for_range (b + degree) m ?body) _ ?s] =>
    destruct (InsertFacts.for_range_rule
      (fun j s' => size (rf_knots s') = m + r + 2 /\
                   (forall j', 0 <= j' <= a -> knot (rf_knots s') j' = knot knotVector j') /\
                   forall j', b + degree <= j' < j ->
                     knot (rf_knots s') (j' + r + 1) = knot knotVector j')
      (b + degree) m body s) as (s3 & E3 & HK3 & Hlow3 & Hhigh3)
  end.
  { lia. }
  { split; [assumption|]. split; [intros; apply Hlow2; lia | intros; lia]. }
  { intros j s' Hj (HK' & Hlow' & Hhigh').
    erewrite rbind_Ok by (apply (InsertFacts.get_nth 0%R); lia).
    eexists. split; [apply rf_set_knots_put; lia|]. rf_proj. rewrite size_insert.
    split; [assumption|]. split; intros j' Hj'; rewrite InsertFacts.knot_put by lia.
    - InsertFacts.decide_index. apply Hlow'. lia.
    - destruct (Z.eqb_spec (j' + r + 1) (j + r + 1)) as [E|];
        [replace j' with j by lia; reflexivity | apply Hhigh'; lia]. }
  assert (Hkept3 : knots_kept (rf_knots s3)).
  { split; [exact Hlow3 | intros; apply Hhigh3; lia]. }
  rewrite (rbind_Ok _ _ _ _ _ E3). clear E3.
  (* the control points *)
  assert (E4 : rf_set_points (vresize "updatedControlPoints" XYZW_ops.zero (n + r + 2)) s3
               = (mkRefineState (rf_knots s3)
                    (resize (Z.to_nat (n + r + 2)) XYZW_ops.zero (rf_points s3))
                    (rf_i s3) (rf_k s3), Ok tt)).
  { unfold rf_set_points, modify. rewrite vresize_Ok by lia. reflexivity. }
  rewrite (rbind_Ok _ _ _ _ _ E4). clear E4.
  match goal with |- context [rbind (for_range 0 (a - degree) ?body) _ ?s] =>
    destruct (InsertFacts.for_range_rule
      (fun _ s' => rf_knots s' = rf_knots s3 /\ size (rf_points s') = n + r + 2)
      0 (a - degree) body s) as (s5 & E5 & HK5 & HP5)
  end.
  { lia. }
  { rf_proj. rewrite size_resize. split; [reflexivity | lia]. }
  { intros j s' Hj (HK' & HP').
    erewrite rbind_Ok by (apply (InsertFacts.get_nth XYZW_ops.zero); lia).
    eexists. split; [apply rf_set_points_put; lia|]. rf_proj. rewrite size_insert. auto. }
  rewrite (rbind_Ok _ _ _ _ _ E5). clear E5.
  match goal with |- context [rbind (for_range (b - 1) n ?body) _ ?s] =>
    destruct (InsertFacts.for_range_rule
      (fun _ s' => rf_knots s' = rf_knots s3 /\ size (rf_points s') = n + r + 2)
      (b - 1) n body s) as (s6 & E6 & HK6 & HP6)
  end.
  { lia. }
  { auto. }
  { intros j s' Hj (HK' & HP').
    erewrite rbind_Ok by (apply (InsertFacts.get_nth XYZW_ops.zero); lia).
    eexists. split; [apply rf_set_points_put; lia|]. rf_proj. rewrite size_insert. auto. }
  rewrite (rbind_Ok _ _ _ _ _ E6). clear E6.
  rewrite (rbind_Ok _ _ s6
             (mkRefineState (rf_knots s6) (rf_points s6) (b + degree - 1) (b + degree + r)) tt)
    by reflexivity.
  (* the insertions *)
  destruct (UnclampFacts.for_down_rule turns_left r 0 refine_turn
              (mkRefineState (rf_knots s6) (rf_points s6) (b + degree - 1) (b + degree + r)))
    as (s7 & E7 & HK7 & HP7 & _ & _ & _ & Hkept7).
  { lia. }
  { unfold turns_left; rf_proj. rewrite HK6.
    split; [assumption|]. split; [assumption|]. split; [lia|]. split; [lia|].
    split; [lia | assumption]. }
  { intros j s' Hj H'. apply refine_turn_spec; [lia | assumption]. }
  exists s7. split; [exact E7|]. split; [lia|]. split; [lia | exact Hkept7].
Qed.
End RefineRun.

(** On a checked curve, for a list of knots to insert that is not empty,
    whose first element is in the domain from [U[degree]] on, whose last
    element is below [U[n+1]] and not below the first one,
    [RefineKnotVector] returns, with one more knot and one more control
    point per element of the list; the knots up to the span [a] of the first
    element are those of the curve, and so are, moved up by the number of
    elements, those from the index [b + degree] on, where [b - 1] is the
    span of the last element. *)
Theorem RefineKnotVector_returns degree U P X out :
  0 < degree -> ValidationUtils.IsValidKnotVector U = true ->
  size U = size P + degree + 1 ->
  0 < size X ->
  (knot U degree <= knot X 0)%R ->
  (knot X 0 <= knot X (size X - 1))%R ->
  (knot X (size X - 1) < knot U (size P))%R ->
  let a := Polynomials.GetKnotSpanIndex degree U (knot X 0) in
  let b := Polynomials.GetKnotSpanIndex degree U (knot X (size X - 1)) + 1 in
  exists U' P',
    RefineKnotVector degree U P X out = ((U', P'), Ok tt) /\
    size U' = size U + size X /\ size P' = size P + size X /\
    size U' = size P' + degree + 1 /\
    (forall j, 0 <= j <= a -> knot U' j = knot U j) /\
    (forall j, b + degree <= j < size U -> knot U' (j + size X) = knot U j).
Proof.
  intros Hd Hv Hsz HX H1 H2 H3 a b.
  pose proof (IsValidKnotVector_mono U Hv) as Hmono.
  assert (HP : 0 < size P).
  { destruct (Z_lt_le_dec 0 (size P)) as [H|H]; [assumption | exfalso].
    assert (size P = 0) by (unfold size in *; lia).
    pose proof (Hmono (size P) degree ltac:(lia) ltac:(lia) ltac:(lia)). lra. }
  destruct (RefineKnotVector_body_run degree U P X Hd Hv Hsz HX H1 H2 H3
              (mkRefineState (fst out) (snd out) 0 0))
    as (s1 & E & HU' & HP' & Hlow & Hhigh).
  exists (rf_knots s1), (rf_points s1).
  split; [|split; [lia|]; split; [lia|]; split; [lia|]; split;
           [exact Hlow | intros j Hj;
            replace (j + size X) with (j + (size X - 1) + 1) by lia; apply Hhigh; lia]].
  unfold RefineKnotVector, RefineKnotVector_validate.
  assert (E1 : (0 <? degree) = true) by (apply Z.ltb_lt; lia).
  assert (E2 : (0 <? size U) = true) by (apply Z.ltb_lt; lia).
  assert (E3 : (0 <? size P) = true) by (apply Z.ltb_lt; lia).
  assert (E4 : ValidationUtils.IsValidNurbs degree (size U) (size P) = true).
  { unfold ValidationUtils.IsValidNurbs. apply Z.eqb_eq. lia. }
  assert (E5 : (0 <? size X) = true) by (apply Z.ltb_lt; lia).
  rewrite E1, E2, E3, E4, E5, Hv. rewrite !rbind_assoc.
  rewrite !ValidationFacts.rbind_validate.
  unfold rbind, VALIDATE_ARGUMENT, with_locals. cbv beta iota. rewrite E. reflexivity.
Qed.

Lemma RefineKnotVector_returns_witness :
  exists U' P',
    RefineKnotVector 2 RemoveFacts.U RemoveFacts.P [1 / 2; 3 / 2]%R ([], [])
    = ((U', P'), Ok tt) /\ size U' = 9 /\ size P' = 6.
Proof.
  destruct (RefineKnotVector_returns 2 RemoveFacts.U RemoveFacts.P [1 / 2; 3 / 2]%R ([], []))
    as (U' & P' & E & HU & HP & _).
  - lia.
  - exact RemoveFacts.U_valid.
  - reflexivity.
  - reflexivity.
  - change (knot RemoveFacts.U 2) with 0%R. change (knot _ 0) with (1 / 2)%R. lra.
  - change (knot [(1 / 2)%R; (3 / 2)%R] 0) with (1 / 2)%R.
    change (knot [(1 / 2)%R; (3 / 2)%R] _) with (3 / 2)%R. lra.
  - change (knot [(1 / 2)%R; (3 / 2)%R] _) with (3 / 2)%R.
    change (knot RemoveFacts.U _) with 2%R. lra.
  - exists U', P'. split; [exact E|]. split; [exact HU | exact HP].
Defined.
End RefineFacts.

(** * What [EquallyTessellate] and [GlobalInterpolation] leave in the output vectors *)

Module OutputFacts.
Import NurbsCurve.

(** On a checked curve whose knots are all equal, [EquallyTessellate] has no
    interval to sample: it returns, and appends the last knot and the last
    control point, projected, to what the two output vectors held. *)
Theorem EquallyTessellate_single_knot :
  forall (degree : Z) (knotVector : list R) (controlPoints : list XYZW)
         (out : list XYZ * list R),
    (0 < degree)%Z ->
    ValidationUtils.IsValidKnotVector knotVector = true ->
    (0 < size controlPoints)%Z ->
    size knotVector = (size controlPoints + degree + 1)%Z ->
    (length (unique knotVector) < 2)%nat ->
    EquallyTessellate degree knotVector controlPoints out
    = ((fst out ++ [XYZW_ops.ToXYZ (pt controlPoints (size controlPoints - 1)) true],
        snd out ++ [knot knotVector (size knotVector - 1)]), Ok tt).
Proof.
  intros degree U P out Hd Hv Hp Hn Hu. unfold EquallyTessellate.
  assert (E1 : (0 <? degree)%Z = true) by (apply Z.ltb_lt; lia).
  assert (E2 : (0 <? size U)%Z = true) by (apply Z.ltb_lt; lia).
  assert (E3 : (0 <? size P)%Z = true) by (apply Z.ltb_lt; lia).
  assert (E4 : ValidationUtils.IsValidNurbs degree (size U) (size P) = true).
  { unfold ValidationUtils.IsValidNurbs. apply Z.eqb_eq. lia. }
  rewrite E1, E2, E3, E4, Hv. rewrite !ValidationFacts.rbind_validate. cbv zeta.
  rewrite (rbind_Ok _ _ out out tt) by (apply for_range_empty; unfold size; lia).
  erewrite rbind_Ok by (apply (InsertFacts.get_nth 0%R); lia).
  rewrite (rbind_Ok _ _ out (fst out, snd out ++ [nth (Z.to_nat (size U - 1)) U 0]) tt)
    by reflexivity.
  erewrite rbind_Ok by (apply (InsertFacts.get_nth XYZW_ops.zero); lia).
  reflexivity.
Qed.

Lemma EquallyTessellate_single_knot_witness :
  EquallyTessellate 1 [0; 0; 0; 0] [mkXYZW 1 2 3 1; mkXYZW 4 5 6 2] ([], [])
  = (([] ++ [XYZW_ops.ToXYZ (pt [mkXYZW 1 2 3 1; mkXYZW 4 5 6 2] (2 - 1)) true],
      [] ++ [knot [0; 0; 0; 0] (4 - 1)]), Ok tt).
Proof.
  apply (EquallyTessellate_single_knot 1 [0; 0; 0; 0] [mkXYZW 1 2 3 1; mkXYZW 4 5 6 2]
           ([], [])).
  - lia.
  - cbn [ValidationUtils.IsValidKnotVector]. decide_R. reflexivity.
  - reflexivity.
  - reflexivity.
  - cbn [unique]. rewrite !Reqb_true by lra. cbn. lia.
Defined.

Section Interpolation.
Variable GetChordParameterization : list XYZ -> list R.
Variable ComputeKnotVector : Z -> Z -> list R -> list R.
Variable MakeInterpolationMatrix : Z -> Z -> list R -> list R -> list (list R).
Variable ComputerControlPointsByLUDecomposition : list (list R) -> list XYZ -> list XYZ.

(** When the vector handed in for the control points has a slot for every
    through-point, and the solver gives a control point for each of them,
    [GlobalInterpolation] returns: the knot vector is the one that
    [ComputeKnotVector] gives, the first [|Q|] slots hold the computed
    points with weight 1, and the slots after them hold what they held: the
    vector is not resized. *)
Theorem GlobalInterpolation_fills_the_buffer (degree : Z) (throughPoints : list XYZ)
    (knotVector : list R) (controlPoints : list XYZW) :
  let uk := GetChordParameterization throughPoints in
  let kv := ComputeKnotVector degree (size throughPoints) uk in
  let temp := ComputerControlPointsByLUDecomposition
                (MakeInterpolationMatrix degree (size throughPoints) uk kv) throughPoints in
  (length throughPoints <= length controlPoints)%nat ->
  (length throughPoints <= length temp)%nat ->
  GlobalInterpolation GetChordParameterization ComputeKnotVector MakeInterpolationMatrix
    ComputerControlPointsByLUDecomposition degree throughPoints (knotVector, controlPoints)
  = ((kv, map (fun x => XYZW_ops.of_XYZ x 1) (take (length throughPoints) temp)
          ++ drop (length throughPoints) controlPoints), Ok tt).
Proof.
  intros uk kv temp HP Htemp. unfold GlobalInterpolation. cbv zeta.
  fold uk. fold kv.
  rewrite (rbind_Ok _ _ (knotVector, controlPoints) (kv, controlPoints) tt) by reflexivity.
  rewrite (rbind_Ok _ _ (kv, controlPoints) (kv, controlPoints) kv) by reflexivity.
  fold temp.
  destruct (InsertFacts.for_range_rule
    (fun i out => fst out = kv /\
       snd out = map (fun x => XYZW_ops.of_XYZ x 1) (take (Z.to_nat i) temp)
                 ++ drop (Z.to_nat i) controlPoints)
    0 (size throughPoints - 1)
    (fun i =>
      do x <- get "tempControlPoints" temp i;
      modify (fun out =>
        let* v := put "controlPoints" (snd out) i (XYZW_ops.of_XYZ x 1) in
        Ok (fst out, v)))
    (kv, controlPoints)) as ([kv' cps'] & E & H1 & H2).
  - unfold size. lia.
  - split; reflexivity.
  - intros i [kv1 cps1] Hi (F1 & F2). cbn [fst snd] in *. unfold size in Hi.
    destruct (lookup_lt_is_Some_2 temp (Z.to_nat i) ltac:(lia)) as [x Hx].
    assert (Hlen : length cps1 = length controlPoints).
    { rewrite F2, length_app, length_map, length_take, length_drop. lia. }
    eexists. split.
    + erewrite rbind_Ok by (unfold get, read; rewrite (at_Ok _ _ _ x) by (lia || exact Hx);
                            reflexivity).
      unfold modify. cbn [fst snd]. rewrite put_Ok by (unfold size; lia). reflexivity.
    + cbn [fst snd]. split; [assumption|].
      replace (Z.to_nat (i + 1)) with (S (Z.to_nat i)) by lia.
      rewrite (take_S_r _ _ _ Hx), map_app, <- app_assoc. cbn [map app].
      rewrite F2.
      rewrite insert_app_r_alt by (rewrite length_map, length_take; lia).
      rewrite length_map, length_take.
      replace (Z.to_nat i - Z.to_nat i `min` length temp)%nat with O by lia.
      f_equal.
      destruct (lookup_lt_is_Some_2 controlPoints (Z.to_nat i) ltac:(lia)) as [y Hy].
      rewrite (drop_S _ _ _ Hy). reflexivity.
  - rewrite E. cbn [fst snd] in *. subst kv'. rewrite H2. unfold size.
    replace (Z.to_nat (Z.of_nat (length throughPoints) - 1 + 1))
      with (length throughPoints) by lia.
    reflexivity.
Qed.

End Interpolation.

Lemma GlobalInterpolation_fills_the_buffer_witness :
  GlobalInterpolation (fun _ => []) (fun _ _ _ => [0; 0; 1; 1]) (fun _ _ _ _ => [])
    (fun _ Q => Q) 1 [mkXYZ 0 0 0; mkXYZ 1 1 0] ([], [mkXYZW 9 9 9 9; mkXYZW 9 9 9 9; mkXYZW 7 7 7 7])
  = (([0; 0; 1; 1],
      map (fun x => XYZW_ops.of_XYZ x 1) (take 2 [mkXYZ 0 0 0; mkXYZ 1 1 0])
      ++ drop 2 [mkXYZW 9 9 9 9; mkXYZW 9 9 9 9; mkXYZW 7 7 7 7]), Ok tt).
Proof.
  apply (GlobalInterpolation_fills_the_buffer (fun _ => []) (fun _ _ _ => [0; 0; 1; 1])
           (fun _ _ _ _ => []) (fun _ Q => Q) 1 [mkXYZ 0 0 0; mkXYZ 1 1 0] []
           [mkXYZW 9 9 9 9; mkXYZW 9 9 9 9; mkXYZW 7 7 7 7]).
  - cbn. lia.
  - cbn. lia.
Defined.
End OutputFacts.

(** * [RemoveKnot] in the first span *)

Module RemoveEdgeFacts.
Import NurbsCurve.
Local Open Scope Z_scope.



End RemoveEdgeFacts.
